(** * Client-side WebSocket handshake of libwebsockets (lib/client.c)

    A shallow embedding of the three functions of [lib/client.c]:

    - [lws_client_socket_service], the readiness-driven state machine;
    - [lws_client_interpret_server_handshake], the validation of the
      server's reply;
    - [libwebsockets_generate_client_handshake], the builder of the
      client's Upgrade request;

    followed by the properties of the handshake that the specification
    states about them. *)

From Stdlib Require Import ZArith List String Ascii Bool Lia DecimalString.
Import ListNotations.

Local Open Scope Z_scope.

(** ** C strings and raw bytes *)

(** A C string is modelled by a [string]: the characters before the
    terminating NUL.  A raw byte buffer (which may hold zero bytes) is a
    [list ascii]. *)
Definition bytes := list ascii.

Definition Z_of_byte (c : ascii) : Z := Z.of_N (N_of_ascii c).
Definition byte_of_Z (z : Z) : ascii := ascii_of_N (Z.to_N (z mod 256)).

Definition CR : ascii := ascii_of_nat 13.
Definition LF : ascii := ascii_of_nat 10.
Definition TAB : ascii := ascii_of_nat 9.
Definition NUL : ascii := ascii_of_nat 0.
Definition CRLF : string := String CR (String LF EmptyString).

Module CStr.

(** [tolower] of the C locale. *)
Definition tolower (c : ascii) : ascii :=
  let n := Z_of_byte c in
  if (65 <=? n) && (n <=? 90) then byte_of_Z (n + 32) else c.

(** [strtolower]: in-place lower-casing, up to the terminating NUL. *)
Fixpoint strtolower (s : string) : string :=
  match s with
  | EmptyString => EmptyString
  | String c s' => String (tolower c) (strtolower s')
  end.

(** [strcmp_eq a b] is [strcmp(a, b) == 0]. *)
Definition strcmp_eq (a b : string) : bool := String.eqb a b.

(** [strncmp_eq a b n] is [strncmp(a, b, n) == 0]: at most [n]
    characters are compared, and the comparison stops at a NUL. *)
Fixpoint strncmp_eq (a b : string) (n : nat) : bool :=
  match n with
  | O => true
  | S n' =>
      match a, b with
      | EmptyString, EmptyString => true
      | String x a', String y b' =>
          if Ascii.eqb x y then strncmp_eq a' b' n' else false
      | _, _ => false
      end
  end.

(** [char_at s n] is [s[n]] for [n <= strlen(s)]; the character at
    index [strlen(s)] is the terminating NUL. *)
Definition char_at (s : string) (n : nat) : ascii :=
  match String.get n s with
  | Some c => c
  | None => NUL
  end.

(** [skip_until c s] is the loop [while ( *s && *s != c) s++]. *)
Fixpoint skip_until (c : ascii) (s : string) : string :=
  match s with
  | EmptyString => EmptyString
  | String x s' => if Ascii.eqb x c then s else skip_until c s'
  end.

(** The [%d] conversion of [sprintf]. *)
Definition decimal (z : Z) : string := NilZero.string_of_int (Z.to_int z).

(** [firstn] on strings: what [snprintf] keeps of an over-long
    output. *)
Fixpoint truncate (n : nat) (s : string) : string :=
  match n, s with
  | S n', String c s' => String c (truncate n' s')
  | _, _ => EmptyString
  end.

End CStr.

(** ** Base64 *)

Module Base64.

Definition encode : string :=
  "ABCDEFGHIJKLMNOPQRSTUVWXYZabcdefghijklmnopqrstuvwxyz0123456789+/".

Definition sextet (n : Z) : ascii := CStr.char_at encode (Z.to_nat n).

Definition pad : ascii := "="%char.

(** Modelled from the spec: [lws_b64_encode_string] (its source file is
    not part of [lib/client.c]) "encodes the 16-byte key and 20-byte
    SHA-1 digest to their canonical forms", that is RFC 4648 base64 with
    padding.  Both destination buffers of the callers are large enough
    for these two inputs. *)
Fixpoint lws_b64_encode_string (input : bytes) : string :=
  match input with
  | [] => EmptyString
  | [a] =>
      let a := Z_of_byte a in
      String (sextet (Z.shiftr a 2))
        (String (sextet (Z.shiftl (Z.land a 3) 4))
           (String pad (String pad EmptyString)))
  | [a; b] =>
      let a := Z_of_byte a in
      let b := Z_of_byte b in
      String (sextet (Z.shiftr a 2))
        (String (sextet (Z.lor (Z.shiftl (Z.land a 3) 4) (Z.shiftr b 4)))
           (String (sextet (Z.shiftl (Z.land b 15) 2))
              (String pad EmptyString)))
  | a :: b :: c :: rest =>
      let a := Z_of_byte a in
      let b := Z_of_byte b in
      let c := Z_of_byte c in
      String (sextet (Z.shiftr a 2))
        (String (sextet (Z.lor (Z.shiftl (Z.land a 3) 4) (Z.shiftr b 4)))
           (String (sextet (Z.lor (Z.shiftl (Z.land b 15) 2) (Z.shiftr c 6)))
              (String (sextet (Z.land c 63))
                 (lws_b64_encode_string rest))))
  end.

End Base64.

(** ** SHA-1 *)

Module Sha1.

Definition mask32 : Z := 4294967295.
Definition w32 (x : Z) : Z := Z.land x mask32.
Definition add32 (x y : Z) : Z := w32 (x + y).
Definition rotl (n x : Z) : Z :=
  w32 (Z.lor (Z.shiftl x n) (Z.shiftr x (32 - n))).
Definition not32 (x : Z) : Z := Z.lxor x mask32.

(** The round function and constant of round [t]. *)
Definition f (t b c d : Z) : Z :=
  if t <? 20 then Z.lor (Z.land b c) (Z.land (not32 b) d)
  else if t <? 40 then Z.lxor (Z.lxor b c) d
  else if t <? 60 then
    Z.lor (Z.lor (Z.land b c) (Z.land b d)) (Z.land c d)
  else Z.lxor (Z.lxor b c) d.

Definition K (t : Z) : Z :=
  if t <? 20 then 1518500249      (* 5A827999 *)
  else if t <? 40 then 1859775393 (* 6ED9EBA1 *)
  else if t <? 60 then 2400959708 (* 8F1BBCDC *)
  else 3395469782.                (* CA62C1D6 *)

(** Message padding: a one bit, zeros up to 56 modulo 64, and the bit
    length as a 64-bit big-endian number. *)
Definition be_bytes (count : nat) (x : Z) : list Z :=
  map (fun i => Z.land (Z.shiftr x (8 * Z.of_nat i)) 255)
      (rev (seq 0 count)).

Definition padding (len : Z) : list Z :=
  128 :: repeat 0 (Z.to_nat ((55 - len) mod 64)) ++ be_bytes 8 (8 * len).

Fixpoint be_words (l : list Z) : list Z :=
  match l with
  | a :: b :: c :: d :: rest =>
      Z.lor (Z.shiftl a 24) (Z.lor (Z.shiftl b 16) (Z.lor (Z.shiftl c 8) d))
      :: be_words rest
  | _ => []
  end.

(** The message schedule, most recent word first while it is built. *)
Fixpoint extend (count : nat) (rw : list Z) : list Z :=
  match count with
  | O => rw
  | S count' =>
      let x := Z.lxor (Z.lxor (nth 2 rw 0) (nth 7 rw 0))
                      (Z.lxor (nth 13 rw 0) (nth 15 rw 0)) in
      extend count' (rotl 1 x :: rw)
  end.

Definition schedule (block : list Z) : list Z :=
  rev (extend 64 (rev (be_words block))).

Definition state : Type := Z * Z * Z * Z * Z.

Definition round (st : state) (tw : Z * Z) : state :=
  let '(a, b, c, d, e) := st in
  let '(t, w) := tw in
  let temp := add32 (add32 (add32 (add32 (rotl 5 a) (f t b c d)) e) w) (K t) in
  (temp, a, rotl 30 b, c, d).

Definition compress (h : state) (block : list Z) : state :=
  let ws := schedule block in
  let ts := map Z.of_nat (seq 0 80) in
  let '(a, b, c, d, e) := fold_left round (combine ts ws) h in
  let '(h0, h1, h2, h3, h4) := h in
  (add32 h0 a, add32 h1 b, add32 h2 c, add32 h3 d, add32 h4 e).

Fixpoint blocks (count : nat) (msg : list Z) (h : state) : state :=
  match count with
  | O => h
  | S count' => blocks count' (skipn 64 msg) (compress h (firstn 64 msg))
  end.

Definition initial : state :=
  (1732584193, 4023233417, 2562383102, 271733878, 3285377520).

(** Modelled from the spec: [SHA1] (the library's own sha-1 source is
    not part of [lib/client.c]) is the "one-shot hash over
    key_b64 || GUID", the SHA-1 of FIPS 180. *)
Definition SHA1 (d : bytes) : bytes :=
  let msg := map Z_of_byte d in
  let padded := msg ++ padding (Z.of_nat (List.length msg)) in
  let '(h0, h1, h2, h3, h4) :=
    blocks (List.length padded / 64) padded initial in
  map byte_of_Z
    (be_bytes 4 h0 ++ be_bytes 4 h1 ++ be_bytes 4 h2 ++ be_bytes 4 h3
       ++ be_bytes 4 h4).

End Sha1.

Definition bytes_of_string (s : string) : bytes := list_ascii_of_string s.

Definition hex_of_bytes (b : bytes) : list Z := map Z_of_byte b.

(** ** Constants and enumerations of the headers

    [lib/client.c] includes [private-libwebsockets.h]; the macros, the
    enumerations and the structures it takes from there are declared
    here with the names the source uses. *)

(** The macros whose values [client.c] never sees. *)
Record lws_constants := {
  LWS_MAX_SOCKET_IO_BUF : Z;
  LWS_SEND_BUFFER_PRE_PADDING : Z;
  LWS_SEND_BUFFER_POST_PADDING : Z;
  AWAITING_TIMEOUT : Z;
  sizeof_service_buffer : Z
}.

(** The event bits of [<poll.h>] (Linux values). *)
Definition POLLIN : Z := 1.
Definition POLLOUT : Z := 4.
Definition POLLERR : Z := 8.
Definition POLLHUP : Z := 16.

(** OpenSSL's codes. *)
Definition SSL_ERROR_WANT_READ : Z := 2.
Definition SSL_ERROR_WANT_WRITE : Z := 3.
Definition X509_V_OK : Z := 0.
Definition X509_V_ERR_DEPTH_ZERO_SELF_SIGNED_CERT : Z := 18.

Inductive connection_mode :=
| LWS_CONNMODE_WS_CLIENT_WAITING_PROXY_REPLY
| LWS_CONNMODE_WS_CLIENT_ISSUE_HANDSHAKE
| LWS_CONNMODE_WS_CLIENT_WAITING_SERVER_REPLY
| LWS_CONNMODE_WS_CLIENT_WAITING_EXTENSION_CONNECT
| LWS_CONNMODE_WS_CLIENT_PENDING_CANDIDATE_CHILD
| LWS_CONNMODE_WS_CLIENT
| LWS_CONNMODE_OTHER.

Inductive wsi_state :=
| WSI_STATE_CLIENT_UNCONNECTED
| WSI_STATE_ESTABLISHED.

Inductive lws_close_status :=
| LWS_CLOSE_STATUS_NOSTATUS
| LWS_CLOSE_STATUS_PROTOCOL_ERR.

Inductive pending_timeout :=
| NO_PENDING_TIMEOUT
| PENDING_TIMEOUT_AWAITING_SERVER_RESPONSE.

(** The header tokens the handshake reads; [WSI_TOKEN_COUNT] is the
    length of [all_tokens]. *)
Inductive token_index :=
| WSI_TOKEN_HTTP
| WSI_TOKEN_UPGRADE
| WSI_TOKEN_CONNECTION
| WSI_TOKEN_ACCEPT
| WSI_TOKEN_NONCE
| WSI_TOKEN_PROTOCOL
| WSI_TOKEN_EXTENSIONS.

Definition all_tokens : list token_index :=
  [WSI_TOKEN_HTTP; WSI_TOKEN_UPGRADE; WSI_TOKEN_CONNECTION; WSI_TOKEN_ACCEPT;
   WSI_TOKEN_NONCE; WSI_TOKEN_PROTOCOL; WSI_TOKEN_EXTENSIONS].

Definition token_index_eqb (a b : token_index) : bool :=
  match a, b with
  | WSI_TOKEN_HTTP, WSI_TOKEN_HTTP
  | WSI_TOKEN_UPGRADE, WSI_TOKEN_UPGRADE
  | WSI_TOKEN_CONNECTION, WSI_TOKEN_CONNECTION
  | WSI_TOKEN_ACCEPT, WSI_TOKEN_ACCEPT
  | WSI_TOKEN_NONCE, WSI_TOKEN_NONCE
  | WSI_TOKEN_PROTOCOL, WSI_TOKEN_PROTOCOL
  | WSI_TOKEN_EXTENSIONS, WSI_TOKEN_EXTENSIONS => true
  | _, _ => false
  end.

(** The parser states [client.c] names; the others stay with the
    parser. *)
Inductive parser_state_t :=
| WSI_TOKEN_NAME_PART
| WSI_PARSING_COMPLETE
| WSI_PARSER_STATE (n : Z).

Definition parsing_complete (p : parser_state_t) : bool :=
  match p with
  | WSI_PARSING_COMPLETE => true
  | _ => false
  end.

Inductive callback_reason :=
| LWS_CALLBACK_CLEAR_MODE_POLL_FD
| LWS_CALLBACK_CLIENT_CONFIRM_EXTENSION_SUPPORTED
| LWS_CALLBACK_CLIENT_APPEND_HANDSHAKE_HEADER
| LWS_CALLBACK_CLIENT_FILTER_PRE_ESTABLISH
| LWS_CALLBACK_CLIENT_ESTABLISHED
| LWS_CALLBACK_CLIENT_CONNECTION_ERROR.

Inductive extension_callback_reason :=
| LWS_EXT_CALLBACK_CHECK_OK_TO_PROPOSE_EXTENSION
| LWS_EXT_CALLBACK_CLIENT_CONSTRUCT
| LWS_EXT_CALLBACK_ANY_WSI_ESTABLISHED.

(** ** Registries

    A user callback is one C function taking the reason, the [in]
    argument and [len].  Its return value is [cb_return]; what it writes
    through the cursor it receives for
    [LWS_CALLBACK_CLIENT_APPEND_HANDSHAKE_HEADER] is [cb_append], given
    the packet so far and the room left. *)
Record user_callback := {
  cb_return : callback_reason -> option string -> Z -> Z;
  cb_append : string -> Z -> string
}.

Record libwebsocket_protocols := {
  name : string;
  callback : option user_callback;
  per_session_data_size : Z;
  rx_buffer_size : Z
}.

Record libwebsocket_extension := {
  extension_name : string;
  extension_callback : option (extension_callback_reason -> option string -> Z);
  extension_per_session_data_size : Z
}.

(** Both registries are arrays that end at the first entry without a
    callback. *)
Record libwebsocket_context := {
  protocols : list libwebsocket_protocols;
  extensions : list libwebsocket_extension;
  constants : lws_constants
}.

(** ** Heap objects, observable events and the connection *)

(** A block returned by [malloc]: its sequence number and its size. *)
Record block := { blk_id : nat; blk_size : Z }.

(** What the connection can pass to [free]. *)
Inductive pointer :=
| P_c_path
| P_c_host
| P_c_origin
| P_c_protocol
| P_token (t : token_index)
| P_block (b : block).

(** The [lwsl_warn] and [lwsl_err] messages of the file. *)
Inductive log_message :=
| LOG_PROXY_DEAD
| LOG_PROXY_READ_ERROR
| LOG_PROXY_ERROR
| LOG_SSL_CONNECT_ERROR
| LOG_BAD_CERTIFICATE
| LOG_GENERATE_FAILED
| LOG_RANDOM_UNAVAILABLE
| LOG_BAD_HTTP_RESPONSE
| LOG_BAD_UPGRADE
| LOG_BAD_CONNECTION
| LOG_BAD_PROTOCOL
| LOG_PROTOCOL_NOT_SUPPORTED
| LOG_EXT_OUT_OF_MEM
| LOG_UNKNOWN_EXTENSION
| LOG_BAD_ACCEPT
| LOG_RX_OUT_OF_MEM.

(** Everything the three functions do to the world outside the
    connection structure, in the order they do it. *)
Inductive event :=
| EvCallback (reason : callback_reason) (arg : option string) (len : Z)
| EvExtCallback (ext : nat) (reason : extension_callback_reason)
    (user : option block) (arg : option string)
| EvMalloc (size : Z) (res : option block)
| EvFree (p : pointer)
| EvClose (status : lws_close_status)
| EvTimeout (reason : pending_timeout) (secs : Z)
| EvOnWritable
| EvSend (data : string) (res : Z)
| EvLog (m : log_message).

(** [struct libwebsocket].  The union [u] overlays the header scratch
    ([u.hdr]: [parser_state], [lextable_pos], [hdrs],
    [initial_handshake_hash_base64]) and the frame state ([u.ws]:
    [rx_user_buffer]); the fields are kept side by side and the union
    transition [memset(&wsi->u, 0, sizeof wsi->u)] zeroes them all.  A
    header slot is its [token] pointer, [None] for NULL, and [token_len]
    is the length of the stored string.  [active_extensions] pairs
    [active_extensions[n]] (an index into the extension registry) with
    [active_extensions_user[n]]; its length is
    [count_active_extensions] (the capacity of the two arrays is declared
    outside [client.c], and the source does not test it).  [parser_input] is the part of the
    parser's private state this model needs: the bytes fed so far. *)
Record libwebsocket := {
  mode : connection_mode;
  state : wsi_state;
  use_ssl : Z;
  ssl : bool;
  c_path : string;
  c_host : string;
  c_origin : option string;
  c_protocol : option string;
  c_callback : option user_callback;
  ietf_spec_revision : Z;
  protocol : option nat;
  user_space : option block;
  parser_state : parser_state_t;
  lextable_pos : Z;
  hdrs : token_index -> option string;
  initial_handshake_hash_base64 : string;
  parser_input : bytes;
  rx_user_buffer : option block;
  active_extensions : list (nat * block)
}.

Definition token_len (wsi : libwebsocket) (t : token_index) : nat :=
  match hdrs wsi t with
  | Some s => String.length s
  | None => O
  end.

(** The part of the world the functions change: the connection, the
    events so far, the number of [malloc] calls so far, the context's
    [service_buffer] and the [events] of the [pollfd]. *)
Record world := {
  wsi : libwebsocket;
  trace : list event;
  mallocs : nat;
  service_buffer : bytes;
  pollfd_events : Z
}.

(** What the surroundings answer: whether the k-th [malloc] succeeds,
    the bytes [libwebsockets_get_random] delivers, the build option
    [LWS_OPENSSL_SUPPORT], the results of [SSL_connect],
    [SSL_get_error] and [SSL_get_verify_result], and what [send] or
    [SSL_write] returns. *)
Record environment := {
  malloc_ok : nat -> bool;
  random : bytes;
  openssl_support : bool;
  ssl_connect_result : Z;
  ssl_connect_error : Z;
  ssl_verify_result : Z;
  send_result : string -> Z
}.

(** *** Field updates *)

Definition with_wsi (f : libwebsocket -> libwebsocket) (w : world) : world :=
  {| wsi := f (wsi w); trace := trace w; mallocs := mallocs w;
     service_buffer := service_buffer w; pollfd_events := pollfd_events w |}.

Definition with_event (e : event) (w : world) : world :=
  {| wsi := wsi w; trace := trace w ++ [e]; mallocs := mallocs w;
     service_buffer := service_buffer w; pollfd_events := pollfd_events w |}.

Definition with_malloc (w : world) : world :=
  {| wsi := wsi w; trace := trace w; mallocs := S (mallocs w);
     service_buffer := service_buffer w; pollfd_events := pollfd_events w |}.

Definition with_service_buffer (b : bytes) (w : world) : world :=
  {| wsi := wsi w; trace := trace w; mallocs := mallocs w;
     service_buffer := b; pollfd_events := pollfd_events w |}.

Definition with_pollfd_events (e : Z) (w : world) : world :=
  {| wsi := wsi w; trace := trace w; mallocs := mallocs w;
     service_buffer := service_buffer w; pollfd_events := e |}.

Definition set_mode (m : connection_mode) (s : libwebsocket) : libwebsocket :=
  {| mode := m; state := state s; use_ssl := use_ssl s; ssl := ssl s;
     c_path := c_path s; c_host := c_host s; c_origin := c_origin s;
     c_protocol := c_protocol s; c_callback := c_callback s;
     ietf_spec_revision := ietf_spec_revision s; protocol := protocol s;
     user_space := user_space s; parser_state := parser_state s;
     lextable_pos := lextable_pos s; hdrs := hdrs s;
     initial_handshake_hash_base64 := initial_handshake_hash_base64 s;
     parser_input := parser_input s; rx_user_buffer := rx_user_buffer s;
     active_extensions := active_extensions s |}.

Definition set_state (x : wsi_state) (s : libwebsocket) : libwebsocket :=
  {| mode := mode s; state := x; use_ssl := use_ssl s; ssl := ssl s;
     c_path := c_path s; c_host := c_host s; c_origin := c_origin s;
     c_protocol := c_protocol s; c_callback := c_callback s;
     ietf_spec_revision := ietf_spec_revision s; protocol := protocol s;
     user_space := user_space s; parser_state := parser_state s;
     lextable_pos := lextable_pos s; hdrs := hdrs s;
     initial_handshake_hash_base64 := initial_handshake_hash_base64 s;
     parser_input := parser_input s; rx_user_buffer := rx_user_buffer s;
     active_extensions := active_extensions s |}.

Definition set_ssl (x : bool) (s : libwebsocket) : libwebsocket :=
  {| mode := mode s; state := state s; use_ssl := use_ssl s; ssl := x;
     c_path := c_path s; c_host := c_host s; c_origin := c_origin s;
     c_protocol := c_protocol s; c_callback := c_callback s;
     ietf_spec_revision := ietf_spec_revision s; protocol := protocol s;
     user_space := user_space s; parser_state := parser_state s;
     lextable_pos := lextable_pos s; hdrs := hdrs s;
     initial_handshake_hash_base64 := initial_handshake_hash_base64 s;
     parser_input := parser_input s; rx_user_buffer := rx_user_buffer s;
     active_extensions := active_extensions s |}.

(** [wsi->protocol = p; wsi->c_callback = cb]. *)
Definition set_protocol (p : option nat) (s : libwebsocket) : libwebsocket :=
  {| mode := mode s; state := state s; use_ssl := use_ssl s; ssl := ssl s;
     c_path := c_path s; c_host := c_host s; c_origin := c_origin s;
     c_protocol := c_protocol s; c_callback := c_callback s;
     ietf_spec_revision := ietf_spec_revision s; protocol := p;
     user_space := user_space s; parser_state := parser_state s;
     lextable_pos := lextable_pos s; hdrs := hdrs s;
     initial_handshake_hash_base64 := initial_handshake_hash_base64 s;
     parser_input := parser_input s; rx_user_buffer := rx_user_buffer s;
     active_extensions := active_extensions s |}.

Definition set_c_callback (cb : option user_callback) (s : libwebsocket)
  : libwebsocket :=
  {| mode := mode s; state := state s; use_ssl := use_ssl s; ssl := ssl s;
     c_path := c_path s; c_host := c_host s; c_origin := c_origin s;
     c_protocol := c_protocol s; c_callback := cb;
     ietf_spec_revision := ietf_spec_revision s; protocol := protocol s;
     user_space := user_space s; parser_state := parser_state s;
     lextable_pos := lextable_pos s; hdrs := hdrs s;
     initial_handshake_hash_base64 := initial_handshake_hash_base64 s;
     parser_input := parser_input s; rx_user_buffer := rx_user_buffer s;
     active_extensions := active_extensions s |}.

Definition set_user_space (b : option block) (s : libwebsocket) : libwebsocket :=
  {| mode := mode s; state := state s; use_ssl := use_ssl s; ssl := ssl s;
     c_path := c_path s; c_host := c_host s; c_origin := c_origin s;
     c_protocol := c_protocol s; c_callback := c_callback s;
     ietf_spec_revision := ietf_spec_revision s; protocol := protocol s;
     user_space := b; parser_state := parser_state s;
     lextable_pos := lextable_pos s; hdrs := hdrs s;
     initial_handshake_hash_base64 := initial_handshake_hash_base64 s;
     parser_input := parser_input s; rx_user_buffer := rx_user_buffer s;
     active_extensions := active_extensions s |}.

(** The header scratch [u.hdr] as a whole. *)
Definition set_hdr (ps : parser_state_t) (lp : Z)
  (h : token_index -> option string) (hash : string) (input : bytes)
  (s : libwebsocket) : libwebsocket :=
  {| mode := mode s; state := state s; use_ssl := use_ssl s; ssl := ssl s;
     c_path := c_path s; c_host := c_host s; c_origin := c_origin s;
     c_protocol := c_protocol s; c_callback := c_callback s;
     ietf_spec_revision := ietf_spec_revision s; protocol := protocol s;
     user_space := user_space s; parser_state := ps;
     lextable_pos := lp; hdrs := h;
     initial_handshake_hash_base64 := hash;
     parser_input := input; rx_user_buffer := rx_user_buffer s;
     active_extensions := active_extensions s |}.

Definition set_rx_user_buffer (b : option block) (s : libwebsocket)
  : libwebsocket :=
  {| mode := mode s; state := state s; use_ssl := use_ssl s; ssl := ssl s;
     c_path := c_path s; c_host := c_host s; c_origin := c_origin s;
     c_protocol := c_protocol s; c_callback := c_callback s;
     ietf_spec_revision := ietf_spec_revision s; protocol := protocol s;
     user_space := user_space s; parser_state := parser_state s;
     lextable_pos := lextable_pos s; hdrs := hdrs s;
     initial_handshake_hash_base64 := initial_handshake_hash_base64 s;
     parser_input := parser_input s; rx_user_buffer := b;
     active_extensions := active_extensions s |}.

Definition set_active_extensions (l : list (nat * block)) (s : libwebsocket)
  : libwebsocket :=
  {| mode := mode s; state := state s; use_ssl := use_ssl s; ssl := ssl s;
     c_path := c_path s; c_host := c_host s; c_origin := c_origin s;
     c_protocol := c_protocol s; c_callback := c_callback s;
     ietf_spec_revision := ietf_spec_revision s; protocol := protocol s;
     user_space := user_space s; parser_state := parser_state s;
     lextable_pos := lextable_pos s; hdrs := hdrs s;
     initial_handshake_hash_base64 := initial_handshake_hash_base64 s;
     parser_input := parser_input s; rx_user_buffer := rx_user_buffer s;
     active_extensions := l |}.

Definition set_token (t : token_index) (v : option string)
  (s : libwebsocket) : libwebsocket :=
  set_hdr (parser_state s) (lextable_pos s)
    (fun t' => if token_index_eqb t' t then v else hdrs s t')
    (initial_handshake_hash_base64 s) (parser_input s) s.

(** ** The monad of the handshake code

    A computation runs on a [world] and either returns, or jumps to one
    of the function's cleanup labels, or dereferences a NULL pointer
    (after which C promises nothing). *)

Inductive label := bail2 | bail3.

Inductive result (A : Type) : Type :=
| Ok (a : A) (w : world)
| Goto (l : label) (w : world)
| Fault (w : world).

Arguments Ok {A} a w.
Arguments Goto {A} l w.
Arguments Fault {A} w.

Definition M (A : Type) : Type := world -> result A.

Definition ret {A} (a : A) : M A := fun w => Ok a w.

Definition bind {A B} (m : M A) (k : A -> M B) : M B :=
  fun w =>
    match m w with
    | Ok a w' => k a w'
    | Goto l w' => Goto l w'
    | Fault w' => Fault w'
    end.

Declare Scope lws_scope.
Delimit Scope lws_scope with lws.
Notation "x <- m ;; k" := (bind m (fun x => k))
  (at level 61, m at next level, right associativity) : lws_scope.
Notation "m ;; k" := (bind m (fun _ => k))
  (at level 61, right associativity) : lws_scope.
Local Open Scope lws_scope.

Definition goto {A} (l : label) : M A := fun w => Goto l w.
Definition null_dereference {A} : M A := fun w => Fault w.
Definition get_wsi : M libwebsocket := fun w => Ok (wsi w) w.
Definition update (f : libwebsocket -> libwebsocket) : M unit :=
  fun w => Ok tt (with_wsi f w).
Definition emit (e : event) : M unit := fun w => Ok tt (with_event e w).

(** The body of a function with its cleanup labels. *)
Definition with_labels {A} (body : M A) (handler : label -> M A) : M A :=
  fun w =>
    match body w with
    | Goto l w' => handler l w'
    | r => r
    end.

Definition when (b : bool) (m : M unit) : M unit := if b then m else ret tt.

Section Primitives.

Variable env : environment.

Definition lwsl (m : log_message) : M unit := emit (EvLog m).

(** [malloc(size)]: the surroundings decide whether it succeeds. *)
Definition malloc (size : Z) : M (option block) :=
  fun w =>
    let res :=
      if malloc_ok env (mallocs w)
      then Some {| blk_id := mallocs w; blk_size := size |}
      else None in
    Ok res (with_event (EvMalloc size res) (with_malloc w)).

(** [free(p)] of a pointer that is not NULL. *)
Definition free (p : pointer) : M unit := emit (EvFree p).

(** [if (wsi->c_protocol) free(wsi->c_protocol)], which is also what
    the bare [free(wsi->c_protocol)] does.  The field keeps its value:
    the source does not reset it. *)
Definition free_c_protocol : M unit :=
  s <- get_wsi ;;
  match c_protocol s with
  | Some _ => free P_c_protocol
  | None => ret tt
  end.

Definition free_c_origin : M unit :=
  s <- get_wsi ;;
  match c_origin s with
  | Some _ => free P_c_origin
  | None => ret tt
  end.

(** [for (n = 0; n < WSI_TOKEN_COUNT; n++) if (hdrs[n].token)
    free(hdrs[n].token)]. *)
Fixpoint free_tokens (ts : list token_index) : M unit :=
  match ts with
  | [] => ret tt
  | t :: ts' =>
      s <- get_wsi ;;
      match hdrs s t with
      | Some _ => free (P_token t)
      | None => ret tt
      end ;;
      free_tokens ts'
  end.

(** A call through a user callback pointer; calling NULL is a
    fault. *)
Definition call (cb : option user_callback) (reason : callback_reason)
  (arg : option string) (len : Z) : M Z :=
  match cb with
  | None => null_dereference
  | Some f =>
      emit (EvCallback reason arg len) ;;
      ret (cb_return f reason arg len)
  end.

(** A call of extension number [i]'s callback. *)
Definition call_ext (i : nat) (ext : libwebsocket_extension)
  (reason : extension_callback_reason) (user : option block)
  (arg : option string) : M Z :=
  match extension_callback ext with
  | None => null_dereference
  | Some f =>
      emit (EvExtCallback i reason user arg) ;;
      ret (f reason arg)
  end.

(** Modelled from the spec: [libwebsocket_close_and_free_session] is
    defined outside [lib/client.c]; the spec says of it only that "the
    session is closed with status" NOSTATUS or PROTOCOL_ERR.  The call
    is recorded with its status. *)
Definition libwebsocket_close_and_free_session
  (status : lws_close_status) : M unit :=
  emit (EvClose status).

(** Modelled from the spec: [libwebsocket_set_timeout] is defined
    outside [lib/client.c]; "each mode has its own deadline" and
    "deadlines are cleared on every forward transition".  The call is
    recorded with its arguments. *)
Definition libwebsocket_set_timeout (reason : pending_timeout) (secs : Z)
  : M unit :=
  emit (EvTimeout reason secs).

(** Modelled from the spec: [libwebsocket_callback_on_writable] is
    defined outside [lib/client.c]; it "re-requests" POLLOUT "via the
    event-loop adapter". *)
Definition libwebsocket_callback_on_writable : M unit := emit EvOnWritable.

End Primitives.

(** ** [lws_client_interpret_server_handshake] *)

Section Interpreter.

Variable context : libwebsocket_context.
Variable env : environment.

(** The entry that ends the protocol array. *)
Definition terminator : libwebsocket_protocols :=
  {| name := EmptyString; callback := None;
     per_session_data_size := 0; rx_buffer_size := 0 |}.

(** [context->protocols[n]]. *)
Definition protocol_at (n : nat) : libwebsocket_protocols :=
  nth n (protocols context) terminator.

(** [wsi->protocol->...]. *)
Definition the_protocol : M libwebsocket_protocols :=
  s <- get_wsi ;;
  match protocol s with
  | None => null_dereference
  | Some n => ret (protocol_at n)
  end.

(** [strtolower(wsi->u.hdr.hdrs[t].token)]; the lowered string is the
    result. *)
Definition strtolower_token (t : token_index) : M string :=
  s <- get_wsi ;;
  match hdrs s t with
  | None => null_dereference
  | Some v =>
      update (set_token t (Some (CStr.strtolower v))) ;;
      ret (CStr.strtolower v)
  end.

Definition check_status : M unit :=
  v <- strtolower_token WSI_TOKEN_HTTP ;;
  if CStr.strncmp_eq v "101" 3 then ret tt
  else lwsl LOG_BAD_HTTP_RESPONSE ;; goto bail3.

Definition check_upgrade : M unit :=
  v <- strtolower_token WSI_TOKEN_UPGRADE ;;
  if CStr.strcmp_eq v "websocket" then ret tt
  else lwsl LOG_BAD_UPGRADE ;; goto bail3.

Definition check_connection : M unit :=
  v <- strtolower_token WSI_TOKEN_CONNECTION ;;
  if CStr.strcmp_eq v "upgrade" then ret tt
  else lwsl LOG_BAD_CONNECTION ;; goto bail3.

(** One test of the loop [while ( *pc && !okay)]: the token is a prefix
    of [pc], and [pc[token_len]] is a comma or the terminating NUL,
    which is where the string ends. *)
Definition protocol_here (pc token : string) : bool :=
  CStr.strncmp_eq pc token (String.length token)
  && match String.get (String.length token) pc with
     | Some c => Ascii.eqb c ","
     | None => true
     end.

(** The loop itself; its result is [okay].  Every round that does not
    match moves [pc] forward, so [String.length pc] rounds are
    enough. *)
Fixpoint protocol_offered (rounds : nat) (pc token : string) : bool :=
  match rounds with
  | O => false
  | S rounds' =>
      match pc with
      | EmptyString => false
      | _ =>
          if protocol_here pc token then true
          else protocol_offered rounds'
                 (CStr.skip_until " " (CStr.skip_until "," pc)) token
      end
  end.

(** [while (context->protocols[n].callback && !wsi->protocol)]: the
    index of the first entry with that name. *)
Fixpoint find_protocol (ps : list libwebsocket_protocols) (token : string)
  (n : nat) : option nat :=
  match ps with
  | [] => None
  | p :: ps' =>
      match callback p with
      | None => None
      | Some _ =>
          if CStr.strcmp_eq token (name p) then Some n
          else find_protocol ps' token (S n)
      end
  end.

(** Lines 410-484: the sub-protocol. *)
Definition select_protocol : M unit :=
  s <- get_wsi ;;
  if Nat.eqb (token_len s WSI_TOKEN_PROTOCOL) 0 then
    update (set_protocol (Some O)) ;;
    update (set_c_callback (callback (protocol_at 0))) ;;
    free_c_protocol
  else
    match c_protocol s, hdrs s WSI_TOKEN_PROTOCOL with
    | Some pc, Some token =>
        let okay := protocol_offered (String.length pc) pc token in
        free_c_protocol ;;
        if negb okay then lwsl LOG_BAD_PROTOCOL ;; goto bail2
        else
          update (set_protocol None) ;;
          match find_protocol (protocols context) token 0 with
          | Some n =>
              update (set_protocol (Some n)) ;;
              update (set_c_callback (callback (protocol_at n)))
          | None => lwsl LOG_PROTOCOL_NOT_SUPPORTED ;; goto bail2
          end
    | _, _ => null_dereference
    end.

Definition is_separator (c : ascii) : bool :=
  Ascii.eqb c "," || Ascii.eqb c " " || Ascii.eqb c TAB.

(** Lines 524-565: the walk over the extension registry for one name
    of the server's list; [n] tells whether an entry matched.  The
    registry is reached through [wsi->protocol->owning_server], which is
    the context. *)
Fixpoint instantiate (exts : list libwebsocket_extension) (i : nat)
  (ext_name : string) (n : bool) : M bool :=
  match exts with
  | [] => ret n
  | ext :: exts' =>
      match extension_callback ext with
      | None => ret n
      | Some _ =>
          if negb (CStr.strcmp_eq ext_name (extension_name ext))
          then instantiate exts' (S i) ext_name n
          else
            b <- malloc env (extension_per_session_data_size ext) ;;
            match b with
            | None => lwsl LOG_EXT_OUT_OF_MEM ;; goto bail2
            | Some blk =>
                call_ext i ext LWS_EXT_CALLBACK_CLIENT_CONSTRUCT
                  (Some blk) None ;;
                update (fun s =>
                  set_active_extensions (active_extensions s ++ [(i, blk)]) s) ;;
                instantiate exts' (S i) ext_name true
            end
      end
  end.

Definition check_extension (ext_name : string) : M unit :=
  n <- instantiate (extensions context) 0 ext_name false ;;
  if n then ret tt else lwsl LOG_UNKNOWN_EXTENSION ;; goto bail2.

(** [char ext_name[128]]: a character is stored at index [n], and [n]
    stops growing at 127, where the terminator later lands. *)
Definition store_char (ext_name : string) (c : ascii) : string :=
  if (String.length ext_name <? 127)%nat
  then (ext_name ++ String c EmptyString)%string
  else ext_name.

(** Lines 503-574: the loop [while (more)] over the server's list. *)
Fixpoint check_extensions_loop (c : string) (ext_name : string) : M unit :=
  match c with
  | String x c' =>
      if negb (is_separator x) then
        check_extensions_loop c' (store_char ext_name x)
      else if (String.length ext_name =? 0)%nat then
        check_extensions_loop c' EmptyString
      else
        check_extension ext_name ;;
        check_extensions_loop c' EmptyString
  | EmptyString => check_extension ext_name
  end.

Definition check_extensions : M unit :=
  s <- get_wsi ;;
  match hdrs s WSI_TOKEN_EXTENSIONS with
  | Some c =>
      if Nat.eqb (String.length c) 0 then ret tt
      else check_extensions_loop c EmptyString
  | None => ret tt
  end.

Definition check_accept : M unit :=
  s <- get_wsi ;;
  match hdrs s WSI_TOKEN_ACCEPT with
  | None => null_dereference
  | Some v =>
      if CStr.strcmp_eq v (initial_handshake_hash_base64 s) then ret tt
      else lwsl LOG_BAD_ACCEPT ;; goto bail2
  end.

(** Modelled from the spec: [libwebsocket_ensure_user_space] is defined
    outside [lib/client.c]: "allocate per-protocol user state if the
    protocol declares a non-zero size"; the result is the user
    space. *)
Definition libwebsocket_ensure_user_space : M (option block) :=
  s <- get_wsi ;;
  p <- the_protocol ;;
  match user_space s with
  | Some b => ret (Some b)
  | None =>
      if per_session_data_size p =? 0 then ret None
      else
        b <- malloc env (per_session_data_size p) ;;
        update (set_user_space b) ;;
        ret b
  end.

(** The conversion of a value to [int]. *)
Definition to_int (x : Z) : Z := (x + 2 ^ 31) mod 2 ^ 32 - 2 ^ 31.

(** Lines 630-633: the size passed to [malloc] for the receive
    buffer. *)
Definition rx_buffer_alloc_size (p : libwebsocket_protocols) : Z :=
  let n := to_int (rx_buffer_size p) in
  let n := if n =? 0 then LWS_MAX_SOCKET_IO_BUF (constants context) else n in
  to_int (n + (LWS_SEND_BUFFER_PRE_PADDING (constants context)
               + LWS_SEND_BUFFER_POST_PADDING (constants context))).

(** [memset(&wsi->u, 0, sizeof wsi->u)]. *)
Definition union_transition (s : libwebsocket) : libwebsocket :=
  set_rx_user_buffer None
    (set_hdr (WSI_PARSER_STATE 0) 0 (fun _ => None) EmptyString [] s).

(** The user pointer of extension [i] if it is active: the last match
    of the loop over [active_extensions]. *)
Definition active_user (i : nat) (l : list (nat * block)) : option block :=
  fold_left (fun v e => if Nat.eqb (fst e) i then Some (snd e) else v) l None.

(** Lines 654-665. *)
Fixpoint any_wsi_established (exts : list libwebsocket_extension) (i : nat)
  : M unit :=
  match exts with
  | [] => ret tt
  | ext :: exts' =>
      match extension_callback ext with
      | None => ret tt
      | Some _ =>
          s <- get_wsi ;;
          call_ext i ext LWS_EXT_CALLBACK_ANY_WSI_ESTABLISHED
            (active_user i (active_extensions s)) None ;;
          any_wsi_established exts' (S i)
      end
  end.

(** Lines 592-668. *)
Definition establish : M Z :=
  p <- the_protocol ;;
  (if per_session_data_size p =? 0 then ret tt
   else
     b <- libwebsocket_ensure_user_space ;;
     match b with
     | None => goto bail2
     | Some _ => ret tt
     end) ;;
  call (callback p) LWS_CALLBACK_CLIENT_FILTER_PRE_ESTABLISH None 0 ;;
  libwebsocket_set_timeout NO_PENDING_TIMEOUT 0 ;;
  free_tokens all_tokens ;;
  update (set_state WSI_STATE_ESTABLISHED) ;;
  update (set_mode LWS_CONNMODE_WS_CLIENT) ;;
  update union_transition ;;
  b <- malloc env (rx_buffer_alloc_size p) ;;
  update (set_rx_user_buffer b) ;;
  match b with
  | None => lwsl LOG_RX_OUT_OF_MEM ;; goto bail3
  | Some _ =>
      call (callback p) LWS_CALLBACK_CLIENT_ESTABLISHED None 0 ;;
      any_wsi_established (extensions context) 0 ;;
      ret 0
  end.

(** The code from [bail2:] on. *)
Definition at_bail2 : M Z :=
  s <- get_wsi ;;
  match c_callback s with
  | Some cb =>
      call (Some cb) LWS_CALLBACK_CLIENT_CONNECTION_ERROR None 0 ;; ret tt
  | None => ret tt
  end ;;
  free_tokens all_tokens ;;
  libwebsocket_close_and_free_session LWS_CLOSE_STATUS_PROTOCOL_ERR ;;
  ret 1.

Definition interpret_labels (l : label) : M Z :=
  match l with
  | bail3 => free_c_protocol ;; at_bail2
  | bail2 => at_bail2
  end.

Definition lws_client_interpret_server_handshake : M Z :=
  with_labels
    (check_status ;;
     check_upgrade ;;
     check_connection ;;
     select_protocol ;;
     check_extensions ;;
     check_accept ;;
     establish)
    interpret_labels.

End Interpreter.

(** ** [libwebsockets_generate_client_handshake] *)

Section Generator.

Variable context : libwebsocket_context.
Variable env : environment.

Definition magic_websocket_guid : string :=
  "258EAFA5-E914-47DA-95CA-C5AB0DC85B11".

(** Lines 790-796: [n |= ext1->callback(...
    CHECK_OK_TO_PROPOSE_EXTENSION, NULL, ext->name, 0)] over the whole
    registry. *)
Fixpoint poll_extensions (exts1 : list libwebsocket_extension) (i : nat)
  (candidate : string) (n : Z) : M Z :=
  match exts1 with
  | [] => ret n
  | ext1 :: rest =>
      match extension_callback ext1 with
      | None => ret n
      | Some _ =>
          r <- call_ext i ext1 LWS_EXT_CALLBACK_CHECK_OK_TO_PROPOSE_EXTENSION
                 None (Some candidate) ;;
          poll_extensions rest (S i) candidate (Z.lor n r)
      end
  end.

(** Lines 784-828: the loop that writes the proposed names after [p];
    the result is the new [p]. *)
Fixpoint propose_extensions (exts : list libwebsocket_extension)
  (p : string) (ext_count : Z) : M string :=
  match exts with
  | [] => ret p
  | ext :: rest =>
      match extension_callback ext with
      | None => ret p
      | Some _ =>
          n <- poll_extensions (extensions context) 0 (extension_name ext) 0 ;;
          if negb (n =? 0) then propose_extensions rest p ext_count
          else
            n <- call (callback (protocol_at context 0))
                   LWS_CALLBACK_CLIENT_CONFIRM_EXTENSION_SUPPORTED
                   (Some (extension_name ext)) 0 ;;
            if negb (n =? 0) then propose_extensions rest p ext_count
            else
              let p := if negb (ext_count =? 0)
                       then (p ++ ",")%string else p in
              let p := (p ++ extension_name ext)%string in
              propose_extensions rest p (ext_count + 1)
      end
  end.

(** Lines 838-840: the user callback receives the cursor and the room
    left less 12 bytes, and may move the cursor forward over what it
    writes. *)
Definition append_handshake_header (p : string) : M string :=
  let len := sizeof_service_buffer (constants context)
             - Z.of_nat (String.length p) - 12 in
  match callback (protocol_at context 0) with
  | None => null_dereference
  | Some cb =>
      emit (EvCallback LWS_CALLBACK_CLIENT_APPEND_HANDSHAKE_HEADER None len) ;;
      ret (p ++ cb_append cb p len)%string
  end.

(** Lines 846-852: the expected accept value.  [snprintf] keeps at most
    127 characters in [buf] and returns the untruncated length [n];
    [SHA1] reads [n] bytes of [buf]. *)
Definition expected_accept (key_b64 : string) : string :=
  let n := String.length (key_b64 ++ magic_websocket_guid) in
  let buf := CStr.truncate 127 (key_b64 ++ magic_websocket_guid) in
  Base64.lws_b64_encode_string
    (Sha1.SHA1 (firstn n (bytes_of_string buf))).

(** The result is the cursor [p] after the request, that is the bytes
    written to [pkt], or [None] for NULL.  [random env] is what
    [libwebsockets_get_random(context, hash, 16)] puts into [hash]; its
    length is the count the call returns. *)
Definition libwebsockets_generate_client_handshake : M (option string) :=
  let hash := random env in
  if negb (Nat.eqb (List.length hash) 16) then
    lwsl LOG_RANDOM_UNAVAILABLE ;;
    free P_c_path ;;
    free P_c_host ;;
    free_c_origin ;;
    free_c_protocol ;;
    libwebsocket_close_and_free_session LWS_CLOSE_STATUS_NOSTATUS ;;
    ret None
  else
    let key_b64 := Base64.lws_b64_encode_string hash in
    s <- get_wsi ;;
    let p := EmptyString in
    let p := (p ++ "GET " ++ c_path s ++ " HTTP/1.1" ++ CRLF)%string in
    let p := (p ++ "Pragma: no-cache" ++ CRLF
                ++ "Cache-Control: no-cache" ++ CRLF)%string in
    let p := (p ++ "Host: " ++ c_host s ++ CRLF)%string in
    let p := (p ++ "Upgrade: websocket" ++ CRLF
                ++ "Connection: Upgrade" ++ CRLF
                ++ "Sec-WebSocket-Key: ")%string in
    let p := (p ++ key_b64)%string in
    let p := (p ++ CRLF)%string in
    let p :=
      match c_origin s with
      | Some origin =>
          if ietf_spec_revision s =? 13
          then (p ++ "Origin: " ++ origin ++ CRLF)%string
          else (p ++ "Sec-WebSocket-Origin: " ++ origin ++ CRLF)%string
      | None => p
      end in
    let p :=
      match c_protocol s with
      | Some offered =>
          (p ++ "Sec-WebSocket-Protocol: " ++ offered ++ CRLF)%string
      | None => p
      end in
    let p := (p ++ "Sec-WebSocket-Extensions: ")%string in
    p <- propose_extensions (extensions context) p 0 ;;
    let p := (p ++ CRLF)%string in
    let p :=
      if negb (ietf_spec_revision s =? 0)
      then (p ++ "Sec-WebSocket-Version: "
              ++ CStr.decimal (ietf_spec_revision s) ++ CRLF)%string
      else p in
    p <- append_handshake_header p ;;
    let p := (p ++ CRLF)%string in
    update (fun s =>
      set_hdr (parser_state s) (lextable_pos s) (hdrs s)
        (expected_accept key_b64) (parser_input s) s) ;;
    free P_c_path ;;
    free P_c_host ;;
    free_c_origin ;;
    ret (Some p).

End Generator.

(** ** [lws_client_socket_service] *)

(** What a read returns when no byte is pending: 0, or a negative count
    (with the code [SSL_get_error] gives for it on a TLS connection). *)
Inductive dry_read :=
| Dry_zero
| Dry_error (ssl_error : Z).

(** The transport: the bytes that have arrived and are still unread, in
    arrival order, and what a read returns once they are used up. *)
Record transport := {
  inbound : bytes;
  dry : dry_read
}.

Definition with_inbound (b : bytes) (t : transport) : transport :=
  {| inbound := b; dry := dry t |}.

Section Service.

Variable context : libwebsocket_context.
Variable env : environment.

(** What the header parser makes of the bytes fed so far, beyond the
    contract the spec gives: whether it rejects them, and the header
    slots it has filled. *)
Variable header_error : bytes -> bool.
Variable header_tokens : bytes -> token_index -> option string.

Definition CRLFCRLF : bytes := [CR; LF; CR; LF].

(** [ends_with suffix l]. *)
Definition ends_with (suffix l : bytes) : bool :=
  if list_eq_dec ascii_dec
       (skipn (List.length l - List.length suffix) l) suffix
  then true else false.

(** Modelled from the spec: [libwebsocket_parse] is defined outside
    [lib/client.c].  It is "fed one byte at a time via feed(byte) ->
    continue | complete | error"; it reports complete at "the end of
    the terminating CRLFCRLF of the HTTP response"; "all errors are
    fatal to the connection".  The result is nonzero for an error. *)
Definition libwebsocket_parse (c : ascii) : M Z :=
  s <- get_wsi ;;
  let input := parser_input s ++ [c] in
  if header_error input then ret (-1)
  else
    update (set_hdr
      (if ends_with CRLFCRLF input then WSI_PARSING_COMPLETE
       else parser_state s)
      (lextable_pos s) (header_tokens input)
      (initial_handshake_hash_base64 s) input) ;;
    ret 0.

(** How the loop of lines 273-295 is left. *)
Inductive loop_exit :=
| Loop_finished
| Loop_return (n : Z).

(** Lines 273-295.  Each round reads one byte into [c]; the unread
    bytes are returned with the result.  A read that returns 0 leaves
    [c] as it was, and [c] is fed to the parser all the same. *)
Fixpoint read_server_reply (d : dry_read) (pending : bytes) (c : ascii)
  (w : world) : result loop_exit * bytes :=
  if parsing_complete (parser_state (wsi w)) then (Ok Loop_finished w, pending)
  else
    match pending with
    | b :: rest =>
        match libwebsocket_parse b w with
        | Ok r w' =>
            if negb (r =? 0) then (Goto bail3 w', rest)
            else read_server_reply d rest b w'
        | Goto l w' => (Goto l w', rest)
        | Fault w' => (Fault w', rest)
        end
    | [] =>
        match d with
        | Dry_error e =>
            if openssl_support env && negb (use_ssl (wsi w) =? 0)
               && ((e =? SSL_ERROR_WANT_READ) || (e =? SSL_ERROR_WANT_WRITE))
            then (Ok (Loop_return 0) w, [])
            else (Goto bail3 w, [])
        | Dry_zero =>
            match libwebsocket_parse c w with
            | Ok r w' =>
                if negb (r =? 0) then (Goto bail3 w', [])
                else (Ok Loop_finished w', [])
            | Goto l w' => (Goto l w', [])
            | Fault w' => (Fault w', [])
            end
        end
    end.

(** The code from [bail3:] on (lines 314-320). *)
Definition service_bail3 : M Z :=
  free_c_protocol ;;
  libwebsocket_close_and_free_session LWS_CLOSE_STATUS_NOSTATUS ;;
  ret 0.

(** [case LWS_CONNMODE_WS_CLIENT_WAITING_SERVER_REPLY]. *)
Definition waiting_server_reply (revents : Z) (c : ascii) (t : transport)
  (w : world) : result Z * transport :=
  if negb (Z.land revents (Z.lor POLLERR POLLHUP) =? 0) then
    (service_bail3 w, t)
  else if Z.land revents POLLIN =? 0 then
    (service_bail3 w, t)
  else
    let '(r, rest) := read_server_reply (dry t) (inbound t) c w in
    let t' := with_inbound rest t in
    match r with
    | Ok Loop_finished w' =>
        if negb (parsing_complete (parser_state (wsi w')))
        then (Ok 0 w', t')
        else (lws_client_interpret_server_handshake context env w', t')
    | Ok (Loop_return n) w' => (Ok n w', t')
    | Goto _ w' => (service_bail3 w', t')
    | Fault w' => (Fault w', t')
    end.

(** The TLS part of [case LWS_CONNMODE_WS_CLIENT_ISSUE_HANDSHAKE]
    (lines 98-202, for OpenSSL); the result tells whether the function
    goes on to send the handshake or returns 0. *)
Definition tls_connect : M bool :=
  if negb (openssl_support env) then ret true
  else
    (fun w =>
       Ok tt (with_pollfd_events
                (Z.land (pollfd_events w) (Z.lnot POLLOUT)) w)) ;;
    call (callback (protocol_at context 0)) LWS_CALLBACK_CLEAR_MODE_POLL_FD
      None POLLOUT ;;
    s <- get_wsi ;;
    when (negb (use_ssl s =? 0) && negb (ssl s)) (update (set_ssl true)) ;;
    if use_ssl s =? 0 then update (set_ssl false) ;; ret true
    else
      let n := ssl_connect_result env in
      if (n <? 0)
         && ((ssl_connect_error env =? SSL_ERROR_WANT_READ)
             || (ssl_connect_error env =? SSL_ERROR_WANT_WRITE))
      then libwebsocket_callback_on_writable ;; ret false
      else if n <=? 0 then lwsl LOG_SSL_CONNECT_ERROR ;; ret false
      else
        let n := ssl_verify_result env in
        if negb (n =? X509_V_OK)
           && (negb (n =? X509_V_ERR_DEPTH_ZERO_SELF_SIGNED_CERT)
               || negb (use_ssl s =? 2))
        then
          lwsl LOG_BAD_CERTIFICATE ;;
          libwebsocket_close_and_free_session LWS_CLOSE_STATUS_NOSTATUS ;;
          ret false
        else ret true.

(** [case LWS_CONNMODE_WS_CLIENT_ISSUE_HANDSHAKE]. *)
Definition issue_handshake : M Z :=
  go_on <- tls_connect ;;
  if negb go_on then ret 0
  else
    p <- libwebsockets_generate_client_handshake context env ;;
    match p with
    | None =>
        lwsl LOG_GENERATE_FAILED ;;
        libwebsocket_close_and_free_session LWS_CLOSE_STATUS_NOSTATUS ;;
        ret 0
    | Some pkt =>
        (fun w =>
           Ok tt (with_service_buffer
                    (bytes_of_string pkt
                       ++ skipn (String.length pkt) (service_buffer w)) w)) ;;
        let n := send_result env pkt in
        emit (EvSend pkt n) ;;
        if n <? 0 then
          libwebsocket_close_and_free_session LWS_CLOSE_STATUS_NOSTATUS ;;
          ret 0
        else
          update (fun s =>
            set_hdr WSI_TOKEN_NAME_PART 0 (hdrs s)
              (initial_handshake_hash_base64 s) (parser_input s) s) ;;
          update (set_mode LWS_CONNMODE_WS_CLIENT_WAITING_SERVER_REPLY) ;;
          libwebsocket_set_timeout PENDING_TIMEOUT_AWAITING_SERVER_RESPONSE
            (AWAITING_TIMEOUT (constants context)) ;;
          ret 0
    end.

(** The C string that starts a byte buffer. *)
Fixpoint c_string (b : bytes) : string :=
  match b with
  | [] => EmptyString
  | c :: b' => if Ascii.eqb c NUL then EmptyString else String c (c_string b')
  end.

(** [case LWS_CONNMODE_WS_CLIENT_WAITING_PROXY_REPLY], which falls
    through to the next case. *)
Definition waiting_proxy_reply (revents : Z) (t : transport) (w : world)
  : result Z * transport :=
  if negb (Z.land revents (Z.lor POLLERR POLLHUP) =? 0) then
    ((lwsl LOG_PROXY_DEAD ;;
      libwebsocket_close_and_free_session LWS_CLOSE_STATUS_NOSTATUS ;;
      ret 0) w, t)
  else
    let size := Z.to_nat (sizeof_service_buffer (constants context)) in
    let received := firstn size (inbound t) in
    let t' := with_inbound (skipn size (inbound t)) t in
    match inbound t, dry t with
    | [], Dry_error _ =>
        ((libwebsocket_close_and_free_session LWS_CLOSE_STATUS_NOSTATUS ;;
          lwsl LOG_PROXY_READ_ERROR ;;
          ret 0) w, t)
    | _, _ =>
        let buffer :=
          received ++ skipn (List.length received) (service_buffer w) in
        let buffer := firstn 13 buffer ++ NUL :: skipn 14 buffer in
        let w := with_service_buffer buffer w in
        if negb (CStr.strcmp_eq (c_string buffer) "HTTP/1.0 200 ") then
          ((libwebsocket_close_and_free_session LWS_CLOSE_STATUS_NOSTATUS ;;
            lwsl LOG_PROXY_ERROR ;;
            ret 0) w, t')
        else
          ((libwebsocket_set_timeout NO_PENDING_TIMEOUT 0 ;;
            issue_handshake) w, t')
    end.

(** The function: [revents] is [pollfd->revents] and [c] is what the
    local variable [c] holds before anything is read into it. *)
Definition lws_client_socket_service (revents : Z) (c : ascii)
  (t : transport) (w : world) : result Z * transport :=
  match mode (wsi w) with
  | LWS_CONNMODE_WS_CLIENT_WAITING_PROXY_REPLY =>
      waiting_proxy_reply revents t w
  | LWS_CONNMODE_WS_CLIENT_ISSUE_HANDSHAKE => (issue_handshake w, t)
  | LWS_CONNMODE_WS_CLIENT_WAITING_SERVER_REPLY =>
      waiting_server_reply revents c t w
  | _ => (Ok 0 w, t)
  end.

End Service.

(** ** Views of a run *)

(** The callbacks of a trace, without their arguments. *)
Inductive callback_view :=
| User_cb (r : callback_reason)
| Ext_cb (i : nat) (r : extension_callback_reason).

Definition view_event (e : event) : list callback_view :=
  match e with
  | EvCallback r _ _ => [User_cb r]
  | EvExtCallback i r _ _ => [Ext_cb i r]
  | _ => []
  end.

Definition callbacks (tr : list event) : list callback_view :=
  flat_map view_event tr.

Definition log_of_event (e : event) : list log_message :=
  match e with
  | EvLog m => [m]
  | _ => []
  end.

Definition logs (tr : list event) : list log_message :=
  flat_map log_of_event tr.

Definition pointer_eqb (p q : pointer) : bool :=
  match p, q with
  | P_c_path, P_c_path
  | P_c_host, P_c_host
  | P_c_origin, P_c_origin
  | P_c_protocol, P_c_protocol => true
  | P_token a, P_token b => token_index_eqb a b
  | P_block a, P_block b =>
      Nat.eqb (blk_id a) (blk_id b) && (blk_size a =? blk_size b)
  | _, _ => false
  end.

(** How many times a trace frees a pointer. *)
Definition count_free (p : pointer) (tr : list event) : nat :=
  List.length
    (filter (fun e => match e with
                      | EvFree q => pointer_eqb p q
                      | _ => false
                      end) tr).

(** The registry entries the loops reach: those before the first entry
    without a callback, with their indices from [i] on. *)
Fixpoint registered (exts : list libwebsocket_extension) (i : nat)
  : list (nat * libwebsocket_extension) :=
  match exts with
  | [] => []
  | ext :: exts' =>
      match extension_callback ext with
      | None => []
      | Some _ => (i, ext) :: registered exts' (S i)
      end
  end.

(** The indices of the registered extensions called [ext_name]. *)
Definition named (ext_name : string)
  (l : list (nat * libwebsocket_extension)) : list nat :=
  map fst (filter (fun e => CStr.strcmp_eq ext_name (extension_name (snd e))) l).

(** The names the loop over the server's [Sec-WebSocket-Extensions]
    value looks up, in the order of the value: its runs of characters
    between separators, cut to 127 characters, and whatever follows the
    last separator, be it empty. *)
Fixpoint server_extension_names (c : string) (ext_name : string)
  : list string :=
  match c with
  | String x c' =>
      if negb (is_separator x) then
        server_extension_names c' (store_char ext_name x)
      else if (String.length ext_name =? 0)%nat then
        server_extension_names c' EmptyString
      else ext_name :: server_extension_names c' EmptyString
  | EmptyString => [ext_name]
  end.

Definition server_extensions (s : libwebsocket) : list string :=
  match hdrs s WSI_TOKEN_EXTENSIONS with
  | Some c =>
      if Nat.eqb (String.length c) 0 then []
      else server_extension_names c EmptyString
  | None => []
  end.

(** ** Sample registries, connections and replies *)

(** The values of the macros in the library's headers. *)
Definition library_constants : lws_constants :=
  {| LWS_MAX_SOCKET_IO_BUF := 4096;
     LWS_SEND_BUFFER_PRE_PADDING := 18;
     LWS_SEND_BUFFER_POST_PADDING := 4;
     AWAITING_TIMEOUT := 5;
     sizeof_service_buffer := 4096 |}.

(** A user callback that handles no reason. *)
Definition unhandled : user_callback :=
  {| cb_return := fun _ _ _ => 0; cb_append := fun _ _ => EmptyString |}.

Definition sample_protocol (n : string) (rx : Z) : libwebsocket_protocols :=
  {| name := n; callback := Some unhandled;
     per_session_data_size := 0; rx_buffer_size := rx |}.

Definition sample_extension (n : string)
  (f : extension_callback_reason -> option string -> Z)
  : libwebsocket_extension :=
  {| extension_name := n; extension_callback := Some f;
     extension_per_session_data_size := 16 |}.

Definition sample_context (ps : list libwebsocket_protocols)
  (es : list libwebsocket_extension) : libwebsocket_context :=
  {| protocols := ps; extensions := es; constants := library_constants |}.

(** Every [malloc] succeeds, except the one numbered [failing] if
    any. *)
Definition sample_environment (r : bytes) (failing : option nat)
  : environment :=
  {| malloc_ok := fun k => match failing with
                           | Some j => negb (Nat.eqb k j)
                           | None => true
                           end;
     random := r;
     openssl_support := false;
     ssl_connect_result := 1;
     ssl_connect_error := 0;
     ssl_verify_result := 0;
     send_result := fun pkt => Z.of_nat (String.length pkt) |}.

Definition sample_accept : string := "s3pPLMBiTxaQ9kYGzzhZRbK+xOo=".

(** The header slots after a reply with these values. *)
Definition sample_headers (status upgrade connection accept : option string)
  (proto exts : option string) (t : token_index) : option string :=
  match t with
  | WSI_TOKEN_HTTP => status
  | WSI_TOKEN_UPGRADE => upgrade
  | WSI_TOKEN_CONNECTION => connection
  | WSI_TOKEN_ACCEPT => accept
  | WSI_TOKEN_NONCE => None
  | WSI_TOKEN_PROTOCOL => proto
  | WSI_TOKEN_EXTENSIONS => exts
  end.

(** A connection that has sent its request, offered [offered], and
    holds the reply [h]. *)
Definition sample_wsi (offered : option string)
  (h : token_index -> option string) : libwebsocket :=
  {| mode := LWS_CONNMODE_WS_CLIENT_WAITING_SERVER_REPLY;
     state := WSI_STATE_CLIENT_UNCONNECTED;
     use_ssl := 0; ssl := false;
     c_path := "/chat"; c_host := "server.example.com";
     c_origin := None; c_protocol := offered;
     c_callback := Some unhandled;
     ietf_spec_revision := 13; protocol := None; user_space := None;
     parser_state := WSI_PARSING_COMPLETE; lextable_pos := 0;
     hdrs := h; initial_handshake_hash_base64 := sample_accept;
     parser_input := []; rx_user_buffer := None;
     active_extensions := [] |}.

Definition sample_world (s : libwebsocket) : world :=
  {| wsi := s; trace := []; mallocs := O; service_buffer := [];
     pollfd_events := 0 |}.

(** A well-formed reply that names the sub-protocol [proto] and the
    extensions [exts]. *)
Definition good_reply (proto exts : option string)
  : token_index -> option string :=
  sample_headers (Some "101 Switching Protocols"%string)
    (Some "websocket"%string) (Some "Upgrade"%string) (Some sample_accept)
    proto exts.

(** ** The request and the proposal, in the specification's words *)

(** The poll of one registered extension about a candidate name. *)
Definition poll (e : libwebsocket_extension) (candidate : string) : Z :=
  match extension_callback e with
  | Some f => f LWS_EXT_CALLBACK_CHECK_OK_TO_PROPOSE_EXTENSION (Some candidate)
  | None => 0
  end.

Definition confirm (cb : user_callback) (candidate : string) : Z :=
  cb_return cb LWS_CALLBACK_CLIENT_CONFIRM_EXTENSION_SUPPORTED
    (Some candidate) 0.

(** A candidate survives the polls of [voters] when each of them
    returns zero. *)
Definition unvetoed (voters : list (nat * libwebsocket_extension))
  (candidate : string) : bool :=
  forallb (fun v => poll (snd v) candidate =? 0) voters.

(** The proposal when every registered extension is polled, the
    candidate included. *)
Definition survivors (context : libwebsocket_context) (cb : user_callback)
  (cands : list (nat * libwebsocket_extension)) : list string :=
  map (fun e => extension_name (snd e))
    (filter (fun e =>
               unvetoed (registered (extensions context) 0)
                 (extension_name (snd e))
               && (confirm cb (extension_name (snd e)) =? 0)) cands).

Definition proposal (context : libwebsocket_context) (cb : user_callback)
  : list string :=
  survivors context cb (registered (extensions context) 0).

(** The proposal when "every other registered extension is polled":
    the voters on a candidate are the registered extensions but the
    candidate itself. *)
Definition proposal_polling_others (context : libwebsocket_context)
  (cb : user_callback) : list string :=
  let reg := registered (extensions context) 0 in
  map (fun e => extension_name (snd e))
    (filter (fun e =>
               unvetoed (filter (fun v => negb (Nat.eqb (fst v) (fst e))) reg)
                 (extension_name (snd e))
               && (confirm cb (extension_name (snd e)) =? 0)) reg).

(** The callbacks the proposer makes for the candidates [cands]: for
    each, the poll of every registered extension, then the user's
    confirmation if no poll objected. *)
Definition proposer_callbacks (context : libwebsocket_context)
  (cands : list (nat * libwebsocket_extension)) : list callback_view :=
  let reg := registered (extensions context) 0 in
  flat_map (fun e =>
    map (fun v => Ext_cb (fst v) LWS_EXT_CALLBACK_CHECK_OK_TO_PROPOSE_EXTENSION)
      reg
    ++ (if unvetoed reg (extension_name (snd e))
        then [User_cb LWS_CALLBACK_CLIENT_CONFIRM_EXTENSION_SUPPORTED]
        else [])) cands.

(** The lines of the client request, in the order of the
    specification. *)
Definition origin_line (s : libwebsocket) : list string :=
  match c_origin s with
  | Some origin =>
      let header := if ietf_spec_revision s =? 13 then "Origin: "%string
                    else "Sec-WebSocket-Origin: "%string in
      [(header ++ origin ++ CRLF)%string]
  | None => []
  end.

Definition protocol_line (s : libwebsocket) : list string :=
  match c_protocol s with
  | Some offered => [("Sec-WebSocket-Protocol: " ++ offered ++ CRLF)%string]
  | None => []
  end.

Definition version_line (s : libwebsocket) : list string :=
  if ietf_spec_revision s =? 0 then []
  else [("Sec-WebSocket-Version: " ++ CStr.decimal (ietf_spec_revision s)
          ++ CRLF)%string].

Definition client_request_lines (s : libwebsocket) (key_b64 : string)
  (proposed : list string) (user_headers : string) : list string :=
  [("GET " ++ c_path s ++ " HTTP/1.1" ++ CRLF)%string;
   ("Pragma: no-cache" ++ CRLF)%string;
   ("Cache-Control: no-cache" ++ CRLF)%string;
   ("Host: " ++ c_host s ++ CRLF)%string;
   ("Upgrade: websocket" ++ CRLF)%string;
   ("Connection: Upgrade" ++ CRLF)%string;
   ("Sec-WebSocket-Key: " ++ key_b64 ++ CRLF)%string]
  ++ origin_line s
  ++ protocol_line s
  ++ [("Sec-WebSocket-Extensions: " ++ String.concat "," proposed
         ++ CRLF)%string]
  ++ version_line s
  ++ [user_headers; CRLF].

Definition client_request (s : libwebsocket) (key_b64 : string)
  (proposed : list string) (user_headers : string) : string :=
  String.concat "" (client_request_lines s key_b64 proposed user_headers).

(** The nonce 01 02 ... 10, and one that is all zero. *)
Definition nonce_1_to_16 : bytes := map ascii_of_nat (seq 1 16).
Definition nonce_zero : bytes := repeat NUL 16.

(** An extension that objects to its own name and to no other. *)
Definition objects_to (n : string) : libwebsocket_extension :=
  sample_extension n
    (fun r arg =>
       match r, arg with
       | LWS_EXT_CALLBACK_CHECK_OK_TO_PROPOSE_EXTENSION, Some a =>
           if String.eqb a n then 1 else 0
       | _, _ => 0
       end).

Definition agreeable (n : string) : libwebsocket_extension :=
  sample_extension n (fun _ _ => 0).

(** What the proposer writes for the surviving [names] when
    [ext_count] names are already written. *)
Fixpoint join_after (ext_count : Z) (names : list string) : string :=
  match names with
  | [] => EmptyString
  | n :: rest =>
      let separator := if ext_count =? 0 then EmptyString else ","%string in
      (separator ++ n ++ join_after (ext_count + 1) rest)%string
  end.

(** The world a run ends in, and the value it returns if it returns. *)
Definition world_of {A} (r : result A) : world :=
  match r with
  | Ok _ w => w
  | Goto _ w => w
  | Fault w => w
  end.

Definition value_of {A} (r : result A) : option A :=
  match r with
  | Ok a _ => Some a
  | _ => None
  end.

(** A client with one protocol and no extension, about to send its
    request with the nonce [r]. *)
Definition chat_context : libwebsocket_context :=
  sample_context [sample_protocol "chat" 0] [].

Definition requesting (offered : option string) : world :=
  sample_world (sample_wsi offered (fun _ => None)).

(** [ends_response header_error fed response]: fed after [fed], the
    bytes of [response] are accepted by the parser one by one, and the
    first place where the input ends with CRLFCRLF is the last byte of
    [response]. *)
Fixpoint ends_response (header_error : bytes -> bool) (fed response : bytes)
  : bool :=
  match response with
  | [] => false
  | b :: rest =>
      negb (header_error (fed ++ [b]))
      && (if ends_with CRLFCRLF (fed ++ [b])
          then match rest with
               | [] => true
               | _ => false
               end
          else ends_response header_error (fed ++ [b]) rest)
  end.

(** A parser that rejects nothing and fills the slots of a good reply
    once the input is complete. *)
Definition lenient : bytes -> bool := fun _ => false.

Definition good_tokens (input : bytes) : token_index -> option string :=
  if ends_with CRLFCRLF input then good_reply None None else fun _ => None.

(** A short reply, and a text frame that arrives with it. *)
Definition short_reply : bytes :=
  bytes_of_string
    ("HTTP/1.1 101 Switching Protocols" ++ CRLF ++ CRLF)%string.

Definition hello_frame : bytes :=
  ascii_of_nat 129 :: ascii_of_nat 5 :: bytes_of_string "Hello".

(** A connection that waits for the reply, its parser at the start. *)
Definition awaiting_reply (offered : option string) : world :=
  sample_world
    (set_hdr WSI_TOKEN_NAME_PART 0 (fun _ => None) sample_accept []
       (sample_wsi offered (fun _ => None))).

(** ** Worlds after a run *)

Definition with_events (evs : list event) (w : world) : world :=
  {| wsi := wsi w; trace := trace w ++ evs; mallocs := mallocs w;
     service_buffer := service_buffer w; pollfd_events := pollfd_events w |}.

(** What the loop over the header slots frees. *)
Definition token_frees (s : libwebsocket) (ts : list token_index)
  : list event :=
  flat_map (fun t => match hdrs s t with
                     | Some _ => [EvFree (P_token t)]
                     | None => []
                     end) ts.

(** What [if (wsi->c_protocol) free(wsi->c_protocol)] frees. *)
Definition c_protocol_free (s : libwebsocket) : list event :=
  match c_protocol s with
  | Some _ => [EvFree P_c_protocol]
  | None => []
  end.

(** What the connection-error callback delivers, if it is bound. *)
Definition connection_error (s : libwebsocket) : list event :=
  match c_callback s with
  | Some _ => [EvCallback LWS_CALLBACK_CLIENT_CONNECTION_ERROR None 0]
  | None => []
  end.

(** Whether a name is that of a registered extension, and the registry
    indices a list of names stands for, in the order of the list. *)
Definition is_registered (context : libwebsocket_context) (ext_name : string)
  : bool :=
  match named ext_name (registered (extensions context) 0) with
  | [] => false
  | _ => true
  end.

Definition accepted_extensions (context : libwebsocket_context)
  (names : list string) : list nat :=
  flat_map (fun nm => named nm (registered (extensions context) 0)) names.

Definition construct (i : nat) : callback_view :=
  Ext_cb i LWS_EXT_CALLBACK_CLIENT_CONSTRUCT.

(** The world after entry [n] of the protocol registry is selected. *)
Definition selected (context : libwebsocket_context) (n : nat) (w : world)
  : world :=
  with_events (c_protocol_free (wsi w))
    (with_wsi (fun s => set_c_callback (callback (protocol_at context n))
                          (set_protocol (Some n) s)) w).

(** The ANY_WSI_ESTABLISHED notifications: one per registered
    extension, in registry order. *)
Definition any_wsi_notifications (context : libwebsocket_context)
  : list callback_view :=
  map (fun e => Ext_cb (fst e) LWS_EXT_CALLBACK_ANY_WSI_ESTABLISHED)
    (registered (extensions context) 0).

(** ** The validation rules, in the specification's words *)

(** The comma-separated tokens of an offered list. *)
Fixpoint comma_tokens_from (s : string) (token : string) : list string :=
  match s with
  | EmptyString => [token]
  | String c s' =>
      if Ascii.eqb c ","
      then token :: comma_tokens_from s' EmptyString
      else comma_tokens_from s' (token ++ String c EmptyString)%string
  end.

Definition comma_tokens (s : string) : list string :=
  comma_tokens_from s EmptyString.

(** The first of them. *)
Fixpoint first_offered (s : string) : string :=
  match s with
  | EmptyString => EmptyString
  | String c s' =>
      if Ascii.eqb c "," then EmptyString else String c (first_offered s')
  end.

(** A name as the header parser stores it: not empty, no comma in it and
    no blank in front. *)
Fixpoint comma_free (s : string) : bool :=
  match s with
  | EmptyString => true
  | String c s' => negb (Ascii.eqb c ",") && comma_free s'
  end.

Definition name_like (s : string) : bool :=
  match s with
  | EmptyString => false
  | String c _ => negb (Ascii.eqb c " ") && comma_free s
  end.

(** "The status token begins with 101." *)
Definition status_begins_101 (s : libwebsocket) : bool :=
  match hdrs s WSI_TOKEN_HTTP with
  | Some v => String.prefix "101" v
  | None => false
  end.

(** "The header equals the literal case-insensitively." *)
Definition header_is (t : token_index) (literal : string) (s : libwebsocket)
  : bool :=
  match hdrs s t with
  | Some v => String.eqb (CStr.strtolower v) (CStr.strtolower literal)
  | None => false
  end.

(** The sub-protocol the server names, if it names one. *)
Definition server_protocol (s : libwebsocket) : option string :=
  match hdrs s WSI_TOKEN_PROTOCOL with
  | Some v => if Nat.eqb (String.length v) 0 then None else Some v
  | None => None
  end.

(** "Any server-named sub-protocol was locally offered." *)
Definition protocol_was_offered (s : libwebsocket) : bool :=
  match server_protocol s with
  | None => true
  | Some p =>
      match c_protocol s with
      | Some l => existsb (String.eqb p) (comma_tokens l)
      | None => false
      end
  end.

(** "Every server-named extension is locally registered." *)
Definition extensions_registered (context : libwebsocket_context)
  (s : libwebsocket) : bool :=
  forallb (is_registered context) (server_extensions s).

(** "The Sec-WebSocket-Accept value byte-equals the precomputed
    expected_accept_b64." *)
Definition accept_matches (s : libwebsocket) : bool :=
  match hdrs s WSI_TOKEN_ACCEPT with
  | Some v => String.eqb v (initial_handshake_hash_base64 s)
  | None => false
  end.


(** The registry entry a server-named sub-protocol stands for. *)
Definition registry_entry (context : libwebsocket_context) (p : string)
  : option nat :=
  find_protocol (protocols context) p 0.

(** The four headers every reply must carry are there. *)
Definition headers_present (s : libwebsocket) : bool :=
  match hdrs s WSI_TOKEN_HTTP, hdrs s WSI_TOKEN_UPGRADE,
        hdrs s WSI_TOKEN_CONNECTION, hdrs s WSI_TOKEN_ACCEPT with
  | Some _, Some _, Some _, Some _ => true
  | _, _, _, _ => false
  end.

(** The server names no sub-protocol, or a list was offered and the
    server's name is the first offered token or is no offered token at
    all. *)
Definition unambiguous_offer (s : libwebsocket) : bool :=
  match server_protocol s with
  | None => true
  | Some p =>
      match c_protocol s with
      | Some l =>
          name_like p
          && (String.eqb p (first_offered l)
              || negb (existsb (String.eqb p) (comma_tokens l)))
      | None => false
      end
  end.

(** "A server-named sub-protocol has an entry in the protocol
    registry." *)
Definition protocol_in_registry (context : libwebsocket_context)
  (s : libwebsocket) : bool :=
  match server_protocol s with
  | None => true
  | Some p =>
      match registry_entry context p with
      | Some _ => true
      | None => false
      end
  end.

(** The first rule a reply violates, in the order of the rules, as the
    message that reports it. *)
Definition first_violation (context : libwebsocket_context)
  (s : libwebsocket) : option log_message :=
  if negb (status_begins_101 s) then Some LOG_BAD_HTTP_RESPONSE
  else if negb (header_is WSI_TOKEN_UPGRADE "websocket" s)
  then Some LOG_BAD_UPGRADE
  else if negb (header_is WSI_TOKEN_CONNECTION "upgrade" s)
  then Some LOG_BAD_CONNECTION
  else if negb (protocol_was_offered s) then Some LOG_BAD_PROTOCOL
  else if negb (protocol_in_registry context s)
  then Some LOG_PROTOCOL_NOT_SUPPORTED
  else if negb (extensions_registered context s)
  then Some LOG_UNKNOWN_EXTENSION
  else if negb (accept_matches s) then Some LOG_BAD_ACCEPT
  else None.

(** What the cleanup labels of the interpreter add to the trace. *)
Definition cleanup_events (l : label) (s : libwebsocket) : list event :=
  (match l with
   | bail3 => c_protocol_free s
   | bail2 => []
   end)
  ++ connection_error s ++ token_frees s all_tokens
  ++ [EvClose LWS_CLOSE_STATUS_PROTOCOL_ERR].

(** A connection that holds a well-formed reply naming [proto] and
    [exts], after offering [offered]. *)
Definition replied (offered proto exts : option string) : world :=
  sample_world (sample_wsi offered (good_reply proto exts)).

Definition two_protocols : libwebsocket_context :=
  sample_context [sample_protocol "chat" 0; sample_protocol "superchat" 0] [].

Definition default_only : libwebsocket_context :=
  sample_context [sample_protocol "default" 0] [].

Definition with_extensions : libwebsocket_context :=
  sample_context [sample_protocol "chat" 0]
    [agreeable "deflate-frame"; agreeable "x-mux"].

Definition all_allocations_succeed : environment := sample_environment [] None.

(** ** Sample runs *)

(** The request for the nonce 01 02 ... 10. *)
Definition golden_request : result (option string) :=
  libwebsockets_generate_client_handshake chat_context
    (sample_environment nonce_1_to_16 None) (requesting None).

(** The proposal of a registry whose only extension objects to its own
    name. *)
Definition lone_objector : libwebsocket_context :=
  sample_context [sample_protocol "chat" 0] [objects_to "x-test"].

Definition lone_objector_proposal : result string :=
  propose_extensions lone_objector (extensions lone_objector) ""
    0 (requesting None).

Definition three_extensions : libwebsocket_context :=
  sample_context [sample_protocol "chat" 0]
    [agreeable "deflate-frame"; objects_to "x-test"; agreeable "x-mux"].

(** The reply "chat" to the offer "chat", when the protocol asks for a
    receive buffer of [rx] bytes. *)
Definition rx_context (rx : Z) : libwebsocket_context :=
  sample_context [sample_protocol "chat" rx] [].

Definition chat_reply : world :=
  replied (Some "chat"%string) (Some "chat"%string) None.

Definition rx_run (rx : Z) : result Z :=
  lws_client_interpret_server_handshake (rx_context rx)
    all_allocations_succeed chat_reply.

(** The same reply when the first allocation fails. *)
Definition rx_failure_run : result Z :=
  lws_client_interpret_server_handshake chat_context
    (sample_environment [] (Some O)) chat_reply.

(** The same reply when the registry has no protocol "chat". *)
Definition unregistered_run : result Z :=
  lws_client_interpret_server_handshake default_only
    all_allocations_succeed chat_reply.

(** The reply "superchat" to the offer "chat,superchat". *)
Definition superchat_reply : world :=
  replied (Some "chat,superchat"%string) (Some "superchat"%string) None.

Definition superchat_run : result Z :=
  lws_client_interpret_server_handshake two_protocols
    all_allocations_succeed superchat_reply.

(** A reply that accepts two extensions. *)
Definition extensions_reply : world :=
  replied None None (Some "x-mux, deflate-frame"%string).

Definition extensions_run : result Z :=
  lws_client_interpret_server_handshake with_extensions
    all_allocations_succeed extensions_reply.

(** A registry whose first extension has a name of 128 characters. *)
Definition long_name : string :=
  string_of_list_ascii (repeat "x"%char 128).

Definition long_named : libwebsocket_context :=
  sample_context [sample_protocol "chat" 0]
    [sample_extension long_name (fun _ _ => 0);
     sample_extension "x-ok" (fun _ _ => 0)].

(** ** What a run keeps *)

(** The packets a trace sends, in order. *)
Definition sends (tr : list event) : list string :=
  flat_map (fun e => match e with
                     | EvSend data _ => [data]
                     | _ => []
                     end) tr.

(** Every run of [m], however it ends, takes a world to one that [Q]
    relates to it. *)
Definition respects {A} (Q : world -> world -> Prop) (m : M A) : Prop :=
  forall w, Q w (world_of (m w)).

(** The statuses a trace closes the session with, in order. *)
Definition closes (tr : list event) : list lws_close_status :=
  flat_map (fun e => match e with
                     | EvClose st => [st]
                     | _ => []
                     end) tr.

(** Whether a header slot holds a token: 1 or 0. *)
Definition held (s : libwebsocket) (t : token_index) : nat :=
  match hdrs s t with
  | Some _ => 1
  | None => 0
  end.

(** The trace has grown, without a close of the session and without a
    send; every header token that was held is still held or was freed
    once; and the mode is what it was, or that of an established
    client. *)
Definition conserves (w w' : world) : Prop :=
  exists evs,
    trace w' = trace w ++ evs
    /\ closes evs = []
    /\ sends evs = []
    /\ (forall t,
          (count_free (P_token t) evs + held (wsi w') t)%nat = held (wsi w) t)
    /\ (mode (wsi w') = mode (wsi w)
        \/ mode (wsi w') = LWS_CONNMODE_WS_CLIENT).

(** Header slots that are all NULL stay so. *)
Definition stays_cleared (w w' : world) : Prop :=
  (forall t, hdrs (wsi w) t = None) -> forall t, hdrs (wsi w') t = None.

(** An event that is a call of a user or extension callback. *)
Definition is_callback (e : event) : Prop :=
  match e with
  | EvCallback _ _ _ | EvExtCallback _ _ _ _ => True
  | _ => False
  end.

(** The connection is what it was, and the trace has grown by callbacks
    only. *)
Definition calls_only (w w' : world) : Prop :=
  wsi w' = wsi w
  /\ service_buffer w' = service_buffer w
  /\ pollfd_events w' = pollfd_events w
  /\ exists evs, trace w' = trace w ++ evs /\ Forall is_callback evs.

(** What [if (wsi->c_origin) free(wsi->c_origin)] frees. *)
Definition c_origin_free (s : libwebsocket) : list event :=
  match c_origin s with
  | Some _ => [EvFree P_c_origin]
  | None => []
  end.

(** An OpenSSL build in which [SSL_connect] returns [result], with the
    error [error], and the certificate check gives [verify]. *)
Definition tls_environment (result error verify : Z) : environment :=
  {| malloc_ok := fun _ => true;
     random := nonce_zero;
     openssl_support := true;
     ssl_connect_result := result;
     ssl_connect_error := error;
     ssl_verify_result := verify;
     send_result := fun pkt => Z.of_nat (String.length pkt) |}.

(** A client about to issue its handshake, with [use_ssl = u]. *)
Definition tls_client (u : Z) : world :=
  sample_world
    {| mode := LWS_CONNMODE_WS_CLIENT_ISSUE_HANDSHAKE;
       state := WSI_STATE_CLIENT_UNCONNECTED;
       use_ssl := u; ssl := false;
       c_path := "/chat"; c_host := "server.example.com";
       c_origin := None; c_protocol := Some "chat"%string;
       c_callback := Some unhandled;
       ietf_spec_revision := 13; protocol := None; user_space := None;
       parser_state := WSI_TOKEN_NAME_PART; lextable_pos := 0;
       hdrs := fun _ => None; initial_handshake_hash_base64 := EmptyString;
       parser_input := []; rx_user_buffer := None;
       active_extensions := [] |}.

(** The certificate check of lines 187-198 lets the handshake go on. *)
Definition certificate_accepted (verify use_ssl : Z) : bool :=
  (verify =? X509_V_OK)
  || ((verify =? X509_V_ERR_DEPTH_ZERO_SELF_SIGNED_CERT) && (use_ssl =? 2)).


(** The reply of a proxy that has opened the tunnel, as far as the code
    looks at it. *)
Definition proxy_ok : bytes := bytes_of_string "HTTP/1.0 200 ".

(** A proxy reply that begins like [proxy_ok]; a service buffer that
    holds it; a transport the peer has closed without sending. *)
Definition proxy_reply : bytes :=
  bytes_of_string "HTTP/1.0 200 Connection established".

Definition awaiting_proxy (buffer : bytes) : world :=
  with_service_buffer buffer
    (with_wsi (set_mode LWS_CONNMODE_WS_CLIENT_WAITING_PROXY_REPLY)
       (requesting (Some "chat"%string))).

Definition silent : transport := {| inbound := []; dry := Dry_zero |}.

(** [feeds header_error fed pending]: fed after [fed], the bytes of
    [pending] are accepted by the parser one by one, and none of them
    ends the headers. *)
Fixpoint feeds (header_error : bytes -> bool) (fed pending : bytes) : bool :=
  match pending with
  | [] => true
  | b :: rest =>
      negb (header_error (fed ++ [b]))
      && negb (ends_with CRLFCRLF (fed ++ [b]))
      && feeds header_error (fed ++ [b]) rest
  end.

(** The world after the parser has taken [pending] that way. *)
Definition fed_with (header_tokens : bytes -> token_index -> option string)
  (pending : bytes) (w : world) : world :=
  match pending with
  | [] => w
  | _ =>
      with_wsi
        (set_hdr (parser_state (wsi w)) (lextable_pos (wsi w))
           (header_tokens (parser_input (wsi w) ++ pending))
           (initial_handshake_hash_base64 (wsi w))
           (parser_input (wsi w) ++ pending)) w
  end.

(** A parser that rejects the byte 'X' and nothing else. *)
Definition rejects_X (input : bytes) : bool :=
  match rev input with
  | c :: _ => Ascii.eqb c "X"
  | [] => false
  end.

(** The first line of a reply. *)
Definition status_line : bytes := bytes_of_string "HTTP/1.1 101".

(** The world once the parser has taken [response] and found the
    headers complete at its end. *)
Definition completed (header_tokens : bytes -> token_index -> option string)
  (response : bytes) (w : world) : world :=
  with_wsi
    (set_hdr WSI_PARSING_COMPLETE (lextable_pos (wsi w))
       (header_tokens (parser_input (wsi w) ++ response))
       (initial_handshake_hash_base64 (wsi w))
       (parser_input (wsi w) ++ response)) w.

(** A TLS connection that waits for the reply. *)
Definition tls_awaiting_reply : world :=
  sample_world
    {| mode := LWS_CONNMODE_WS_CLIENT_WAITING_SERVER_REPLY;
       state := WSI_STATE_CLIENT_UNCONNECTED;
       use_ssl := 1; ssl := true;
       c_path := "/chat"; c_host := "server.example.com";
       c_origin := None; c_protocol := None;
       c_callback := Some unhandled;
       ietf_spec_revision := 13; protocol := None; user_space := None;
       parser_state := WSI_TOKEN_NAME_PART; lextable_pos := 0;
       hdrs := fun _ => None; initial_handshake_hash_base64 := sample_accept;
       parser_input := []; rx_user_buffer := None;
       active_extensions := [] |}.

(** The reply of [short_reply], cut in two. *)
Definition reply_head : bytes := bytes_of_string "HTTP/1.1 101 Swit".

Definition reply_tail : bytes :=
  bytes_of_string ("ching Protocols" ++ CRLF ++ CRLF)%string.

(** The mode is what it was. *)
Definition same_mode (w w' : world) : Prop := mode (wsi w') = mode (wsi w).

(** The steps the handshake modes take: none, or from the proxy reply
    or the issue of the handshake to the wait for the server, or from
    there to the established client. *)
Definition advances (m m' : connection_mode) : Prop :=
  m' = m
  \/ (m' = LWS_CONNMODE_WS_CLIENT_WAITING_SERVER_REPLY
      /\ (m = LWS_CONNMODE_WS_CLIENT_WAITING_PROXY_REPLY
          \/ m = LWS_CONNMODE_WS_CLIENT_ISSUE_HANDSHAKE))
  \/ (m' = LWS_CONNMODE_WS_CLIENT
      /\ m = LWS_CONNMODE_WS_CLIENT_WAITING_SERVER_REPLY).

(** A parser that rejects nothing and, once the input is complete,
    fills the slots of a good reply that names the sub-protocol [p]. *)
Definition naming (p : string) (input : bytes)
  : token_index -> option string :=
  if ends_with CRLFCRLF input then good_reply (Some p) None
  else fun _ => None.

(** The request as it stands when the user callback is asked for its
    headers: every line up to the version line. *)
Definition client_request_head (s : libwebsocket) (key_b64 : string)
  (proposed : list string) : string :=
  String.concat ""
    ([("GET " ++ c_path s ++ " HTTP/1.1" ++ CRLF)%string;
      ("Pragma: no-cache" ++ CRLF)%string;
      ("Cache-Control: no-cache" ++ CRLF)%string;
      ("Host: " ++ c_host s ++ CRLF)%string;
      ("Upgrade: websocket" ++ CRLF)%string;
      ("Connection: Upgrade" ++ CRLF)%string;
      ("Sec-WebSocket-Key: " ++ key_b64 ++ CRLF)%string]
     ++ origin_line s
     ++ protocol_line s
     ++ [("Sec-WebSocket-Extensions: " ++ String.concat "," proposed
            ++ CRLF)%string]
     ++ version_line s).

(** The room the user callback is told it has: what is left of the
    service buffer after [head], less 12 bytes. *)
Definition append_room (context : libwebsocket_context) (head : string) : Z :=
  sizeof_service_buffer (constants context)
  - Z.of_nat (String.length head) - 12.

(** The user-appended headers: what the callback of the first protocol
    writes when it is given the request so far and the room left. *)
Definition user_appended (context : libwebsocket_context)
  (cb : user_callback) (head : string) : string :=
  cb_append cb head (append_room context head).

(** A user callback that appends a cookie, and a client of protocol
    revision 0 that uses it. *)
Definition cookie_callback : user_callback :=
  {| cb_return := fun _ _ _ => 0;
     cb_append := fun _ _ => ("Cookie: a=b" ++ CRLF)%string |}.

Definition cookie_context : libwebsocket_context :=
  sample_context
    [{| name := "chat"; callback := Some cookie_callback;
        per_session_data_size := 0; rx_buffer_size := 0 |}] [].

Definition unversioned : world :=
  sample_world
    {| mode := LWS_CONNMODE_WS_CLIENT_ISSUE_HANDSHAKE;
       state := WSI_STATE_CLIENT_UNCONNECTED;
       use_ssl := 0; ssl := false;
       c_path := "/chat"; c_host := "server.example.com";
       c_origin := None; c_protocol := None;
       c_callback := Some cookie_callback;
       ietf_spec_revision := 0; protocol := None; user_space := None;
       parser_state := WSI_TOKEN_NAME_PART; lextable_pos := 0;
       hdrs := fun _ => None; initial_handshake_hash_base64 := EmptyString;
       parser_input := []; rx_user_buffer := None;
       active_extensions := [] |}.

(** Extension number [i] is not instantiated: it does not become
    active, and the trace grows without its CLIENT_CONSTRUCT. *)
Definition spares (i : nat) (w w' : world) : Prop :=
  (~ In i (map fst (active_extensions (wsi w))) ->
   ~ In i (map fst (active_extensions (wsi w'))))
  /\ exists evs,
       trace w' = trace w ++ evs /\ ~ In (construct i) (callbacks evs).

(** ** What a run adds to the trace *)

(** An event other than the delivery of CLIENT_ESTABLISHED. *)
Definition not_established (e : event) : Prop :=
  match e with
  | EvCallback LWS_CALLBACK_CLIENT_ESTABLISHED _ _ => False
  | _ => True
  end.

(** An event other than the release of the offered protocols. *)
Definition not_list_free (e : event) : Prop :=
  match e with
  | EvFree P_c_protocol => False
  | _ => True
  end.

(** The offered protocols are the string they were, and the trace has
    grown by events that satisfy [P]. *)
Definition grows_by (P : event -> Prop) (w w' : world) : Prop :=
  c_protocol (wsi w') = c_protocol (wsi w)
  /\ exists evs, trace w' = trace w ++ evs /\ Forall P evs.

(** In a list of callbacks, every CLIENT_ESTABLISHED has a
    FILTER_PRE_ESTABLISH before it. *)
Definition filter_first (cbs : list callback_view) : Prop :=
  forall pre post,
    cbs = pre ++ User_cb LWS_CALLBACK_CLIENT_ESTABLISHED :: post ->
    In (User_cb LWS_CALLBACK_CLIENT_FILTER_PRE_ESTABLISH) pre.

(** The trace has grown by events whose callbacks are in that order. *)
Definition ordered (w w' : world) : Prop :=
  exists evs, trace w' = trace w ++ evs /\ filter_first (callbacks evs).

(** The offered protocols are the string they were, and the trace has
    grown by events that free them [k] times. *)
Definition frees_list (k : nat) (w w' : world) : Prop :=
  c_protocol (wsi w') = c_protocol (wsi w)
  /\ exists evs,
       trace w' = trace w ++ evs /\ count_free P_c_protocol evs = k.

(** The trace has grown by events that log the failed allocation of the
    receive buffer. *)
Definition rx_out_of_memory (w w' : world) : Prop :=
  exists evs, trace w' = trace w ++ evs /\ In LOG_RX_OUT_OF_MEM (logs evs).

(** * Properties *)
Example sha1_abc :
  hex_of_bytes (Sha1.SHA1 (bytes_of_string "abc")) =
  [169; 153; 62; 54; 71; 6; 129; 106; 186; 62; 37; 113; 120; 80; 194; 108;
   156; 208; 216; 157].
Proof. vm_compute. reflexivity. Qed.

Example b64_foobar :
  Base64.lws_b64_encode_string (bytes_of_string "foobar") = "Zm9vYmFy"%string
  /\ Base64.lws_b64_encode_string (bytes_of_string "fooba") = "Zm9vYmE="%string
  /\ Base64.lws_b64_encode_string (bytes_of_string "foob") = "Zm9vYg=="%string.
Proof. vm_compute. repeat split. Qed.

Example accept_rfc6455 :
  Base64.lws_b64_encode_string
    (Sha1.SHA1 (bytes_of_string
       "dGhlIHNhbXBsZSBub25jZQ==258EAFA5-E914-47DA-95CA-C5AB0DC85B11"))
  = "s3pPLMBiTxaQ9kYGzzhZRbK+xOo="%string.
Proof. vm_compute. reflexivity. Qed.

(** ** Strings *)

Lemma string_length_append (a b : string) :
  String.length (a ++ b) = (String.length a + String.length b)%nat.
Proof. induction a as [|c a IH]; simpl; [reflexivity | now rewrite IH]. Qed.

Lemma string_append_assoc (a b c : string) :
  ((a ++ b) ++ c = a ++ (b ++ c))%string.
Proof. induction a as [|x a IH]; simpl; [reflexivity | now rewrite IH]. Qed.

Lemma string_append_nil_r (a : string) : (a ++ "" = a)%string.
Proof. induction a as [|x a IH]; simpl; [reflexivity | now rewrite IH]. Qed.

Lemma truncate_short (n : nat) (s : string) :
  (String.length s <= n)%nat -> CStr.truncate n s = s.
Proof.
  revert n; induction s as [|c s IH]; intros [|n] H; simpl in *;
    try reflexivity; try lia.
  rewrite IH by lia. reflexivity.
Qed.

Lemma bytes_of_string_length (s : string) :
  List.length (bytes_of_string s) = String.length s.
Proof.
  unfold bytes_of_string.
  induction s as [|c s IH]; simpl; [reflexivity | now rewrite IH].
Qed.

(** ** The monad *)

Lemma bind_Ok {A B} (m : M A) (k : A -> M B) (w w' : world) (b : B) :
  bind m k w = Ok b w' ->
  exists a w1, m w = Ok a w1 /\ k a w1 = Ok b w'.
Proof.
  unfold bind. destruct (m w) as [a w1| |]; try discriminate.
  intros H. exists a, w1. split; [reflexivity | exact H].
Qed.

Lemma bind_eq_Ok {A B} (m : M A) (k : A -> M B) (w w1 : world) (a : A) :
  m w = Ok a w1 -> bind m k w = k a w1.
Proof. unfold bind. intros ->. reflexivity. Qed.

Lemma bind_eq_Goto {A B} (m : M A) (k : A -> M B) (w w1 : world) l :
  m w = Goto l w1 -> bind m k w = Goto l w1.
Proof. unfold bind. intros ->. reflexivity. Qed.

Lemma bind_eq_Fault {A B} (m : M A) (k : A -> M B) (w w1 : world) :
  m w = Fault w1 -> bind m k w = Fault w1.
Proof. unfold bind. intros ->. reflexivity. Qed.

(** What every run of a computation respects, from what its steps
    respect. *)
Section Respects.

Variable Q : world -> world -> Prop.
Hypothesis Q_refl : forall w, Q w w.
Hypothesis Q_trans : forall w1 w2 w3, Q w1 w2 -> Q w2 w3 -> Q w1 w3.

Lemma respects_ret {A} (a : A) : respects Q (ret a).
Proof. intros w. apply Q_refl. Qed.

Lemma respects_goto {A} (l : label) : respects Q (@goto A l).
Proof. intros w. apply Q_refl. Qed.

Lemma respects_null_dereference {A} : respects Q (@null_dereference A).
Proof. intros w. apply Q_refl. Qed.

Lemma respects_get_wsi : respects Q get_wsi.
Proof. intros w. apply Q_refl. Qed.

Lemma respects_bind {A B} (m : M A) (k : A -> M B) :
  respects Q m -> (forall a, respects Q (k a)) -> respects Q (bind m k).
Proof.
  intros Hm Hk w. unfold bind. specialize (Hm w).
  destruct (m w) as [a w1|l w1|w1]; cbn [world_of] in *.
  - apply (Q_trans _ _ _ Hm). apply Hk.
  - exact Hm.
  - exact Hm.
Qed.

(** A step that reads the connection first. *)
Lemma respects_reading {B} (k : libwebsocket -> M B) :
  (forall w, Q w (world_of (k (wsi w) w))) -> respects Q (bind get_wsi k).
Proof. intros H w. unfold bind, get_wsi. apply H. Qed.

End Respects.

Lemma callbacks_app (a b : list event) :
  callbacks (a ++ b) = callbacks a ++ callbacks b.
Proof. unfold callbacks. apply flat_map_app. Qed.

Lemma callbacks_cons (e : event) (tr : list event) :
  callbacks (e :: tr) = view_event e ++ callbacks tr.
Proof. reflexivity. Qed.

Lemma logs_app (a b : list event) : logs (a ++ b) = logs a ++ logs b.
Proof. unfold logs. apply flat_map_app. Qed.

Lemma logs_cons (e : event) (tr : list event) :
  logs (e :: tr) = log_of_event e ++ logs tr.
Proof. reflexivity. Qed.

(** ** The expected accept value (C1) *)

Lemma b64_length_16 (r : bytes) :
  List.length r = 16%nat ->
  String.length (Base64.lws_b64_encode_string r) = 24%nat.
Proof.
  intros H.
  do 17 (destruct r as [|? r]; try discriminate H).
  reflexivity.
Qed.

Lemma expected_accept_short (key_b64 : string) :
  (String.length key_b64 <= 91)%nat ->
  expected_accept key_b64 =
  Base64.lws_b64_encode_string
    (Sha1.SHA1 (bytes_of_string (key_b64 ++ magic_websocket_guid))).
Proof.
  intros H. unfold expected_accept.
  rewrite truncate_short.
  - rewrite <- bytes_of_string_length, firstn_all. reflexivity.
  - rewrite string_length_append. change (String.length magic_websocket_guid) with 36%nat. lia.
Qed.

(** ** The extension proposer (C6) *)

Lemma join_after_positive (names : list string) :
  forall ext_count, 0 < ext_count ->
  join_after ext_count names =
  match names with
  | [] => EmptyString
  | _ => ("," ++ String.concat "," names)%string
  end.
Proof.
  induction names as [|n rest IH]; intros ext_count H; simpl.
  - reflexivity.
  - destruct (Z.eqb_spec ext_count 0) as [E|_]; [lia|].
    rewrite IH by lia. destruct rest; simpl.
    + now rewrite string_append_nil_r.
    + reflexivity.
Qed.

Lemma join_after_zero (names : list string) :
  join_after 0 names = String.concat "," names.
Proof.
  destruct names as [|n rest]; simpl; [reflexivity|].
  rewrite join_after_positive by lia.
  destruct rest; simpl; [now rewrite string_append_nil_r | reflexivity].
Qed.

Lemma poll_extensions_spec (exts1 : list libwebsocket_extension) :
  forall i candidate n w,
  exists r w1 evs,
    poll_extensions exts1 i candidate n w = Ok r w1
    /\ wsi w1 = wsi w
    /\ trace w1 = trace w ++ evs
    /\ callbacks evs =
       map (fun v => Ext_cb (fst v) LWS_EXT_CALLBACK_CHECK_OK_TO_PROPOSE_EXTENSION)
         (registered exts1 i)
    /\ (r =? 0) = (n =? 0) && unvetoed (registered exts1 i) candidate.
Proof.
  induction exts1 as [|ext1 rest IH]; intros i candidate n w; simpl.
  - exists n, w, []. rewrite app_nil_r, andb_true_r. repeat split.
  - unfold call_ext. destruct (extension_callback ext1) as [f|] eqn:Ef.
    + unfold bind at 1. unfold bind at 1. unfold emit, ret.
      match goal with
      | |- context [poll_extensions rest (S i) candidate ?m ?v] =>
          destruct (IH (S i) candidate m v) as (r & w1 & evs & E & F & T & C & R)
      end.
      exists r, w1, (EvExtCallback i LWS_EXT_CALLBACK_CHECK_OK_TO_PROPOSE_EXTENSION None (Some candidate) :: evs).
      split; [exact E|]. split; [exact F|].
      split; [rewrite T; simpl; now rewrite <- app_assoc|].
      split; [rewrite callbacks_cons, C; reflexivity|].
      rewrite R. simpl. unfold poll at 1. simpl. rewrite Ef.
      rewrite andb_assoc. f_equal.
      destruct (Z.eqb_spec n 0) as [->|Hn]; simpl.
      * reflexivity.
      * apply Z.eqb_neq. intros H. apply Z.lor_eq_0_iff in H. tauto.
    + exists n, w, []. rewrite app_nil_r, andb_true_r. repeat split.
Qed.

Lemma propose_extensions_spec (context : libwebsocket_context)
  (cb : user_callback) :
  callback (protocol_at context 0) = Some cb ->
  forall exts j p ext_count w, 0 <= ext_count ->
  exists w1 evs,
    propose_extensions context exts p ext_count w
    = Ok (p ++ join_after ext_count
                 (survivors context cb (registered exts j)))%string w1
    /\ wsi w1 = wsi w
    /\ trace w1 = trace w ++ evs
    /\ callbacks evs = proposer_callbacks context (registered exts j).
Proof.
  intros Hcb.
  induction exts as [|ext rest IH]; intros j p ext_count w Hc; simpl.
  - exists w, []. rewrite string_append_nil_r, app_nil_r. repeat split.
  - destruct (extension_callback ext) as [f|] eqn:Ef.
    2:{ exists w, []. rewrite string_append_nil_r, app_nil_r. repeat split. }
    destruct (poll_extensions_spec (extensions context) 0 (extension_name ext) 0 w)
      as (n & w1 & evs1 & E1 & F1 & T1 & C1 & R1).
    rewrite (bind_eq_Ok _ _ _ _ _ E1).
    simpl in R1. unfold proposer_callbacks, survivors. simpl.
    fold (proposer_callbacks context (registered rest (S j))).
    fold (survivors context cb (registered rest (S j))).
    rewrite R1.
    destruct (unvetoed (registered (extensions context) 0) (extension_name ext)); simpl.
    + rewrite Hcb. unfold call. unfold bind at 1. unfold bind at 1.
      unfold emit, ret. fold (confirm cb (extension_name ext)).
      destruct (confirm cb (extension_name ext) =? 0); simpl.
      * match goal with
        | |- context [propose_extensions context rest ?q ?c ?v] =>
            destruct (IH (S j) q c v ltac:(lia)) as (w2 & evs2 & E2 & F2 & T2 & C2)
        end.
        exists w2, (evs1 ++ EvCallback LWS_CALLBACK_CLIENT_CONFIRM_EXTENSION_SUPPORTED (Some (extension_name ext)) 0 :: evs2).
        split.
        { rewrite E2. f_equal.
          destruct (ext_count =? 0); simpl;
            repeat rewrite string_append_assoc; reflexivity. }
        split; [simpl in F2; congruence|].
        split.
        { rewrite T2. simpl. rewrite T1. repeat rewrite <- app_assoc. reflexivity. }
        rewrite callbacks_app, callbacks_cons, C1, C2. simpl.
        rewrite <- app_assoc. reflexivity.
      * match goal with
        | |- context [propose_extensions context rest ?q ?c ?v] =>
            destruct (IH (S j) q c v Hc) as (w2 & evs2 & E2 & F2 & T2 & C2)
        end.
        exists w2, (evs1 ++ EvCallback LWS_CALLBACK_CLIENT_CONFIRM_EXTENSION_SUPPORTED (Some (extension_name ext)) 0 :: evs2).
        split; [exact E2|].
        split; [simpl in F2; congruence|].
        split.
        { rewrite T2. simpl. rewrite T1. repeat rewrite <- app_assoc. reflexivity. }
        rewrite callbacks_app, callbacks_cons, C1, C2. simpl.
        rewrite <- app_assoc. reflexivity.
    + destruct (IH (S j) p ext_count w1 Hc) as (w2 & evs2 & E2 & F2 & T2 & C2).
      exists w2, (evs1 ++ evs2).
      split; [exact E2|].
      split; [simpl in F2; congruence|].
      split; [rewrite T2, T1; now rewrite <- app_assoc|].
      rewrite callbacks_app, C1, C2, app_nil_r. reflexivity.
Qed.


(** ** The client request (C7) and what is stored with it *)

Lemma generate_spec (context : libwebsocket_context) (env : environment)
  (cb : user_callback) (w : world) :
  List.length (random env) = 16%nat ->
  callback (protocol_at context 0) = Some cb ->
  exists user_headers w' evs,
    libwebsockets_generate_client_handshake context env w
    = Ok (Some (client_request (wsi w)
                  (Base64.lws_b64_encode_string (random env))
                  (proposal context cb) user_headers)) w'
    /\ initial_handshake_hash_base64 (wsi w')
       = expected_accept (Base64.lws_b64_encode_string (random env))
    /\ trace w' = trace w ++ evs
    /\ callbacks evs
       = proposer_callbacks context (registered (extensions context) 0)
         ++ [User_cb LWS_CALLBACK_CLIENT_APPEND_HANDSHAKE_HEADER].
Proof.
  intros Hlen Hcb.
  unfold libwebsockets_generate_client_handshake.
  rewrite Hlen. change (negb (Nat.eqb 16 16)) with false. cbv iota.
  unfold bind at 1. unfold get_wsi at 1.
  match goal with
  | |- context [propose_extensions context (extensions context) ?q 0] =>
      destruct (propose_extensions_spec context cb Hcb (extensions context) 0%nat q 0 w ltac:(lia))
        as (w1 & evs1 & E1 & F1 & T1 & C1)
  end.
  rewrite (bind_eq_Ok _ _ _ _ _ E1).
  unfold append_handshake_header. rewrite Hcb.
  cbv beta iota zeta delta [bind emit ret update free free_c_origin get_wsi].
  cbn [wsi with_event with_wsi c_origin set_hdr].
  rewrite F1.
  unfold client_request, client_request_lines, origin_line, protocol_line,
    version_line, proposal.
  rewrite join_after_zero.
  destruct (c_origin (wsi w)) as [origin|];
    destruct (c_protocol (wsi w)) as [offered|];
    destruct (ietf_spec_revision (wsi w) =? 13);
    destruct (ietf_spec_revision (wsi w) =? 0);
    cbn [negb app String.concat];
    match goal with
    | |- context [cb_append cb ?a ?b] => exists (cb_append cb a b)
    end;
    (eexists; eexists;
     split;
     [ apply (f_equal2 (@Ok (option string))); [apply f_equal|reflexivity];
       match goal with
       | |- context [cb_append cb ?a ?b] => generalize (cb_append cb a b)
       end;
       intros user_headers;
       repeat rewrite string_append_assoc; cbn [String.append];
       reflexivity
     | split; [reflexivity|];
       split;
       [ cbn [trace with_event with_wsi]; rewrite T1;
         repeat rewrite <- app_assoc; reflexivity
       | rewrite callbacks_app, C1; reflexivity ] ]).
Qed.

(** The generator's request, with what the user callback was given
    and what it appended. *)
Lemma generate_exact (context : libwebsocket_context) (env : environment)
  (cb : user_callback) (w : world) :
  List.length (random env) = 16%nat ->
  callback (protocol_at context 0) = Some cb ->
  exists w' evs,
    libwebsockets_generate_client_handshake context env w
    = Ok (Some (client_request (wsi w)
                  (Base64.lws_b64_encode_string (random env))
                  (proposal context cb)
                  (user_appended context cb
                     (client_request_head (wsi w)
                        (Base64.lws_b64_encode_string (random env))
                        (proposal context cb))))) w'
    /\ trace w' = trace w ++ evs
    /\ callbacks evs
       = proposer_callbacks context (registered (extensions context) 0)
         ++ [User_cb LWS_CALLBACK_CLIENT_APPEND_HANDSHAKE_HEADER]
    /\ In (EvCallback LWS_CALLBACK_CLIENT_APPEND_HANDSHAKE_HEADER None
             (append_room context
                (client_request_head (wsi w)
                   (Base64.lws_b64_encode_string (random env))
                   (proposal context cb)))) evs.
Proof.
  intros Hlen Hcb.
  unfold libwebsockets_generate_client_handshake.
  rewrite Hlen. change (negb (Nat.eqb 16 16)) with false. cbv iota.
  unfold bind at 1. unfold get_wsi at 1.
  match goal with
  | |- context [propose_extensions context (extensions context) ?q 0] =>
      destruct (propose_extensions_spec context cb Hcb (extensions context)
                  0%nat q 0 w ltac:(lia))
        as (w1 & evs1 & E1 & F1 & T1 & C1)
  end.
  rewrite (bind_eq_Ok _ _ _ _ _ E1).
  unfold append_handshake_header. rewrite Hcb.
  cbv beta iota zeta delta [bind emit ret update free free_c_origin get_wsi].
  cbn [wsi with_event with_wsi c_origin set_hdr].
  rewrite F1.
  unfold user_appended, append_room, client_request_head, client_request,
    client_request_lines, origin_line, protocol_line, version_line, proposal.
  rewrite join_after_zero.
  destruct (c_origin (wsi w)) as [origin|];
    destruct (c_protocol (wsi w)) as [offered|];
    destruct (ietf_spec_revision (wsi w) =? 13);
    destruct (ietf_spec_revision (wsi w) =? 0);
    cbn [negb app String.concat];
    repeat rewrite string_append_assoc; cbn [String.append].
  all: (eexists; eexists; split; [reflexivity|]).
  all: cbn [trace with_event with_wsi]; rewrite T1.
  all: split; [repeat rewrite <- app_assoc; reflexivity|].
  all: split; [rewrite callbacks_app, C1; reflexivity|].
  all: apply in_or_app; right; left; reflexivity.
Qed.

Lemma concat_empty_app (a b : list string) :
  String.concat "" (a ++ b)
  = (String.concat "" a ++ String.concat "" b)%string.
Proof.
  induction a as [|x a IH]; [reflexivity|].
  destruct a as [|y a].
  - cbn [app]. destruct b as [|z b].
    + cbn [String.concat]. now rewrite string_append_nil_r.
    + reflexivity.
  - change (String.concat "" ((x :: y :: a) ++ b))
      with (x ++ "" ++ String.concat "" ((y :: a) ++ b))%string.
    rewrite IH. cbn [String.concat String.append].
    now rewrite string_append_assoc.
Qed.

(** The request is its head, what the user callback appended, and the
    closing CRLF. *)
Lemma client_request_after_head (s : libwebsocket) (key_b64 : string)
  (proposed : list string) (user_headers : string) :
  client_request s key_b64 proposed user_headers
  = (client_request_head s key_b64 proposed ++ user_headers ++ CRLF)%string.
Proof.
  unfold client_request, client_request_head, client_request_lines.
  rewrite !app_assoc. rewrite concat_empty_app. reflexivity.
Qed.

(** C7.  With a 16-byte nonce and a callback on the first protocol, the
    generator returns the request whose lines are, in this order: the
    request line, Pragma, Cache-Control, Host, Upgrade, Connection,
    Sec-WebSocket-Key, then (only when an origin is set) "Origin:" for
    revision 13 and "Sec-WebSocket-Origin:" for any other, then the
    offered protocols if any, the extensions line, the version line iff
    the revision is not zero, what the user callback appended, and the
    closing CRLF.  What the user callback appended is what it wrote when
    it was called with APPEND_HANDSHAKE_HEADER, given the request up to
    the version line and the room left in the service buffer less 12
    bytes; the request is those lines, the appended text and the CRLF,
    and nothing else. *)
Theorem C7_client_request (context : libwebsocket_context)
  (env : environment) (cb : user_callback) (w : world) :
  List.length (random env) = 16%nat ->
  callback (protocol_at context 0) = Some cb ->
  exists w' evs,
    libwebsockets_generate_client_handshake context env w
    = Ok (Some (client_request (wsi w)
                  (Base64.lws_b64_encode_string (random env))
                  (proposal context cb)
                  (user_appended context cb
                     (client_request_head (wsi w)
                        (Base64.lws_b64_encode_string (random env))
                        (proposal context cb))))) w'
    /\ client_request (wsi w)
         (Base64.lws_b64_encode_string (random env))
         (proposal context cb)
         (user_appended context cb
            (client_request_head (wsi w)
               (Base64.lws_b64_encode_string (random env))
               (proposal context cb)))
       = (client_request_head (wsi w)
            (Base64.lws_b64_encode_string (random env))
            (proposal context cb)
          ++ user_appended context cb
               (client_request_head (wsi w)
                  (Base64.lws_b64_encode_string (random env))
                  (proposal context cb))
          ++ CRLF)%string
    /\ (version_line (wsi w) = [] <-> ietf_spec_revision (wsi w) = 0)
    /\ trace w' = trace w ++ evs
    /\ callbacks evs
       = proposer_callbacks context (registered (extensions context) 0)
         ++ [User_cb LWS_CALLBACK_CLIENT_APPEND_HANDSHAKE_HEADER]
    /\ In (EvCallback LWS_CALLBACK_CLIENT_APPEND_HANDSHAKE_HEADER None
             (append_room context
                (client_request_head (wsi w)
                   (Base64.lws_b64_encode_string (random env))
                   (proposal context cb)))) evs.
Proof.
  intros Hlen Hcb.
  destruct (generate_exact context env cb w Hlen Hcb)
    as (w' & evs & E & T & C & A).
  exists w', evs.
  split; [exact E|]. split; [apply client_request_after_head|].
  split.
  { unfold version_line.
    destruct (Z.eqb_spec (ietf_spec_revision (wsi w)) 0) as [Hz|Hz].
    - split; intros _; [exact Hz|reflexivity].
    - split; [discriminate|intros Hr; contradiction]. }
  split; [exact T|]. split; [exact C|exact A].
Qed.

Lemma C7_client_request_witness :
  exists w' evs,
    libwebsockets_generate_client_handshake cookie_context
      (sample_environment nonce_1_to_16 None) unversioned
    = Ok (Some (client_request (wsi unversioned)
                  (Base64.lws_b64_encode_string
                     (random (sample_environment nonce_1_to_16 None)))
                  (proposal cookie_context cookie_callback)
                  (user_appended cookie_context cookie_callback
                     (client_request_head (wsi unversioned)
                        (Base64.lws_b64_encode_string
                           (random (sample_environment nonce_1_to_16 None)))
                        (proposal cookie_context cookie_callback))))) w'
    /\ client_request (wsi unversioned)
         (Base64.lws_b64_encode_string
            (random (sample_environment nonce_1_to_16 None)))
         (proposal cookie_context cookie_callback)
         (user_appended cookie_context cookie_callback
            (client_request_head (wsi unversioned)
               (Base64.lws_b64_encode_string
                  (random (sample_environment nonce_1_to_16 None)))
               (proposal cookie_context cookie_callback)))
       = (client_request_head (wsi unversioned)
            (Base64.lws_b64_encode_string
               (random (sample_environment nonce_1_to_16 None)))
            (proposal cookie_context cookie_callback)
          ++ user_appended cookie_context cookie_callback
               (client_request_head (wsi unversioned)
                  (Base64.lws_b64_encode_string
                     (random (sample_environment nonce_1_to_16 None)))
                  (proposal cookie_context cookie_callback))
          ++ CRLF)%string
    /\ (version_line (wsi unversioned) = []
        <-> ietf_spec_revision (wsi unversioned) = 0)
    /\ trace w' = trace unversioned ++ evs
    /\ callbacks evs
       = proposer_callbacks cookie_context
           (registered (extensions cookie_context) 0)
         ++ [User_cb LWS_CALLBACK_CLIENT_APPEND_HANDSHAKE_HEADER]
    /\ In (EvCallback LWS_CALLBACK_CLIENT_APPEND_HANDSHAKE_HEADER None
             (append_room cookie_context
                (client_request_head (wsi unversioned)
                   (Base64.lws_b64_encode_string
                      (random (sample_environment nonce_1_to_16 None)))
                   (proposal cookie_context cookie_callback)))) evs.
Proof.
  exact (C7_client_request cookie_context
           (sample_environment nonce_1_to_16 None) cookie_callback
           unversioned eq_refl eq_refl).
Defined.

(** The request of a client of revision 0 whose callback appends a
    cookie: no version line, and the cookie before the closing CRLF. *)
Example request_sample :
  value_of (libwebsockets_generate_client_handshake cookie_context
              (sample_environment nonce_1_to_16 None) unversioned)
  = Some (Some (String.concat CRLF
                  ["GET /chat HTTP/1.1"; "Pragma: no-cache";
                   "Cache-Control: no-cache"; "Host: server.example.com";
                   "Upgrade: websocket"; "Connection: Upgrade";
                   "Sec-WebSocket-Key: AQIDBAUGBwgJCgsMDQ4PEA==";
                   "Sec-WebSocket-Extensions: "; "Cookie: a=b"; ""; ""])%string).
Proof. vm_compute. reflexivity. Qed.

(** C1, as the code has it.  For every 16-byte nonce, the generator
    stores base64(SHA1(base64(nonce) followed by the GUID)) as the
    expected accept value; for the nonce 01 02 ... 10 that value is
    "C/0nmHhBztSRGR1CwL6Tf4ZjwpY=". *)
Theorem C1_expected_accept (context : libwebsocket_context)
  (env : environment) (cb : user_callback) (w : world) :
  List.length (random env) = 16%nat ->
  callback (protocol_at context 0) = Some cb ->
  exists p w',
    libwebsockets_generate_client_handshake context env w = Ok (Some p) w'
    /\ initial_handshake_hash_base64 (wsi w')
       = Base64.lws_b64_encode_string
           (Sha1.SHA1
              (bytes_of_string
                 (Base64.lws_b64_encode_string (random env)
                  ++ "258EAFA5-E914-47DA-95CA-C5AB0DC85B11")))
    /\ (random env = nonce_1_to_16 ->
        initial_handshake_hash_base64 (wsi w')
        = "C/0nmHhBztSRGR1CwL6Tf4ZjwpY="%string).
Proof.
  intros Hlen Hcb.
  destruct (generate_spec context env cb w Hlen Hcb)
    as (user_headers & w' & evs & E & H & _).
  rewrite expected_accept_short in H
    by (rewrite (b64_length_16 _ Hlen); lia).
  eexists; exists w'. split; [exact E|]. split; [exact H|].
  intros R. rewrite H, R. vm_compute. reflexivity.
Qed.

Lemma C1_expected_accept_witness :
  exists p w',
    libwebsockets_generate_client_handshake chat_context
      (sample_environment nonce_1_to_16 None) (requesting None) = Ok (Some p) w'
    /\ initial_handshake_hash_base64 (wsi w')
       = Base64.lws_b64_encode_string
           (Sha1.SHA1
              (bytes_of_string
                 (Base64.lws_b64_encode_string nonce_1_to_16
                  ++ "258EAFA5-E914-47DA-95CA-C5AB0DC85B11")))
    /\ (nonce_1_to_16 = nonce_1_to_16 ->
        initial_handshake_hash_base64 (wsi w')
        = "C/0nmHhBztSRGR1CwL6Tf4ZjwpY="%string).
Proof.
  exact (C1_expected_accept chat_context (sample_environment nonce_1_to_16 None)
           unhandled (requesting None) eq_refl eq_refl).
Defined.

(** C1 as stated fails at its golden value: for the nonce 01 02 ... 10
    the generator stores "C/0nmHhBztSRGR1CwL6Tf4ZjwpY=", not
    "9s+tbiL1atftAWKmEcpBvvOgk0E=". *)
Lemma C1_golden_value_differs :
  value_of golden_request <> None
  /\ initial_handshake_hash_base64 (wsi (world_of golden_request))
     = "C/0nmHhBztSRGR1CwL6Tf4ZjwpY="%string
  /\ initial_handshake_hash_base64 (wsi (world_of golden_request))
     <> "9s+tbiL1atftAWKmEcpBvvOgk0E="%string.
Proof. vm_compute. repeat split; discriminate. Qed.

(** C6, as the code has it.  For each registered extension in registry
    order, every registered extension, the candidate included, is polled
    with CHECK_OK_TO_PROPOSE_EXTENSION on the candidate's name, and any
    nonzero return excludes the candidate; a candidate that survives is
    excluded if the user callback CLIENT_CONFIRM_EXTENSION_SUPPORTED
    returns nonzero; exactly the surviving names are written,
    comma-joined, in registry order. *)
Theorem C6_extension_proposal (context : libwebsocket_context)
  (cb : user_callback) (p : string) (w : world) :
  callback (protocol_at context 0) = Some cb ->
  exists w' evs,
    propose_extensions context (extensions context) p 0 w
    = Ok (p ++ String.concat "," (proposal context cb))%string w'
    /\ trace w' = trace w ++ evs
    /\ callbacks evs
       = proposer_callbacks context (registered (extensions context) 0).
Proof.
  intros Hcb.
  destruct (propose_extensions_spec context cb Hcb (extensions context)
              0%nat p 0 w ltac:(lia)) as (w' & evs & E & _ & T & C).
  exists w', evs. rewrite join_after_zero in E. repeat split; assumption.
Qed.

Lemma C6_extension_proposal_witness :
  exists w' evs,
    propose_extensions three_extensions (extensions three_extensions)
      "Sec-WebSocket-Extensions: " 0 (requesting None)
    = Ok ("Sec-WebSocket-Extensions: "
          ++ String.concat "," (proposal three_extensions unhandled))%string
        w'
    /\ trace w' = trace (requesting None) ++ evs
    /\ callbacks evs
       = proposer_callbacks three_extensions
           (registered (extensions three_extensions) 0).
Proof.
  exact (C6_extension_proposal three_extensions unhandled
           "Sec-WebSocket-Extensions: " (requesting None) eq_refl).
Defined.

(** C6 as stated fails: a lone registered extension that objects to its
    own name is polled about itself and left out, although no other
    extension exists to veto it. *)
Lemma C6_candidate_polls_itself :
  value_of lone_objector_proposal = Some ""%string
  /\ callbacks (trace (world_of lone_objector_proposal))
     = [Ext_cb 0 LWS_EXT_CALLBACK_CHECK_OK_TO_PROPOSE_EXTENSION]
  /\ String.concat "," (proposal_polling_others lone_objector unhandled)
     = "x-test"%string.
Proof. vm_compute. repeat split. Qed.

(** ** The service of a connection that waits for the reply (C3, C10) *)

Section ServiceProperties.

Variable context : libwebsocket_context.
Variable env : environment.
Variable header_error : bytes -> bool.
Variable header_tokens : bytes -> token_index -> option string.

Lemma read_server_reply_response (d : dry_read) (trailing : bytes) :
  forall (response : bytes) (c : ascii) (w : world),
    parsing_complete (parser_state (wsi w)) = false ->
    ends_response header_error (parser_input (wsi w)) response = true ->
    exists w1,
      read_server_reply env header_error header_tokens d
        (response ++ trailing) c w = (Ok Loop_finished w1, trailing)
      /\ parser_state (wsi w1) = WSI_PARSING_COMPLETE
      /\ parser_input (wsi w1) = parser_input (wsi w) ++ response
      /\ trace w1 = trace w.
Proof.
  induction response as [|b rest IH]; intros c w Hnc Hr.
  - discriminate Hr.
  - cbn [ends_response] in Hr.
    apply andb_prop in Hr. destruct Hr as [Herr Hr].
    apply negb_true_iff in Herr.
    cbn [app read_server_reply]. rewrite Hnc.
    unfold libwebsocket_parse at 1.
    cbv beta iota zeta delta [bind get_wsi update ret].
    rewrite Herr.
    destruct (ends_with CRLFCRLF (parser_input (wsi w) ++ [b])) eqn:Hend.
    + destruct rest as [|b' rest']; [|discriminate Hr].
      cbn [negb Z.eqb app].
      destruct trailing as [|x trailing']; cbn [read_server_reply];
        cbn [wsi with_wsi parser_state set_hdr parsing_complete];
        (eexists; split; [reflexivity|]);
        cbn [wsi with_wsi parser_state set_hdr parser_input trace];
        repeat split.
    + cbn [negb Z.eqb].
      match goal with
      | |- context [read_server_reply _ _ _ _ _ b ?v] =>
          destruct (IH b v) as (w1 & E & S1 & I1 & T1)
      end.
      * cbn [wsi with_wsi parser_state set_hdr]. exact Hnc.
      * cbn [wsi with_wsi parser_input set_hdr]. exact Hr.
      * exists w1. split; [exact E|]. split; [exact S1|].
        split; [|exact T1].
        rewrite I1. cbn [wsi with_wsi parser_input set_hdr].
        rewrite <- app_assoc. reflexivity.
Qed.

Lemma ends_response_offset :
  forall (response fed : bytes),
    ends_response header_error fed response = true ->
    ends_with CRLFCRLF (fed ++ response) = true
    /\ forall k, (0 < k < List.length response)%nat ->
         ends_with CRLFCRLF (fed ++ firstn k response) = false.
Proof.
  induction response as [|b rest IH]; intros fed H.
  - discriminate H.
  - cbn [ends_response] in H.
    apply andb_prop in H. destruct H as [_ H].
    destruct (ends_with CRLFCRLF (fed ++ [b])) eqn:Hend.
    + destruct rest; [|discriminate H].
      split; [exact Hend|]. intros k Hk. simpl in Hk. lia.
    + destruct (IH _ H) as [Hfull Hpre].
      rewrite <- app_assoc in Hfull. split; [exact Hfull|].
      intros [|k] Hk; [lia|]. cbn [firstn].
      destruct k as [|k].
      * cbn [firstn]. exact Hend.
      * specialize (Hpre (S k)). rewrite <- app_assoc in Hpre.
        apply Hpre. simpl in Hk. lia.
Qed.

End ServiceProperties.

(** C3.  While the connection waits for the server's reply and the
    socket is readable, the bytes are taken from the transport one per
    read and fed to the parser in arrival order, and reading stops once
    the parser reports complete: when the pending bytes are the rest of
    a response that ends at its terminating CRLFCRLF, followed by any
    trailing bytes, exactly the bytes of the response are consumed, the
    interpreter is run on the completed headers, and the trailing bytes
    are still in the transport. *)
Theorem C3_no_over_read (context : libwebsocket_context) (env : environment)
  (header_error : bytes -> bool)
  (header_tokens : bytes -> token_index -> option string)
  (revents : Z) (c : ascii) (t : transport) (w : world)
  (response trailing : bytes) :
  mode (wsi w) = LWS_CONNMODE_WS_CLIENT_WAITING_SERVER_REPLY ->
  Z.land revents (Z.lor POLLERR POLLHUP) = 0 ->
  Z.land revents POLLIN <> 0 ->
  parsing_complete (parser_state (wsi w)) = false ->
  inbound t = response ++ trailing ->
  ends_response header_error (parser_input (wsi w)) response = true ->
  exists w1,
    lws_client_socket_service context env header_error header_tokens
      revents c t w
    = (lws_client_interpret_server_handshake context env w1,
       with_inbound trailing t)
    /\ parser_state (wsi w1) = WSI_PARSING_COMPLETE
    /\ parser_input (wsi w1) = parser_input (wsi w) ++ response
    /\ trace w1 = trace w
    /\ (List.length (inbound t)
        - List.length
            (inbound
               (snd (lws_client_socket_service context env header_error
                       header_tokens revents c t w)))
        = List.length response)%nat
    /\ ends_with CRLFCRLF (parser_input (wsi w) ++ response) = true
    /\ (forall k, (0 < k < List.length response)%nat ->
          ends_with CRLFCRLF (parser_input (wsi w) ++ firstn k response)
          = false).
Proof.
  intros Hmode Hdead Hin Hnc Hinb Hresp.
  destruct (read_server_reply_response env header_error header_tokens
              (dry t) trailing response c w Hnc Hresp)
    as (w1 & E & S1 & I1 & T1).
  destruct (ends_response_offset header_error response _ Hresp)
    as [Hfull Hpre].
  assert (Hrun :
    lws_client_socket_service context env header_error header_tokens
      revents c t w
    = (lws_client_interpret_server_handshake context env w1,
       with_inbound trailing t)).
  { unfold lws_client_socket_service. rewrite Hmode.
    unfold waiting_server_reply. rewrite Hdead. cbn [Z.eqb negb].
    apply Z.eqb_neq in Hin. rewrite Hin.
    rewrite Hinb, E, S1. reflexivity. }
  exists w1. split; [exact Hrun|].
  split; [exact S1|]. split; [exact I1|]. split; [exact T1|].
  split; [|split; assumption].
  rewrite Hrun, Hinb. cbn [snd inbound with_inbound].
  rewrite length_app. lia.
Qed.

Lemma C3_no_over_read_witness :
  exists w1,
    lws_client_socket_service chat_context (sample_environment [] None)
      lenient good_tokens POLLIN NUL
      {| inbound := short_reply ++ hello_frame; dry := Dry_error 0 |}
      (awaiting_reply None)
    = (lws_client_interpret_server_handshake chat_context
         (sample_environment [] None) w1,
       with_inbound hello_frame
         {| inbound := short_reply ++ hello_frame; dry := Dry_error 0 |})
    /\ parser_state (wsi w1) = WSI_PARSING_COMPLETE
    /\ parser_input (wsi w1)
       = parser_input (wsi (awaiting_reply None)) ++ short_reply
    /\ trace w1 = trace (awaiting_reply None)
    /\ (List.length (short_reply ++ hello_frame)
        - List.length
            (inbound
               (snd (lws_client_socket_service chat_context
                       (sample_environment [] None) lenient good_tokens
                       POLLIN NUL
                       {| inbound := short_reply ++ hello_frame;
                          dry := Dry_error 0 |}
                       (awaiting_reply None))))
        = List.length short_reply)%nat
    /\ ends_with CRLFCRLF
         (parser_input (wsi (awaiting_reply None)) ++ short_reply) = true
    /\ (forall k, (0 < k < List.length short_reply)%nat ->
          ends_with CRLFCRLF
            (parser_input (wsi (awaiting_reply None)) ++ firstn k short_reply)
          = false).
Proof.
  apply (C3_no_over_read chat_context (sample_environment [] None)
           lenient good_tokens POLLIN NUL
           {| inbound := short_reply ++ hello_frame; dry := Dry_error 0 |}
           (awaiting_reply None) short_reply hello_frame).
  - reflexivity.
  - reflexivity.
  - discriminate.
  - reflexivity.
  - reflexivity.
  - vm_compute. reflexivity.
Defined.

(** C10.  While the connection waits for the server's reply, an event
    whose revents has none of POLLIN, POLLERR and POLLHUP frees the
    offered-protocols string (if there is one) and closes the session
    with NOSTATUS, reading nothing; this is what an event with POLLERR
    or POLLHUP does. *)
Theorem C10_spurious_event_closes (context : libwebsocket_context)
  (env : environment) (header_error : bytes -> bool)
  (header_tokens : bytes -> token_index -> option string)
  (revents : Z) (c : ascii) (t : transport) (w : world) :
  mode (wsi w) = LWS_CONNMODE_WS_CLIENT_WAITING_SERVER_REPLY ->
  Z.land revents POLLIN = 0 ->
  Z.land revents POLLERR = 0 ->
  Z.land revents POLLHUP = 0 ->
  lws_client_socket_service context env header_error header_tokens
    revents c t w
  = (Ok 0 (with_event (EvClose LWS_CLOSE_STATUS_NOSTATUS)
             match c_protocol (wsi w) with
             | Some _ => with_event (EvFree P_c_protocol) w
             | None => w
             end), t)
  /\ forall dead,
       Z.land dead (Z.lor POLLERR POLLHUP) <> 0 ->
       lws_client_socket_service context env header_error header_tokens
         dead c t w
       = lws_client_socket_service context env header_error header_tokens
           revents c t w.
Proof.
  intros Hmode Hin Herr Hhup.
  assert (Hsvc : forall r, Z.land r (Z.lor POLLERR POLLHUP) <> 0
                           \/ Z.land r POLLIN = 0 ->
    lws_client_socket_service context env header_error header_tokens r c t w
    = (Ok 0 (with_event (EvClose LWS_CLOSE_STATUS_NOSTATUS)
               match c_protocol (wsi w) with
               | Some _ => with_event (EvFree P_c_protocol) w
               | None => w
               end), t)).
  { intros r Hr. unfold lws_client_socket_service. rewrite Hmode.
    unfold waiting_server_reply.
    assert (Hb : service_bail3 w
                 = Ok 0 (with_event (EvClose LWS_CLOSE_STATUS_NOSTATUS)
                           match c_protocol (wsi w) with
                           | Some _ => with_event (EvFree P_c_protocol) w
                           | None => w
                           end)).
    { unfold service_bail3, free_c_protocol,
        libwebsocket_close_and_free_session, free.
      cbv beta iota zeta delta [bind get_wsi emit ret].
      destruct (c_protocol (wsi w)); reflexivity. }
    destruct (Z.eqb_spec (Z.land r (Z.lor POLLERR POLLHUP)) 0) as [E|E];
      cbn [negb].
    - destruct Hr as [Hr|Hr]; [contradiction|].
      rewrite Hr. cbn [Z.eqb]. now rewrite Hb.
    - now rewrite Hb. }
  split.
  - apply Hsvc. right. exact Hin.
  - intros dead Hdead. rewrite (Hsvc dead) by (left; exact Hdead).
    rewrite (Hsvc revents) by (right; exact Hin). reflexivity.
Qed.

Lemma C10_spurious_event_closes_witness :
  lws_client_socket_service chat_context (sample_environment [] None)
    lenient good_tokens POLLOUT NUL
    {| inbound := short_reply; dry := Dry_zero |}
    (awaiting_reply (Some "chat"%string))
  = (Ok 0 (with_event (EvClose LWS_CLOSE_STATUS_NOSTATUS)
             match c_protocol (wsi (awaiting_reply (Some "chat"%string))) with
             | Some _ =>
                 with_event (EvFree P_c_protocol)
                   (awaiting_reply (Some "chat"%string))
             | None => awaiting_reply (Some "chat"%string)
             end),
     {| inbound := short_reply; dry := Dry_zero |})
  /\ forall dead,
       Z.land dead (Z.lor POLLERR POLLHUP) <> 0 ->
       lws_client_socket_service chat_context (sample_environment [] None)
         lenient good_tokens dead NUL
         {| inbound := short_reply; dry := Dry_zero |}
         (awaiting_reply (Some "chat"%string))
       = lws_client_socket_service chat_context (sample_environment [] None)
           lenient good_tokens POLLOUT NUL
           {| inbound := short_reply; dry := Dry_zero |}
           (awaiting_reply (Some "chat"%string)).
Proof.
  apply (C10_spurious_event_closes chat_context (sample_environment [] None)
           lenient good_tokens POLLOUT NUL
           {| inbound := short_reply; dry := Dry_zero |}
           (awaiting_reply (Some "chat"%string))); reflexivity.
Defined.

(** ** The interpreter: its loops and its cleanup *)

Lemma with_events_nil (w : world) : with_events [] w = w.
Proof. destruct w. unfold with_events. simpl. now rewrite app_nil_r. Qed.

Lemma with_events_event (e : event) (evs : list event) (w : world) :
  with_events evs (with_event e w) = with_events (e :: evs) w.
Proof.
  unfold with_events, with_event. simpl. now rewrite <- app_assoc.
Qed.

Lemma with_events_events (a b : list event) (w : world) :
  with_events b (with_events a w) = with_events (a ++ b) w.
Proof. unfold with_events. simpl. now rewrite <- app_assoc. Qed.

Lemma with_event_events (e : event) (w : world) :
  with_event e w = with_events [e] w.
Proof. reflexivity. Qed.

Lemma free_tokens_spec (ts : list token_index) :
  forall w, free_tokens ts w = Ok tt (with_events (token_frees (wsi w) ts) w).
Proof.
  induction ts as [|t ts IH]; intros w; cbn [free_tokens token_frees flat_map].
  - unfold ret. now rewrite with_events_nil.
  - cbv beta iota delta [bind get_wsi free emit ret].
    destruct (hdrs (wsi w) t); rewrite IH.
    + cbn [wsi with_event]. now rewrite with_events_event.
    + reflexivity.
Qed.

Lemma free_c_protocol_spec (w : world) :
  free_c_protocol w = Ok tt (with_events (c_protocol_free (wsi w)) w).
Proof.
  unfold free_c_protocol, c_protocol_free.
  cbv beta iota delta [bind get_wsi free emit ret].
  destruct (c_protocol (wsi w)); [reflexivity|].
  now rewrite with_events_nil.
Qed.

(** The cleanup from [bail2:] on always returns 1; it delivers the
    connection error if a callback is bound, frees the header slots and
    closes the session with PROTOCOL_ERR. *)
Lemma at_bail2_spec (w : world) :
  at_bail2 w
  = Ok 1 (with_events
            (connection_error (wsi w) ++ token_frees (wsi w) all_tokens
             ++ [EvClose LWS_CLOSE_STATUS_PROTOCOL_ERR]) w).
Proof.
  unfold at_bail2, connection_error.
  unfold bind at 1. unfold get_wsi at 1.
  destruct (c_callback (wsi w)) as [cb|].
  - unfold call, libwebsocket_close_and_free_session.
    cbv beta iota delta [bind emit ret].
    rewrite free_tokens_spec. cbn [wsi with_event with_events].
    rewrite with_event_events, with_events_events.
    rewrite with_event_events, with_events_events.
    reflexivity.
  - unfold libwebsocket_close_and_free_session.
    cbv beta iota delta [bind emit ret].
    rewrite free_tokens_spec.
    rewrite with_event_events, with_events_events. reflexivity.
Qed.

Lemma interpret_labels_spec (l : label) (w : world) :
  interpret_labels l w
  = Ok 1 (with_events
            ((match l with
              | bail3 => c_protocol_free (wsi w)
              | bail2 => []
              end)
             ++ connection_error (wsi w) ++ token_frees (wsi w) all_tokens
             ++ [EvClose LWS_CLOSE_STATUS_PROTOCOL_ERR]) w).
Proof.
  destruct l; unfold interpret_labels.
  - apply at_bail2_spec.
  - unfold bind. rewrite free_c_protocol_spec, at_bail2_spec.
    cbn [wsi with_events]. now rewrite with_events_events.
Qed.

Lemma any_wsi_established_spec (exts : list libwebsocket_extension) :
  forall i w,
    any_wsi_established exts i w
    = Ok tt (with_events
               (map (fun e =>
                       EvExtCallback (fst e) LWS_EXT_CALLBACK_ANY_WSI_ESTABLISHED
                         (active_user (fst e) (active_extensions (wsi w))) None)
                  (registered exts i)) w).
Proof.
  induction exts as [|ext exts IH]; intros i w;
    cbn [any_wsi_established registered map].
  - unfold ret. now rewrite with_events_nil.
  - unfold call_ext.
    destruct (extension_callback ext) as [f|]; cbn [map].
    + cbv beta iota delta [bind get_wsi emit ret].
      rewrite IH. cbn [wsi with_event fst].
      now rewrite with_events_event.
    + unfold ret. now rewrite with_events_nil.
Qed.

Section InterpreterLoops.

Variable context : libwebsocket_context.
Variable env : environment.

Lemma named_cons (ext_name : string) (i : nat)
  (ext : libwebsocket_extension) (l : list (nat * libwebsocket_extension)) :
  named ext_name ((i, ext) :: l)
  = if CStr.strcmp_eq ext_name (extension_name ext)
    then i :: named ext_name l else named ext_name l.
Proof.
  unfold named. cbn [filter snd].
  destruct (CStr.strcmp_eq ext_name (extension_name ext)); reflexivity.
Qed.

(** The walk over the registry for one name: it constructs every
    registered extension of that name, in registry order, and it can
    only be cut short by a failed allocation. *)
Lemma instantiate_outcome (exts : list libwebsocket_extension) :
  forall i ext_name n w,
    match instantiate env exts i ext_name n w with
    | Ok b w1 =>
        exists new evs,
          wsi w1
          = set_active_extensions (active_extensions (wsi w) ++ new) (wsi w)
          /\ trace w1 = trace w ++ evs
          /\ map fst new = named ext_name (registered exts i)
          /\ callbacks evs = map construct (named ext_name (registered exts i))
          /\ logs evs = []
          /\ b = n || match named ext_name (registered exts i) with
                      | [] => false
                      | _ => true
                      end
    | Goto l w1 =>
        l = bail2
        /\ (exists k, malloc_ok env k = false)
        /\ exists evs,
             trace w1 = trace w ++ evs /\ logs evs = [LOG_EXT_OUT_OF_MEM]
    | Fault _ => False
    end.
Proof.
  induction exts as [|ext exts IH]; intros i ext_name n w;
    cbn [instantiate registered].
  - unfold ret. exists [], []. rewrite !app_nil_r, orb_false_r.
    destruct (wsi w); repeat split.
  - destruct (extension_callback ext) as [f|] eqn:Ef.
    2:{ unfold ret. exists [], []. rewrite !app_nil_r, orb_false_r.
        destruct (wsi w); repeat split. }
    rewrite named_cons.
    destruct (CStr.strcmp_eq ext_name (extension_name ext)); cbn [negb].
    2:{ apply IH. }
    unfold malloc, call_ext, lwsl. rewrite Ef.
    cbv beta iota zeta delta [bind emit ret update goto].
    destruct (malloc_ok env (mallocs w)) eqn:Hm.
    2:{ split; [reflexivity|]. split; [exists (mallocs w); exact Hm|].
        eexists [_; _]. cbn [trace with_event with_malloc].
        rewrite <- app_assoc. split; reflexivity. }
    match goal with
    | |- context [instantiate env exts (S i) ext_name true ?v] =>
        specialize (IH (S i) ext_name true v);
        destruct (instantiate env exts (S i) ext_name true v)
          as [b w1|l w1|w1]
    end.
    + destruct IH as (new & evs & Hw & Ht & Hn & Hc & Hl & Hb).
      cbn [wsi trace with_wsi with_event with_malloc active_extensions
             set_active_extensions] in Hw, Ht.
      eexists ((i, _) :: new), (_ :: _ :: evs).
      split.
      { rewrite Hw. rewrite <- app_assoc. reflexivity. }
      split.
      { rewrite Ht. rewrite <- !app_assoc. reflexivity. }
      split; [cbn [map fst]; now rewrite Hn|].
      split.
      { rewrite !callbacks_cons, Hc. reflexivity. }
      split.
      { rewrite !logs_cons, Hl. reflexivity. }
      rewrite Hb. now rewrite orb_true_r.
    + destruct IH as (Hl & Hk & evs & Ht & Hlog).
      split; [exact Hl|]. split; [exact Hk|].
      cbn [trace with_wsi with_event with_malloc] in Ht.
      eexists (_ :: _ :: evs). split.
      { rewrite Ht. rewrite <- !app_assoc. reflexivity. }
      rewrite !logs_cons, Hlog. reflexivity.
    + exact IH.
Qed.

Lemma accepted_cons (nm : string) (names : list string) :
  accepted_extensions context (nm :: names)
  = named nm (registered (extensions context) 0)
    ++ accepted_extensions context names.
Proof. reflexivity. Qed.

(** One name of the server's list. *)
Lemma check_extension_outcome (ext_name : string) (w : world) :
  match check_extension context env ext_name w with
  | Ok _ w1 =>
      exists new evs,
        wsi w1
        = set_active_extensions (active_extensions (wsi w) ++ new) (wsi w)
        /\ trace w1 = trace w ++ evs
        /\ map fst new = named ext_name (registered (extensions context) 0)
        /\ callbacks evs
           = map construct (named ext_name (registered (extensions context) 0))
        /\ logs evs = []
        /\ is_registered context ext_name = true
  | Goto l w1 =>
      l = bail2
      /\ exists evs,
           trace w1 = trace w ++ evs
           /\ (((exists k, malloc_ok env k = false)
                /\ logs evs = [LOG_EXT_OUT_OF_MEM])
               \/ (is_registered context ext_name = false
                   /\ logs evs = [LOG_UNKNOWN_EXTENSION]))
  | Fault _ => False
  end.
Proof.
  unfold check_extension. unfold bind at 1.
  pose proof (instantiate_outcome (extensions context) 0 ext_name false w)
    as H.
  destruct (instantiate env (extensions context) 0 ext_name false w)
    as [b w1|l w1|w1].
  - destruct H as (new & evs & Hw & Ht & Hn & Hc & Hl & Hb).
    cbn [orb] in Hb. unfold is_registered. rewrite <- Hb.
    destruct b.
    + unfold ret. exists new, evs. repeat split; assumption.
    + cbv beta iota delta [bind lwsl emit goto].
      split; [reflexivity|].
      exists (evs ++ [EvLog LOG_UNKNOWN_EXTENSION]).
      cbn [trace with_event]. rewrite Ht, <- app_assoc.
      split; [reflexivity|]. right. split; [reflexivity|].
      rewrite logs_app, Hl. reflexivity.
  - destruct H as (-> & Hk & evs & Ht & Hlog). split; [reflexivity|].
    exists evs. split; [exact Ht|]. left. split; assumption.
  - exact H.
Qed.

(** The loop over the server's list: it looks up the names in their
    order and constructs what they stand for; it stops at a name that
    is not registered or at a failed allocation. *)
Lemma check_extensions_loop_outcome (c : string) :
  forall ext_name w,
    match check_extensions_loop context env c ext_name w with
    | Ok _ w1 =>
        exists new evs,
          wsi w1
          = set_active_extensions (active_extensions (wsi w) ++ new) (wsi w)
          /\ trace w1 = trace w ++ evs
          /\ map fst new
             = accepted_extensions context (server_extension_names c ext_name)
          /\ callbacks evs
             = map construct
                 (accepted_extensions context
                    (server_extension_names c ext_name))
          /\ logs evs = []
          /\ forallb (is_registered context)
               (server_extension_names c ext_name) = true
    | Goto l w1 =>
        l = bail2
        /\ exists evs,
             trace w1 = trace w ++ evs
             /\ (((exists k, malloc_ok env k = false)
                  /\ logs evs = [LOG_EXT_OUT_OF_MEM])
                 \/ (forallb (is_registered context)
                       (server_extension_names c ext_name) = false
                     /\ logs evs = [LOG_UNKNOWN_EXTENSION]))
    | Fault _ => False
    end.
Proof.
  induction c as [|x c IH]; intros ext_name w;
    cbn [check_extensions_loop server_extension_names].
  - pose proof (check_extension_outcome ext_name w) as H.
    destruct (check_extension context env ext_name w) as [u w1|l w1|w1].
    + destruct H as (new & evs & Hw & Ht & Hn & Hc & Hl & Hr).
      exists new, evs. unfold accepted_extensions. cbn [flat_map forallb].
      rewrite app_nil_r, Hr. repeat split; assumption.
    + destruct H as (-> & evs & Ht & [[Hk Hlog]|[Hr Hlog]]);
        (split; [reflexivity|]); exists evs; (split; [exact Ht|]).
      * left. split; assumption.
      * right. cbn [forallb]. rewrite Hr. split; [reflexivity | exact Hlog].
    + exact H.
  - destruct (negb (is_separator x)); [apply IH|].
    destruct (String.length ext_name =? 0)%nat; [apply IH|].
    unfold bind.
    pose proof (check_extension_outcome ext_name w) as H.
    destruct (check_extension context env ext_name w) as [u w1|l w1|w1].
    + destruct H as (new & evs & Hw & Ht & Hn & Hc & Hl & Hr).
      specialize (IH EmptyString w1).
      destruct (check_extensions_loop context env c EmptyString w1)
        as [u2 w2|l2 w2|w2].
      * destruct IH as (new2 & evs2 & Hw2 & Ht2 & Hn2 & Hc2 & Hl2 & Hr2).
        exists (new ++ new2), (evs ++ evs2).
        split.
        { rewrite Hw2, Hw. cbn [active_extensions set_active_extensions].
          now rewrite <- app_assoc. }
        split; [rewrite Ht2, Ht; now rewrite <- app_assoc|].
        split; [rewrite map_app, Hn, Hn2; reflexivity|].
        split.
        { rewrite callbacks_app, Hc, Hc2, accepted_cons, map_app.
          reflexivity. }
        split; [rewrite logs_app, Hl, Hl2; reflexivity|].
        cbn [forallb]. now rewrite Hr, Hr2.
      * destruct IH as (-> & evs2 & Ht2 & [[Hk Hlog]|[Hr2 Hlog]]);
          (split; [reflexivity|]); exists (evs ++ evs2);
          (split; [rewrite Ht2, Ht; now rewrite <- app_assoc|]).
        -- left. split; [exact Hk|]. rewrite logs_app, Hl. exact Hlog.
        -- right. cbn [forallb]. rewrite Hr2.
           split; [apply andb_false_r|]. rewrite logs_app, Hl. exact Hlog.
      * exact IH.
    + destruct H as (-> & evs & Ht & [[Hk Hlog]|[Hr Hlog]]);
        (split; [reflexivity|]); exists evs; (split; [exact Ht|]).
      * left. split; assumption.
      * right. cbn [forallb]. rewrite Hr. split; [reflexivity | exact Hlog].
    + exact H.
Qed.

End InterpreterLoops.

(** ** The interpreter: its checks *)

Section InterpreterChecks.

Variable context : libwebsocket_context.
Variable env : environment.

Lemma with_labels_Ok {A} (body : M A) (handler : label -> M A)
  (w w' : world) (a : A) :
  with_labels body handler w = Ok a w' ->
  body w = Ok a w'
  \/ exists l w1, body w = Goto l w1 /\ handler l w1 = Ok a w'.
Proof.
  unfold with_labels. destruct (body w) as [b w1|l w1|w1]; intros H.
  - left. exact H.
  - right. exists l, w1. split; [reflexivity | exact H].
  - discriminate H.
Qed.

Lemma check_status_outcome (w : world) :
  check_status w
  = match hdrs (wsi w) WSI_TOKEN_HTTP with
    | None => Fault w
    | Some v =>
        let w1 := with_wsi (set_token WSI_TOKEN_HTTP
                              (Some (CStr.strtolower v))) w in
        if CStr.strncmp_eq (CStr.strtolower v) "101" 3 then Ok tt w1
        else Goto bail3 (with_event (EvLog LOG_BAD_HTTP_RESPONSE) w1)
    end.
Proof.
  unfold check_status, strtolower_token, lwsl.
  cbv beta iota zeta delta [bind get_wsi update emit ret goto null_dereference].
  destruct (hdrs (wsi w) WSI_TOKEN_HTTP) as [v|]; [|reflexivity].
  destruct (CStr.strncmp_eq (CStr.strtolower v) "101" 3); reflexivity.
Qed.

Lemma check_upgrade_outcome (w : world) :
  check_upgrade w
  = match hdrs (wsi w) WSI_TOKEN_UPGRADE with
    | None => Fault w
    | Some v =>
        let w1 := with_wsi (set_token WSI_TOKEN_UPGRADE
                              (Some (CStr.strtolower v))) w in
        if CStr.strcmp_eq (CStr.strtolower v) "websocket" then Ok tt w1
        else Goto bail3 (with_event (EvLog LOG_BAD_UPGRADE) w1)
    end.
Proof.
  unfold check_upgrade, strtolower_token, lwsl.
  cbv beta iota zeta delta [bind get_wsi update emit ret goto null_dereference].
  destruct (hdrs (wsi w) WSI_TOKEN_UPGRADE) as [v|]; [|reflexivity].
  destruct (CStr.strcmp_eq (CStr.strtolower v) "websocket"); reflexivity.
Qed.

Lemma check_connection_outcome (w : world) :
  check_connection w
  = match hdrs (wsi w) WSI_TOKEN_CONNECTION with
    | None => Fault w
    | Some v =>
        let w1 := with_wsi (set_token WSI_TOKEN_CONNECTION
                              (Some (CStr.strtolower v))) w in
        if CStr.strcmp_eq (CStr.strtolower v) "upgrade" then Ok tt w1
        else Goto bail3 (with_event (EvLog LOG_BAD_CONNECTION) w1)
    end.
Proof.
  unfold check_connection, strtolower_token, lwsl.
  cbv beta iota zeta delta [bind get_wsi update emit ret goto null_dereference].
  destruct (hdrs (wsi w) WSI_TOKEN_CONNECTION) as [v|]; [|reflexivity].
  destruct (CStr.strcmp_eq (CStr.strtolower v) "upgrade"); reflexivity.
Qed.

Lemma select_protocol_outcome (w : world) :
  select_protocol context w
  = if Nat.eqb (token_len (wsi w) WSI_TOKEN_PROTOCOL) 0
    then Ok tt (selected context 0 w)
    else
      match c_protocol (wsi w), hdrs (wsi w) WSI_TOKEN_PROTOCOL with
      | Some pc, Some token =>
          if protocol_offered (String.length pc) pc token then
            match find_protocol (protocols context) token 0 with
            | Some n => Ok tt (selected context n w)
            | None =>
                Goto bail2
                  (with_event (EvLog LOG_PROTOCOL_NOT_SUPPORTED)
                     (with_wsi (set_protocol None)
                        (with_events (c_protocol_free (wsi w)) w)))
            end
          else
            Goto bail2
              (with_event (EvLog LOG_BAD_PROTOCOL)
                 (with_events (c_protocol_free (wsi w)) w))
      | _, _ => Fault w
      end.
Proof.
  unfold select_protocol, selected.
  unfold bind at 1. unfold get_wsi at 1.
  destruct (Nat.eqb (token_len (wsi w) WSI_TOKEN_PROTOCOL) 0).
  - cbv beta iota delta [bind update]. rewrite free_c_protocol_spec.
    reflexivity.
  - destruct (c_protocol (wsi w)) as [pc|] eqn:Hpc; [|reflexivity].
    destruct (hdrs (wsi w) WSI_TOKEN_PROTOCOL) as [token|]; [|reflexivity].
    unfold bind at 1. rewrite free_c_protocol_spec.
    destruct (protocol_offered (String.length pc) pc token); cbn [negb].
    + unfold lwsl.
      cbv beta iota delta [bind update emit goto].
      destruct (find_protocol (protocols context) token 0) as [n|];
        reflexivity.
    + reflexivity.
Qed.

End InterpreterChecks.

Section InterpreterCommit.

Variable context : libwebsocket_context.
Variable env : environment.

Lemma callbacks_token_frees (s : libwebsocket) (ts : list token_index) :
  callbacks (token_frees s ts) = [].
Proof.
  induction ts as [|t ts IH]; [reflexivity|].
  cbn [token_frees flat_map]. fold (token_frees s ts).
  rewrite callbacks_app, IH. destruct (hdrs s t); reflexivity.
Qed.

Lemma logs_token_frees (s : libwebsocket) (ts : list token_index) :
  logs (token_frees s ts) = [].
Proof.
  induction ts as [|t ts IH]; [reflexivity|].
  cbn [token_frees flat_map]. fold (token_frees s ts).
  rewrite logs_app, IH. destruct (hdrs s t); reflexivity.
Qed.

Lemma callbacks_any_wsi
  (f : nat * libwebsocket_extension -> option block)
  (l : list (nat * libwebsocket_extension)) :
  callbacks
    (map (fun e => EvExtCallback (fst e) LWS_EXT_CALLBACK_ANY_WSI_ESTABLISHED
                     (f e) None) l)
  = map (fun e => Ext_cb (fst e) LWS_EXT_CALLBACK_ANY_WSI_ESTABLISHED) l.
Proof.
  induction l as [|e l IH]; [reflexivity|].
  cbn [map]. rewrite callbacks_cons, IH. reflexivity.
Qed.

Lemma logs_any_wsi
  (f : nat * libwebsocket_extension -> option block)
  (l : list (nat * libwebsocket_extension)) :
  logs
    (map (fun e => EvExtCallback (fst e) LWS_EXT_CALLBACK_ANY_WSI_ESTABLISHED
                     (f e) None) l)
  = [].
Proof.
  induction l as [|e l IH]; [reflexivity|].
  cbn [map]. rewrite logs_cons, IH. reflexivity.
Qed.

Lemma check_accept_outcome (w : world) :
  check_accept w
  = match hdrs (wsi w) WSI_TOKEN_ACCEPT with
    | None => Fault w
    | Some v =>
        if CStr.strcmp_eq v (initial_handshake_hash_base64 (wsi w))
        then Ok tt w
        else Goto bail2 (with_event (EvLog LOG_BAD_ACCEPT) w)
    end.
Proof.
  unfold check_accept, lwsl.
  cbv beta iota delta [bind get_wsi emit ret goto null_dereference].
  destruct (hdrs (wsi w) WSI_TOKEN_ACCEPT) as [v|]; [|reflexivity].
  destruct (CStr.strcmp_eq v (initial_handshake_hash_base64 (wsi w)));
    reflexivity.
Qed.

Lemma check_extensions_outcome (w : world) :
  match check_extensions context env w with
  | Ok _ w1 =>
      exists new evs,
        wsi w1
        = set_active_extensions (active_extensions (wsi w) ++ new) (wsi w)
        /\ trace w1 = trace w ++ evs
        /\ map fst new
           = accepted_extensions context (server_extensions (wsi w))
        /\ callbacks evs
           = map construct
               (accepted_extensions context (server_extensions (wsi w)))
        /\ logs evs = []
        /\ forallb (is_registered context) (server_extensions (wsi w)) = true
  | Goto l w1 =>
      l = bail2
      /\ exists evs,
           trace w1 = trace w ++ evs
           /\ (((exists k, malloc_ok env k = false)
                /\ logs evs = [LOG_EXT_OUT_OF_MEM])
               \/ (forallb (is_registered context)
                     (server_extensions (wsi w)) = false
                   /\ logs evs = [LOG_UNKNOWN_EXTENSION]))
  | Fault _ => False
  end.
Proof.
  unfold check_extensions, server_extensions.
  unfold bind at 1. unfold get_wsi at 1.
  destruct (hdrs (wsi w) WSI_TOKEN_EXTENSIONS) as [c|].
  - destruct (Nat.eqb (String.length c) 0).
    + unfold ret. exists [], []. rewrite !app_nil_r.
      destruct (wsi w); repeat split.
    + apply check_extensions_loop_outcome.
  - unfold ret. exists [], []. rewrite !app_nil_r.
    destruct (wsi w); repeat split.
Qed.

(** The commit after the user space: the last-chance callback, the
    release of the header slots, the receive buffer and the
    notifications. *)
Lemma commit_tail_outcome (p : libwebsocket_protocols) (w0 : world) :
  match
    (call (callback p) LWS_CALLBACK_CLIENT_FILTER_PRE_ESTABLISH None 0 ;;
     libwebsocket_set_timeout NO_PENDING_TIMEOUT 0 ;;
     free_tokens all_tokens ;;
     update (set_state WSI_STATE_ESTABLISHED) ;;
     update (set_mode LWS_CONNMODE_WS_CLIENT) ;;
     update union_transition ;;
     b <- malloc env (rx_buffer_alloc_size context p) ;;
     update (set_rx_user_buffer b) ;;
     match b with
     | None => lwsl LOG_RX_OUT_OF_MEM ;; goto bail3
     | Some _ =>
         call (callback p) LWS_CALLBACK_CLIENT_ESTABLISHED None 0 ;;
         any_wsi_established (extensions context) 0 ;;
         ret 0
     end) w0
  with
  | Ok a w' =>
      a = 0
      /\ exists cb b evs,
           callback p = Some cb
           /\ rx_user_buffer (wsi w') = Some b
           /\ blk_size b = rx_buffer_alloc_size context p
           /\ protocol (wsi w') = protocol (wsi w0)
           /\ c_callback (wsi w') = c_callback (wsi w0)
           /\ mode (wsi w') = LWS_CONNMODE_WS_CLIENT
           /\ state (wsi w') = WSI_STATE_ESTABLISHED
           /\ trace w' = trace w0 ++ evs
           /\ callbacks evs
              = [User_cb LWS_CALLBACK_CLIENT_FILTER_PRE_ESTABLISH;
                 User_cb LWS_CALLBACK_CLIENT_ESTABLISHED]
                ++ any_wsi_notifications context
           /\ logs evs = []
  | Goto _ _ => exists k, malloc_ok env k = false
  | Fault _ => callback p = None
  end.
Proof.
  destruct (callback p) as [cb|] eqn:Hcb; [|reflexivity].
  unfold call, libwebsocket_set_timeout, malloc, lwsl.
  cbv beta iota zeta delta [bind emit ret update goto].
  rewrite free_tokens_spec.
  cbn [wsi mallocs with_wsi with_event with_events with_malloc].
  destruct (malloc_ok env (mallocs w0)) eqn:Hm.
  2:{ exists (mallocs w0). exact Hm. }
  rewrite any_wsi_established_spec.
  split; [reflexivity|].
  eexists cb, _, _. split; [reflexivity|].
  cbn [wsi trace with_wsi with_event with_events with_malloc
         rx_user_buffer set_rx_user_buffer blk_size protocol c_callback
         mode state union_transition set_hdr set_mode set_state].
  split; [reflexivity|]. split; [reflexivity|].
  split; [reflexivity|]. split; [reflexivity|].
  split; [reflexivity|]. split; [reflexivity|].
  split.
  { rewrite <- !app_assoc. reflexivity. }
  split.
  { rewrite !callbacks_app, callbacks_token_frees, callbacks_any_wsi.
    reflexivity. }
  rewrite !logs_app, logs_token_frees, logs_any_wsi. reflexivity.
Qed.

(** The commit, from the user space on: it returns 0 once the user
    space and the receive buffer are allocated; only a failed
    allocation makes it jump, and only a missing protocol callback
    makes it fault. *)
Lemma establish_outcome (w : world) :
  match establish context env w with
  | Ok a w' =>
      a = 0
      /\ exists n cb b evs,
           protocol (wsi w) = Some n
           /\ callback (protocol_at context n) = Some cb
           /\ rx_user_buffer (wsi w') = Some b
           /\ blk_size b = rx_buffer_alloc_size context (protocol_at context n)
           /\ protocol (wsi w') = Some n
           /\ c_callback (wsi w') = c_callback (wsi w)
           /\ mode (wsi w') = LWS_CONNMODE_WS_CLIENT
           /\ state (wsi w') = WSI_STATE_ESTABLISHED
           /\ trace w' = trace w ++ evs
           /\ callbacks evs
              = [User_cb LWS_CALLBACK_CLIENT_FILTER_PRE_ESTABLISH;
                 User_cb LWS_CALLBACK_CLIENT_ESTABLISHED]
                ++ any_wsi_notifications context
           /\ logs evs = []
  | Goto l w1 => exists k, malloc_ok env k = false
  | Fault w1 =>
      match protocol (wsi w) with
      | None => True
      | Some n => callback (protocol_at context n) = None
      end
  end.
Proof.
  unfold establish, the_protocol.
  unfold bind at 1. unfold get_wsi at 1. unfold bind at 1.
  destruct (protocol (wsi w)) as [n|] eqn:Hn; [|exact I].
  unfold ret at 1.
  set (p := protocol_at context n).
  assert (Hstep : forall w0 evs0,
    protocol (wsi w0) = Some n ->
    c_callback (wsi w0) = c_callback (wsi w) ->
    trace w0 = trace w ++ evs0 -> callbacks evs0 = [] -> logs evs0 = [] ->
    match
      (call (callback p) LWS_CALLBACK_CLIENT_FILTER_PRE_ESTABLISH None 0 ;;
       libwebsocket_set_timeout NO_PENDING_TIMEOUT 0 ;;
       free_tokens all_tokens ;;
       update (set_state WSI_STATE_ESTABLISHED) ;;
       update (set_mode LWS_CONNMODE_WS_CLIENT) ;;
       update union_transition ;;
       b <- malloc env (rx_buffer_alloc_size context p) ;;
       update (set_rx_user_buffer b) ;;
       match b with
       | None => lwsl LOG_RX_OUT_OF_MEM ;; goto bail3
       | Some _ =>
           call (callback p) LWS_CALLBACK_CLIENT_ESTABLISHED None 0 ;;
           any_wsi_established (extensions context) 0 ;;
           ret 0
       end) w0
    with
    | Ok a w' =>
        a = 0
        /\ exists n0 cb b evs,
             Some n = Some n0
             /\ callback (protocol_at context n0) = Some cb
             /\ rx_user_buffer (wsi w') = Some b
             /\ blk_size b
                = rx_buffer_alloc_size context (protocol_at context n0)
             /\ protocol (wsi w') = Some n0
             /\ c_callback (wsi w') = c_callback (wsi w)
             /\ mode (wsi w') = LWS_CONNMODE_WS_CLIENT
             /\ state (wsi w') = WSI_STATE_ESTABLISHED
             /\ trace w' = trace w ++ evs
             /\ callbacks evs
                = [User_cb LWS_CALLBACK_CLIENT_FILTER_PRE_ESTABLISH;
                   User_cb LWS_CALLBACK_CLIENT_ESTABLISHED]
                  ++ any_wsi_notifications context
             /\ logs evs = []
    | Goto _ _ => exists k, malloc_ok env k = false
    | Fault _ => callback p = None
    end).
  { intros w0 evs0 Hp0 Hc0 Ht0 Hcb0 Hl0.
    pose proof (commit_tail_outcome p w0) as H.
    match type of H with
    | match ?m with _ => _ end => destruct m as [a w'|l w'|w']
    end; [|exact H|exact H].
    destruct H as (Ha & cb & b & evs & H1 & H2 & H3 & H4 & H5 & H6 & H7
                   & H8 & H9 & H10).
    split; [exact Ha|].
    exists n, cb, b, (evs0 ++ evs).
    split; [reflexivity|]. split; [exact H1|]. split; [exact H2|].
    split; [exact H3|]. split; [congruence|]. split; [congruence|].
    split; [exact H6|]. split; [exact H7|].
    split; [rewrite H8, Ht0; now rewrite <- app_assoc|].
    split; [rewrite callbacks_app, Hcb0, H9; reflexivity|].
    rewrite logs_app, Hl0, H10. reflexivity. }
  destruct (per_session_data_size p =? 0) eqn:Hsize.
  - unfold bind at 1. unfold ret at 1.
    apply (Hstep w []);
      [exact Hn | reflexivity | now rewrite app_nil_r
      | reflexivity | reflexivity].
  - unfold libwebsocket_ensure_user_space, the_protocol.
    unfold bind at 1. unfold bind at 1. unfold bind at 1.
    unfold get_wsi at 1. unfold bind at 1. unfold bind at 1.
    unfold get_wsi at 1. rewrite Hn. unfold ret at 1.
    destruct (user_space (wsi w)) as [ub|].
    + unfold ret at 1. unfold ret at 1.
      apply (Hstep w []);
      [exact Hn | reflexivity | now rewrite app_nil_r
      | reflexivity | reflexivity].
    + fold p. rewrite Hsize.
      unfold malloc.
      unfold bind at 1. unfold bind at 1. unfold update at 1.
      unfold ret at 1.
      destruct (malloc_ok env (mallocs w)) eqn:Hm.
      * unfold ret at 1.
        eapply (Hstep _ [_]);
          [exact Hn | reflexivity | reflexivity
          | reflexivity | reflexivity].
      * unfold goto. exists (mallocs w). exact Hm.
Qed.

End InterpreterCommit.

(** ** The interpreter: what an accepted reply went through *)

Section InterpreterAccepts.

Variable context : libwebsocket_context.
Variable env : environment.

Lemma interpret_result (w w' : world) (a : Z) :
  lws_client_interpret_server_handshake context env w = Ok a w' ->
  a = 0 \/ a = 1.
Proof.
  intros H. unfold lws_client_interpret_server_handshake in H.
  apply with_labels_Ok in H. destruct H as [H|(l & w1 & _ & H)].
  - left.
    do 5 (apply bind_Ok in H; destruct H as (? & ? & _ & H)).
    apply bind_Ok in H. destruct H as (u6 & w6 & _ & H).
    pose proof (establish_outcome context env w6) as Ho.
    rewrite H in Ho. tauto.
  - right. rewrite interpret_labels_spec in H. congruence.
Qed.

(** The connection after the three headers are lowered. *)
Lemma interpret_accepted (w w' : world) :
  lws_client_interpret_server_handshake context env w = Ok 0 w' ->
  exists vh vu vc n b evs,
    hdrs (wsi w) WSI_TOKEN_HTTP = Some vh
    /\ CStr.strncmp_eq (CStr.strtolower vh) "101" 3 = true
    /\ hdrs (wsi w) WSI_TOKEN_UPGRADE = Some vu
    /\ CStr.strcmp_eq (CStr.strtolower vu) "websocket" = true
    /\ hdrs (wsi w) WSI_TOKEN_CONNECTION = Some vc
    /\ CStr.strcmp_eq (CStr.strtolower vc) "upgrade" = true
    /\ match server_protocol (wsi w) with
       | None => n = O
       | Some p =>
           exists pc,
             c_protocol (wsi w) = Some pc
             /\ protocol_offered (String.length pc) pc p = true
             /\ registry_entry context p = Some n
       end
    /\ extensions_registered context (wsi w) = true
    /\ accept_matches (wsi w) = true
    /\ protocol (wsi w') = Some n
    /\ c_callback (wsi w') = callback (protocol_at context n)
    /\ rx_user_buffer (wsi w') = Some b
    /\ blk_size b = rx_buffer_alloc_size context (protocol_at context n)
    /\ mode (wsi w') = LWS_CONNMODE_WS_CLIENT
    /\ state (wsi w') = WSI_STATE_ESTABLISHED
    /\ trace w' = trace w ++ evs
    /\ callbacks evs
       = map construct
           (accepted_extensions context (server_extensions (wsi w)))
         ++ [User_cb LWS_CALLBACK_CLIENT_FILTER_PRE_ESTABLISH;
             User_cb LWS_CALLBACK_CLIENT_ESTABLISHED]
         ++ any_wsi_notifications context
    /\ logs evs = [].
Proof.
  intros H. unfold lws_client_interpret_server_handshake in H.
  apply with_labels_Ok in H. destruct H as [H|(l & w1 & _ & H)].
  2:{ rewrite interpret_labels_spec in H. discriminate H. }
  apply bind_Ok in H. destruct H as (u1 & w1 & E1 & H).
  apply bind_Ok in H. destruct H as (u2 & w2 & E2 & H).
  apply bind_Ok in H. destruct H as (u3 & w3 & E3 & H).
  apply bind_Ok in H. destruct H as (u4 & w4 & E4 & H).
  apply bind_Ok in H. destruct H as (u5 & w5 & E5 & H).
  apply bind_Ok in H. destruct H as (u6 & w6 & E6 & H).
  (* status *)
  rewrite check_status_outcome in E1.
  destruct (hdrs (wsi w) WSI_TOKEN_HTTP) as [vh|] eqn:Hh; [|discriminate E1].
  cbv zeta in E1.
  destruct (CStr.strncmp_eq (CStr.strtolower vh) "101" 3) eqn:Hs;
    [|discriminate E1].
  injection E1 as _ E1. subst w1.
  (* upgrade *)
  rewrite check_upgrade_outcome in E2.
  cbn [wsi with_wsi hdrs set_token set_hdr token_index_eqb] in E2.
  destruct (hdrs (wsi w) WSI_TOKEN_UPGRADE) as [vu|] eqn:Hu; [|discriminate E2].
  cbv zeta in E2.
  destruct (CStr.strcmp_eq (CStr.strtolower vu) "websocket") eqn:Hsu;
    [|discriminate E2].
  injection E2 as _ E2. subst w2.
  (* connection *)
  rewrite check_connection_outcome in E3.
  cbn [wsi with_wsi hdrs set_token set_hdr token_index_eqb] in E3.
  destruct (hdrs (wsi w) WSI_TOKEN_CONNECTION) as [vc|] eqn:Hc;
    [|discriminate E3].
  cbv zeta in E3.
  destruct (CStr.strcmp_eq (CStr.strtolower vc) "upgrade") eqn:Hsc;
    [|discriminate E3].
  injection E3 as _ E3.
  assert (Hp3 : hdrs (wsi w3) WSI_TOKEN_PROTOCOL
                = hdrs (wsi w) WSI_TOKEN_PROTOCOL) by (subst w3; reflexivity).
  assert (Ha3 : hdrs (wsi w3) WSI_TOKEN_ACCEPT
                = hdrs (wsi w) WSI_TOKEN_ACCEPT) by (subst w3; reflexivity).
  assert (Hx3 : server_extensions (wsi w3) = server_extensions (wsi w))
    by (subst w3; reflexivity).
  assert (Hc3 : c_protocol (wsi w3) = c_protocol (wsi w))
    by (subst w3; reflexivity).
  assert (Hi3 : initial_handshake_hash_base64 (wsi w3)
                = initial_handshake_hash_base64 (wsi w))
    by (subst w3; reflexivity).
  assert (Ht3 : trace w3 = trace w) by (subst w3; reflexivity).
  clear E3.
  (* sub-protocol *)
  assert (Hsel : exists n,
    w4 = selected context n w3
    /\ match server_protocol (wsi w) with
       | None => n = O
       | Some p =>
           exists pc,
             c_protocol (wsi w) = Some pc
             /\ protocol_offered (String.length pc) pc p = true
             /\ registry_entry context p = Some n
       end).
  { rewrite select_protocol_outcome in E4.
    unfold token_len in E4. rewrite Hp3, Hc3 in E4.
    unfold server_protocol.
    destruct (hdrs (wsi w) WSI_TOKEN_PROTOCOL) as [token|].
    - destruct (Nat.eqb (String.length token) 0).
      + exists O. split; [congruence | reflexivity].
      + destruct (c_protocol (wsi w)) as [pc|]; [|discriminate E4].
        destruct (protocol_offered (String.length pc) pc token) eqn:Hoff;
          [|discriminate E4].
        destruct (find_protocol (protocols context) token 0) as [n|] eqn:Hf;
          [|discriminate E4].
        exists n. split; [congruence|].
        exists pc. repeat split; assumption.
    - cbn [Nat.eqb] in E4. exists O. split; [congruence | reflexivity]. }
  destruct Hsel as (n & Hw4 & Hproto). clear E4.
  (* extensions *)
  pose proof (check_extensions_outcome context env w4) as Ho.
  rewrite E5 in Ho.
  destruct Ho as (new & evs5 & Hw5 & Ht5 & _ & Hc5 & Hl5 & Hr5).
  assert (Hx4 : server_extensions (wsi w4) = server_extensions (wsi w))
    by (rewrite <- Hx3; subst w4; reflexivity).
  rewrite Hx4 in Hc5, Hr5.
  (* accept *)
  rewrite check_accept_outcome in E6. rewrite Hw5 in E6.
  cbn [hdrs initial_handshake_hash_base64 set_active_extensions] in E6.
  assert (Ha4 : hdrs (wsi w4) WSI_TOKEN_ACCEPT
                = hdrs (wsi w) WSI_TOKEN_ACCEPT)
    by (rewrite <- Ha3; subst w4; reflexivity).
  assert (Hi4 : initial_handshake_hash_base64 (wsi w4)
                = initial_handshake_hash_base64 (wsi w))
    by (rewrite <- Hi3; subst w4; reflexivity).
  rewrite Ha4, Hi4 in E6.
  destruct (hdrs (wsi w) WSI_TOKEN_ACCEPT) as [va|] eqn:Hacc;
    [|discriminate E6].
  destruct (CStr.strcmp_eq va (initial_handshake_hash_base64 (wsi w)))
    eqn:Hsa; [|discriminate E6].
  injection E6 as _ E6. subst w6.
  (* commit *)
  pose proof (establish_outcome context env w5) as Ho.
  rewrite H in Ho.
  destruct Ho as (_ & n' & cb & b & evs6 & Hn' & Hcb & Hrx & Hsz & Hpr
                  & Hcc & Hmode & Hstate & Ht6 & Hc6 & Hl6).
  assert (Hn5 : protocol (wsi w5) = Some n)
    by (rewrite Hw5; subst w4; reflexivity).
  assert (n' = n) by congruence. subst n'.
  exists vh, vu, vc, n, b, (c_protocol_free (wsi w3) ++ evs5 ++ evs6).
  split; [reflexivity|]. split; [exact Hs|].
  split; [reflexivity|]. split; [exact Hsu|].
  split; [reflexivity|]. split; [exact Hsc|].
  split; [exact Hproto|].
  split; [exact Hr5|].
  split; [unfold accept_matches; rewrite Hacc; exact Hsa|].
  split; [exact Hpr|].
  split; [rewrite Hcc, Hw5; subst w4; reflexivity|].
  split; [exact Hrx|]. split; [exact Hsz|].
  split; [exact Hmode|]. split; [exact Hstate|].
  split.
  { rewrite Ht6, Ht5. subst w4. cbn [trace selected with_events with_wsi].
    rewrite Ht3, <- !app_assoc. reflexivity. }
  split.
  { rewrite !callbacks_app, Hc5, Hc6.
    unfold c_protocol_free. destruct (c_protocol (wsi w3)); reflexivity. }
  rewrite !logs_app, Hl5, Hl6.
  unfold c_protocol_free. destruct (c_protocol (wsi w3)); reflexivity.
Qed.

End InterpreterAccepts.

(** ** The checks in the specification's words *)

Lemma tolower_eqb_one (c : ascii) :
  Ascii.eqb (CStr.tolower c) "1" = Ascii.eqb c "1".
Proof. destruct c as [[] [] [] [] [] [] [] []]; reflexivity. Qed.

Lemma tolower_eqb_zero (c : ascii) :
  Ascii.eqb (CStr.tolower c) "0" = Ascii.eqb c "0".
Proof. destruct c as [[] [] [] [] [] [] [] []]; reflexivity. Qed.

Lemma ascii_dec_eqb (a b : ascii) :
  (if ascii_dec a b then true else false) = Ascii.eqb b a.
Proof.
  destruct (ascii_dec a b) as [->|N].
  - symmetry. apply Ascii.eqb_refl.
  - symmetry. apply Ascii.eqb_neq. congruence.
Qed.

(** The leading-byte compare on the lowered status token is "begins
    with 101". *)
Lemma status_check_spec (v : string) :
  CStr.strncmp_eq (CStr.strtolower v) "101" 3 = String.prefix "101" v.
Proof.
  destruct v as [|a [|b [|c v]]]; cbn [CStr.strtolower CStr.strncmp_eq String.prefix];
    rewrite <- ?ascii_dec_eqb; try reflexivity.
  - rewrite ascii_dec_eqb, tolower_eqb_one, <- ascii_dec_eqb.
    destruct (ascii_dec "1" a); reflexivity.
  - rewrite !ascii_dec_eqb, tolower_eqb_one, tolower_eqb_zero, <- !ascii_dec_eqb.
    destruct (ascii_dec "1" a); [|reflexivity].
    destruct (ascii_dec "0" b); reflexivity.
  - rewrite !ascii_dec_eqb, !tolower_eqb_one, tolower_eqb_zero, <- !ascii_dec_eqb.
    destruct (ascii_dec "1" a); [|reflexivity].
    destruct (ascii_dec "0" b); [|reflexivity].
    destruct (ascii_dec "1" c); [|reflexivity].
    destruct v; reflexivity.
Qed.

(** ** The match of the sub-protocol *)

Lemma skip_until_head (c : ascii) (s : string) :
  CStr.skip_until c s = EmptyString
  \/ exists r, CStr.skip_until c s = String c r.
Proof.
  induction s as [|x s IH]; cbn [CStr.skip_until].
  - left. reflexivity.
  - destruct (Ascii.eqb_spec x c) as [->|N].
    + right. exists s. reflexivity.
    + exact IH.
Qed.

Section ProtocolMatch.

Variable p : string.
Hypothesis Hname : name_like p = true.

Lemma protocol_here_blank (pc : string) :
  pc = EmptyString \/ (exists r, pc = String " " r) ->
  protocol_here pc p = false.
Proof.
  destruct p as [|c p']; [discriminate Hname|].
  cbn [name_like] in Hname. apply andb_prop in Hname.
  destruct Hname as [Hc _]. apply negb_true_iff in Hc.
  intros [->|[r ->]]; unfold protocol_here;
    cbn [String.length CStr.strncmp_eq].
  - reflexivity.
  - rewrite Ascii.eqb_sym, Hc. reflexivity.
Qed.

Lemma protocol_offered_blank (rounds : nat) :
  forall pc,
    pc = EmptyString \/ (exists r, pc = String " " r) ->
    protocol_offered rounds pc p = false.
Proof.
  induction rounds as [|rounds IH]; intros pc Hpc; cbn [protocol_offered].
  - reflexivity.
  - destruct pc as [|x pc']; [reflexivity|].
    rewrite (protocol_here_blank _ Hpc).
    apply IH. apply skip_until_head.
Qed.

(** For a name, the loop can only match where it starts. *)
Lemma protocol_offered_here (rounds : nat) (pc : string) :
  protocol_offered rounds pc p = true -> protocol_here pc p = true.
Proof.
  destruct rounds as [|rounds]; cbn [protocol_offered]; [discriminate|].
  destruct pc as [|x pc']; [discriminate|].
  destruct (protocol_here (String x pc') p); [reflexivity|].
  rewrite protocol_offered_blank by apply skip_until_head.
  discriminate.
Qed.

Lemma protocol_here_offered (pc : string) :
  protocol_here pc p = true ->
  protocol_offered (String.length pc) pc p = true.
Proof.
  intros H. destruct pc as [|x pc'].
  - rewrite protocol_here_blank in H by (left; reflexivity). discriminate H.
  - cbn [String.length protocol_offered]. now rewrite H.
Qed.

End ProtocolMatch.

Lemma protocol_here_first (p : string) :
  forall pc,
    comma_free p = true -> protocol_here pc p = true -> first_offered pc = p.
Proof.
  unfold protocol_here.
  induction p as [|c p IH]; intros pc Hcf H;
    cbn [String.length CStr.strncmp_eq] in H.
  - destruct pc as [|x pc']; [reflexivity|].
    simpl in H. cbn [first_offered]. now rewrite H.
  - destruct pc as [|x pc']; [discriminate H|].
    cbn [comma_free] in Hcf. apply andb_prop in Hcf. destruct Hcf as [Hc Hcf].
    apply negb_true_iff in Hc.
    simpl in H.
    destruct (Ascii.eqb_spec x c) as [->|N]; [|discriminate H].
    cbn [first_offered]. rewrite Hc.
    f_equal. apply IH; assumption.
Qed.

Lemma first_offered_here (pc : string) :
  protocol_here pc (first_offered pc) = true.
Proof.
  unfold protocol_here.
  induction pc as [|x pc IH]; [reflexivity|].
  cbn [first_offered].
  destruct (Ascii.eqb x ",") eqn:Hx.
  - cbn [String.length CStr.strncmp_eq String.get andb]. exact Hx.
  - cbn [String.length CStr.strncmp_eq String.get].
    rewrite Ascii.eqb_refl. exact IH.
Qed.

Lemma comma_tokens_from_head (s : string) :
  forall token,
  exists rest,
    comma_tokens_from s token = (token ++ first_offered s)%string :: rest.
Proof.
  induction s as [|c s IH]; intros token; cbn [comma_tokens_from first_offered].
  - exists []. now rewrite string_append_nil_r.
  - destruct (Ascii.eqb c ",").
    + eexists. now rewrite string_append_nil_r.
    + destruct (IH (token ++ String c EmptyString)%string) as [rest E].
      exists rest. rewrite E, string_append_assoc. reflexivity.
Qed.

Lemma first_offered_token (l : string) :
  existsb (String.eqb (first_offered l)) (comma_tokens l) = true.
Proof.
  unfold comma_tokens.
  destruct (comma_tokens_from_head l EmptyString) as [rest E].
  rewrite E. cbn [existsb String.append]. now rewrite String.eqb_refl.
Qed.

(** For a name, the loop accepts only what is the first offered
    token. *)
Lemma protocol_offered_first (p pc : string) (rounds : nat) :
  name_like p = true ->
  protocol_offered rounds pc p = true ->
  p = first_offered pc.
Proof.
  intros Hname H. symmetry. apply protocol_here_first.
  - destruct p; [discriminate Hname|]. cbn [name_like] in Hname.
    apply andb_prop in Hname. tauto.
  - exact (protocol_offered_here p Hname rounds pc H).
Qed.

(** More rounds than [String.length pc] change nothing: the loop has
    ended by then. *)
Lemma skip_until_length (c : ascii) (s : string) :
  (String.length (CStr.skip_until c s) <= String.length s)%nat.
Proof.
  induction s as [|x s IH]; cbn [CStr.skip_until String.length]; [lia|].
  destruct (Ascii.eqb x c); cbn [String.length]; lia.
Qed.

Lemma skip_round_shorter (x : ascii) (s : string) :
  (String.length (CStr.skip_until " " (CStr.skip_until "," (String x s)))
   <= String.length s)%nat.
Proof.
  cbn [CStr.skip_until].
  destruct (Ascii.eqb_spec x ",") as [->|N].
  - cbn [CStr.skip_until]. change (Ascii.eqb "," " ") with false. cbv iota.
    apply skip_until_length.
  - etransitivity; [apply skip_until_length|apply skip_until_length].
Qed.

Lemma protocol_offered_rounds (token : string) (rounds : nat) :
  forall more pc,
    (String.length pc <= rounds)%nat ->
    (String.length pc <= more)%nat ->
    protocol_offered more pc token = protocol_offered rounds pc token.
Proof.
  induction rounds as [|rounds IH]; intros more pc Hr Hm.
  - destruct pc; [|simpl in Hr; lia]. destruct more; reflexivity.
  - destruct pc as [|x pc']; [destruct more; reflexivity|].
    destruct more as [|more]; [simpl in Hm; lia|].
    cbn [protocol_offered].
    destruct (protocol_here (String x pc') token); [reflexivity|].
    pose proof (skip_round_shorter x pc') as Hs. simpl in Hr, Hm.
    apply IH; lia.
Qed.

(** ** The interpreter: which reply is turned down, and how *)

Section InterpreterDecides.

Variable context : libwebsocket_context.
Variable env : environment.

Lemma logs_cleanup_events (l : label) (s : libwebsocket) :
  logs (cleanup_events l s) = [].
Proof.
  unfold cleanup_events.
  rewrite !logs_app, logs_token_frees.
  unfold c_protocol_free, connection_error.
  destruct l, (c_protocol s), (c_callback s); reflexivity.
Qed.

Lemma interpret_of_validation (w : world) :
  lws_client_interpret_server_handshake context env w
  = match (check_status ;;
           check_upgrade ;;
           check_connection ;;
           select_protocol context ;;
           check_extensions context env ;;
           check_accept ;;
           establish context env) w with
    | Ok a w' => Ok a w'
    | Goto l w1 => Ok 1 (with_events (cleanup_events l (wsi w1)) w1)
    | Fault w' => Fault w'
    end.
Proof.
  unfold lws_client_interpret_server_handshake, with_labels.
  match goal with
  | |- match ?m with _ => _ end = _ => destruct m as [a w'|l w1|w']
  end; try reflexivity.
  apply interpret_labels_spec.
Qed.


(** The end of a run that jumps to a cleanup label after one
    report. *)
Ltac turned_down :=
  eexists; eexists; split; [|split; [reflexivity|]];
  [ cbn [trace with_events with_event with_wsi];
    rewrite <- ?app_assoc; reflexivity
  | rewrite ?logs_app, ?logs_cons, logs_cleanup_events;
    cbn [log_of_event app]; rewrite ?app_nil_r; reflexivity ].

Lemma find_protocol_callback (ps : list libwebsocket_protocols)
  (token : string) :
  forall i n,
    find_protocol ps token i = Some n ->
    (i <= n)%nat /\ callback (nth (n - i) ps terminator) <> None.
Proof.
  induction ps as [|q ps IH]; intros i n H; cbn [find_protocol] in H.
  - discriminate H.
  - destruct (callback q) as [cb|] eqn:Hcb; [|discriminate H].
    destruct (CStr.strcmp_eq token (name q)).
    + injection H as <-. split; [lia|].
      rewrite Nat.sub_diag. cbn [nth]. congruence.
    + destruct (IH (S i) n H) as [Hle Hc]. split; [lia|].
      replace (n - i)%nat with (S (n - S i)) by lia. exact Hc.
Qed.

(** The rules after the sub-protocol. *)
Lemma decides_after_protocol (w w4 : world) (n : nat) (va : string)
  (evs4 : list event) :
  (forall k, malloc_ok env k = true) ->
  trace w4 = trace w ++ evs4 ->
  logs evs4 = [] ->
  protocol (wsi w4) = Some n ->
  callback (protocol_at context n) <> None ->
  server_extensions (wsi w4) = server_extensions (wsi w) ->
  hdrs (wsi w4) WSI_TOKEN_ACCEPT = Some va ->
  initial_handshake_hash_base64 (wsi w4)
  = initial_handshake_hash_base64 (wsi w) ->
  let violation :=
    if negb (extensions_registered context (wsi w))
    then Some LOG_UNKNOWN_EXTENSION
    else if negb (String.eqb va (initial_handshake_hash_base64 (wsi w)))
    then Some LOG_BAD_ACCEPT
    else None in
  exists w' evs,
    trace w' = trace w ++ evs
    /\ match (check_extensions context env ;;
              check_accept ;;
              establish context env) w4 with
       | Ok a w0 => Ok a w0
       | Goto l w1 => Ok 1 (with_events (cleanup_events l (wsi w1)) w1)
       | Fault w0 => Fault w0
       end
       = Ok (match violation with
             | Some _ => 1
             | None => 0
             end) w'
    /\ logs evs = match violation with
                  | Some m => [m]
                  | None => []
                  end.
Proof.
  intros Hmalloc Ht4 Hl4 Hn4 Hcb Hx4 Ha4 Hi4 violation.
  subst violation. unfold extensions_registered.
  pose proof (check_extensions_outcome context env w4) as Ho.
  unfold bind at 1.
  destruct (check_extensions context env w4) as [u w5|l w5|w5].
  - destruct Ho as (new & evs5 & Hw5 & Ht5 & _ & _ & Hl5 & Hr5).
    rewrite Hx4 in Hr5. rewrite Hr5. cbn [negb].
    unfold bind at 1. rewrite check_accept_outcome, Hw5.
    cbn [hdrs initial_handshake_hash_base64 set_active_extensions].
    rewrite Ha4, Hi4. unfold CStr.strcmp_eq.
    destruct (String.eqb va (initial_handshake_hash_base64 (wsi w)));
      cbn [negb].
    + pose proof (establish_outcome context env w5) as He.
      destruct (establish context env w5) as [a w6|l w6|w6].
      * destruct He as (-> & n' & cb & b & evs6 & _ & _ & _ & _ & _ & _ & _
                        & _ & Ht6 & _ & Hl6).
        exists w6, (evs4 ++ evs5 ++ evs6).
        split; [rewrite Ht6, Ht5, Ht4; now rewrite <- !app_assoc|].
        split; [reflexivity|].
        rewrite !logs_app, Hl4, Hl5, Hl6. reflexivity.
      * destruct He as [k Hk]. rewrite Hmalloc in Hk. discriminate Hk.
      * rewrite Hw5 in He. cbn [protocol set_active_extensions] in He.
        rewrite Hn4 in He. contradiction.
    + eexists. exists (evs4 ++ evs5 ++ [EvLog LOG_BAD_ACCEPT]
                       ++ cleanup_events bail2 (wsi w5)).
      split; [|split; [reflexivity|]].
      { cbn [trace with_events with_event wsi].
        rewrite Ht5, Ht4. rewrite <- !app_assoc. reflexivity. }
      rewrite !logs_app, Hl4, Hl5, logs_cleanup_events. reflexivity.
  - destruct Ho as (-> & evs5 & Ht5 & [[[k Hk] _]|[Hr5 Hl5]]).
    { rewrite Hmalloc in Hk. discriminate Hk. }
    rewrite Hx4 in Hr5. rewrite Hr5. cbn [negb].
    eexists. exists (evs4 ++ evs5 ++ cleanup_events bail2 (wsi w5)).
    split; [|split; [reflexivity|]].
    { cbn [trace with_events]. rewrite Ht5, Ht4.
      rewrite <- !app_assoc. reflexivity. }
    rewrite !logs_app, Hl4, Hl5, logs_cleanup_events. reflexivity.
  - contradiction.
Qed.

(** With every allocation successful and the offer unambiguous, the
    interpreter turns a reply down exactly when it violates a rule,
    and reports the first rule violated, and nothing else. *)
Lemma interpret_decides (w : world) :
  headers_present (wsi w) = true ->
  unambiguous_offer (wsi w) = true ->
  (forall k, malloc_ok env k = true) ->
  callback (protocol_at context 0) <> None ->
  exists w' evs,
    trace w' = trace w ++ evs
    /\ lws_client_interpret_server_handshake context env w
       = Ok (match first_violation context (wsi w) with
             | Some _ => 1
             | None => 0
             end) w'
    /\ logs evs = match first_violation context (wsi w) with
                  | Some m => [m]
                  | None => []
                  end.
Proof.
  intros Hp Hoffer Hmalloc Hcb0.
  unfold headers_present in Hp.
  destruct (hdrs (wsi w) WSI_TOKEN_HTTP) as [vh|] eqn:Hh; [|discriminate Hp].
  destruct (hdrs (wsi w) WSI_TOKEN_UPGRADE) as [vu|] eqn:Hu;
    [|discriminate Hp].
  destruct (hdrs (wsi w) WSI_TOKEN_CONNECTION) as [vc|] eqn:Hc;
    [|discriminate Hp].
  destruct (hdrs (wsi w) WSI_TOKEN_ACCEPT) as [va|] eqn:Ha;
    [|discriminate Hp].
  clear Hp.
  rewrite interpret_of_validation.
  unfold first_violation, status_begins_101, header_is, accept_matches.
  rewrite Hh, Hu, Hc, Ha.
  change (CStr.strtolower "websocket") with "websocket"%string.
  change (CStr.strtolower "upgrade") with "upgrade"%string.
  (* status *)
  unfold bind at 1. rewrite check_status_outcome, Hh. cbv zeta.
  rewrite status_check_spec.
  destruct (String.prefix "101" vh); cbn [negb].
  2:{ turned_down. }
  set (w1 := with_wsi (set_token WSI_TOKEN_HTTP (Some (CStr.strtolower vh))) w).
  (* upgrade *)
  unfold bind at 1. rewrite check_upgrade_outcome.
  replace (hdrs (wsi w1) WSI_TOKEN_UPGRADE) with (Some vu)
    by (rewrite <- Hu; reflexivity).
  cbv zeta. unfold CStr.strcmp_eq at 1.
  destruct (String.eqb (CStr.strtolower vu) "websocket"); cbn [negb].
  2:{ turned_down. }
  set (w2 := with_wsi (set_token WSI_TOKEN_UPGRADE
                         (Some (CStr.strtolower vu))) w1).
  (* connection *)
  unfold bind at 1. rewrite check_connection_outcome.
  replace (hdrs (wsi w2) WSI_TOKEN_CONNECTION) with (Some vc)
    by (rewrite <- Hc; reflexivity).
  cbv zeta. unfold CStr.strcmp_eq at 1.
  destruct (String.eqb (CStr.strtolower vc) "upgrade"); cbn [negb].
  2:{ turned_down. }
  set (w3 := with_wsi (set_token WSI_TOKEN_CONNECTION
                         (Some (CStr.strtolower vc))) w2).
  assert (Ht3 : trace w3 = trace w) by reflexivity.
  assert (Hp3 : hdrs (wsi w3) WSI_TOKEN_PROTOCOL
                = hdrs (wsi w) WSI_TOKEN_PROTOCOL) by reflexivity.
  assert (Hc3 : c_protocol (wsi w3) = c_protocol (wsi w)) by reflexivity.
  assert (Hx3 : server_extensions (wsi w3) = server_extensions (wsi w))
    by reflexivity.
  assert (Ha3 : hdrs (wsi w3) WSI_TOKEN_ACCEPT = Some va)
    by (rewrite <- Ha; reflexivity).
  assert (Hi3 : initial_handshake_hash_base64 (wsi w3)
                = initial_handshake_hash_base64 (wsi w)) by reflexivity.
  clearbody w3. clear w1 w2.
  (* sub-protocol *)
  unfold bind at 1. rewrite select_protocol_outcome.
  unfold token_len. rewrite Hp3, Hc3.
  unfold protocol_was_offered, protocol_in_registry, unambiguous_offer,
    server_protocol in *.
  assert (Hdefault :
    exists w' evs,
      trace w' = trace w ++ evs
      /\ match (check_extensions context env ;;
                check_accept ;;
                establish context env) (selected context 0 w3) with
         | Ok a w0 => Ok a w0
         | Goto l w1 => Ok 1 (with_events (cleanup_events l (wsi w1)) w1)
         | Fault w0 => Fault w0
         end
         = Ok (match
                 (if negb (extensions_registered context (wsi w))
                  then Some LOG_UNKNOWN_EXTENSION
                  else if negb (String.eqb va
                                  (initial_handshake_hash_base64 (wsi w)))
                  then Some LOG_BAD_ACCEPT
                  else None)
               with
               | Some _ => 1
               | None => 0
               end) w'
      /\ logs evs
         = match
             (if negb (extensions_registered context (wsi w))
              then Some LOG_UNKNOWN_EXTENSION
              else if negb (String.eqb va
                              (initial_handshake_hash_base64 (wsi w)))
              then Some LOG_BAD_ACCEPT
              else None)
           with
           | Some m => [m]
           | None => []
           end).
  { apply (decides_after_protocol w (selected context 0 w3) 0 va
             (c_protocol_free (wsi w3)) Hmalloc).
    - cbn [trace selected with_events with_wsi wsi]. now rewrite Ht3.
    - unfold c_protocol_free. destruct (c_protocol (wsi w3)); reflexivity.
    - reflexivity.
    - exact Hcb0.
    - exact Hx3.
    - exact Ha3.
    - exact Hi3. }
  destruct (hdrs (wsi w) WSI_TOKEN_PROTOCOL) as [token|] eqn:Hp;
    [|cbn [Nat.eqb negb]; exact Hdefault].
  destruct (Nat.eqb (String.length token) 0);
    [cbn [negb]; exact Hdefault|].
  clear Hdefault.
  destruct (c_protocol (wsi w)) as [pc|] eqn:Hpc; [|discriminate Hoffer].
  apply andb_prop in Hoffer. destruct Hoffer as [Hname Hcase].
  destruct (existsb (String.eqb token) (comma_tokens pc)) eqn:Hin.
  - (* the first offered token *)
    rewrite orb_false_r in Hcase. apply String.eqb_eq in Hcase.
    rewrite (protocol_here_offered token Hname pc)
      by (rewrite Hcase; apply first_offered_here).
    cbn [negb]. unfold registry_entry.
    destruct (find_protocol (protocols context) token 0) as [n|] eqn:Hf;
      cbn [negb].
    + apply (decides_after_protocol w (selected context n w3) n va
               (c_protocol_free (wsi w3)) Hmalloc).
      * cbn [trace selected with_events with_wsi wsi]. now rewrite Ht3.
      * unfold c_protocol_free. destruct (c_protocol (wsi w3)); reflexivity.
      * reflexivity.
      * destruct (find_protocol_callback _ _ _ _ Hf) as [_ Hcb].
        rewrite Nat.sub_0_r in Hcb. exact Hcb.
      * exact Hx3.
      * exact Ha3.
      * exact Hi3.
    + eexists.
      exists (c_protocol_free (wsi w3) ++ [EvLog LOG_PROTOCOL_NOT_SUPPORTED]
              ++ cleanup_events bail2 (wsi w3)).
      split; [|split; [reflexivity|]].
      { cbn [trace with_events with_event with_wsi wsi].
        rewrite Ht3, <- !app_assoc. reflexivity. }
      rewrite !logs_app, logs_cleanup_events.
      unfold c_protocol_free. destruct (c_protocol (wsi w3)); reflexivity.
  - (* no offered token *)
    destruct (protocol_offered (String.length pc) pc token) eqn:Hoff.
    { apply (protocol_offered_first token pc _ Hname) in Hoff.
      rewrite Hoff, first_offered_token in Hin. discriminate Hin. }
    cbn [negb]. eexists.
    exists (c_protocol_free (wsi w3) ++ [EvLog LOG_BAD_PROTOCOL]
            ++ cleanup_events bail2 (wsi w3)).
    split; [|split; [reflexivity|]].
    { cbn [trace with_events with_event with_wsi wsi].
      rewrite Ht3, <- !app_assoc. reflexivity. }
    rewrite !logs_app, logs_cleanup_events.
    unfold c_protocol_free. destruct (c_protocol (wsi w3)); reflexivity.
Qed.

End InterpreterDecides.

(** ** The claims about the interpreter *)

Lemma to_int_small (x : Z) : - 2 ^ 31 <= x < 2 ^ 31 -> to_int x = x.
Proof. intros H. unfold to_int. rewrite Z.mod_small; lia. Qed.

(** Below the default, the size asked for is the one that counts: the
    allocation is smaller than the maximum of the two would give. *)
Lemma rx_buffer_alloc_size_below_default (context : libwebsocket_context)
  (p : libwebsocket_protocols) :
  0 < rx_buffer_size p < LWS_MAX_SOCKET_IO_BUF (constants context) ->
  0 <= LWS_SEND_BUFFER_PRE_PADDING (constants context)
       + LWS_SEND_BUFFER_POST_PADDING (constants context) ->
  LWS_MAX_SOCKET_IO_BUF (constants context)
  + LWS_SEND_BUFFER_PRE_PADDING (constants context)
  + LWS_SEND_BUFFER_POST_PADDING (constants context) < 2 ^ 31 ->
  rx_buffer_alloc_size context p
  < Z.max (rx_buffer_size p) (LWS_MAX_SOCKET_IO_BUF (constants context))
    + LWS_SEND_BUFFER_PRE_PADDING (constants context)
    + LWS_SEND_BUFFER_POST_PADDING (constants context).
Proof.
  intros Hrx Hpad Hmax. unfold rx_buffer_alloc_size.
  rewrite (to_int_small (rx_buffer_size p)) by lia.
  destruct (Z.eqb_spec (rx_buffer_size p) 0) as [E|_]; [lia|].
  rewrite to_int_small by lia. lia.
Qed.

(** C5, as the code has it.  On the success path the receive buffer is
    allocated with the size the selected protocol asks for, or the
    default socket I/O buffer size when it asks for 0, plus the two
    paddings (the sizes being within the range of an int). *)
Theorem C5_rx_buffer_size (context : libwebsocket_context)
  (env : environment) (w w' : world) :
  lws_client_interpret_server_handshake context env w = Ok 0 w' ->
  exists n b,
    protocol (wsi w') = Some n
    /\ rx_user_buffer (wsi w') = Some b
    /\ blk_size b = rx_buffer_alloc_size context (protocol_at context n)
    /\ let rx := rx_buffer_size (protocol_at context n) in
       let base := if rx =? 0
                   then LWS_MAX_SOCKET_IO_BUF (constants context) else rx in
       let total := base + LWS_SEND_BUFFER_PRE_PADDING (constants context)
                    + LWS_SEND_BUFFER_POST_PADDING (constants context) in
       - 2 ^ 31 <= rx < 2 ^ 31 ->
       - 2 ^ 31 <= total < 2 ^ 31 ->
       blk_size b = total.
Proof.
  intros H.
  destruct (interpret_accepted context env w w' H)
    as (vh & vu & vc & n & b & evs & _ & _ & _ & _ & _ & _ & _ & _ & _
        & Hp & _ & Hrx & Hsz & _).
  exists n, b. split; [exact Hp|]. split; [exact Hrx|]. split; [exact Hsz|].
  intros rx base total Hr Ht. rewrite Hsz. unfold rx_buffer_alloc_size.
  fold rx. rewrite (to_int_small rx Hr). fold base.
  rewrite to_int_small; subst total; lia.
Qed.

Lemma C5_rx_buffer_size_witness :
  exists n b,
    protocol (wsi (world_of (rx_run 1024))) = Some n
    /\ rx_user_buffer (wsi (world_of (rx_run 1024))) = Some b
    /\ blk_size b
       = rx_buffer_alloc_size (rx_context 1024)
           (protocol_at (rx_context 1024) n)
    /\ let rx := rx_buffer_size (protocol_at (rx_context 1024) n) in
       let base := if rx =? 0
                   then LWS_MAX_SOCKET_IO_BUF (constants (rx_context 1024))
                   else rx in
       let total :=
         base + LWS_SEND_BUFFER_PRE_PADDING (constants (rx_context 1024))
         + LWS_SEND_BUFFER_POST_PADDING (constants (rx_context 1024)) in
       - 2 ^ 31 <= rx < 2 ^ 31 ->
       - 2 ^ 31 <= total < 2 ^ 31 ->
       blk_size b = total.
Proof.
  apply (C5_rx_buffer_size (rx_context 1024) all_allocations_succeed
           chat_reply (world_of (rx_run 1024))).
  vm_compute. reflexivity.
Defined.

(** C5 as stated fails for a protocol that asks for less than the
    default: with rx_buffer_size 1 the buffer has 1 + 18 + 4 bytes, not
    max(1, 4096) + 18 + 4. *)
Lemma C5_small_rx_buffer :
  value_of (rx_run 1) = Some 0
  /\ option_map blk_size (rx_user_buffer (wsi (world_of (rx_run 1))))
     = Some 23
  /\ Z.max (rx_buffer_size (protocol_at (rx_context 1) 0))
       (LWS_MAX_SOCKET_IO_BUF (constants (rx_context 1)))
     + LWS_SEND_BUFFER_PRE_PADDING (constants (rx_context 1))
     + LWS_SEND_BUFFER_POST_PADDING (constants (rx_context 1)) = 4118.
Proof. vm_compute. repeat split. Qed.

(** ** What every run of the interpreter adds to the trace *)

Lemma grows_by_refl (P : event -> Prop) (w : world) : grows_by P w w.
Proof.
  split; [reflexivity|]. exists []. rewrite app_nil_r.
  split; [reflexivity|constructor].
Qed.

Lemma grows_by_trans (P : event -> Prop) (w1 w2 w3 : world) :
  grows_by P w1 w2 -> grows_by P w2 w3 -> grows_by P w1 w3.
Proof.
  intros (C1 & e1 & T1 & F1) (C2 & e2 & T2 & F2). split; [congruence|].
  exists (e1 ++ e2). split; [rewrite T2, T1; now rewrite app_assoc|].
  apply Forall_app. split; assumption.
Qed.

Lemma grows_by_events (P : event -> Prop) (evs : list event) (w : world) :
  Forall P evs -> grows_by P w (with_events evs w).
Proof.
  intros H. split; [reflexivity|]. exists evs. split; [reflexivity|exact H].
Qed.

Lemma respects_weaken {A} (Q Q' : world -> world -> Prop) (m : M A) :
  (forall w w', Q w w' -> Q' w w') -> respects Q m -> respects Q' m.
Proof. intros H Hm w. apply H, Hm. Qed.

Lemma respects_with_labels {A} (Q : world -> world -> Prop)
  (body : M A) (handler : label -> M A) :
  (forall w1 w2 w3, Q w1 w2 -> Q w2 w3 -> Q w1 w3) ->
  respects Q body -> (forall l, respects Q (handler l)) ->
  respects Q (with_labels body handler).
Proof.
  intros Htrans Hb Hh w. unfold with_labels. specialize (Hb w).
  destruct (body w) as [a w1|l w1|w1]; cbn [world_of] in *.
  - exact Hb.
  - apply (Htrans _ _ _ Hb). apply Hh.
  - exact Hb.
Qed.

Lemma forall_token_frees (P : event -> Prop) (s : libwebsocket)
  (ts : list token_index) :
  (forall t, P (EvFree (P_token t))) -> Forall P (token_frees s ts).
Proof.
  intros H. induction ts as [|t ts IH]; [constructor|].
  cbn [token_frees flat_map]. fold (token_frees s ts).
  apply Forall_app. split; [|exact IH].
  destruct (hdrs s t); [constructor; [apply H|constructor]|constructor].
Qed.

Section GrowsBy.

Variable context : libwebsocket_context.
Variable env : environment.
Variable P : event -> Prop.

Hypothesis P_log : forall m, P (EvLog m).
Hypothesis P_malloc : forall size res, P (EvMalloc size res).
Hypothesis P_ext : forall i r user arg, P (EvExtCallback i r user arg).

Lemma grows_bind {A B} (m : M A) (k : A -> M B) :
  respects (grows_by P) m -> (forall a, respects (grows_by P) (k a)) ->
  respects (grows_by P) (bind m k).
Proof. apply respects_bind. exact (grows_by_trans P). Qed.

Lemma grows_emit (e : event) : P e -> respects (grows_by P) (emit e).
Proof.
  intros H w. apply (grows_by_events P [e] w).
  constructor; [exact H|constructor].
Qed.

Lemma grows_update (f : libwebsocket -> libwebsocket) :
  (forall s, c_protocol (f s) = c_protocol s) ->
  respects (grows_by P) (update f).
Proof.
  intros H w. split; [apply H|]. exists []. cbn [world_of update trace with_wsi].
  rewrite app_nil_r. split; [reflexivity|constructor].
Qed.

Lemma grows_lwsl (m : log_message) : respects (grows_by P) (lwsl m).
Proof. apply grows_emit. apply P_log. Qed.

Lemma grows_malloc (size : Z) : respects (grows_by P) (malloc env size).
Proof.
  intros w. split; [reflexivity|]. eexists [_]. split; [reflexivity|].
  constructor; [apply P_malloc|constructor].
Qed.

Lemma grows_call (cb : option user_callback) (r : callback_reason)
  (arg : option string) (len : Z) :
  P (EvCallback r arg len) -> respects (grows_by P) (call cb r arg len).
Proof.
  intros H. unfold call. destruct cb as [f|].
  - apply grows_bind; [apply grows_emit; exact H|intros _].
    apply respects_ret. apply grows_by_refl.
  - apply respects_null_dereference. apply grows_by_refl.
Qed.

Lemma grows_call_ext (i : nat) (ext : libwebsocket_extension)
  (r : extension_callback_reason) (user : option block) (arg : option string) :
  respects (grows_by P) (call_ext i ext r user arg).
Proof.
  unfold call_ext. destruct (extension_callback ext) as [f|].
  - apply grows_bind; [apply grows_emit; apply P_ext|intros _].
    apply respects_ret. apply grows_by_refl.
  - apply respects_null_dereference. apply grows_by_refl.
Qed.

Lemma grows_free_c_protocol :
  P (EvFree P_c_protocol) -> respects (grows_by P) free_c_protocol.
Proof.
  intros H w. rewrite free_c_protocol_spec. cbn [world_of].
  apply grows_by_events. unfold c_protocol_free.
  destruct (c_protocol (wsi w)); [constructor; [exact H|constructor]|constructor].
Qed.

Lemma grows_strtolower_token (t : token_index) :
  respects (grows_by P) (strtolower_token t).
Proof.
  unfold strtolower_token. apply respects_reading. intros w.
  destruct (hdrs (wsi w) t) as [v|]; [|apply grows_by_refl].
  cbv beta iota delta [bind update ret]. cbn [world_of].
  split; [reflexivity|]. exists []. cbn [trace with_wsi].
  rewrite app_nil_r. split; [reflexivity|constructor].
Qed.

Ltac grows_step :=
  first
    [ apply grows_lwsl
    | apply grows_malloc
    | apply grows_call_ext
    | apply grows_strtolower_token
    | apply (respects_ret (grows_by P) (grows_by_refl P))
    | apply (respects_goto (grows_by P) (grows_by_refl P))
    | apply (respects_null_dereference (grows_by P) (grows_by_refl P))
    | apply (respects_get_wsi (grows_by P) (grows_by_refl P))
    | (apply grows_update; intros ?; reflexivity)
    | apply grows_bind; [|intros ?] ].

Lemma grows_check_status : respects (grows_by P) check_status.
Proof.
  unfold check_status. apply grows_bind; [grows_step|intros v].
  destruct (CStr.strncmp_eq v "101" 3); repeat grows_step.
Qed.

Lemma grows_check_upgrade : respects (grows_by P) check_upgrade.
Proof.
  unfold check_upgrade. apply grows_bind; [grows_step|intros v].
  destruct (CStr.strcmp_eq v "websocket"); repeat grows_step.
Qed.

Lemma grows_check_connection : respects (grows_by P) check_connection.
Proof.
  unfold check_connection. apply grows_bind; [grows_step|intros v].
  destruct (CStr.strcmp_eq v "upgrade"); repeat grows_step.
Qed.

Lemma grows_select_protocol :
  P (EvFree P_c_protocol) -> respects (grows_by P) (select_protocol context).
Proof.
  intros Hfree w. rewrite select_protocol_outcome.
  assert (Hsel : forall n, grows_by P w (selected context n w)).
  { intros n. unfold selected. split; [reflexivity|].
    exists (c_protocol_free (wsi w)). split; [reflexivity|].
    unfold c_protocol_free.
    destruct (c_protocol (wsi w)); [constructor; [exact Hfree|constructor]
                                   |constructor]. }
  destruct (Nat.eqb (token_len (wsi w) WSI_TOKEN_PROTOCOL) 0);
    [apply Hsel|].
  destruct (c_protocol (wsi w)) as [pc|] eqn:Hpc; [|apply grows_by_refl].
  destruct (hdrs (wsi w) WSI_TOKEN_PROTOCOL) as [token|];
    [|apply grows_by_refl].
  destruct (protocol_offered (String.length pc) pc token).
  - destruct (find_protocol (protocols context) token 0) as [n|];
      [apply Hsel|].
    cbn [world_of]. split; [reflexivity|].
    exists (c_protocol_free (wsi w) ++ [EvLog LOG_PROTOCOL_NOT_SUPPORTED]).
    split; [cbn [trace with_event with_wsi with_events];
            now rewrite <- app_assoc|].
    unfold c_protocol_free. rewrite Hpc.
    constructor; [exact Hfree|]. constructor; [apply P_log|constructor].
  - cbn [world_of]. split; [reflexivity|].
    exists (c_protocol_free (wsi w) ++ [EvLog LOG_BAD_PROTOCOL]).
    split; [cbn [trace with_event with_wsi with_events];
            now rewrite <- app_assoc|].
    unfold c_protocol_free. rewrite Hpc.
    constructor; [exact Hfree|]. constructor; [apply P_log|constructor].
Qed.

Lemma grows_instantiate (exts : list libwebsocket_extension)
  (ext_name : string) :
  forall i n, respects (grows_by P) (instantiate env exts i ext_name n).
Proof.
  induction exts as [|ext exts IH]; intros i n; cbn [instantiate].
  - grows_step.
  - destruct (extension_callback ext); [|grows_step].
    destruct (negb (CStr.strcmp_eq ext_name (extension_name ext)));
      [apply IH|].
    apply grows_bind; [grows_step|intros b].
    destruct b as [blk|]; [|repeat grows_step].
    grows_step; [grows_step|]. grows_step; [grows_step|]. apply IH.
Qed.

Lemma grows_check_extension (ext_name : string) :
  respects (grows_by P) (check_extension context env ext_name).
Proof.
  unfold check_extension.
  apply grows_bind; [apply grows_instantiate|intros n].
  destruct n; repeat grows_step.
Qed.

Lemma grows_check_extensions_loop (c : string) :
  forall ext_name,
    respects (grows_by P) (check_extensions_loop context env c ext_name).
Proof.
  induction c as [|x c IH]; intros ext_name; cbn [check_extensions_loop].
  - apply grows_check_extension.
  - destruct (negb (is_separator x)); [apply IH|].
    destruct (String.length ext_name =? 0)%nat; [apply IH|].
    grows_step; [apply grows_check_extension|apply IH].
Qed.

Lemma grows_check_extensions :
  respects (grows_by P) (check_extensions context env).
Proof.
  unfold check_extensions. apply respects_reading. intros w.
  destruct (hdrs (wsi w) WSI_TOKEN_EXTENSIONS) as [c|];
    [|apply grows_by_refl].
  destruct (Nat.eqb (String.length c) 0); [apply grows_by_refl|].
  apply grows_check_extensions_loop.
Qed.

Lemma grows_check_accept : respects (grows_by P) check_accept.
Proof.
  intros w. rewrite check_accept_outcome.
  destruct (hdrs (wsi w) WSI_TOKEN_ACCEPT) as [v|]; [|apply grows_by_refl].
  destruct (CStr.strcmp_eq v (initial_handshake_hash_base64 (wsi w)));
    [apply grows_by_refl|].
  apply (grows_by_events P [EvLog LOG_BAD_ACCEPT] w).
  constructor; [apply P_log|constructor].
Qed.

Lemma grows_the_protocol : respects (grows_by P) (the_protocol context).
Proof.
  unfold the_protocol. apply respects_reading. intros w.
  destruct (protocol (wsi w)); apply grows_by_refl.
Qed.

Lemma grows_ensure_user_space :
  respects (grows_by P) (libwebsocket_ensure_user_space context env).
Proof.
  unfold libwebsocket_ensure_user_space. apply respects_reading. intros w.
  unfold bind at 1. unfold the_protocol. unfold bind at 1. unfold get_wsi at 1.
  destruct (protocol (wsi w)) as [n|]; [|apply grows_by_refl].
  unfold ret at 1.
  destruct (user_space (wsi w)); [apply grows_by_refl|].
  destruct (per_session_data_size (protocol_at context n) =? 0);
    [apply grows_by_refl|].
  revert w.
  match goal with
  | |- forall w, grows_by P w (world_of (?m w)) =>
      change (respects (grows_by P) m)
  end.
  repeat grows_step.
Qed.

(** Lines 592-603: the user space of the connection. *)
Lemma grows_user_space (p : libwebsocket_protocols) :
  respects (grows_by P)
    (if per_session_data_size p =? 0 then ret tt
     else
       b <- libwebsocket_ensure_user_space context env ;;
       match b with
       | None => goto bail2
       | Some _ => ret tt
       end)%lws.
Proof.
  destruct (per_session_data_size p =? 0); [grows_step|].
  apply grows_bind; [apply grows_ensure_user_space|intros b].
  destruct b; grows_step.
Qed.

Lemma grows_any_wsi_established (exts : list libwebsocket_extension) :
  forall i, respects (grows_by P) (any_wsi_established exts i).
Proof.
  induction exts as [|ext exts IH]; intros i; cbn [any_wsi_established].
  - grows_step.
  - destruct (extension_callback ext) eqn:E; [|grows_step].
    grows_step; [grows_step|]. grows_step; [grows_step|]. apply IH.
Qed.

Hypothesis P_call : forall r arg len, P (EvCallback r arg len).
Hypothesis P_timeout : forall r secs, P (EvTimeout r secs).
Hypothesis P_token_free : forall t, P (EvFree (P_token t)).

Lemma grows_establish : respects (grows_by P) (establish context env).
Proof.
  unfold establish.
  apply grows_bind; [apply grows_the_protocol|intros p].
  apply grows_bind; [apply grows_user_space|intros _].
  apply grows_bind; [apply grows_call; apply P_call|intros _].
  apply grows_bind.
  { unfold libwebsocket_set_timeout. apply grows_emit. apply P_timeout. }
  intros _. apply grows_bind.
  { intros w. rewrite free_tokens_spec. cbn [world_of].
    apply grows_by_events. apply forall_token_frees. exact P_token_free. }
  intros _. do 3 (apply grows_bind; [grows_step|intros _]).
  apply grows_bind; [grows_step|intros b].
  apply grows_bind; [grows_step|intros _].
  destruct b.
  - apply grows_bind; [apply grows_call; apply P_call|intros _].
    apply grows_bind; [apply grows_any_wsi_established|intros _].
    grows_step.
  - repeat grows_step.
Qed.

End GrowsBy.

(** ** The order of the callbacks, however the interpreter ends *)

Lemma filter_first_quiet (cbs : list callback_view) :
  ~ In (User_cb LWS_CALLBACK_CLIENT_ESTABLISHED) cbs -> filter_first cbs.
Proof.
  intros H pre post E. exfalso. apply H. rewrite E. apply in_elt.
Qed.

Lemma filter_first_cons (cbs : list callback_view) :
  filter_first (User_cb LWS_CALLBACK_CLIENT_FILTER_PRE_ESTABLISH :: cbs).
Proof.
  intros pre post E. destruct pre as [|x pre]; [discriminate E|].
  injection E as <- _. left. reflexivity.
Qed.

Lemma filter_first_app (a b : list callback_view) :
  filter_first a -> filter_first b -> filter_first (a ++ b).
Proof.
  intros Ha Hb pre post E. apply app_eq_app in E.
  destruct E as (l & [[E1 E2]|[E1 E2]]).
  - destruct l as [|x l].
    + cbn [app] in E2. exfalso. exact (Hb [] post (eq_sym E2)).
    + injection E2 as <- E2. exact (Ha pre l E1).
  - rewrite E1. apply in_or_app. right. exact (Hb l post E2).
Qed.

Lemma callbacks_not_established (evs : list event) :
  Forall not_established evs ->
  ~ In (User_cb LWS_CALLBACK_CLIENT_ESTABLISHED) (callbacks evs).
Proof.
  induction 1 as [|e evs He _ IH]; [intros []|].
  rewrite callbacks_cons. intros Hin. apply in_app_or in Hin.
  destruct Hin as [Hin|Hin]; [|exact (IH Hin)].
  destruct e as [r arg len|i r user arg| | | | | | |];
    cbn [view_event] in Hin.
  1:{ destruct Hin as [Hin|[]]. injection Hin as ->. exact He. }
  1:{ destruct Hin as [Hin|[]]. discriminate Hin. }
  all: destruct Hin.
Qed.

Lemma ordered_refl (w : world) : ordered w w.
Proof.
  exists []. rewrite app_nil_r. split; [reflexivity|].
  apply filter_first_quiet. intros [].
Qed.

Lemma ordered_trans (w1 w2 w3 : world) :
  ordered w1 w2 -> ordered w2 w3 -> ordered w1 w3.
Proof.
  intros (e1 & T1 & F1) (e2 & T2 & F2). exists (e1 ++ e2).
  split; [rewrite T2, T1; now rewrite app_assoc|].
  rewrite callbacks_app. apply filter_first_app; assumption.
Qed.

Lemma grows_by_ordered (w w' : world) :
  grows_by not_established w w' -> ordered w w'.
Proof.
  intros (_ & evs & Ht & Hf). exists evs. split; [exact Ht|].
  apply filter_first_quiet. apply callbacks_not_established. exact Hf.
Qed.

Section CallbackOrder.

Variable context : libwebsocket_context.
Variable env : environment.

(** Lines 605-668: CLIENT_ESTABLISHED is delivered only after
    FILTER_PRE_ESTABLISH was. *)
Lemma commit_tail_ordered (p : libwebsocket_protocols) :
  respects ordered
    (call (callback p) LWS_CALLBACK_CLIENT_FILTER_PRE_ESTABLISH None 0 ;;
     libwebsocket_set_timeout NO_PENDING_TIMEOUT 0 ;;
     free_tokens all_tokens ;;
     update (set_state WSI_STATE_ESTABLISHED) ;;
     update (set_mode LWS_CONNMODE_WS_CLIENT) ;;
     update union_transition ;;
     b <- malloc env (rx_buffer_alloc_size context p) ;;
     update (set_rx_user_buffer b) ;;
     match b with
     | None => lwsl LOG_RX_OUT_OF_MEM ;; goto bail3
     | Some _ =>
         call (callback p) LWS_CALLBACK_CLIENT_ESTABLISHED None 0 ;;
         any_wsi_established (extensions context) 0 ;;
         ret 0
     end)%lws.
Proof.
  intros w0. destruct (callback p) as [cb|] eqn:Hcb; [|apply ordered_refl].
  unfold call, libwebsocket_set_timeout, malloc, lwsl.
  cbv beta iota zeta delta [bind emit ret update goto].
  rewrite free_tokens_spec.
  cbn [wsi mallocs with_wsi with_event with_events with_malloc].
  destruct (malloc_ok env (mallocs w0)).
  - rewrite any_wsi_established_spec. cbn [world_of].
    eexists. split.
    { cbn [trace with_wsi with_event with_events with_malloc].
      rewrite <- !app_assoc. reflexivity. }
    cbn [app]. rewrite callbacks_cons. apply filter_first_cons.
  - cbn [world_of]. eexists. split.
    { cbn [trace with_wsi with_event with_events with_malloc].
      rewrite <- !app_assoc. reflexivity. }
    cbn [app]. rewrite callbacks_cons. apply filter_first_cons.
Qed.

Lemma ordered_establish : respects ordered (establish context env).
Proof.
  unfold establish.
  apply (respects_bind ordered ordered_trans).
  { apply (respects_weaken (grows_by not_established)); [exact grows_by_ordered|].
    apply grows_the_protocol. }
  intros p. apply (respects_bind ordered ordered_trans).
  { apply (respects_weaken (grows_by not_established)); [exact grows_by_ordered|].
    apply grows_user_space; intros; exact I. }
  intros _. apply commit_tail_ordered.
Qed.

(** However the interpreter ends, the callbacks it has made are in that
    order. *)
Lemma interpret_ordered :
  respects ordered (lws_client_interpret_server_handshake context env).
Proof.
  assert (Hq : forall A (m : M A),
            respects (grows_by not_established) m -> respects ordered m).
  { intros A m. apply respects_weaken. exact grows_by_ordered. }
  unfold lws_client_interpret_server_handshake.
  apply respects_with_labels; [exact ordered_trans| |].
  - apply (respects_bind ordered ordered_trans);
      [apply Hq, grows_check_status; intros; exact I|intros _].
    apply (respects_bind ordered ordered_trans);
      [apply Hq, grows_check_upgrade; intros; exact I|intros _].
    apply (respects_bind ordered ordered_trans);
      [apply Hq, grows_check_connection; intros; exact I|intros _].
    apply (respects_bind ordered ordered_trans);
      [apply Hq, grows_select_protocol; intros; exact I|intros _].
    apply (respects_bind ordered ordered_trans);
      [apply Hq, grows_check_extensions; intros; exact I|intros _].
    apply (respects_bind ordered ordered_trans);
      [apply Hq, grows_check_accept; intros; exact I|intros _].
    apply ordered_establish.
  - intros l w. rewrite interpret_labels_spec. cbn [world_of].
    apply grows_by_ordered. apply grows_by_events.
    apply Forall_app. split.
    { destruct l; [constructor|]. unfold c_protocol_free.
      destruct (c_protocol (wsi w)); [constructor; [exact I|constructor]
                                     |constructor]. }
    apply Forall_app. split.
    { unfold connection_error.
      destruct (c_callback (wsi w)); [constructor; [exact I|constructor]
                                     |constructor]. }
    apply Forall_app. split.
    { apply forall_token_frees. intros t. exact I. }
    constructor; [exact I|constructor].
Qed.

End CallbackOrder.

(** C8.  On every successful handshake the callbacks come in this
    order: the CLIENT_CONSTRUCT of the accepted extensions, in the order
    the server listed them; then FILTER_PRE_ESTABLISH; then
    CLIENT_ESTABLISHED; then the ANY_WSI_ESTABLISHED notifications, one
    per registered extension.  And on every run of the interpreter,
    whether it accepts the reply, refuses it or stops at a NULL pointer,
    CLIENT_ESTABLISHED is never delivered before FILTER_PRE_ESTABLISH:
    each CLIENT_ESTABLISHED among the callbacks of the run has a
    FILTER_PRE_ESTABLISH before it. *)
Theorem C8_callback_order (context : libwebsocket_context)
  (env : environment) (w : world) :
  (forall w',
     lws_client_interpret_server_handshake context env w = Ok 0 w' ->
     exists evs,
       trace w' = trace w ++ evs
       /\ callbacks evs
          = map construct
              (accepted_extensions context (server_extensions (wsi w)))
            ++ [User_cb LWS_CALLBACK_CLIENT_FILTER_PRE_ESTABLISH;
                User_cb LWS_CALLBACK_CLIENT_ESTABLISHED]
            ++ any_wsi_notifications context)
  /\ exists evs,
       trace (world_of (lws_client_interpret_server_handshake context env w))
       = trace w ++ evs
       /\ forall pre post,
            callbacks evs
            = pre ++ User_cb LWS_CALLBACK_CLIENT_ESTABLISHED :: post ->
            In (User_cb LWS_CALLBACK_CLIENT_FILTER_PRE_ESTABLISH) pre.
Proof.
  split.
  - intros w' H.
    destruct (interpret_accepted context env w w' H)
      as (vh & vu & vc & n & b & evs & _ & _ & _ & _ & _ & _ & _ & _ & _
          & _ & _ & _ & _ & _ & _ & Ht & Hc & _).
    exists evs. split; assumption.
  - exact (interpret_ordered context env w).
Qed.

Lemma C8_callback_order_witness :
  (exists evs,
     trace (world_of extensions_run) = trace extensions_reply ++ evs
     /\ callbacks evs
        = map construct
            (accepted_extensions with_extensions
               (server_extensions (wsi extensions_reply)))
          ++ [User_cb LWS_CALLBACK_CLIENT_FILTER_PRE_ESTABLISH;
              User_cb LWS_CALLBACK_CLIENT_ESTABLISHED]
          ++ any_wsi_notifications with_extensions)
  /\ exists evs,
       trace (world_of extensions_run) = trace extensions_reply ++ evs
       /\ forall pre post,
            callbacks evs
            = pre ++ User_cb LWS_CALLBACK_CLIENT_ESTABLISHED :: post ->
            In (User_cb LWS_CALLBACK_CLIENT_FILTER_PRE_ESTABLISH) pre.
Proof.
  destruct (C8_callback_order with_extensions all_allocations_succeed
              extensions_reply) as [H1 H2].
  split; [|exact H2].
  apply (H1 (world_of extensions_run)). vm_compute. reflexivity.
Defined.

Example callback_order_sample :
  callbacks (trace (world_of extensions_run))
  = [Ext_cb 1 LWS_EXT_CALLBACK_CLIENT_CONSTRUCT;
     Ext_cb 0 LWS_EXT_CALLBACK_CLIENT_CONSTRUCT;
     User_cb LWS_CALLBACK_CLIENT_FILTER_PRE_ESTABLISH;
     User_cb LWS_CALLBACK_CLIENT_ESTABLISHED;
     Ext_cb 0 LWS_EXT_CALLBACK_ANY_WSI_ESTABLISHED;
     Ext_cb 1 LWS_EXT_CALLBACK_ANY_WSI_ESTABLISHED].
Proof. vm_compute. reflexivity. Qed.

(** Two refused runs: one is refused before the commit and delivers
    neither callback; the other passes FILTER_PRE_ESTABLISH and is
    refused when the receive buffer cannot be allocated, before
    CLIENT_ESTABLISHED. *)
Example refused_order_sample :
  callbacks (trace (world_of superchat_run))
  = [User_cb LWS_CALLBACK_CLIENT_CONNECTION_ERROR]
  /\ callbacks (trace (world_of rx_failure_run))
     = [User_cb LWS_CALLBACK_CLIENT_FILTER_PRE_ESTABLISH;
        User_cb LWS_CALLBACK_CLIENT_CONNECTION_ERROR].
Proof. vm_compute. split; reflexivity. Qed.

(** C4 fails on the code: the server picks "superchat", the second of
    the offered tokens and the name of a registry entry, and the
    interpreter reports a bad protocol and closes the session. *)
Theorem C4_second_offered_protocol_refused :
  protocol_was_offered (wsi superchat_reply) = true
  /\ registry_entry two_protocols "superchat" = Some 1%nat
  /\ value_of superchat_run = Some 1
  /\ protocol (wsi (world_of superchat_run)) = None
  /\ logs (trace (world_of superchat_run)) = [LOG_BAD_PROTOCOL]
  /\ last (trace (world_of superchat_run)) EvOnWritable
     = EvClose LWS_CLOSE_STATUS_PROTOCOL_ERR.
Proof. vm_compute. repeat split. Qed.

(** C9 fails on the code: when the receive buffer cannot be allocated,
    the offered-protocols string, already freed with the sub-protocol
    check, is freed again at [bail3]. *)
Theorem C9_offered_protocols_freed_twice :
  value_of rx_failure_run = Some 1
  /\ count_free P_c_protocol (trace (world_of rx_failure_run)) = 2%nat
  /\ logs (trace (world_of rx_failure_run)) = [LOG_RX_OUT_OF_MEM].
Proof. vm_compute. repeat split. Qed.




(** * Further properties of the code *)

(** ** [strtolower] *)

Lemma tolower_idempotent (c : ascii) :
  CStr.tolower (CStr.tolower c) = CStr.tolower c.
Proof. destruct c as [[] [] [] [] [] [] [] []]; reflexivity. Qed.

(** X1.  [strtolower] keeps the length of the string, and lowering a lowered
    string changes nothing: the headers the interpreter lowers in place
    keep their [token_len], and it may lower them again. *)
Theorem strtolower_length_idempotent (s : string) :
  String.length (CStr.strtolower s) = String.length s
  /\ CStr.strtolower (CStr.strtolower s) = CStr.strtolower s.
Proof.
  induction s as [|c s [IHl IHi]]; cbn [CStr.strtolower String.length].
  - split; reflexivity.
  - split; [now rewrite IHl|]. now rewrite tolower_idempotent, IHi.
Qed.

(** ** The lookup in the protocol registry *)

Lemma find_protocol_spec (ps : list libwebsocket_protocols) (token : string) :
  forall i n,
    find_protocol ps token i = Some n ->
    (i <= n < i + List.length ps)%nat
    /\ name (nth (n - i) ps terminator) = token
    /\ callback (nth (n - i) ps terminator) <> None
    /\ forall m, (m < n - i)%nat ->
         name (nth m ps terminator) <> token
         /\ callback (nth m ps terminator) <> None.
Proof.
  induction ps as [|q ps IH]; intros i n H; cbn [find_protocol] in H.
  - discriminate H.
  - destruct (callback q) as [cb|] eqn:Hcb; [|discriminate H].
    destruct (CStr.strcmp_eq token (name q)) eqn:Hq.
    + injection H as <-. rewrite Nat.sub_diag. cbn [nth List.length].
      split; [lia|]. split.
      { symmetry. apply String.eqb_eq. exact Hq. }
      split; [congruence|]. intros m Hm. lia.
    + destruct (IH (S i) n H) as (Hr & Hn & Hc & Hb).
      cbn [List.length].
      replace (n - i)%nat with (S (n - S i)) by lia. cbn [nth].
      split; [lia|]. split; [exact Hn|]. split; [exact Hc|].
      intros [|m] Hm; cbn [nth].
      * split; [|congruence]. intros E.
        unfold CStr.strcmp_eq in Hq. apply String.eqb_neq in Hq. congruence.
      * apply Hb. lia.
Qed.

(** X2.  The registry lookup returns the first entry of that name among the
    entries before the terminator, and that entry has a callback. *)
Theorem find_protocol_first_match (context : libwebsocket_context)
  (token : string) (n : nat) :
  find_protocol (protocols context) token 0 = Some n ->
  (n < List.length (protocols context))%nat
  /\ name (protocol_at context n) = token
  /\ callback (protocol_at context n) <> None
  /\ forall m, (m < n)%nat ->
       name (protocol_at context m) <> token
       /\ callback (protocol_at context m) <> None.
Proof.
  intros H. destruct (find_protocol_spec _ _ _ _ H) as (Hr & Hn & Hc & Hb).
  rewrite Nat.sub_0_r in *. unfold protocol_at.
  split; [lia|]. split; [exact Hn|]. split; [exact Hc|]. exact Hb.
Qed.

Lemma find_protocol_first_match_witness :
  (1 < List.length (protocols two_protocols))%nat
  /\ name (protocol_at two_protocols 1) = "superchat"%string
  /\ callback (protocol_at two_protocols 1) <> None
  /\ forall m, (m < 1)%nat ->
       name (protocol_at two_protocols m) <> "superchat"%string
       /\ callback (protocol_at two_protocols m) <> None.
Proof.
  exact (find_protocol_first_match two_protocols "superchat" 1 eq_refl).
Defined.

(** X3.  The lookup fails only when no entry before the terminator has the
    name. *)
Theorem find_protocol_none (ps : list libwebsocket_protocols)
  (token : string) (m : nat) :
  find_protocol ps token 0 = None ->
  (forall k, (k <= m)%nat -> callback (nth k ps terminator) <> None) ->
  name (nth m ps terminator) <> token.
Proof.
  assert (G : forall ps i m,
    find_protocol ps token i = None ->
    (forall k, (k <= m)%nat -> callback (nth k ps terminator) <> None) ->
    name (nth m ps terminator) <> token).
  { clear ps m. induction ps as [|q ps IH]; intros i m H Hcb.
    - exfalso. apply (Hcb O); [lia|]. destruct m; reflexivity.
    - cbn [find_protocol] in H.
      destruct (callback q) as [cb|] eqn:Hq.
      2:{ exfalso. apply (Hcb O); [lia|]. exact Hq. }
      destruct (CStr.strcmp_eq token (name q)) eqn:Hn; [discriminate H|].
      destruct m as [|m]; cbn [nth].
      + unfold CStr.strcmp_eq in Hn. apply String.eqb_neq in Hn. congruence.
      + apply (IH (S i) m H). intros k Hk. apply (Hcb (S k)). lia. }
  apply (G ps O m).
Qed.

Lemma find_protocol_none_witness :
  name (nth 0 (protocols default_only) terminator) <> "chat"%string.
Proof.
  apply (find_protocol_none (protocols default_only) "chat" 0 eq_refl).
  intros k Hk. assert (k = O) by lia. subst k. discriminate.
Defined.

(** ** The match of the server's sub-protocol against the offer *)

(** X4.  For a name (not empty, no comma, no blank in front), the loop over
    the offered list says yes exactly when the name is the first
    comma-separated token of the list. *)
Theorem protocol_offered_iff_first (p pc : string) :
  name_like p = true ->
  (protocol_offered (String.length pc) pc p = true <-> p = first_offered pc).
Proof.
  intros Hname. split.
  - apply protocol_offered_first. exact Hname.
  - intros ->. apply protocol_here_offered; [exact Hname|].
    apply first_offered_here.
Qed.

Lemma protocol_offered_iff_first_witness :
  protocol_offered (String.length "chat,superchat") "chat,superchat" "chat"
  = true
  <-> "chat"%string = first_offered "chat,superchat".
Proof.
  exact (protocol_offered_iff_first "chat" "chat,superchat" eq_refl).
Defined.

(** ** The server's extension list *)

Lemma store_char_length (ext_name : string) (x : ascii) :
  (String.length ext_name <= 127)%nat ->
  (String.length (store_char ext_name x) <= 127)%nat.
Proof.
  intros H. unfold store_char.
  destruct (String.length ext_name <? 127)%nat eqn:E; [|exact H].
  apply Nat.ltb_lt in E. rewrite string_length_append. cbn [String.length]. lia.
Qed.

Lemma server_extension_names_bounded (c : string) :
  forall ext_name,
    (String.length ext_name <= 127)%nat ->
    Forall (fun nm => (String.length nm <= 127)%nat)
      (server_extension_names c ext_name).
Proof.
  induction c as [|x c IH]; intros ext_name H; cbn [server_extension_names].
  - constructor; [exact H|constructor].
  - destruct (negb (is_separator x)).
    + apply IH. apply store_char_length. exact H.
    + destruct (String.length ext_name =? 0)%nat.
      * apply IH. cbn. lia.
      * constructor; [exact H|]. apply IH. cbn. lia.
Qed.

Lemma registered_index (exts : list libwebsocket_extension) :
  forall k i ext,
    In (i, ext) (registered exts k) ->
    (k <= i)%nat /\ nth_error exts (i - k) = Some ext.
Proof.
  induction exts as [|e exts IH]; intros k i ext H; cbn [registered] in H.
  - destruct H.
  - destruct (extension_callback e); [|destruct H].
    destruct H as [H|H].
    + injection H as <- <-. rewrite Nat.sub_diag. split; [lia|reflexivity].
    + destruct (IH _ _ _ H) as [Hk Hn]. split; [lia|].
      replace (i - k)%nat with (S (i - S k)) by lia. exact Hn.
Qed.

Lemma named_in (ext_name : string) (i : nat)
  (l : list (nat * libwebsocket_extension)) :
  In i (named ext_name l) ->
  exists ext, In (i, ext) l /\ extension_name ext = ext_name.
Proof.
  unfold named. intros H. apply in_map_iff in H.
  destruct H as ([j ext] & Hj & H). cbn [fst] in Hj. subst j.
  apply filter_In in H. destruct H as [H E]. cbn [snd] in E.
  exists ext. split; [exact H|].
  symmetry. apply String.eqb_eq. exact E.
Qed.

Lemma spares_refl (i : nat) (w : world) : spares i w w.
Proof.
  split; [intros H; exact H|]. exists []. rewrite app_nil_r.
  split; [reflexivity|]. intros [].
Qed.

Lemma spares_trans (i : nat) (w1 w2 w3 : world) :
  spares i w1 w2 -> spares i w2 w3 -> spares i w1 w3.
Proof.
  intros (A1 & e1 & T1 & C1) (A2 & e2 & T2 & C2). split.
  - intros H. apply A2, A1, H.
  - exists (e1 ++ e2). split; [rewrite T2, T1; now rewrite app_assoc|].
    rewrite callbacks_app, in_app_iff. tauto.
Qed.

Lemma spares_event (i : nat) (e : event) (w : world) :
  ~ In (construct i) (view_event e) -> spares i w (with_event e w).
Proof.
  intros H. split; [intros Ha; exact Ha|]. exists [e].
  split; [reflexivity|]. rewrite callbacks_cons, app_nil_r. exact H.
Qed.

Lemma strcmp_eq_length (a b : string) :
  CStr.strcmp_eq a b = true -> String.length a = String.length b.
Proof.
  unfold CStr.strcmp_eq. intros H. apply String.eqb_eq in H. now subst b.
Qed.

Section LongName.

Variable context : libwebsocket_context.
Variable env : environment.
Variable i : nat.

(** The walk over the registry for a name of at most 127 characters
    passes over entry [i] when that entry has a longer name. *)
Lemma instantiate_spares (exts : list libwebsocket_extension)
  (ext_name : string) :
  (String.length ext_name <= 127)%nat ->
  forall k n,
    (forall e, (k <= i)%nat -> nth_error exts (i - k) = Some e ->
               (127 < String.length (extension_name e))%nat) ->
    respects (spares i) (instantiate env exts k ext_name n).
Proof.
  intros Hlen.
  induction exts as [|ext exts IH]; intros k n Hlong; cbn [instantiate].
  - apply respects_ret. apply spares_refl.
  - destruct (extension_callback ext) as [f|] eqn:Ef;
      [|apply respects_ret; apply spares_refl].
    assert (Hnext : forall e, (S k <= i)%nat ->
              nth_error exts (i - S k) = Some e ->
              (127 < String.length (extension_name e))%nat).
    { intros e Hk He. apply Hlong; [lia|].
      replace (i - k)%nat with (S (i - S k)) by lia. exact He. }
    destruct (CStr.strcmp_eq ext_name (extension_name ext)) eqn:Ename;
      cbn [negb]; [|apply IH; exact Hnext].
    assert (Hk : k <> i).
    { intros ->. apply strcmp_eq_length in Ename.
      specialize (Hlong ext (Nat.le_refl _)). rewrite Nat.sub_diag in Hlong.
      specialize (Hlong eq_refl). lia. }
    intros w. unfold malloc, call_ext, lwsl. rewrite Ef.
    cbv beta iota zeta delta [bind emit ret update goto].
    destruct (malloc_ok env (mallocs w)).
    + match goal with
      | |- spares i w (world_of (instantiate env exts (S k) ext_name true ?v)) =>
          apply (spares_trans i w v); [|apply IH; exact Hnext]
      end.
      split.
      * cbn [wsi with_wsi with_event with_malloc active_extensions
               set_active_extensions].
        intros Hb Ha. rewrite map_app, in_app_iff in Ha.
        destruct Ha as [Ha|[Ha|[]]]; [exact (Hb Ha)|]. exact (Hk Ha).
      * eexists [_; _]. cbn [trace with_wsi with_event with_malloc].
        rewrite <- app_assoc. split; [reflexivity|].
        cbn. intros [Hc|[]]. unfold construct in Hc.
        injection Hc as Hc. exact (Hk Hc).
    + cbn [world_of]. split; [intros Ha; exact Ha|].
      eexists [_; _]. cbn [trace with_event with_malloc].
      rewrite <- app_assoc. split; [reflexivity|]. cbn. intros [].
Qed.

Hypothesis long_entry :
  forall e, nth_error (extensions context) i = Some e ->
            (127 < String.length (extension_name e))%nat.

Lemma check_extension_spares (ext_name : string) :
  (String.length ext_name <= 127)%nat ->
  respects (spares i) (check_extension context env ext_name).
Proof.
  intros Hlen. unfold check_extension.
  apply (respects_bind (spares i) (spares_trans i)).
  - apply instantiate_spares; [exact Hlen|].
    intros e _ He. rewrite Nat.sub_0_r in He. exact (long_entry e He).
  - intros n. destruct n.
    + apply respects_ret. apply spares_refl.
    + apply (respects_bind (spares i) (spares_trans i)).
      * intros w. apply spares_event. intros [].
      * intros _. apply respects_goto. apply spares_refl.
Qed.

Lemma check_extensions_loop_spares (c : string) :
  forall ext_name,
    (String.length ext_name <= 127)%nat ->
    respects (spares i) (check_extensions_loop context env c ext_name).
Proof.
  induction c as [|x c IH]; intros ext_name Hlen;
    cbn [check_extensions_loop].
  - apply check_extension_spares. exact Hlen.
  - destruct (negb (is_separator x)).
    { apply IH. apply store_char_length. exact Hlen. }
    destruct (String.length ext_name =? 0)%nat.
    { apply IH. cbn. lia. }
    apply (respects_bind (spares i) (spares_trans i)).
    + apply check_extension_spares. exact Hlen.
    + intros _. apply IH. cbn. lia.
Qed.

End LongName.

(** X5.  [ext_name] has 128 bytes and the index stops at 127: whatever the
    server sends, whatever the allocator does and however the loop over
    the server's extension list ends, it does not instantiate an
    extension that is registered under a name of more than 127
    characters: that extension is not made active, and its
    CLIENT_CONSTRUCT is not called. *)
Theorem long_extension_name_never_active (context : libwebsocket_context)
  (env : environment) (c : string) (w : world)
  (i : nat) (ext : libwebsocket_extension) :
  In (i, ext) (registered (extensions context) 0) ->
  (127 < String.length (extension_name ext))%nat ->
  ~ In i (map fst (active_extensions (wsi w))) ->
  ~ In i (map fst (active_extensions
                     (wsi (world_of (check_extensions_loop context env c
                                       EmptyString w)))))
  /\ exists evs,
       trace (world_of (check_extensions_loop context env c EmptyString w))
       = trace w ++ evs
       /\ ~ In (Ext_cb i LWS_EXT_CALLBACK_CLIENT_CONSTRUCT) (callbacks evs).
Proof.
  intros Hreg Hlong Hbefore.
  destruct (registered_index _ _ _ _ Hreg) as [_ Hnth].
  rewrite Nat.sub_0_r in Hnth.
  assert (Hentry : forall e, nth_error (extensions context) i = Some e ->
                             (127 < String.length (extension_name e))%nat).
  { intros e He. assert (e = ext) by congruence. subst e. exact Hlong. }
  destruct (check_extensions_loop_spares context env i Hentry c EmptyString
              (Nat.le_0_l _) w) as [Ha He].
  split; [exact (Ha Hbefore)|exact He].
Qed.

Lemma long_extension_name_never_active_witness :
  ~ In O (map fst (active_extensions
                     (wsi (world_of
                             (check_extensions_loop long_named
                                all_allocations_succeed long_name EmptyString
                                (sample_world
                                   (sample_wsi None (fun _ => None))))))))
  /\ exists evs,
       trace (world_of
                (check_extensions_loop long_named all_allocations_succeed
                   long_name EmptyString
                   (sample_world (sample_wsi None (fun _ => None)))))
       = trace (sample_world (sample_wsi None (fun _ => None))) ++ evs
       /\ ~ In (Ext_cb O LWS_EXT_CALLBACK_CLIENT_CONSTRUCT) (callbacks evs).
Proof.
  apply (long_extension_name_never_active long_named all_allocations_succeed
           long_name (sample_world (sample_wsi None (fun _ => None))) O
           (sample_extension long_name (fun _ _ => 0))).
  - left. reflexivity.
  - apply Nat.ltb_lt. vm_compute. reflexivity.
  - intros [].
Defined.

(** The server names the extension by its 128 characters: the loop
    looks up the first 127 of them, finds no such extension and leaves
    for [bail2]. *)
Example long_name_sample :
  check_extensions_loop long_named all_allocations_succeed long_name
    EmptyString (sample_world (sample_wsi None (fun _ => None)))
  = Goto bail2
      (with_event (EvLog LOG_UNKNOWN_EXTENSION)
         (sample_world (sample_wsi None (fun _ => None)))).
Proof. vm_compute. reflexivity. Qed.

Lemma trailing_separator_name (c : string) (x : ascii) :
  is_separator x = true ->
  forall ext_name,
    In EmptyString
      (server_extension_names (c ++ String x EmptyString) ext_name).
Proof.
  intros Hx. induction c as [|y c IH]; intros ext_name;
    cbn [append server_extension_names].
  - rewrite Hx. cbn [negb].
    destruct (String.length ext_name =? 0)%nat.
    + left. reflexivity.
    + right. left. reflexivity.
  - destruct (negb (is_separator y)); [apply IH|].
    destruct (String.length ext_name =? 0)%nat; [apply IH|].
    right. apply IH.
Qed.

(** X6.  A [Sec-WebSocket-Extensions] value that ends with a comma, a blank
    or a tab makes the loop look up the empty name after it: unless an
    extension is registered under the empty name, the reply is never
    accepted. *)
Theorem trailing_separator_refused (context : libwebsocket_context)
  (env : environment) (w w' : world) (c : string) (x : ascii) :
  hdrs (wsi w) WSI_TOKEN_EXTENSIONS = Some (c ++ String x EmptyString)%string ->
  is_separator x = true ->
  is_registered context EmptyString = false ->
  lws_client_interpret_server_handshake context env w <> Ok 0 w'.
Proof.
  intros Hh Hx Hreg H.
  apply interpret_accepted in H.
  destruct H as (vh & vu & vc & n & b & evs & _ & _ & _ & _ & _ & _ & _
                 & Hext & _).
  unfold extensions_registered, server_extensions in Hext.
  rewrite Hh in Hext.
  rewrite string_length_append in Hext. cbn [String.length] in Hext.
  rewrite Nat.add_1_r in Hext. cbn [Nat.eqb] in Hext.
  rewrite forallb_forall in Hext.
  specialize (Hext EmptyString (trailing_separator_name c x Hx EmptyString)).
  congruence.
Qed.

Lemma trailing_separator_refused_witness :
  lws_client_interpret_server_handshake with_extensions
    all_allocations_succeed
    (sample_world (sample_wsi None
       (good_reply None (Some "deflate-frame,"%string))))
  <> Ok 0 (sample_world (sample_wsi None (fun _ => None))).
Proof.
  apply (trailing_separator_refused with_extensions all_allocations_succeed
           _ _ "deflate-frame" ","%char); reflexivity.
Defined.

(** In that run the registered extension "deflate-frame" is constructed
    first; the refusal comes from the empty name after the comma. *)
Example trailing_separator_sample :
  value_of
    (lws_client_interpret_server_handshake with_extensions
       all_allocations_succeed
       (sample_world (sample_wsi None
          (good_reply None (Some "deflate-frame,"%string))))) = Some 1
  /\ callbacks
       (trace (world_of
          (lws_client_interpret_server_handshake with_extensions
             all_allocations_succeed
             (sample_world (sample_wsi None
                (good_reply None (Some "deflate-frame,"%string)))))))
     = [Ext_cb 0 LWS_EXT_CALLBACK_CLIENT_CONSTRUCT;
        User_cb LWS_CALLBACK_CLIENT_CONNECTION_ERROR]
  /\ logs
       (trace (world_of
          (lws_client_interpret_server_handshake with_extensions
             all_allocations_succeed
             (sample_world (sample_wsi None
                (good_reply None (Some "deflate-frame,"%string)))))))
     = [LOG_UNKNOWN_EXTENSION].
Proof. vm_compute. repeat split. Qed.

(** ** The notification of the extensions *)

Lemma active_user_app (i : nat) (l : list (nat * block)) (e : nat * block) :
  active_user i (l ++ [e])
  = if Nat.eqb (fst e) i then Some (snd e) else active_user i l.
Proof. unfold active_user. rewrite fold_left_app. reflexivity. Qed.

(** X7.  ANY_WSI_ESTABLISHED goes to every registered extension, in registry
    order; the user pointer it carries is NULL exactly for the
    extensions that are not active on the connection, and otherwise the
    state block of an active instance of that extension. *)
Theorem any_wsi_established_user (exts : list libwebsocket_extension)
  (w : world) :
  any_wsi_established exts 0 w
  = Ok tt (with_events
             (map (fun e =>
                     EvExtCallback (fst e) LWS_EXT_CALLBACK_ANY_WSI_ESTABLISHED
                       (active_user (fst e) (active_extensions (wsi w))) None)
                (registered exts 0)) w)
  /\ forall i,
       (active_user i (active_extensions (wsi w)) = None
        <-> ~ In i (map fst (active_extensions (wsi w))))
       /\ forall b, active_user i (active_extensions (wsi w)) = Some b ->
                    In (i, b) (active_extensions (wsi w)).
Proof.
  split; [apply any_wsi_established_spec|].
  intros i. generalize (active_extensions (wsi w)) as l. intros l.
  induction l as [|[j b] l IH] using rev_ind.
  - split; [split; [intros _ []|reflexivity]|]. intros b H. discriminate H.
  - rewrite active_user_app, map_app. cbn [fst snd map].
    destruct (Nat.eqb j i) eqn:E.
    + apply Nat.eqb_eq in E. subst j. split.
      * split; [discriminate|]. intros H. exfalso. apply H.
        apply in_or_app. right. left. reflexivity.
      * intros b' H. injection H as <-. apply in_or_app. right. left.
        reflexivity.
    + apply Nat.eqb_neq in E. destruct IH as [[IH1 IH2] IH3]. split.
      * split.
        { intros H Hin. apply in_app_or in Hin. destruct Hin as [Hin|[Hin|[]]].
          - exact (IH1 H Hin).
          - exact (E Hin). }
        { intros H. apply IH2. intros Hin. apply H. apply in_or_app.
          left. exact Hin. }
      * intros b' H. apply in_or_app. left. apply IH3. exact H.
Qed.

(** ** What every run of the interpreter keeps *)

Lemma count_free_app (p : pointer) (a b : list event) :
  count_free p (a ++ b) = (count_free p a + count_free p b)%nat.
Proof. unfold count_free. now rewrite filter_app, length_app. Qed.

Lemma closes_app (a b : list event) : closes (a ++ b) = closes a ++ closes b.
Proof. unfold closes. apply flat_map_app. Qed.

Lemma sends_app (a b : list event) : sends (a ++ b) = sends a ++ sends b.
Proof. unfold sends. apply flat_map_app. Qed.

Lemma conserves_refl (w : world) : conserves w w.
Proof.
  exists []. rewrite app_nil_r. repeat split. left. reflexivity.
Qed.

Lemma conserves_trans (w1 w2 w3 : world) :
  conserves w1 w2 -> conserves w2 w3 -> conserves w1 w3.
Proof.
  intros (e1 & T1 & C1 & S1 & F1 & M1) (e2 & T2 & C2 & S2 & F2 & M2).
  exists (e1 ++ e2). split; [rewrite T2, T1; now rewrite app_assoc|].
  split; [rewrite closes_app, C1, C2; reflexivity|].
  split; [rewrite sends_app, S1, S2; reflexivity|].
  split.
  - intros t. rewrite count_free_app. specialize (F1 t). specialize (F2 t). lia.
  - destruct M2 as [M2|M2]; [|right; exact M2].
    rewrite M2. exact M1.
Qed.

Lemma conserves_event (e : event) (w : world) :
  closes [e] = [] ->
  sends [e] = [] ->
  (forall t, count_free (P_token t) [e] = O) ->
  conserves w (with_event e w).
Proof.
  intros Hc Hs Hf. exists [e]. split; [reflexivity|]. split; [exact Hc|].
  split; [exact Hs|]. split; [|left; reflexivity].
  intros t. rewrite Hf. reflexivity.
Qed.

Lemma conserves_update (f : libwebsocket -> libwebsocket) (w : world) :
  (forall t, held (f (wsi w)) t = held (wsi w) t) ->
  mode (f (wsi w)) = mode (wsi w) ->
  conserves w (with_wsi f w).
Proof.
  intros Hh Hm. exists []. cbn [trace with_wsi wsi]. rewrite app_nil_r.
  split; [reflexivity|]. split; [reflexivity|]. split; [reflexivity|].
  split; [|left; exact Hm]. intros t. rewrite Hh. reflexivity.
Qed.

Section InterpreterKeeps.

Variable context : libwebsocket_context.
Variable env : environment.

Lemma keeps_bind {A B} (m : M A) (k : A -> M B) :
  respects conserves m -> (forall a, respects conserves (k a)) ->
  respects conserves (bind m k).
Proof. apply respects_bind. exact conserves_trans. Qed.

Lemma keeps_emit (e : event) :
  closes [e] = [] ->
  sends [e] = [] ->
  (forall t, count_free (P_token t) [e] = O) ->
  respects conserves (emit e).
Proof. intros Hc Hs Hf w. apply conserves_event; assumption. Qed.

Lemma keeps_update (f : libwebsocket -> libwebsocket) :
  (forall s t, held (f s) t = held s t) ->
  (forall s, mode (f s) = mode s) ->
  respects conserves (update f).
Proof. intros Hh Hm w. apply conserves_update; [apply Hh|apply Hm]. Qed.

Lemma keeps_lwsl (m : log_message) : respects conserves (lwsl m).
Proof. apply keeps_emit; [reflexivity|reflexivity|]. intros t. reflexivity. Qed.

Lemma keeps_malloc (size : Z) : respects conserves (malloc env size).
Proof.
  intros w. unfold malloc. cbn [world_of].
  apply (conserves_trans _ (with_malloc w)).
  - exists []. cbn [trace with_malloc wsi]. rewrite app_nil_r.
    repeat split. left. reflexivity.
  - apply conserves_event; [reflexivity|reflexivity|]. intros t. reflexivity.
Qed.

Lemma keeps_call (cb : option user_callback) (r : callback_reason)
  (arg : option string) (len : Z) :
  respects conserves (call cb r arg len).
Proof.
  unfold call. destruct cb as [f|].
  - apply keeps_bind; [|intros _; apply respects_ret; exact conserves_refl].
    apply keeps_emit; [reflexivity|reflexivity|]. intros t. reflexivity.
  - apply respects_null_dereference. exact conserves_refl.
Qed.

Lemma keeps_call_ext (i : nat) (ext : libwebsocket_extension)
  (r : extension_callback_reason) (user : option block) (arg : option string) :
  respects conserves (call_ext i ext r user arg).
Proof.
  unfold call_ext. destruct (extension_callback ext) as [f|].
  - apply keeps_bind; [|intros _; apply respects_ret; exact conserves_refl].
    apply keeps_emit; [reflexivity|reflexivity|]. intros t. reflexivity.
  - apply respects_null_dereference. exact conserves_refl.
Qed.

Lemma keeps_free_c_protocol : respects conserves free_c_protocol.
Proof.
  intros w. rewrite free_c_protocol_spec. cbn [world_of].
  unfold c_protocol_free. destruct (c_protocol (wsi w)).
  - apply (conserves_event (EvFree P_c_protocol));
      [reflexivity|reflexivity|].
    intros t. reflexivity.
  - rewrite with_events_nil. apply conserves_refl.
Qed.

Lemma held_set_token (t : token_index) (v : string) (s : libwebsocket) :
  hdrs s t <> None ->
  forall t', held (set_token t (Some v) s) t' = held s t'.
Proof.
  intros H t'. unfold held, set_token. cbn [hdrs set_hdr].
  destruct (token_index_eqb t' t) eqn:E; [|reflexivity].
  assert (t' = t) by (destruct t', t; (reflexivity || discriminate E)).
  subst t'. destruct (hdrs s t); [reflexivity|contradiction].
Qed.

Lemma keeps_strtolower_token (t : token_index) :
  respects conserves (strtolower_token t).
Proof.
  unfold strtolower_token. apply respects_reading. intros w.
  destruct (hdrs (wsi w) t) as [v|] eqn:Hv.
  - cbv beta iota delta [bind update ret]. cbn [world_of].
    apply conserves_update; [|reflexivity].
    apply held_set_token. congruence.
  - apply conserves_refl.
Qed.

Ltac keeps_step :=
  first
    [ apply keeps_lwsl
    | apply keeps_malloc
    | apply keeps_call
    | apply keeps_call_ext
    | apply keeps_free_c_protocol
    | apply keeps_strtolower_token
    | apply (respects_ret conserves conserves_refl)
    | apply (respects_goto conserves conserves_refl)
    | apply (respects_null_dereference conserves conserves_refl)
    | apply (respects_get_wsi conserves conserves_refl)
    | (apply keeps_update; [intros ? ?; reflexivity | intros ?; reflexivity])
    | (apply keeps_emit; [reflexivity | reflexivity | intros ?; reflexivity])
    | apply keeps_bind; [|intros ?] ].

Lemma keeps_check_status : respects conserves check_status.
Proof.
  unfold check_status. apply keeps_bind; [keeps_step|intros v].
  destruct (CStr.strncmp_eq v "101" 3); repeat keeps_step.
Qed.

Lemma keeps_check_upgrade : respects conserves check_upgrade.
Proof.
  unfold check_upgrade. apply keeps_bind; [keeps_step|intros v].
  destruct (CStr.strcmp_eq v "websocket"); repeat keeps_step.
Qed.

Lemma keeps_check_connection : respects conserves check_connection.
Proof.
  unfold check_connection. apply keeps_bind; [keeps_step|intros v].
  destruct (CStr.strcmp_eq v "upgrade"); repeat keeps_step.
Qed.

Lemma keeps_select_protocol : respects conserves (select_protocol context).
Proof.
  unfold select_protocol. apply respects_reading. intros w.
  destruct (Nat.eqb (token_len (wsi w) WSI_TOKEN_PROTOCOL) 0).
  - revert w. change (respects conserves
      (update (set_protocol (Some O)) ;;
       update (set_c_callback (callback (protocol_at context 0))) ;;
       free_c_protocol)%lws).
    repeat keeps_step.
  - destruct (c_protocol (wsi w)) as [pc|]; [|apply conserves_refl].
    destruct (hdrs (wsi w) WSI_TOKEN_PROTOCOL) as [token|];
      [|apply conserves_refl].
    cbv zeta. revert w.
    match goal with
    | |- forall w, conserves w (world_of (?m w)) =>
        change (respects conserves m)
    end.
    keeps_step; [keeps_step|].
    destruct (negb (protocol_offered (String.length pc) pc token)).
    + repeat keeps_step.
    + keeps_step; [keeps_step|].
      destruct (find_protocol (protocols context) token 0);
        repeat keeps_step.
Qed.

Lemma keeps_instantiate (exts : list libwebsocket_extension)
  (ext_name : string) :
  forall i n, respects conserves (instantiate env exts i ext_name n).
Proof.
  induction exts as [|ext exts IH]; intros i n; cbn [instantiate].
  - keeps_step.
  - destruct (extension_callback ext); [|keeps_step].
    destruct (negb (CStr.strcmp_eq ext_name (extension_name ext)));
      [apply IH|].
    apply keeps_bind; [keeps_step|intros b].
    destruct b as [blk|]; [|repeat keeps_step].
    keeps_step; [keeps_step|]. keeps_step; [keeps_step|]. apply IH.
Qed.

Lemma keeps_check_extension (ext_name : string) :
  respects conserves (check_extension context env ext_name).
Proof.
  unfold check_extension.
  apply keeps_bind; [apply keeps_instantiate|intros n].
  destruct n; repeat keeps_step.
Qed.

Lemma keeps_check_extensions_loop (c : string) :
  forall ext_name,
    respects conserves (check_extensions_loop context env c ext_name).
Proof.
  induction c as [|x c IH]; intros ext_name; cbn [check_extensions_loop].
  - apply keeps_check_extension.
  - destruct (negb (is_separator x)); [apply IH|].
    destruct (String.length ext_name =? 0)%nat; [apply IH|].
    keeps_step; [apply keeps_check_extension|apply IH].
Qed.

Lemma keeps_check_extensions :
  respects conserves (check_extensions context env).
Proof.
  unfold check_extensions. apply respects_reading. intros w.
  destruct (hdrs (wsi w) WSI_TOKEN_EXTENSIONS) as [c|];
    [|apply conserves_refl].
  destruct (Nat.eqb (String.length c) 0); [apply conserves_refl|].
  apply keeps_check_extensions_loop.
Qed.

Lemma keeps_check_accept : respects conserves check_accept.
Proof.
  unfold check_accept. apply respects_reading. intros w.
  destruct (hdrs (wsi w) WSI_TOKEN_ACCEPT) as [v|]; [|apply conserves_refl].
  destruct (CStr.strcmp_eq v (initial_handshake_hash_base64 (wsi w)));
    [apply conserves_refl|].
  revert w.
  match goal with
  | |- forall w, conserves w (world_of (?m w)) => change (respects conserves m)
  end.
  repeat keeps_step.
Qed.

Lemma keeps_ensure_user_space :
  respects conserves (libwebsocket_ensure_user_space context env).
Proof.
  unfold libwebsocket_ensure_user_space. apply respects_reading. intros w.
  unfold bind at 1. unfold the_protocol. unfold bind at 1. unfold get_wsi at 1.
  destruct (protocol (wsi w)) as [n|]; [|apply conserves_refl].
  unfold ret at 1.
  destruct (user_space (wsi w)); [apply conserves_refl|].
  destruct (per_session_data_size (protocol_at context n) =? 0);
    [apply conserves_refl|].
  revert w.
  match goal with
  | |- forall w, conserves w (world_of (?m w)) => change (respects conserves m)
  end.
  repeat keeps_step.
Qed.

Lemma keeps_any_wsi_established (exts : list libwebsocket_extension) :
  forall i, respects conserves (any_wsi_established exts i).
Proof.
  induction exts as [|ext exts IH]; intros i; cbn [any_wsi_established].
  - keeps_step.
  - destruct (extension_callback ext) eqn:E; [|keeps_step].
    keeps_step; [keeps_step|]. keeps_step; [keeps_step|]. apply IH.
Qed.

Lemma count_free_token_frees (s : libwebsocket) (t : token_index)
  (ts : list token_index) :
  count_free (P_token t) (token_frees s ts)
  = (List.length (filter (token_index_eqb t) ts) * held s t)%nat.
Proof.
  induction ts as [|t' ts IH]; [reflexivity|].
  cbn [token_frees flat_map filter]. fold (token_frees s ts).
  rewrite count_free_app, IH. unfold held.
  destruct (token_index_eqb t t') eqn:E.
  - assert (t = t') by (destruct t, t'; (reflexivity || discriminate E)).
    subst t'. destruct (hdrs s t).
    + unfold count_free. cbn [filter pointer_eqb]. rewrite E.
      cbn [List.length]. lia.
    + cbn [List.length]. unfold count_free. cbn [filter List.length]. lia.
  - destruct (hdrs s t').
    + unfold count_free at 1. cbn [filter pointer_eqb]. rewrite E.
      cbn [List.length]. lia.
    + unfold count_free at 1. cbn [filter List.length]. lia.
Qed.

Lemma count_free_all_tokens (s : libwebsocket) (t : token_index) :
  count_free (P_token t) (token_frees s all_tokens) = held s t.
Proof.
  rewrite count_free_token_frees.
  replace (List.length (filter (token_index_eqb t) all_tokens)) with 1%nat
    by (destruct t; reflexivity).
  lia.
Qed.

Lemma sends_token_frees (s : libwebsocket) (ts : list token_index) :
  sends (token_frees s ts) = [].
Proof.
  induction ts as [|t ts IH]; [reflexivity|].
  cbn [token_frees flat_map]. fold (token_frees s ts).
  rewrite sends_app, IH. destruct (hdrs s t); reflexivity.
Qed.

Lemma closes_token_frees (s : libwebsocket) (ts : list token_index) :
  closes (token_frees s ts) = [].
Proof.
  induction ts as [|t ts IH]; [reflexivity|].
  cbn [token_frees flat_map]. fold (token_frees s ts).
  rewrite closes_app, IH. destruct (hdrs s t); reflexivity.
Qed.

(** Lines 612-622: the header tokens are freed and the union is
    zeroed. *)
Lemma keeps_commit {A} (k : M A) :
  respects conserves k ->
  respects conserves
    (free_tokens all_tokens ;;
     update (set_state WSI_STATE_ESTABLISHED) ;;
     update (set_mode LWS_CONNMODE_WS_CLIENT) ;;
     update union_transition ;;
     k)%lws.
Proof.
  intros Hk w. cbv beta iota delta [bind update].
  rewrite free_tokens_spec.
  match goal with
  | |- conserves w (world_of (k ?w1)) =>
      apply (conserves_trans w w1); [|apply Hk]
  end.
  exists (token_frees (wsi w) all_tokens).
  split; [reflexivity|]. split; [apply closes_token_frees|].
  split; [apply sends_token_frees|].
  split; [|right; reflexivity].
  intros t. rewrite count_free_all_tokens.
  match goal with
  | |- (_ + ?h)%nat = _ => change h with O
  end.
  lia.
Qed.

Lemma keeps_establish : respects conserves (establish context env).
Proof.
  unfold establish.
  apply keeps_bind.
  { unfold the_protocol. apply respects_reading. intros w.
    destruct (protocol (wsi w)); apply conserves_refl. }
  intros p. apply keeps_bind.
  { destruct (per_session_data_size p =? 0); [keeps_step|].
    apply keeps_bind; [apply keeps_ensure_user_space|intros b].
    destruct b; keeps_step. }
  intros _. apply keeps_bind; [keeps_step|intros _].
  apply keeps_bind.
  { unfold libwebsocket_set_timeout. keeps_step. }
  intros _. apply keeps_commit.
  apply keeps_bind; [keeps_step|intros b].
  apply keeps_bind; [keeps_step|intros _].
  destruct b.
  - apply keeps_bind; [keeps_step|intros _].
    apply keeps_bind; [apply keeps_any_wsi_established|intros _].
    keeps_step.
  - repeat keeps_step.
Qed.

(** The body of the interpreter, before its cleanup labels. *)
Lemma keeps_interpret_body :
  respects conserves
    (check_status ;;
     check_upgrade ;;
     check_connection ;;
     select_protocol context ;;
     check_extensions context env ;;
     check_accept ;;
     establish context env)%lws.
Proof.
  apply keeps_bind; [apply keeps_check_status|intros _].
  apply keeps_bind; [apply keeps_check_upgrade|intros _].
  apply keeps_bind; [apply keeps_check_connection|intros _].
  apply keeps_bind; [apply keeps_select_protocol|intros _].
  apply keeps_bind; [apply keeps_check_extensions|intros _].
  apply keeps_bind; [apply keeps_check_accept|intros _].
  apply keeps_establish.
Qed.

Lemma stays_cleared_refl (w : world) : stays_cleared w w.
Proof. intros H. exact H. Qed.

Lemma stays_cleared_trans (w1 w2 w3 : world) :
  stays_cleared w1 w2 -> stays_cleared w2 w3 -> stays_cleared w1 w3.
Proof. intros H1 H2 H. apply H2, H1, H. Qed.

(** Lines 630-668: what follows the zeroing of the union leaves the
    header slots alone. *)
Lemma commit_end_stays_cleared (p : libwebsocket_protocols) :
  respects stays_cleared
    (b <- malloc env (rx_buffer_alloc_size context p) ;;
     update (set_rx_user_buffer b) ;;
     match b with
     | None => lwsl LOG_RX_OUT_OF_MEM ;; goto bail3
     | Some _ =>
         call (callback p) LWS_CALLBACK_CLIENT_ESTABLISHED None 0 ;;
         any_wsi_established (extensions context) 0 ;;
         ret 0
     end)%lws.
Proof.
  intros w. unfold malloc, lwsl, call.
  cbv beta iota zeta delta [bind update emit goto].
  destruct (malloc_ok env (mallocs w)); [|intros H; exact H].
  destruct (callback p); [|intros H; exact H].
  cbv beta iota zeta delta [bind update emit goto ret].
  rewrite any_wsi_established_spec. intros H. exact H.
Qed.

Lemma establish_clears (w w' : world) (a : Z) :
  establish context env w = Ok a w' -> forall t, hdrs (wsi w') t = None.
Proof.
  unfold establish. intros H.
  apply bind_Ok in H. destruct H as (p & w1 & _ & H).
  apply bind_Ok in H. destruct H as (u2 & w2 & _ & H).
  apply bind_Ok in H. destruct H as (u3 & w3 & _ & H).
  apply bind_Ok in H. destruct H as (u4 & w4 & _ & H).
  apply bind_Ok in H. destruct H as (u5 & w5 & _ & H).
  apply bind_Ok in H. destruct H as (u6 & w6 & _ & H).
  apply bind_Ok in H. destruct H as (u7 & w7 & _ & H).
  apply bind_Ok in H. destruct H as (u8 & w8 & E8 & H).
  pose proof (commit_end_stays_cleared p w8) as Hc.
  rewrite H in Hc. cbn [world_of] in Hc. apply Hc.
  unfold update in E8. injection E8 as _ <-. intros t. reflexivity.
Qed.

(** What every run of the interpreter that returns has done. *)
Lemma interpret_keeps (w w' : world) (a : Z) :
  lws_client_interpret_server_handshake context env w = Ok a w' ->
  exists evs,
    trace w' = trace w ++ evs
    /\ closes evs
       = (if a =? 0 then [] else [LWS_CLOSE_STATUS_PROTOCOL_ERR])
    /\ sends evs = []
    /\ (forall t, count_free (P_token t) evs = held (wsi w) t)
    /\ (mode (wsi w') = mode (wsi w)
        \/ mode (wsi w') = LWS_CONNMODE_WS_CLIENT).
Proof.
  intros H. unfold lws_client_interpret_server_handshake in H.
  pose proof (keeps_interpret_body w) as Hk.
  apply with_labels_Ok in H. destruct H as [H|(l & w1 & Hb & H)].
  - rewrite H in Hk. cbn [world_of] in Hk.
    destruct Hk as (evs & Ht & Hc & Hsd & Hf & Hm).
    assert (Ha : a = 0).
    { do 6 (apply bind_Ok in H; destruct H as (? & ? & _ & H)).
      pose proof (establish_outcome context env x10) as Ho.
      rewrite H in Ho. tauto. }
    assert (Hn : forall t, hdrs (wsi w') t = None).
    { do 6 (apply bind_Ok in H; destruct H as (? & ? & _ & H)).
      exact (establish_clears _ _ _ H). }
    exists evs. split; [exact Ht|]. subst a. split; [exact Hc|].
    split; [exact Hsd|]. split; [|exact Hm].
    intros t. specialize (Hf t). unfold held at 1 in Hf.
    rewrite Hn in Hf. lia.
  - rewrite Hb in Hk. cbn [world_of] in Hk.
    destruct Hk as (evs & Ht & Hc & Hsd & Hf & Hm).
    rewrite interpret_labels_spec in H.
    assert (Ha : a = 1) by congruence.
    apply (f_equal world_of) in H. cbn [world_of] in H. subst a w'.
    exists (evs ++
            (match l with
             | bail3 => c_protocol_free (wsi w1)
             | bail2 => []
             end)
            ++ connection_error (wsi w1) ++ token_frees (wsi w1) all_tokens
            ++ [EvClose LWS_CLOSE_STATUS_PROTOCOL_ERR]).
    split.
    { unfold with_events. cbn [trace]. rewrite Ht, <- app_assoc.
      reflexivity. }
    split.
    { rewrite !closes_app, Hc, closes_token_frees.
      cbn [app]. replace (closes (connection_error (wsi w1))) with
        (@nil lws_close_status)
        by (unfold connection_error; destruct (c_callback (wsi w1));
            reflexivity).
      destruct l; [reflexivity|].
      unfold c_protocol_free. destruct (c_protocol (wsi w1)); reflexivity. }
    split.
    { rewrite !sends_app, Hsd, sends_token_frees.
      unfold connection_error, c_protocol_free.
      destruct l; destruct (c_callback (wsi w1));
        destruct (c_protocol (wsi w1)); reflexivity. }
    split; [|exact Hm].
    intros t. rewrite !count_free_app, count_free_all_tokens.
    specialize (Hf t).
    replace (count_free (P_token t) (connection_error (wsi w1))) with O
      by (unfold connection_error; destruct (c_callback (wsi w1));
          reflexivity).
    replace (count_free (P_token t)
               match l with
               | bail2 => []
               | bail3 => c_protocol_free (wsi w1)
               end) with O
      by (destruct l; [reflexivity|]; unfold c_protocol_free;
          destruct (c_protocol (wsi w1)); reflexivity).
    replace (count_free (P_token t) [EvClose LWS_CLOSE_STATUS_PROTOCOL_ERR])
      with O by reflexivity.
    lia.
Qed.

End InterpreterKeeps.

(** X8.  Whenever the interpreter returns, with 0 or with 1, it has freed
    each header token that was set exactly once, and none that was
    NULL: on success at lines 612-614, on failure at lines 682-684, and
    after a failed allocation of the receive buffer the zeroed union
    keeps the cleanup from freeing them again. *)
Theorem interpret_frees_tokens_once (context : libwebsocket_context)
  (env : environment) (w w' : world) (a : Z) :
  lws_client_interpret_server_handshake context env w = Ok a w' ->
  exists evs,
    trace w' = trace w ++ evs
    /\ forall t, count_free (P_token t) evs = held (wsi w) t.
Proof.
  intros H. destruct (interpret_keeps context env w w' a H)
    as (evs & Ht & _ & _ & Hf & _).
  exists evs. split; [exact Ht|exact Hf].
Qed.

Lemma interpret_frees_tokens_once_witness :
  exists evs,
    trace (world_of superchat_run) = trace superchat_reply ++ evs
    /\ forall t, count_free (P_token t) evs = held (wsi superchat_reply) t.
Proof.
  apply (interpret_frees_tokens_once two_protocols all_allocations_succeed
           superchat_reply (world_of superchat_run) 1).
  vm_compute. reflexivity.
Defined.

(** X9.  The interpreter closes the session exactly when it returns 1, once,
    and with PROTOCOL_ERR; a run that returns 0 has not closed it.  It
    sends nothing either way. *)
Theorem interpret_closes_on_refusal (context : libwebsocket_context)
  (env : environment) (w w' : world) (a : Z) :
  lws_client_interpret_server_handshake context env w = Ok a w' ->
  exists evs,
    trace w' = trace w ++ evs
    /\ closes evs
       = (if a =? 0 then [] else [LWS_CLOSE_STATUS_PROTOCOL_ERR])
    /\ sends evs = [].
Proof.
  intros H. destruct (interpret_keeps context env w w' a H)
    as (evs & Ht & Hc & Hs & _).
  exists evs. split; [exact Ht|]. split; [exact Hc|exact Hs].
Qed.

Lemma interpret_closes_on_refusal_witness :
  exists evs,
    trace (world_of unregistered_run) = trace chat_reply ++ evs
    /\ closes evs = [LWS_CLOSE_STATUS_PROTOCOL_ERR]
    /\ sends evs = [].
Proof.
  apply (interpret_closes_on_refusal default_only all_allocations_succeed
           chat_reply (world_of unregistered_run) 1).
  vm_compute. reflexivity.
Defined.

(** ** When the interpreter returns *)

Lemma bind_Fault {A B} (m : M A) (k : A -> M B) (w w' : world) :
  bind m k w = Fault w' ->
  m w = Fault w' \/ exists a w1, m w = Ok a w1 /\ k a w1 = Fault w'.
Proof.
  unfold bind. destruct (m w) as [a w1|l w1|w1]; intros H.
  - right. exists a, w1. split; [reflexivity|exact H].
  - discriminate H.
  - left. injection H as ->. reflexivity.
Qed.

Lemma bind_Goto {A B} (m : M A) (k : A -> M B) (w w' : world) (l : label) :
  bind m k w = Goto l w' ->
  m w = Goto l w' \/ exists a w1, m w = Ok a w1 /\ k a w1 = Goto l w'.
Proof.
  unfold bind. destruct (m w) as [a w1|l1 w1|w1]; intros H.
  - right. exists a, w1. split; [reflexivity|exact H].
  - left. injection H as -> ->. reflexivity.
  - discriminate H.
Qed.

Lemma count_free_quiet (evs : list event) :
  Forall not_list_free evs -> count_free P_c_protocol evs = O.
Proof.
  induction 1 as [|e evs He _ IH]; [reflexivity|].
  change (e :: evs) with ([e] ++ evs). rewrite count_free_app, IH.
  destruct e as [| | |p| | | | |]; try reflexivity.
  destruct p; try reflexivity. destruct He.
Qed.

Lemma frees_list_quiet (w w' : world) :
  grows_by not_list_free w w' -> frees_list 0 w w'.
Proof.
  intros (C & evs & T & F). split; [exact C|]. exists evs.
  split; [exact T|]. apply count_free_quiet. exact F.
Qed.

Lemma frees_list_trans (a b : nat) (w1 w2 w3 : world) :
  frees_list a w1 w2 -> frees_list b w2 w3 -> frees_list (a + b) w1 w3.
Proof.
  intros (C1 & e1 & T1 & F1) (C2 & e2 & T2 & F2). split; [congruence|].
  exists (e1 ++ e2). split; [rewrite T2, T1; now rewrite app_assoc|].
  rewrite count_free_app. congruence.
Qed.

Lemma rx_out_of_memory_after (w1 w2 w3 : world) (k : nat) :
  frees_list k w1 w2 -> rx_out_of_memory w2 w3 -> rx_out_of_memory w1 w3.
Proof.
  intros (_ & e1 & T1 & _) (e2 & T2 & H). exists (e1 ++ e2).
  split; [rewrite T2, T1; now rewrite app_assoc|].
  rewrite logs_app. apply in_or_app. right. exact H.
Qed.

Section InterpreterReturns.

Variable context : libwebsocket_context.
Variable env : environment.

Lemma check_status_jump (w w' : world) (l : label) :
  check_status w = Goto l w' -> l = bail3.
Proof.
  rewrite check_status_outcome.
  destruct (hdrs (wsi w) WSI_TOKEN_HTTP) as [v|]; [|discriminate].
  cbv zeta. destruct (CStr.strncmp_eq (CStr.strtolower v) "101" 3);
    [discriminate|].
  intros H. injection H as <- _. reflexivity.
Qed.

Lemma check_upgrade_jump (w w' : world) (l : label) :
  check_upgrade w = Goto l w' -> l = bail3.
Proof.
  rewrite check_upgrade_outcome.
  destruct (hdrs (wsi w) WSI_TOKEN_UPGRADE) as [v|]; [|discriminate].
  cbv zeta. destruct (CStr.strcmp_eq (CStr.strtolower v) "websocket");
    [discriminate|].
  intros H. injection H as <- _. reflexivity.
Qed.

Lemma check_connection_jump (w w' : world) (l : label) :
  check_connection w = Goto l w' -> l = bail3.
Proof.
  rewrite check_connection_outcome.
  destruct (hdrs (wsi w) WSI_TOKEN_CONNECTION) as [v|]; [|discriminate].
  cbv zeta. destruct (CStr.strcmp_eq (CStr.strtolower v) "upgrade");
    [discriminate|].
  intros H. injection H as <- _. reflexivity.
Qed.

Lemma check_accept_jump (w w' : world) (l : label) :
  check_accept w = Goto l w' -> l = bail2.
Proof.
  rewrite check_accept_outcome.
  destruct (hdrs (wsi w) WSI_TOKEN_ACCEPT) as [v|]; [|discriminate].
  destruct (CStr.strcmp_eq v (initial_handshake_hash_base64 (wsi w)));
    [discriminate|].
  intros H. injection H as <- _. reflexivity.
Qed.

Lemma check_extensions_jump (w w' : world) (l : label) :
  check_extensions context env w = Goto l w' -> l = bail2.
Proof.
  intros H. pose proof (check_extensions_outcome context env w) as Ho.
  rewrite H in Ho. apply Ho.
Qed.

(** Lines 410-484 free the offered protocols once if they are set, and
    leave for [bail2] only. *)
Lemma select_protocol_frees (w : world) :
  match select_protocol context w with
  | Ok _ w' => frees_list (List.length (c_protocol_free (wsi w))) w w'
  | Goto l w' =>
      l = bail2 /\ frees_list (List.length (c_protocol_free (wsi w))) w w'
  | Fault _ => True
  end.
Proof.
  rewrite select_protocol_outcome.
  assert (Hsel : forall n,
    frees_list (List.length (c_protocol_free (wsi w))) w
      (selected context n w)).
  { intros n. unfold selected. split; [reflexivity|].
    exists (c_protocol_free (wsi w)). split; [reflexivity|].
    unfold c_protocol_free. destruct (c_protocol (wsi w)); reflexivity. }
  destruct (Nat.eqb (token_len (wsi w) WSI_TOKEN_PROTOCOL) 0); [apply Hsel|].
  destruct (c_protocol (wsi w)) as [pc|] eqn:Hpc; [|exact I].
  destruct (hdrs (wsi w) WSI_TOKEN_PROTOCOL) as [token|]; [|exact I].
  destruct (protocol_offered (String.length pc) pc token).
  - destruct (find_protocol (protocols context) token 0) as [n|];
      [apply Hsel|].
    split; [reflexivity|]. split; [reflexivity|].
    exists (c_protocol_free (wsi w) ++ [EvLog LOG_PROTOCOL_NOT_SUPPORTED]).
    split; [cbn [trace with_event with_wsi with_events];
            now rewrite <- app_assoc|].
    unfold c_protocol_free. rewrite Hpc. reflexivity.
  - split; [reflexivity|]. split; [reflexivity|].
    exists (c_protocol_free (wsi w) ++ [EvLog LOG_BAD_PROTOCOL]).
    split; [cbn [trace with_event with_wsi with_events];
            now rewrite <- app_assoc|].
    unfold c_protocol_free. rewrite Hpc. reflexivity.
Qed.

Lemma ensure_user_space_lands (w w' : world) (l : label) :
  libwebsocket_ensure_user_space context env w <> Goto l w'.
Proof.
  unfold libwebsocket_ensure_user_space, the_protocol, malloc.
  cbv beta iota zeta delta [bind get_wsi ret update null_dereference].
  destruct (protocol (wsi w)); [|discriminate].
  destruct (user_space (wsi w)); [discriminate|].
  destruct (per_session_data_size (protocol_at context n) =? 0);
    discriminate.
Qed.

(** Lines 605-668 leave for [bail3] only, and only after they have
    logged that the receive buffer could not be allocated. *)
Lemma commit_tail_jump (p : libwebsocket_protocols) (w0 w1 : world)
  (l : label) :
  (call (callback p) LWS_CALLBACK_CLIENT_FILTER_PRE_ESTABLISH None 0 ;;
   libwebsocket_set_timeout NO_PENDING_TIMEOUT 0 ;;
   free_tokens all_tokens ;;
   update (set_state WSI_STATE_ESTABLISHED) ;;
   update (set_mode LWS_CONNMODE_WS_CLIENT) ;;
   update union_transition ;;
   b <- malloc env (rx_buffer_alloc_size context p) ;;
   update (set_rx_user_buffer b) ;;
   match b with
   | None => lwsl LOG_RX_OUT_OF_MEM ;; goto bail3
   | Some _ =>
       call (callback p) LWS_CALLBACK_CLIENT_ESTABLISHED None 0 ;;
       any_wsi_established (extensions context) 0 ;;
       ret 0
   end)%lws w0 = Goto l w1 ->
  l = bail3 /\ rx_out_of_memory w0 w1.
Proof.
  destruct (callback p) as [cb|] eqn:Hcb.
  2:{ unfold call. cbv beta iota delta [bind null_dereference].
      discriminate. }
  unfold call, libwebsocket_set_timeout, malloc, lwsl.
  cbv beta iota zeta delta [bind emit ret update goto].
  rewrite free_tokens_spec.
  cbn [wsi mallocs with_wsi with_event with_events with_malloc].
  destruct (malloc_ok env (mallocs w0)).
  - rewrite any_wsi_established_spec. discriminate.
  - intros H. injection H as <- <-. split; [reflexivity|].
    eexists. split.
    { cbn [trace with_wsi with_event with_events with_malloc].
      rewrite <- !app_assoc. reflexivity. }
    unfold logs. apply in_flat_map. exists (EvLog LOG_RX_OUT_OF_MEM).
    split; [|left; reflexivity].
    rewrite !in_app_iff. cbn [In]. tauto.
Qed.

(** The commit, when it jumps: to [bail2] when the user space cannot be
    allocated, and to [bail3] when the receive buffer cannot. *)
Lemma establish_jump (w w1 : world) (l : label) :
  establish context env w = Goto l w1 ->
  l = bail2 \/ (l = bail3 /\ rx_out_of_memory w w1).
Proof.
  unfold establish. intros H.
  apply bind_Goto in H. destruct H as [H|(p & w0 & E0 & H)].
  { unfold the_protocol in H.
    cbv beta iota delta [bind get_wsi ret null_dereference] in H.
    destruct (protocol (wsi w)); discriminate H. }
  assert (w0 = w).
  { unfold the_protocol in E0.
    cbv beta iota delta [bind get_wsi ret null_dereference] in E0.
    destruct (protocol (wsi w)); [|discriminate E0].
    injection E0 as _ <-. reflexivity. }
  subst w0. clear E0.
  apply bind_Goto in H. destruct H as [H|(u & w2 & E2 & H)].
  { left. destruct (per_session_data_size p =? 0); [discriminate H|].
    apply bind_Goto in H. destruct H as [H|(b & w3 & E3 & H)].
    - exfalso. exact (ensure_user_space_lands _ _ _ H).
    - destruct b; [discriminate H|]. injection H as <- _. reflexivity. }
  right. apply commit_tail_jump in H. destruct H as [-> H].
  split; [reflexivity|].
  pose proof (grows_user_space context env (fun _ => True)
                (fun _ _ => I) p w) as G.
  rewrite E2 in G. cbn [world_of] in G.
  destruct G as (_ & evs & T & _). destruct H as (evs' & T' & Hin).
  exists (evs ++ evs'). split; [rewrite T', T; now rewrite app_assoc|].
  rewrite logs_app. apply in_or_app. right. exact Hin.
Qed.

(** The body of the interpreter and the offered protocols: a run that
    returns or leaves for [bail2] has freed them once if they are set;
    a run that leaves for [bail3] has not freed them, unless it is the
    one that could not allocate the receive buffer. *)
Lemma interpret_body_frees (w : world) :
  match
    (check_status ;;
     check_upgrade ;;
     check_connection ;;
     select_protocol context ;;
     check_extensions context env ;;
     check_accept ;;
     establish context env)%lws w
  with
  | Ok a w' =>
      a = 0 /\ frees_list (List.length (c_protocol_free (wsi w))) w w'
  | Goto bail2 w' =>
      frees_list (List.length (c_protocol_free (wsi w))) w w'
  | Goto bail3 w' =>
      frees_list 0 w w'
      \/ (frees_list (List.length (c_protocol_free (wsi w))) w w'
          /\ rx_out_of_memory w w')
  | Fault _ => True
  end.
Proof.
  assert (Hlog : forall m, not_list_free (EvLog m)) by (intros; exact I).
  assert (Hmalloc : forall size res, not_list_free (EvMalloc size res))
    by (intros; exact I).
  assert (Hext : forall i r user arg,
            not_list_free (EvExtCallback i r user arg))
    by (intros; exact I).
  (* status *)
  unfold bind at 1.
  pose proof (grows_check_status not_list_free Hlog w) as G1.
  pose proof (check_status_jump w) as J1.
  destruct (check_status w) as [u1 w1|l1 w1|w1]; cbn [world_of] in G1;
    [|rewrite (J1 _ _ eq_refl); left; apply frees_list_quiet, G1|exact I].
  clear J1.
  (* upgrade *)
  unfold bind at 1.
  pose proof (grows_check_upgrade not_list_free Hlog w1) as G2.
  pose proof (check_upgrade_jump w1) as J2.
  apply (grows_by_trans _ _ _ _ G1) in G2. clear G1.
  destruct (check_upgrade w1) as [u2 w2|l2 w2|w2]; cbn [world_of] in G2;
    [|rewrite (J2 _ _ eq_refl); left; apply frees_list_quiet, G2|exact I].
  clear J2.
  (* connection *)
  unfold bind at 1.
  pose proof (grows_check_connection not_list_free Hlog w2) as G3.
  pose proof (check_connection_jump w2) as J3.
  apply (grows_by_trans _ _ _ _ G2) in G3. clear G2.
  destruct (check_connection w2) as [u3 w3|l3 w3|w3]; cbn [world_of] in G3;
    [|rewrite (J3 _ _ eq_refl); left; apply frees_list_quiet, G3|exact I].
  clear J3.
  (* sub-protocol *)
  unfold bind at 1.
  pose proof (select_protocol_frees w3) as G4.
  assert (Hsame : c_protocol_free (wsi w3) = c_protocol_free (wsi w)).
  { unfold c_protocol_free. now rewrite (proj1 G3). }
  rewrite Hsame in G4. apply frees_list_quiet in G3.
  destruct (select_protocol context w3) as [u4 w4|l4 w4|w4]; [| |exact I].
  2:{ destruct G4 as [-> G4].
      exact (frees_list_trans _ _ _ _ _ G3 G4). }
  apply (frees_list_trans _ _ _ _ _ G3) in G4. cbn [Nat.add] in G4.
  clear G3 Hsame.
  (* extensions *)
  unfold bind at 1.
  pose proof (grows_check_extensions context env not_list_free Hlog Hmalloc
                Hext w4) as G5.
  pose proof (check_extensions_jump w4) as J5.
  apply frees_list_quiet in G5.
  apply (frees_list_trans _ _ _ _ _ G4) in G5. rewrite Nat.add_0_r in G5.
  clear G4.
  destruct (check_extensions context env w4) as [u5 w5|l5 w5|w5];
    cbn [world_of] in G5;
    [|rewrite (J5 _ _ eq_refl); exact G5|exact I].
  clear J5.
  (* accept *)
  unfold bind at 1.
  pose proof (grows_check_accept not_list_free Hlog w5) as G6.
  pose proof (check_accept_jump w5) as J6.
  apply frees_list_quiet in G6.
  apply (frees_list_trans _ _ _ _ _ G5) in G6. rewrite Nat.add_0_r in G6.
  destruct (check_accept w5) as [u6 w6|l6 w6|w6]; cbn [world_of] in G6;
    [|rewrite (J6 _ _ eq_refl); exact G6|exact I].
  clear J6 G5.
  (* commit *)
  pose proof (grows_establish context env not_list_free Hlog Hmalloc Hext
                (fun _ _ _ => I) (fun _ _ => I) (fun _ => I) w6) as G7.
  apply frees_list_quiet in G7.
  pose proof (frees_list_trans _ _ _ _ _ G6 G7) as G. rewrite Nat.add_0_r in G.
  pose proof (establish_outcome context env w6) as Ho.
  pose proof (establish_jump w6) as J7.
  destruct (establish context env w6) as [a w7|l7 w7|w7];
    cbn [world_of] in G, G7; [| |exact I].
  - split; [apply Ho|exact G].
  - destruct (J7 _ _ eq_refl) as [->|[-> Hrx]]; [exact G|].
    right. split; [exact G|].
    exact (rx_out_of_memory_after _ _ _ _ G6 Hrx).
Qed.

(** With the four headers, an offered list if the server names a
    sub-protocol, and a callback in the first registry entry, the body
    dereferences no NULL pointer. *)
Lemma interpret_body_defined (w w0 : world) :
  headers_present (wsi w) = true ->
  (server_protocol (wsi w) <> None -> c_protocol (wsi w) <> None) ->
  callback (protocol_at context 0) <> None ->
  (check_status ;;
   check_upgrade ;;
   check_connection ;;
   select_protocol context ;;
   check_extensions context env ;;
   check_accept ;;
   establish context env)%lws w <> Fault w0.
Proof.
  intros Hp Hoffer Hcb0 Hb.
  unfold headers_present in Hp.
  destruct (hdrs (wsi w) WSI_TOKEN_HTTP) as [vh|] eqn:Hh; [|discriminate Hp].
  destruct (hdrs (wsi w) WSI_TOKEN_UPGRADE) as [vu|] eqn:Hu;
    [|discriminate Hp].
  destruct (hdrs (wsi w) WSI_TOKEN_CONNECTION) as [vc|] eqn:Hc;
    [|discriminate Hp].
  destruct (hdrs (wsi w) WSI_TOKEN_ACCEPT) as [va|] eqn:Ha;
    [|discriminate Hp].
  clear Hp.
  (* status *)
  apply bind_Fault in Hb. destruct Hb as [F|(u1 & w1 & E1 & Hb)].
  { rewrite check_status_outcome, Hh in F. cbv zeta in F.
    destruct (CStr.strncmp_eq (CStr.strtolower vh) "101" 3); discriminate F. }
  rewrite check_status_outcome, Hh in E1. cbv zeta in E1.
  destruct (CStr.strncmp_eq (CStr.strtolower vh) "101" 3); [|discriminate E1].
  injection E1 as _ <-.
  (* upgrade *)
  apply bind_Fault in Hb. destruct Hb as [F|(u2 & w2 & E2 & Hb)].
  { rewrite check_upgrade_outcome in F.
    cbn [wsi with_wsi hdrs set_token set_hdr token_index_eqb] in F.
    rewrite Hu in F. cbv zeta in F.
    destruct (CStr.strcmp_eq (CStr.strtolower vu) "websocket");
      discriminate F. }
  rewrite check_upgrade_outcome in E2.
  cbn [wsi with_wsi hdrs set_token set_hdr token_index_eqb] in E2.
  rewrite Hu in E2. cbv zeta in E2.
  destruct (CStr.strcmp_eq (CStr.strtolower vu) "websocket");
    [|discriminate E2].
  injection E2 as _ <-.
  (* connection *)
  apply bind_Fault in Hb. destruct Hb as [F|(u3 & w3 & E3 & Hb)].
  { rewrite check_connection_outcome in F.
    cbn [wsi with_wsi hdrs set_token set_hdr token_index_eqb] in F.
    rewrite Hc in F. cbv zeta in F.
    destruct (CStr.strcmp_eq (CStr.strtolower vc) "upgrade");
      discriminate F. }
  rewrite check_connection_outcome in E3.
  cbn [wsi with_wsi hdrs set_token set_hdr token_index_eqb] in E3.
  rewrite Hc in E3. cbv zeta in E3.
  destruct (CStr.strcmp_eq (CStr.strtolower vc) "upgrade");
    [|discriminate E3].
  injection E3 as _ E3.
  assert (Hp3 : hdrs (wsi w3) WSI_TOKEN_PROTOCOL
                = hdrs (wsi w) WSI_TOKEN_PROTOCOL) by (subst w3; reflexivity).
  assert (Ha3 : hdrs (wsi w3) WSI_TOKEN_ACCEPT = Some va)
    by (subst w3; exact Ha).
  assert (Hc3 : c_protocol (wsi w3) = c_protocol (wsi w))
    by (subst w3; reflexivity).
  clear E3.
  (* sub-protocol *)
  apply bind_Fault in Hb. destruct Hb as [F|(u4 & w4 & E4 & Hb)].
  { rewrite select_protocol_outcome in F. unfold token_len in F.
    rewrite Hp3, Hc3 in F.
    destruct (hdrs (wsi w) WSI_TOKEN_PROTOCOL) as [token|] eqn:Hpt;
      [|discriminate F].
    destruct (Nat.eqb (String.length token) 0) eqn:Hz; [discriminate F|].
    destruct (c_protocol (wsi w)) as [pc|] eqn:Hcp.
    - destruct (protocol_offered (String.length pc) pc token);
        [|discriminate F].
      destruct (find_protocol (protocols context) token 0); discriminate F.
    - apply Hoffer; [|reflexivity].
      unfold server_protocol. rewrite Hpt, Hz. discriminate. }
  assert (Hsel : exists n,
    w4 = selected context n w3 /\ callback (protocol_at context n) <> None).
  { rewrite select_protocol_outcome in E4. unfold token_len in E4.
    rewrite Hp3, Hc3 in E4.
    destruct (hdrs (wsi w) WSI_TOKEN_PROTOCOL) as [token|] eqn:Hpt.
    - destruct (Nat.eqb (String.length token) 0).
      + exists O. split; [congruence|exact Hcb0].
      + destruct (c_protocol (wsi w)) as [pc|]; [|discriminate E4].
        destruct (protocol_offered (String.length pc) pc token);
          [|discriminate E4].
        destruct (find_protocol (protocols context) token 0) as [n|] eqn:Hf;
          [|discriminate E4].
        exists n. split; [congruence|].
        destruct (find_protocol_spec _ _ _ _ Hf) as (_ & _ & Hcb & _).
        rewrite Nat.sub_0_r in Hcb. exact Hcb.
    - cbn [Nat.eqb] in E4. exists O. split; [congruence|exact Hcb0]. }
  destruct Hsel as (n & Hw4 & Hcbn). clear E4.
  (* extensions *)
  apply bind_Fault in Hb. destruct Hb as [F|(u5 & w5 & E5 & Hb)].
  { pose proof (check_extensions_outcome context env w4) as Ho.
    rewrite F in Ho. exact Ho. }
  pose proof (check_extensions_outcome context env w4) as Ho.
  rewrite E5 in Ho. destruct Ho as (new & evs5 & Hw5 & _).
  assert (Ha5 : hdrs (wsi w5) WSI_TOKEN_ACCEPT = Some va)
    by (rewrite Hw5, <- Ha3; subst w4; reflexivity).
  assert (Hn5 : protocol (wsi w5) = Some n)
    by (rewrite Hw5; subst w4; reflexivity).
  (* accept *)
  apply bind_Fault in Hb. destruct Hb as [F|(u6 & w6 & E6 & Hb)].
  { rewrite check_accept_outcome, Ha5 in F.
    destruct (CStr.strcmp_eq va (initial_handshake_hash_base64 (wsi w5)));
      discriminate F. }
  rewrite check_accept_outcome, Ha5 in E6.
  destruct (CStr.strcmp_eq va (initial_handshake_hash_base64 (wsi w5)));
    [|discriminate E6].
  injection E6 as _ <-.
  (* commit *)
  pose proof (establish_outcome context env w5) as Ho.
  rewrite Hb, Hn5 in Ho. exact (Hcbn Ho).
Qed.

Lemma count_free_cleanup (s : libwebsocket) :
  count_free P_c_protocol
    (connection_error s ++ token_frees s all_tokens
     ++ [EvClose LWS_CLOSE_STATUS_PROTOCOL_ERR]) = O.
Proof.
  apply count_free_quiet. apply Forall_app. split.
  { unfold connection_error.
    destruct (c_callback s); [constructor; [exact I|constructor]|constructor]. }
  apply Forall_app. split.
  { apply forall_token_frees. intros t. exact I. }
  constructor; [exact I|constructor].
Qed.

End InterpreterReturns.

(** X10.  When the reply has its status line and its Upgrade, Connection
    and Sec-WebSocket-Accept headers, the client offered a list if the
    server names a sub-protocol, and the first protocol of the registry
    has a callback, every run of the interpreter is of one of two kinds,
    whatever the allocator does.  Either the receive buffer could not be
    allocated while an offered list was set: the run has then freed that
    list twice, at line 455 and again at line 672, and nothing is said
    of what follows.  Or the run dereferences no NULL pointer, frees the
    offered list exactly once if it was set, and returns 0 or 1. *)
Theorem interpret_returns (context : libwebsocket_context)
  (env : environment) (w : world) :
  headers_present (wsi w) = true ->
  (server_protocol (wsi w) <> None -> c_protocol (wsi w) <> None) ->
  callback (protocol_at context 0) <> None ->
  exists evs,
    trace (world_of (lws_client_interpret_server_handshake context env w))
    = trace w ++ evs
    /\ ((c_protocol (wsi w) <> None
         /\ In LOG_RX_OUT_OF_MEM (logs evs)
         /\ count_free P_c_protocol evs = 2%nat)
        \/ (count_free P_c_protocol evs
            = List.length (c_protocol_free (wsi w))
            /\ exists a w',
                 lws_client_interpret_server_handshake context env w = Ok a w'
                 /\ (a = 0 \/ a = 1))).
Proof.
  intros Hp Hoffer Hcb0.
  pose proof (interpret_body_frees context env w) as Hf.
  pose proof (fun w0 => interpret_body_defined context env w w0 Hp Hoffer Hcb0)
    as Hd.
  unfold lws_client_interpret_server_handshake, with_labels.
  match type of Hf with
  | match ?b with _ => _ end => destruct b as [a w1|l w1|w1]
  end.
  - destruct Hf as (Ha & _ & evs & T & K). exists evs.
    split; [exact T|]. right. split; [exact K|].
    exists a, w1. split; [reflexivity|left; exact Ha].
  - rewrite interpret_labels_spec. cbn [world_of].
    destruct l.
    + destruct Hf as (_ & evs & T & K).
      eexists (evs ++ _). split.
      { unfold with_events. cbn [trace]. rewrite T, <- app_assoc.
        reflexivity. }
      right. split.
      { cbn [app]. rewrite count_free_app, K, count_free_cleanup. lia. }
      eexists 1, _. split; [reflexivity|right; reflexivity].
    + assert (Hsame : c_protocol (wsi w1) = c_protocol (wsi w)).
      { destruct Hf as [H|[H _]]; exact (proj1 H). }
      assert (Hcpf : c_protocol_free (wsi w1) = c_protocol_free (wsi w)).
      { unfold c_protocol_free. now rewrite Hsame. }
      destruct Hf as [(_ & evs & T & K)|[(_ & evs & T & K) (evs' & T' & Hrx)]].
      * eexists (evs ++ _). split.
        { unfold with_events. cbn [trace]. rewrite T, <- app_assoc.
          reflexivity. }
        right. split.
        { do 2 rewrite count_free_app. rewrite K, count_free_cleanup, Hcpf.
          unfold c_protocol_free.
          destruct (c_protocol (wsi w)); reflexivity. }
        eexists 1, _. split; [reflexivity|right; reflexivity].
      * assert (evs' = evs).
        { rewrite T in T'. apply app_inv_head in T'. now symmetry. }
        subst evs'.
        eexists (evs ++ _). split.
        { unfold with_events. cbn [trace]. rewrite T, <- app_assoc.
          reflexivity. }
        destruct (c_protocol (wsi w)) as [pc|] eqn:Hpc.
        -- left. split; [discriminate|]. split.
           { rewrite logs_app. apply in_or_app. left. exact Hrx. }
           do 2 rewrite count_free_app. rewrite K, count_free_cleanup, Hcpf.
           unfold c_protocol_free. rewrite Hpc. reflexivity.
        -- right. split.
           { do 2 rewrite count_free_app. rewrite K, count_free_cleanup, Hcpf.
             unfold c_protocol_free. rewrite Hpc. reflexivity. }
           eexists 1, _. split; [reflexivity|right; reflexivity].
  - exfalso. exact (Hd w1 eq_refl).
Qed.

Lemma interpret_returns_witness :
  exists evs,
    trace (world_of
             (lws_client_interpret_server_handshake with_extensions
                (sample_environment [] (Some O))
                (replied (Some "chat"%string) (Some "chat"%string)
                   (Some "deflate-frame"%string))))
    = trace (replied (Some "chat"%string) (Some "chat"%string)
               (Some "deflate-frame"%string)) ++ evs
    /\ ((c_protocol (wsi (replied (Some "chat"%string) (Some "chat"%string)
                           (Some "deflate-frame"%string))) <> None
         /\ In LOG_RX_OUT_OF_MEM (logs evs)
         /\ count_free P_c_protocol evs = 2%nat)
        \/ (count_free P_c_protocol evs
            = List.length
                (c_protocol_free
                   (wsi (replied (Some "chat"%string) (Some "chat"%string)
                           (Some "deflate-frame"%string))))
            /\ exists a w',
                 lws_client_interpret_server_handshake with_extensions
                   (sample_environment [] (Some O))
                   (replied (Some "chat"%string) (Some "chat"%string)
                      (Some "deflate-frame"%string)) = Ok a w'
                 /\ (a = 0 \/ a = 1))).
Proof.
  apply (interpret_returns with_extensions (sample_environment [] (Some O))
           (replied (Some "chat"%string) (Some "chat"%string)
              (Some "deflate-frame"%string))).
  - reflexivity.
  - intros _. discriminate.
  - discriminate.
Defined.

(** That run is of the second kind: the state block of the extension
    cannot be allocated, the offered list has been freed once, and the
    interpreter returns 1.  The run in which the receive buffer cannot
    be allocated is of the first kind. *)
Example interpret_returns_sample :
  value_of
    (lws_client_interpret_server_handshake with_extensions
       (sample_environment [] (Some O))
       (replied (Some "chat"%string) (Some "chat"%string)
          (Some "deflate-frame"%string))) = Some 1
  /\ logs (trace (world_of
       (lws_client_interpret_server_handshake with_extensions
          (sample_environment [] (Some O))
          (replied (Some "chat"%string) (Some "chat"%string)
             (Some "deflate-frame"%string))))) = [LOG_EXT_OUT_OF_MEM]
  /\ count_free P_c_protocol (trace (world_of
       (lws_client_interpret_server_handshake with_extensions
          (sample_environment [] (Some O))
          (replied (Some "chat"%string) (Some "chat"%string)
             (Some "deflate-frame"%string))))) = 1%nat
  /\ logs (trace (world_of rx_failure_run)) = [LOG_RX_OUT_OF_MEM]
  /\ count_free P_c_protocol (trace (world_of rx_failure_run)) = 2%nat.
Proof. vm_compute. repeat split. Qed.

(** X11.  When the client offered no sub-protocol list ([c_protocol] is NULL)
    and the reply passes the three header checks and names a
    sub-protocol, the loop over the offered list reads through the NULL
    pointer: the interpreter neither accepts nor rejects. *)
Theorem unoffered_protocol_dereferences_null (context : libwebsocket_context)
  (env : environment) (w : world) (vh vu vc token : string) :
  hdrs (wsi w) WSI_TOKEN_HTTP = Some vh ->
  CStr.strncmp_eq (CStr.strtolower vh) "101" 3 = true ->
  hdrs (wsi w) WSI_TOKEN_UPGRADE = Some vu ->
  CStr.strcmp_eq (CStr.strtolower vu) "websocket" = true ->
  hdrs (wsi w) WSI_TOKEN_CONNECTION = Some vc ->
  CStr.strcmp_eq (CStr.strtolower vc) "upgrade" = true ->
  server_protocol (wsi w) = Some token ->
  c_protocol (wsi w) = None ->
  exists w',
    lws_client_interpret_server_handshake context env w = Fault w'
    /\ trace w' = trace w.
Proof.
  intros Hh Hs Hu Hsu Hc Hsc Hp Hnull.
  unfold lws_client_interpret_server_handshake, with_labels.
  unfold bind at 1. rewrite check_status_outcome, Hh. cbv zeta. rewrite Hs.
  unfold bind at 1. rewrite check_upgrade_outcome.
  cbn [wsi with_wsi hdrs set_token set_hdr token_index_eqb].
  rewrite Hu. cbv zeta. rewrite Hsu.
  unfold bind at 1. rewrite check_connection_outcome.
  cbn [wsi with_wsi hdrs set_token set_hdr token_index_eqb].
  rewrite Hc. cbv zeta. rewrite Hsc.
  unfold bind at 1. rewrite select_protocol_outcome. unfold token_len.
  cbn [wsi with_wsi hdrs set_token set_hdr token_index_eqb c_protocol].
  unfold server_protocol in Hp. rewrite Hnull.
  destruct (hdrs (wsi w) WSI_TOKEN_PROTOCOL) as [v|]; [|discriminate Hp].
  destruct (Nat.eqb (String.length v) 0); [discriminate Hp|].
  eexists. split; reflexivity.
Qed.

Lemma unoffered_protocol_dereferences_null_witness :
  exists w',
    lws_client_interpret_server_handshake chat_context all_allocations_succeed
      (replied None (Some "chat"%string) None) = Fault w'
    /\ trace w' = trace (replied None (Some "chat"%string) None).
Proof.
  apply (unoffered_protocol_dereferences_null chat_context
           all_allocations_succeed (replied None (Some "chat"%string) None)
           "101 Switching Protocols" "websocket" "Upgrade" "chat");
    reflexivity.
Defined.

(** ** The generator: what it frees, and its failure *)

Lemma calls_only_refl (w : world) : calls_only w w.
Proof.
  repeat split. exists []. rewrite app_nil_r. split; [reflexivity|constructor].
Qed.

Lemma calls_only_trans (w1 w2 w3 : world) :
  calls_only w1 w2 -> calls_only w2 w3 -> calls_only w1 w3.
Proof.
  intros (S1 & B1 & P1 & e1 & T1 & F1) (S2 & B2 & P2 & e2 & T2 & F2).
  split; [congruence|]. split; [congruence|]. split; [congruence|].
  exists (e1 ++ e2). split; [rewrite T2, T1; now rewrite app_assoc|].
  apply Forall_app. split; assumption.
Qed.

Lemma calls_only_call (cb : option user_callback) (r : callback_reason)
  (arg : option string) (len : Z) :
  respects calls_only (call cb r arg len).
Proof.
  intros w. unfold call. destruct cb as [f|]; [|apply calls_only_refl].
  cbv beta iota delta [bind emit ret]. cbn [world_of].
  repeat split. exists [EvCallback r arg len].
  split; [reflexivity|]. repeat constructor.
Qed.

Lemma calls_only_call_ext (i : nat) (ext : libwebsocket_extension)
  (r : extension_callback_reason) (user : option block) (arg : option string) :
  respects calls_only (call_ext i ext r user arg).
Proof.
  intros w. unfold call_ext.
  destruct (extension_callback ext) as [f|]; [|apply calls_only_refl].
  cbv beta iota delta [bind emit ret]. cbn [world_of].
  repeat split. exists [EvExtCallback i r user arg].
  split; [reflexivity|]. repeat constructor.
Qed.

Lemma calls_only_poll_extensions (exts1 : list libwebsocket_extension)
  (candidate : string) :
  forall i n, respects calls_only (poll_extensions exts1 i candidate n).
Proof.
  induction exts1 as [|ext1 rest IH]; intros i n; cbn [poll_extensions].
  - apply (respects_ret calls_only calls_only_refl).
  - destruct (extension_callback ext1) eqn:E;
      [|apply (respects_ret calls_only calls_only_refl)].
    apply (respects_bind calls_only calls_only_trans).
    + apply calls_only_call_ext.
    + intros r. apply IH.
Qed.

Lemma calls_only_propose_extensions (context : libwebsocket_context)
  (exts : list libwebsocket_extension) :
  forall p ext_count,
    respects calls_only (propose_extensions context exts p ext_count).
Proof.
  induction exts as [|ext rest IH]; intros p ext_count;
    cbn [propose_extensions].
  - apply (respects_ret calls_only calls_only_refl).
  - destruct (extension_callback ext) eqn:E;
      [|apply (respects_ret calls_only calls_only_refl)].
    apply (respects_bind calls_only calls_only_trans).
    + apply calls_only_poll_extensions.
    + intros n. destruct (negb (n =? 0)); [apply IH|].
      apply (respects_bind calls_only calls_only_trans).
      * apply calls_only_call.
      * intros n'. destruct (negb (n' =? 0)); apply IH.
Qed.

Lemma count_free_callbacks (p : pointer) (evs : list event) :
  Forall is_callback evs -> count_free p evs = O.
Proof.
  induction 1 as [|e evs He _ IH]; [reflexivity|].
  change (e :: evs) with ([e] ++ evs). rewrite count_free_app, IH.
  destruct e; try destruct He; reflexivity.
Qed.

Lemma closes_callbacks (evs : list event) :
  Forall is_callback evs -> closes evs = [].
Proof.
  induction 1 as [|e evs He _ IH]; [reflexivity|].
  change (e :: evs) with ([e] ++ evs). rewrite closes_app, IH.
  destruct e; try destruct He; reflexivity.
Qed.

Lemma sends_callbacks (evs : list event) :
  Forall is_callback evs -> sends evs = [].
Proof.
  induction 1 as [|e evs He _ IH]; [reflexivity|].
  change (e :: evs) with ([e] ++ evs). rewrite sends_app, IH.
  destruct e; try destruct He; reflexivity.
Qed.

(** X12.  Lines 714-727: without 16 random bytes the generator returns NULL.
    It has called no callback and written nothing to the connection; it
    has freed the path and the host, the origin and the offered
    protocols if set, and has closed the session with NOSTATUS. *)
Theorem generate_without_random (context : libwebsocket_context)
  (env : environment) (w : world) :
  List.length (random env) <> 16%nat ->
  exists evs,
    libwebsockets_generate_client_handshake context env w
    = Ok None (with_events evs w)
    /\ callbacks evs = []
    /\ closes evs = [LWS_CLOSE_STATUS_NOSTATUS]
    /\ count_free P_c_path evs = 1%nat
    /\ count_free P_c_host evs = 1%nat
    /\ count_free P_c_origin evs = List.length (c_origin_free (wsi w))
    /\ count_free P_c_protocol evs = List.length (c_protocol_free (wsi w)).
Proof.
  intros Hlen. apply Nat.eqb_neq in Hlen.
  unfold libwebsockets_generate_client_handshake.
  rewrite Hlen. cbn [negb].
  exists ([EvLog LOG_RANDOM_UNAVAILABLE; EvFree P_c_path; EvFree P_c_host]
          ++ c_origin_free (wsi w) ++ c_protocol_free (wsi w)
          ++ [EvClose LWS_CLOSE_STATUS_NOSTATUS]).
  split.
  { unfold lwsl, free, free_c_origin, free_c_protocol,
      libwebsocket_close_and_free_session, c_origin_free, c_protocol_free.
    cbv beta iota delta [bind emit ret get_wsi].
    cbn [wsi with_event].
    destruct (c_origin (wsi w)) eqn:Ho; destruct (c_protocol (wsi w)) eqn:Hp;
      unfold with_events, with_event; cbn; rewrite ?Hp; cbn;
      rewrite <- ?app_assoc; reflexivity. }
  unfold c_origin_free, c_protocol_free.
  destruct (c_origin (wsi w)); destruct (c_protocol (wsi w));
    repeat split.
Qed.

Lemma generate_without_random_witness :
  exists evs,
    libwebsockets_generate_client_handshake chat_context
      (sample_environment [] None) (requesting (Some "chat"%string))
    = Ok None (with_events evs (requesting (Some "chat"%string)))
    /\ callbacks evs = []
    /\ closes evs = [LWS_CLOSE_STATUS_NOSTATUS]
    /\ count_free P_c_path evs = 1%nat
    /\ count_free P_c_host evs = 1%nat
    /\ count_free P_c_origin evs
       = List.length (c_origin_free (wsi (requesting (Some "chat"%string))))
    /\ count_free P_c_protocol evs
       = List.length
           (c_protocol_free (wsi (requesting (Some "chat"%string)))).
Proof.
  apply (generate_without_random chat_context (sample_environment [] None)
           (requesting (Some "chat"%string))).
  vm_compute. discriminate.
Defined.

(** The generator's successful run, as the later proofs use it. *)
Lemma generate_outcome (context : libwebsocket_context)
  (env : environment) (cb : user_callback) (w : world) :
  List.length (random env) = 16%nat ->
  callback (protocol_at context 0) = Some cb ->
  exists pkt w' evs,
    libwebsockets_generate_client_handshake context env w = Ok (Some pkt) w'
    /\ wsi w'
       = set_hdr (parser_state (wsi w)) (lextable_pos (wsi w)) (hdrs (wsi w))
           (expected_accept (Base64.lws_b64_encode_string (random env)))
           (parser_input (wsi w)) (wsi w)
    /\ service_buffer w' = service_buffer w
    /\ pollfd_events w' = pollfd_events w
    /\ trace w' = trace w ++ evs
    /\ closes evs = []
    /\ sends evs = []
    /\ count_free P_c_path evs = 1%nat
    /\ count_free P_c_host evs = 1%nat
    /\ count_free P_c_origin evs = List.length (c_origin_free (wsi w))
    /\ count_free P_c_protocol evs = O.
Proof.
  intros Hlen Hcb.
  unfold libwebsockets_generate_client_handshake.
  rewrite Hlen. change (negb (Nat.eqb 16 16)) with false. cbv iota.
  unfold bind at 1. unfold get_wsi at 1.
  match goal with
  | |- context [propose_extensions context (extensions context) ?q 0] =>
      destruct (propose_extensions_spec context cb Hcb (extensions context)
                  0%nat q 0 w ltac:(lia))
        as (w1 & evs1 & E1 & F1 & T1 & C1);
      pose proof (calls_only_propose_extensions context (extensions context)
                    q 0 w) as Hcalls
  end.
  rewrite E1 in Hcalls. cbn [world_of] in Hcalls.
  destruct Hcalls as (_ & B1 & P1 & evs & Tevs & Fevs).
  rewrite (bind_eq_Ok _ _ _ _ _ E1).
  unfold append_handshake_header. rewrite Hcb.
  cbv beta iota zeta delta [bind emit ret update free free_c_origin get_wsi].
  cbn [wsi with_event with_wsi c_origin set_hdr].
  rewrite F1.
  match goal with
  | |- context [EvCallback LWS_CALLBACK_CLIENT_APPEND_HANDSHAKE_HEADER None ?l]
    => set (len := l)
  end.
  unfold c_origin_free.
  destruct (c_origin (wsi w)) as [origin|] eqn:Ho;
    (eexists; eexists; eexists; split; [reflexivity|]);
    cbn [wsi with_event with_wsi trace service_buffer pollfd_events];
    rewrite F1;
    (split; [reflexivity|]); (split; [exact B1|]); (split; [exact P1|]);
    (split; [rewrite Tevs, <- !app_assoc; reflexivity|]);
    rewrite !closes_app, !sends_app, !count_free_app,
      (closes_callbacks _ Fevs), (sends_callbacks _ Fevs),
      !(count_free_callbacks _ _ Fevs);
    repeat split.
Qed.

(** X13.  Lines 846-859: when the generator returns a request, it has
    changed nothing of the connection but the stored accept value; it
    has freed the path and the host once, the origin once if set, and
    not the offered protocol list, which the interpreter still reads;
    it has neither closed the session nor sent anything. *)
Theorem generate_releases (context : libwebsocket_context)
  (env : environment) (cb : user_callback) (w : world) :
  List.length (random env) = 16%nat ->
  callback (protocol_at context 0) = Some cb ->
  exists pkt w' evs,
    libwebsockets_generate_client_handshake context env w = Ok (Some pkt) w'
    /\ wsi w'
       = set_hdr (parser_state (wsi w)) (lextable_pos (wsi w)) (hdrs (wsi w))
           (expected_accept (Base64.lws_b64_encode_string (random env)))
           (parser_input (wsi w)) (wsi w)
    /\ service_buffer w' = service_buffer w
    /\ pollfd_events w' = pollfd_events w
    /\ trace w' = trace w ++ evs
    /\ closes evs = []
    /\ sends evs = []
    /\ count_free P_c_path evs = 1%nat
    /\ count_free P_c_host evs = 1%nat
    /\ count_free P_c_origin evs = List.length (c_origin_free (wsi w))
    /\ count_free P_c_protocol evs = O.
Proof.
  intros Hlen Hcb.
  destruct (generate_outcome context env cb w Hlen Hcb)
    as (pkt & w' & evs & E & Hw & Hb & Hp & Ht & Hc & Hs & Hf).
  exists pkt, w', evs.
  split; [exact E|]. split; [exact Hw|]. split; [exact Hb|].
  split; [exact Hp|]. split; [exact Ht|]. split; [exact Hc|].
  split; [exact Hs|exact Hf].
Qed.

Lemma generate_releases_witness :
  exists pkt w' evs,
    libwebsockets_generate_client_handshake chat_context
      (sample_environment nonce_zero None) (requesting (Some "chat"%string))
    = Ok (Some pkt) w'
    /\ wsi w'
       = set_hdr (parser_state (wsi (requesting (Some "chat"%string))))
           (lextable_pos (wsi (requesting (Some "chat"%string))))
           (hdrs (wsi (requesting (Some "chat"%string))))
           (expected_accept (Base64.lws_b64_encode_string
                               (random (sample_environment nonce_zero None))))
           (parser_input (wsi (requesting (Some "chat"%string))))
           (wsi (requesting (Some "chat"%string)))
    /\ service_buffer w' = service_buffer (requesting (Some "chat"%string))
    /\ pollfd_events w' = pollfd_events (requesting (Some "chat"%string))
    /\ trace w' = trace (requesting (Some "chat"%string)) ++ evs
    /\ closes evs = []
    /\ sends evs = []
    /\ count_free P_c_path evs = 1%nat
    /\ count_free P_c_host evs = 1%nat
    /\ count_free P_c_origin evs
       = List.length (c_origin_free (wsi (requesting (Some "chat"%string))))
    /\ count_free P_c_protocol evs = O.
Proof.
  apply (generate_releases chat_context (sample_environment nonce_zero None)
           unhandled (requesting (Some "chat"%string)));
    reflexivity.
Defined.

(** ** The TLS connect of ISSUE_HANDSHAKE *)

(** The world when [SSL_connect] is called: POLLOUT is no longer waited
    for, protocol 0 was told so, and the SSL object exists. *)
Lemma tls_connect_outcome (context : libwebsocket_context)
  (env : environment) (cb : user_callback) (w : world) :
  openssl_support env = true ->
  callback (protocol_at context 0) = Some cb ->
  use_ssl (wsi w) <> 0 ->
  exists w1,
    trace w1 = trace w ++ [EvCallback LWS_CALLBACK_CLEAR_MODE_POLL_FD None
                             POLLOUT]
    /\ pollfd_events w1 = Z.land (pollfd_events w) (Z.lnot POLLOUT)
    /\ service_buffer w1 = service_buffer w
    /\ ssl (wsi w1) = true
    /\ mode (wsi w1) = mode (wsi w)
    /\ tls_connect context env w
       = if (ssl_connect_result env <? 0)
            && ((ssl_connect_error env =? SSL_ERROR_WANT_READ)
                || (ssl_connect_error env =? SSL_ERROR_WANT_WRITE))
         then Ok false (with_event EvOnWritable w1)
         else if ssl_connect_result env <=? 0
         then Ok false (with_event (EvLog LOG_SSL_CONNECT_ERROR) w1)
         else if certificate_accepted (ssl_verify_result env) (use_ssl (wsi w))
         then Ok true w1
         else Ok false
                (with_events [EvLog LOG_BAD_CERTIFICATE;
                              EvClose LWS_CLOSE_STATUS_NOSTATUS] w1).
Proof.
  intros Hssl Hcb Huse. apply Z.eqb_neq in Huse.
  unfold tls_connect, certificate_accepted. rewrite Hssl, Hcb. cbn [negb].
  unfold call, when, libwebsocket_callback_on_writable, lwsl,
    libwebsocket_close_and_free_session.
  cbv beta iota zeta delta [bind emit ret get_wsi update].
  cbn [wsi with_event with_pollfd_events]. rewrite Huse. cbn [negb andb].
  set (w0 := with_event
               (EvCallback LWS_CALLBACK_CLEAR_MODE_POLL_FD None POLLOUT)
               (with_pollfd_events
                  (Z.land (pollfd_events w) (Z.lnot POLLOUT)) w)).
  destruct (ssl (wsi w)) eqn:Hs; cbn [negb];
    cbv beta iota zeta delta [ret update];
    cbn [wsi with_wsi use_ssl set_ssl]; rewrite ?Huse;
    [exists w0 | exists (with_wsi (set_ssl true) w0)];
    (split; [reflexivity|]); (split; [reflexivity|]);
    (split; [reflexivity|]); (split; [try exact Hs; reflexivity|]);
    (split; [reflexivity|]);
    (destruct ((ssl_connect_result env <? 0)
               && ((ssl_connect_error env =? SSL_ERROR_WANT_READ)
                   || (ssl_connect_error env =? SSL_ERROR_WANT_WRITE)));
     [reflexivity|]);
    (destruct (ssl_connect_result env <=? 0); [reflexivity|]);
    destruct (ssl_verify_result env =? X509_V_OK);
    destruct (ssl_verify_result env
              =? X509_V_ERR_DEPTH_ZERO_SELF_SIGNED_CERT);
    destruct (use_ssl (wsi w) =? 2); cbn [negb andb orb];
    rewrite ?with_event_events, ?with_events_events; reflexivity.
Qed.

(** X14.  Lines 105-168: when [SSL_connect] fails with WANT_READ or
    WANT_WRITE, the service function tells protocol 0 that POLLOUT is no
    longer waited for, asks to be called back when the socket is
    writable, and returns 0; the mode is unchanged, and nothing was
    generated, sent or closed. *)
Theorem tls_want_retries (context : libwebsocket_context)
  (env : environment) (cb : user_callback) (w : world) :
  openssl_support env = true ->
  callback (protocol_at context 0) = Some cb ->
  use_ssl (wsi w) <> 0 ->
  ssl_connect_result env < 0 ->
  ssl_connect_error env = SSL_ERROR_WANT_READ
  \/ ssl_connect_error env = SSL_ERROR_WANT_WRITE ->
  exists w',
    issue_handshake context env w = Ok 0 w'
    /\ trace w'
       = trace w ++ [EvCallback LWS_CALLBACK_CLEAR_MODE_POLL_FD None POLLOUT;
                     EvOnWritable]
    /\ mode (wsi w') = mode (wsi w).
Proof.
  intros Hssl Hcb Huse Hn Hwant.
  destruct (tls_connect_outcome context env cb w Hssl Hcb Huse)
    as (w1 & T1 & _ & _ & _ & M1 & E).
  apply Z.ltb_lt in Hn. rewrite Hn in E.
  replace ((ssl_connect_error env =? SSL_ERROR_WANT_READ)
           || (ssl_connect_error env =? SSL_ERROR_WANT_WRITE)) with true in E
    by (destruct Hwant as [-> | ->]; reflexivity).
  cbn [andb] in E.
  unfold issue_handshake. rewrite (bind_eq_Ok _ _ _ _ _ E). cbn [negb].
  unfold ret. eexists. split; [reflexivity|].
  cbn [trace wsi with_event]. rewrite T1, <- app_assoc.
  split; [reflexivity|exact M1].
Qed.

Lemma tls_want_retries_witness :
  exists w',
    issue_handshake chat_context (tls_environment (-1) 2 0) (tls_client 1)
    = Ok 0 w'
    /\ trace w'
       = trace (tls_client 1)
         ++ [EvCallback LWS_CALLBACK_CLEAR_MODE_POLL_FD None POLLOUT;
             EvOnWritable]
    /\ mode (wsi w') = mode (wsi (tls_client 1)).
Proof.
  apply (tls_want_retries chat_context (tls_environment (-1) 2 0) unhandled
           (tls_client 1)).
  - reflexivity.
  - reflexivity.
  - discriminate.
  - reflexivity.
  - left. reflexivity.
Defined.

(** X15.  Lines 170-182: any other failure of [SSL_connect] is only logged:
    the service function returns 0 without closing the session, and the
    connection stays in its mode until new data or the timeout. *)
Theorem tls_connect_failure_keeps_session (context : libwebsocket_context)
  (env : environment) (cb : user_callback) (w : world) :
  openssl_support env = true ->
  callback (protocol_at context 0) = Some cb ->
  use_ssl (wsi w) <> 0 ->
  ssl_connect_result env <= 0 ->
  (ssl_connect_result env < 0 ->
   ssl_connect_error env <> SSL_ERROR_WANT_READ
   /\ ssl_connect_error env <> SSL_ERROR_WANT_WRITE) ->
  exists w',
    issue_handshake context env w = Ok 0 w'
    /\ trace w'
       = trace w ++ [EvCallback LWS_CALLBACK_CLEAR_MODE_POLL_FD None POLLOUT;
                     EvLog LOG_SSL_CONNECT_ERROR]
    /\ mode (wsi w') = mode (wsi w).
Proof.
  intros Hssl Hcb Huse Hn Herr.
  destruct (tls_connect_outcome context env cb w Hssl Hcb Huse)
    as (w1 & T1 & _ & _ & _ & M1 & E).
  replace ((ssl_connect_result env <? 0)
           && ((ssl_connect_error env =? SSL_ERROR_WANT_READ)
               || (ssl_connect_error env =? SSL_ERROR_WANT_WRITE)))
    with false in E.
  2:{ symmetry. destruct (ssl_connect_result env <? 0) eqn:Hlt; [|reflexivity].
      apply Z.ltb_lt in Hlt. destruct (Herr Hlt) as [H1 H2].
      apply Z.eqb_neq in H1, H2. rewrite H1, H2. reflexivity. }
  apply Z.leb_le in Hn. rewrite Hn in E.
  unfold issue_handshake. rewrite (bind_eq_Ok _ _ _ _ _ E). cbn [negb].
  unfold ret. eexists. split; [reflexivity|].
  cbn [trace wsi with_event]. rewrite T1, <- app_assoc.
  split; [reflexivity|exact M1].
Qed.

Lemma tls_connect_failure_keeps_session_witness :
  exists w',
    issue_handshake chat_context (tls_environment 0 0 0) (tls_client 1)
    = Ok 0 w'
    /\ trace w'
       = trace (tls_client 1)
         ++ [EvCallback LWS_CALLBACK_CLEAR_MODE_POLL_FD None POLLOUT;
             EvLog LOG_SSL_CONNECT_ERROR]
    /\ mode (wsi w') = mode (wsi (tls_client 1)).
Proof.
  apply (tls_connect_failure_keeps_session chat_context
           (tls_environment 0 0 0) unhandled (tls_client 1)).
  - reflexivity.
  - reflexivity.
  - discriminate.
  - discriminate.
  - intros H. discriminate H.
Defined.

(** X16.  Lines 184-198: once [SSL_connect] has succeeded, the handshake goes
    on exactly when the certificate verifies, or is self-signed and the
    connection was opened with [use_ssl = 2]; otherwise the session is
    closed with NOSTATUS and nothing is sent. *)
Theorem tls_certificate_policy (context : libwebsocket_context)
  (env : environment) (cb : user_callback) (w : world) :
  openssl_support env = true ->
  callback (protocol_at context 0) = Some cb ->
  use_ssl (wsi w) <> 0 ->
  0 < ssl_connect_result env ->
  exists go w1 evs,
    tls_connect context env w = Ok go w1
    /\ trace w1 = trace w ++ evs
    /\ (go = true
        <-> ssl_verify_result env = X509_V_OK
            \/ (ssl_verify_result env = X509_V_ERR_DEPTH_ZERO_SELF_SIGNED_CERT
                /\ use_ssl (wsi w) = 2))
    /\ closes evs = (if go then [] else [LWS_CLOSE_STATUS_NOSTATUS])
    /\ (go = false -> issue_handshake context env w = Ok 0 w1).
Proof.
  intros Hssl Hcb Huse Hn.
  destruct (tls_connect_outcome context env cb w Hssl Hcb Huse)
    as (w1 & T1 & _ & _ & _ & _ & E).
  replace (ssl_connect_result env <? 0) with false in E
    by (symmetry; apply Z.ltb_ge; lia).
  replace (ssl_connect_result env <=? 0) with false in E
    by (symmetry; apply Z.leb_gt; lia).
  cbn [andb] in E.
  assert (Hiff : certificate_accepted (ssl_verify_result env) (use_ssl (wsi w))
                 = true
                 <-> ssl_verify_result env = X509_V_OK
                     \/ (ssl_verify_result env
                         = X509_V_ERR_DEPTH_ZERO_SELF_SIGNED_CERT
                         /\ use_ssl (wsi w) = 2)).
  { unfold certificate_accepted.
    rewrite orb_true_iff, andb_true_iff, !Z.eqb_eq. reflexivity. }
  destruct (certificate_accepted (ssl_verify_result env) (use_ssl (wsi w))).
  - exists true, w1, [EvCallback LWS_CALLBACK_CLEAR_MODE_POLL_FD None POLLOUT].
    split; [exact E|]. split; [exact T1|]. split; [exact Hiff|].
    split; [reflexivity|]. discriminate.
  - eexists false, _,
      [EvCallback LWS_CALLBACK_CLEAR_MODE_POLL_FD None POLLOUT;
       EvLog LOG_BAD_CERTIFICATE; EvClose LWS_CLOSE_STATUS_NOSTATUS].
    split; [exact E|].
    split; [cbn [trace with_events]; rewrite T1, <- app_assoc; reflexivity|].
    split; [rewrite <- Hiff; split; intros H; discriminate H|].
    split; [reflexivity|]. intros _.
    unfold issue_handshake. rewrite (bind_eq_Ok _ _ _ _ _ E). reflexivity.
Qed.

Lemma tls_certificate_policy_witness :
  exists go w1 evs,
    tls_connect chat_context (tls_environment 1 0 18) (tls_client 1)
    = Ok go w1
    /\ trace w1 = trace (tls_client 1) ++ evs
    /\ (go = true
        <-> ssl_verify_result (tls_environment 1 0 18) = X509_V_OK
            \/ (ssl_verify_result (tls_environment 1 0 18)
                = X509_V_ERR_DEPTH_ZERO_SELF_SIGNED_CERT
                /\ use_ssl (wsi (tls_client 1)) = 2))
    /\ closes evs = (if go then [] else [LWS_CLOSE_STATUS_NOSTATUS])
    /\ (go = false ->
        issue_handshake chat_context (tls_environment 1 0 18) (tls_client 1)
        = Ok 0 w1).
Proof.
  apply (tls_certificate_policy chat_context (tls_environment 1 0 18)
           unhandled (tls_client 1)).
  - reflexivity.
  - reflexivity.
  - discriminate.
  - reflexivity.
Defined.

(** ** ISSUE_HANDSHAKE: sending the request *)

(** X17.  Lines 204-236: once the TLS part lets the handshake go on,
    16 random bytes are there and [send] takes the request, what the
    generator returns (the request lines, what the user callback
    appended, and the closing CRLF) is in the service buffer and is
    passed to [send], in one call, right after the generator's own
    events, which hold no send and no close; the connection then
    waits for the server's reply with a fresh parser, the accept value
    it expects, and the AWAITING timeout; the session is not closed and
    the function returns 0. *)
Theorem issue_handshake_sends (context : libwebsocket_context)
  (env : environment) (cb : user_callback) (w w0 : world) :
  tls_connect context env w = Ok true w0 ->
  List.length (random env) = 16%nat ->
  callback (protocol_at context 0) = Some cb ->
  (forall pkt, 0 <= send_result env pkt) ->
  exists pkt w1 w' evs,
    libwebsockets_generate_client_handshake context env w0
    = Ok (Some pkt) w1
    /\ pkt
       = client_request (wsi w0)
           (Base64.lws_b64_encode_string (random env))
           (proposal context cb)
           (user_appended context cb
              (client_request_head (wsi w0)
                 (Base64.lws_b64_encode_string (random env))
                 (proposal context cb)))
    /\ trace w1 = trace w0 ++ evs
    /\ issue_handshake context env w = Ok 0 w'
    /\ mode (wsi w') = LWS_CONNMODE_WS_CLIENT_WAITING_SERVER_REPLY
    /\ parser_state (wsi w') = WSI_TOKEN_NAME_PART
    /\ lextable_pos (wsi w') = 0
    /\ initial_handshake_hash_base64 (wsi w')
       = expected_accept (Base64.lws_b64_encode_string (random env))
    /\ firstn (String.length pkt) (service_buffer w') = bytes_of_string pkt
    /\ trace w'
       = trace w1
         ++ [EvSend pkt (send_result env pkt);
             EvTimeout PENDING_TIMEOUT_AWAITING_SERVER_RESPONSE
               (AWAITING_TIMEOUT (constants context))]
    /\ trace w'
       = trace w0 ++ evs
         ++ [EvSend pkt (send_result env pkt);
             EvTimeout PENDING_TIMEOUT_AWAITING_SERVER_RESPONSE
               (AWAITING_TIMEOUT (constants context))]
    /\ sends evs = []
    /\ closes evs = [].
Proof.
  intros Htls Hlen Hcb Hsend.
  destruct (generate_exact context env cb w0 Hlen Hcb)
    as (w1 & evs0 & E & _).
  destruct (generate_outcome context env cb w0 Hlen Hcb)
    as (pkt & w1' & evs & E' & Hw & Hb & _ & Ht & Hc & Hs & _).
  assert (Hpkt : pkt
                 = client_request (wsi w0)
                     (Base64.lws_b64_encode_string (random env))
                     (proposal context cb)
                     (user_appended context cb
                        (client_request_head (wsi w0)
                           (Base64.lws_b64_encode_string (random env))
                           (proposal context cb)))) by congruence.
  assert (w1' = w1) by congruence. subst w1'. clear E.
  exists pkt, w1.
  unfold issue_handshake. rewrite (bind_eq_Ok _ _ _ _ _ Htls). cbn [negb].
  rewrite (bind_eq_Ok _ _ _ _ _ E').
  cbv beta iota zeta delta [bind emit ret update libwebsocket_set_timeout].
  replace (send_result env pkt <? 0) with false
    by (symmetry; apply Z.ltb_ge; apply Hsend).
  eexists. exists evs.
  split; [exact E'|]. split; [exact Hpkt|]. split; [exact Ht|].
  split; [reflexivity|].
  cbn [wsi with_wsi with_event with_service_buffer mode set_mode set_hdr
         parser_state lextable_pos initial_handshake_hash_base64
         service_buffer trace].
  split; [reflexivity|]. split; [reflexivity|]. split; [reflexivity|].
  split; [rewrite Hw; reflexivity|].
  split.
  { rewrite <- (bytes_of_string_length pkt) at 1.
    rewrite firstn_app, firstn_all, Nat.sub_diag. cbn [firstn].
    apply app_nil_r. }
  split; [rewrite <- app_assoc; reflexivity|].
  split; [rewrite Ht, <- !app_assoc; reflexivity|].
  split; [exact Hs|exact Hc].
Qed.

Lemma issue_handshake_sends_witness :
  exists pkt w1 w' evs,
    libwebsockets_generate_client_handshake cookie_context
      (sample_environment nonce_zero None) unversioned
    = Ok (Some pkt) w1
    /\ pkt
       = client_request (wsi unversioned)
           (Base64.lws_b64_encode_string
              (random (sample_environment nonce_zero None)))
           (proposal cookie_context cookie_callback)
           (user_appended cookie_context cookie_callback
              (client_request_head (wsi unversioned)
                 (Base64.lws_b64_encode_string
                    (random (sample_environment nonce_zero None)))
                 (proposal cookie_context cookie_callback)))
    /\ trace w1 = trace unversioned ++ evs
    /\ issue_handshake cookie_context (sample_environment nonce_zero None)
         unversioned = Ok 0 w'
    /\ mode (wsi w') = LWS_CONNMODE_WS_CLIENT_WAITING_SERVER_REPLY
    /\ parser_state (wsi w') = WSI_TOKEN_NAME_PART
    /\ lextable_pos (wsi w') = 0
    /\ initial_handshake_hash_base64 (wsi w')
       = expected_accept
           (Base64.lws_b64_encode_string
              (random (sample_environment nonce_zero None)))
    /\ firstn (String.length pkt) (service_buffer w') = bytes_of_string pkt
    /\ trace w'
       = trace w1
         ++ [EvSend pkt (send_result (sample_environment nonce_zero None) pkt);
             EvTimeout PENDING_TIMEOUT_AWAITING_SERVER_RESPONSE
               (AWAITING_TIMEOUT (constants cookie_context))]
    /\ trace w'
       = trace unversioned ++ evs
         ++ [EvSend pkt (send_result (sample_environment nonce_zero None) pkt);
             EvTimeout PENDING_TIMEOUT_AWAITING_SERVER_RESPONSE
               (AWAITING_TIMEOUT (constants cookie_context))]
    /\ sends evs = []
    /\ closes evs = [].
Proof.
  apply (issue_handshake_sends cookie_context
           (sample_environment nonce_zero None) cookie_callback
           unversioned unversioned).
  - reflexivity.
  - reflexivity.
  - reflexivity.
  - intros pkt. simpl. lia.
Defined.

Lemma generate_without_random_events (context : libwebsocket_context)
  (env : environment) (w : world) :
  List.length (random env) <> 16%nat ->
  exists evs,
    libwebsockets_generate_client_handshake context env w
    = Ok None (with_events evs w)
    /\ callbacks evs = []
    /\ closes evs = [LWS_CLOSE_STATUS_NOSTATUS]
    /\ sends evs = [].
Proof.
  intros Hlen. apply Nat.eqb_neq in Hlen.
  unfold libwebsockets_generate_client_handshake.
  rewrite Hlen. cbn [negb].
  exists ([EvLog LOG_RANDOM_UNAVAILABLE; EvFree P_c_path; EvFree P_c_host]
          ++ c_origin_free (wsi w) ++ c_protocol_free (wsi w)
          ++ [EvClose LWS_CLOSE_STATUS_NOSTATUS]).
  split.
  { unfold lwsl, free, free_c_origin, free_c_protocol,
      libwebsocket_close_and_free_session, c_origin_free, c_protocol_free.
    cbv beta iota delta [bind emit ret get_wsi].
    cbn [wsi with_event].
    destruct (c_origin (wsi w)) eqn:Ho; destruct (c_protocol (wsi w)) eqn:Hp;
      unfold with_events, with_event; cbn; rewrite ?Hp; cbn;
      rewrite <- ?app_assoc; reflexivity. }
  unfold c_origin_free, c_protocol_free.
  destruct (c_origin (wsi w)); destruct (c_protocol (wsi w));
    repeat split.
Qed.

(** X18.  Lines 204-210 with lines 714-727: when the generator finds no 16
    random bytes, it closes the session and returns NULL, and the
    service function closes the session a second time; nothing is
    sent, and the mode is unchanged. *)
Theorem generate_failure_closes_twice (context : libwebsocket_context)
  (env : environment) (w w0 : world) :
  tls_connect context env w = Ok true w0 ->
  List.length (random env) <> 16%nat ->
  exists evs,
    issue_handshake context env w = Ok 0 (with_events evs w0)
    /\ closes evs = [LWS_CLOSE_STATUS_NOSTATUS; LWS_CLOSE_STATUS_NOSTATUS]
    /\ sends evs = []
    /\ callbacks evs = [].
Proof.
  intros Htls Hlen.
  destruct (generate_without_random_events context env w0 Hlen)
    as (evs & E & Hcb & Hc & Hs).
  exists (evs ++ [EvLog LOG_GENERATE_FAILED;
                  EvClose LWS_CLOSE_STATUS_NOSTATUS]).
  split.
  { unfold issue_handshake. rewrite (bind_eq_Ok _ _ _ _ _ Htls). cbn [negb].
    rewrite (bind_eq_Ok _ _ _ _ _ E).
    unfold lwsl, libwebsocket_close_and_free_session.
    cbv beta iota delta [bind emit ret].
    rewrite !with_event_events, !with_events_events, <- ?app_assoc.
    reflexivity. }
  rewrite closes_app, sends_app, callbacks_app, Hc, Hs, Hcb.
  repeat split.
Qed.

Lemma generate_failure_closes_twice_witness :
  exists evs,
    issue_handshake chat_context (sample_environment [] None)
      (requesting (Some "chat"%string))
    = Ok 0 (with_events evs (requesting (Some "chat"%string)))
    /\ closes evs = [LWS_CLOSE_STATUS_NOSTATUS; LWS_CLOSE_STATUS_NOSTATUS]
    /\ sends evs = []
    /\ callbacks evs = [].
Proof.
  apply (generate_failure_closes_twice chat_context
           (sample_environment [] None) (requesting (Some "chat"%string))
           (requesting (Some "chat"%string))).
  - reflexivity.
  - vm_compute. discriminate.
Defined.



(** ** WAITING_PROXY_REPLY *)

Lemma c_string_before_nul (l r : bytes) :
  c_string (l ++ NUL :: r) = c_string l.
Proof.
  induction l as [|c l IH]; cbn [app c_string].
  - reflexivity.
  - destruct (Ascii.eqb c NUL); [reflexivity|]. now rewrite IH.
Qed.

Lemma c_string_full (l : bytes) :
  forall s, List.length l = String.length s ->
            c_string l = s -> l = bytes_of_string s.
Proof.
  unfold bytes_of_string.
  induction l as [|c l IH]; intros [|c' s] Hlen H;
    cbn [c_string List.length String.length] in *; try discriminate.
  - reflexivity.
  - destruct (Ascii.eqb c NUL); [discriminate H|].
    injection H as -> H. cbn [list_ascii_of_string].
    f_equal. apply IH; [lia|exact H].
Qed.

(** The verdict on the proxy: the first 13 bytes of the service buffer
    after the read, that is of what was received followed by what the
    buffer held beyond it. *)
Lemma proxy_verdict (context : libwebsocket_context) (env : environment)
  (revents : Z) (t : transport) (w : world) :
  Z.land revents (Z.lor POLLERR POLLHUP) = 0 ->
  (inbound t = [] -> dry t = Dry_zero) ->
  let size := Z.to_nat (sizeof_service_buffer (constants context)) in
  let received := firstn size (inbound t) in
  let seen :=
    firstn 13 (received ++ skipn (List.length received) (service_buffer w)) in
  List.length seen = 13%nat ->
  exists buffer,
    waiting_proxy_reply context env revents t w
    = (if list_eq_dec ascii_dec seen proxy_ok
       then issue_handshake context env
              (with_event (EvTimeout NO_PENDING_TIMEOUT 0)
                 (with_service_buffer buffer w))
       else Ok 0 (with_event (EvLog LOG_PROXY_ERROR)
                    (with_event (EvClose LWS_CLOSE_STATUS_NOSTATUS)
                       (with_service_buffer buffer w))),
       with_inbound (skipn size (inbound t)) t).
Proof.
  intros Hdead Hdry size received seen Hseen.
  unfold waiting_proxy_reply. rewrite Hdead. cbn [Z.eqb negb].
  fold size. fold received.
  set (buffer0 := received ++ skipn (List.length received) (service_buffer w)).
  fold buffer0 in seen.
  set (buffer := firstn 13 buffer0 ++ NUL :: skipn 14 buffer0).
  exists buffer.
  assert (Hverdict :
    CStr.strcmp_eq (c_string buffer) "HTTP/1.0 200 "
    = if list_eq_dec ascii_dec seen proxy_ok then true else false).
  { unfold buffer. rewrite c_string_before_nul. fold seen.
    destruct (list_eq_dec ascii_dec seen proxy_ok) as [E|E].
    - rewrite E. reflexivity.
    - unfold CStr.strcmp_eq.
      destruct (String.eqb (c_string seen) "HTTP/1.0 200 ") eqn:Hs;
        [|reflexivity].
      apply String.eqb_eq in Hs. exfalso. apply E.
      apply c_string_full; [exact Hseen|exact Hs]. }
  assert (Hrun :
    (let w0 := with_service_buffer buffer w in
     if negb (CStr.strcmp_eq (c_string buffer) "HTTP/1.0 200 ")
     then
       ((libwebsocket_close_and_free_session LWS_CLOSE_STATUS_NOSTATUS ;;
         lwsl LOG_PROXY_ERROR ;;
         ret 0)%lws w0, with_inbound (skipn size (inbound t)) t)
     else
       ((libwebsocket_set_timeout NO_PENDING_TIMEOUT 0 ;;
         issue_handshake context env)%lws w0,
        with_inbound (skipn size (inbound t)) t))
    = (if list_eq_dec ascii_dec seen proxy_ok
       then issue_handshake context env
              (with_event (EvTimeout NO_PENDING_TIMEOUT 0)
                 (with_service_buffer buffer w))
       else Ok 0 (with_event (EvLog LOG_PROXY_ERROR)
                    (with_event (EvClose LWS_CLOSE_STATUS_NOSTATUS)
                       (with_service_buffer buffer w))),
       with_inbound (skipn size (inbound t)) t)).
  { cbv zeta. rewrite Hverdict.
    destruct (list_eq_dec ascii_dec seen proxy_ok); cbn [negb];
      reflexivity. }
  destruct (inbound t) as [|b rest] eqn:Hin.
  - rewrite (Hdry eq_refl). exact Hrun.
  - exact Hrun.
Qed.

(** X20.  Lines 58-87: a proxy reply of 13 bytes or more opens the way for
    the handshake exactly when its first 13 bytes are "HTTP/1.0 200 ":
    then the timeout is cleared and the function goes on as in
    ISSUE_HANDSHAKE; otherwise the session is closed with NOSTATUS, the
    function returns 0 and nothing is generated or sent.  The read takes
    up to a whole service buffer from the socket. *)
Theorem proxy_reply_prefix (context : libwebsocket_context)
  (env : environment) (header_error : bytes -> bool)
  (header_tokens : bytes -> token_index -> option string)
  (revents : Z) (c : ascii) (t : transport) (w : world) :
  mode (wsi w) = LWS_CONNMODE_WS_CLIENT_WAITING_PROXY_REPLY ->
  Z.land revents (Z.lor POLLERR POLLHUP) = 0 ->
  (13 <= List.length (inbound t))%nat ->
  13 <= sizeof_service_buffer (constants context) ->
  let r := lws_client_socket_service context env header_error header_tokens
             revents c t w in
  inbound (snd r)
  = skipn (Z.to_nat (sizeof_service_buffer (constants context))) (inbound t)
  /\ (firstn 13 (inbound t) = proxy_ok ->
      exists w1,
        fst r = issue_handshake context env w1
        /\ wsi w1 = wsi w
        /\ trace w1 = trace w ++ [EvTimeout NO_PENDING_TIMEOUT 0])
  /\ (firstn 13 (inbound t) <> proxy_ok ->
      exists w',
        fst r = Ok 0 w'
        /\ wsi w' = wsi w
        /\ trace w' = trace w ++ [EvClose LWS_CLOSE_STATUS_NOSTATUS;
                                  EvLog LOG_PROXY_ERROR]).
Proof.
  intros Hmode Hdead Hlen Hsize r. subst r.
  unfold lws_client_socket_service. rewrite Hmode.
  set (size := Z.to_nat (sizeof_service_buffer (constants context))).
  assert (Hseen :
    firstn 13 (firstn size (inbound t)
               ++ skipn (List.length (firstn size (inbound t)))
                    (service_buffer w))
    = firstn 13 (inbound t)).
  { assert (Hs : (13 <= size)%nat) by (unfold size; lia).
    rewrite firstn_app, length_firstn.
    replace (13 - Nat.min size (List.length (inbound t)))%nat with O by lia.
    rewrite firstn_O, app_nil_r, firstn_firstn.
    replace (Nat.min 13 size) with 13%nat by lia. reflexivity. }
  destruct (proxy_verdict context env revents t w Hdead) as (buffer & E).
  { intros H. rewrite H in Hlen. cbn in Hlen. lia. }
  { fold size. rewrite Hseen. rewrite length_firstn. lia. }
  fold size in E. rewrite Hseen in E. rewrite E. cbn [fst snd].
  split; [reflexivity|]. split.
  - intros Hok.
    destruct (list_eq_dec ascii_dec (firstn 13 (inbound t)) proxy_ok)
      as [_|Hn]; [|contradiction].
    eexists. split; [reflexivity|]. split; reflexivity.
  - intros Hbad.
    destruct (list_eq_dec ascii_dec (firstn 13 (inbound t)) proxy_ok)
      as [Hy|_]; [contradiction|].
    eexists. split; [reflexivity|]. split; [reflexivity|].
    cbn [trace with_event with_service_buffer]. now rewrite <- app_assoc.
Qed.

Lemma proxy_reply_prefix_witness :
  let r := lws_client_socket_service chat_context
             (sample_environment nonce_zero None) lenient good_tokens
             POLLIN NUL {| inbound := proxy_reply; dry := Dry_zero |}
             (awaiting_proxy []) in
  inbound (snd r)
  = skipn (Z.to_nat (sizeof_service_buffer (constants chat_context)))
      proxy_reply
  /\ (firstn 13 proxy_reply = proxy_ok ->
      exists w1,
        fst r = issue_handshake chat_context
                  (sample_environment nonce_zero None) w1
        /\ wsi w1 = wsi (awaiting_proxy [])
        /\ trace w1
           = trace (awaiting_proxy []) ++ [EvTimeout NO_PENDING_TIMEOUT 0])
  /\ (firstn 13 proxy_reply <> proxy_ok ->
      exists w',
        fst r = Ok 0 w'
        /\ wsi w' = wsi (awaiting_proxy [])
        /\ trace w'
           = trace (awaiting_proxy [])
             ++ [EvClose LWS_CLOSE_STATUS_NOSTATUS; EvLog LOG_PROXY_ERROR]).
Proof.
  apply (proxy_reply_prefix chat_context (sample_environment nonce_zero None)
           lenient good_tokens POLLIN NUL
           {| inbound := proxy_reply; dry := Dry_zero |} (awaiting_proxy [])).
  - reflexivity.
  - reflexivity.
  - vm_compute. lia.
  - vm_compute. discriminate.
Defined.

(** X21.  Lines 67-82: the count the read returns is only tested for being
    negative.  When the proxy has closed the connection without a reply
    (the read returns 0), the test is made on the bytes an earlier read
    left in the service buffer: if those begin with "HTTP/1.0 200 ",
    the handshake is issued. *)
Theorem proxy_silent_close_reads_stale_buffer (context : libwebsocket_context)
  (env : environment) (header_error : bytes -> bool)
  (header_tokens : bytes -> token_index -> option string)
  (revents : Z) (c : ascii) (t : transport) (w : world) :
  mode (wsi w) = LWS_CONNMODE_WS_CLIENT_WAITING_PROXY_REPLY ->
  Z.land revents (Z.lor POLLERR POLLHUP) = 0 ->
  inbound t = [] ->
  dry t = Dry_zero ->
  firstn 13 (service_buffer w) = proxy_ok ->
  exists w1,
    fst (lws_client_socket_service context env header_error header_tokens
           revents c t w)
    = issue_handshake context env w1
    /\ wsi w1 = wsi w
    /\ trace w1 = trace w ++ [EvTimeout NO_PENDING_TIMEOUT 0].
Proof.
  intros Hmode Hdead Hin Hdry Hstale.
  unfold lws_client_socket_service. rewrite Hmode.
  destruct (proxy_verdict context env revents t w Hdead) as (buffer & E).
  { intros _. exact Hdry. }
  { rewrite Hin, firstn_nil. cbn [app List.length skipn]. rewrite Hstale.
    reflexivity. }
  rewrite Hin, firstn_nil in E. cbn [app List.length skipn] in E.
  rewrite Hstale in E.
  destruct (list_eq_dec ascii_dec proxy_ok proxy_ok) as [_|Hn];
    [|contradiction].
  rewrite E. cbn [fst].
  eexists. split; [reflexivity|]. split; reflexivity.
Qed.

Lemma proxy_silent_close_reads_stale_buffer_witness :
  exists w1,
    fst (lws_client_socket_service chat_context
           (sample_environment nonce_zero None) lenient good_tokens
           POLLIN NUL silent (awaiting_proxy proxy_reply))
    = issue_handshake chat_context (sample_environment nonce_zero None) w1
    /\ wsi w1 = wsi (awaiting_proxy proxy_reply)
    /\ trace w1
       = trace (awaiting_proxy proxy_reply)
         ++ [EvTimeout NO_PENDING_TIMEOUT 0].
Proof.
  apply (proxy_silent_close_reads_stale_buffer chat_context
           (sample_environment nonce_zero None) lenient good_tokens
           POLLIN NUL silent (awaiting_proxy proxy_reply));
    reflexivity.
Defined.

(** ** WAITING_SERVER_REPLY: a reply that is not complete *)

Lemma fed_with_cons (header_tokens : bytes -> token_index -> option string)
  (b : ascii) (pending : bytes) (w : world) :
  fed_with header_tokens pending
    (with_wsi
       (set_hdr (parser_state (wsi w)) (lextable_pos (wsi w))
          (header_tokens (parser_input (wsi w) ++ [b]))
          (initial_handshake_hash_base64 (wsi w))
          (parser_input (wsi w) ++ [b])) w)
  = fed_with header_tokens (b :: pending) w.
Proof.
  destruct pending as [|b' pending]; [reflexivity|].
  unfold fed_with.
  cbn [wsi with_wsi set_hdr parser_state lextable_pos parser_input
         initial_handshake_hash_base64].
  rewrite <- app_assoc. reflexivity.
Qed.

Lemma fed_with_parser_input
  (header_tokens : bytes -> token_index -> option string)
  (pending : bytes) (w : world) :
  parser_input (wsi (fed_with header_tokens pending w))
  = parser_input (wsi w) ++ pending
  /\ parser_state (wsi (fed_with header_tokens pending w))
     = parser_state (wsi w)
  /\ mode (wsi (fed_with header_tokens pending w)) = mode (wsi w)
  /\ c_protocol (wsi (fed_with header_tokens pending w)) = c_protocol (wsi w)
  /\ use_ssl (wsi (fed_with header_tokens pending w)) = use_ssl (wsi w)
  /\ trace (fed_with header_tokens pending w) = trace w.
Proof.
  destruct pending; cbn; rewrite ?app_nil_r; repeat split.
Qed.

Section ServiceFeeds.

Variable context : libwebsocket_context.
Variable env : environment.
Variable header_error : bytes -> bool.
Variable header_tokens : bytes -> token_index -> option string.

(** The loop of lines 273-295 over bytes the parser takes without
    finishing: it goes on with what follows them, and [c] holds the
    last of them. *)
Lemma read_server_reply_feeds (d : dry_read) (rest : bytes) :
  forall (pending : bytes) (c : ascii) (w : world),
    parsing_complete (parser_state (wsi w)) = false ->
    feeds header_error (parser_input (wsi w)) pending = true ->
    read_server_reply env header_error header_tokens d (pending ++ rest) c w
    = read_server_reply env header_error header_tokens d rest
        (last pending c) (fed_with header_tokens pending w).
Proof.
  induction pending as [|b pending IH]; intros c w Hnc Hf.
  - reflexivity.
  - cbn [feeds] in Hf.
    apply andb_prop in Hf. destruct Hf as [Hf Hrest].
    apply andb_prop in Hf. destruct Hf as [Herr Hend].
    apply negb_true_iff in Herr, Hend.
    cbn [app read_server_reply]. rewrite Hnc.
    unfold libwebsocket_parse at 1.
    cbv beta iota zeta delta [bind get_wsi update ret].
    rewrite Herr, Hend. cbn [negb Z.eqb].
    rewrite IH.
    + rewrite fed_with_cons. f_equal.
      destruct pending as [|b' pending]; [reflexivity|].
      cbn [last]. clear. revert b'.
      induction pending as [|x pending IHp]; intros b'; [reflexivity|].
      cbn [last]. apply IHp.
    + cbn [wsi with_wsi parser_state set_hdr]. exact Hnc.
    + cbn [wsi with_wsi parser_input set_hdr]. exact Hrest.
Qed.

End ServiceFeeds.

Lemma service_bail3_spec (w : world) :
  service_bail3 w
  = Ok 0 (with_events
            (c_protocol_free (wsi w) ++ [EvClose LWS_CLOSE_STATUS_NOSTATUS]) w).
Proof.
  unfold service_bail3, libwebsocket_close_and_free_session.
  unfold bind at 1. rewrite free_c_protocol_spec.
  cbv beta iota delta [bind emit ret].
  now rewrite with_event_events, with_events_events.
Qed.

(** X22.  Lines 290-295 and 314-320: when the parser refuses a byte of the
    reply, the bytes up to and including that one have been taken from
    the socket, and those after it have not; the interpreter is not
    run; the offered protocols are freed if set, the session is closed
    with NOSTATUS, and the function returns 0. *)
Theorem parser_error_closes (context : libwebsocket_context)
  (env : environment) (header_error : bytes -> bool)
  (header_tokens : bytes -> token_index -> option string)
  (revents : Z) (c : ascii) (t : transport) (w : world)
  (pending rest : bytes) (bad : ascii) :
  mode (wsi w) = LWS_CONNMODE_WS_CLIENT_WAITING_SERVER_REPLY ->
  Z.land revents (Z.lor POLLERR POLLHUP) = 0 ->
  Z.land revents POLLIN <> 0 ->
  parsing_complete (parser_state (wsi w)) = false ->
  inbound t = pending ++ bad :: rest ->
  feeds header_error (parser_input (wsi w)) pending = true ->
  header_error (parser_input (wsi w) ++ pending ++ [bad]) = true ->
  exists w',
    lws_client_socket_service context env header_error header_tokens
      revents c t w
    = (Ok 0 w', with_inbound rest t)
    /\ trace w'
       = trace w ++ c_protocol_free (wsi w)
         ++ [EvClose LWS_CLOSE_STATUS_NOSTATUS]
    /\ parser_input (wsi w') = parser_input (wsi w) ++ pending
    /\ mode (wsi w') = mode (wsi w).
Proof.
  intros Hmode Hdead Hin Hnc Hinb Hf Hbad.
  destruct (fed_with_parser_input header_tokens pending w)
    as (Hi & Hs & Hm & Hc & _ & Ht).
  unfold lws_client_socket_service. rewrite Hmode.
  unfold waiting_server_reply. rewrite Hdead. cbn [Z.eqb negb].
  apply Z.eqb_neq in Hin. rewrite Hin, Hinb.
  rewrite (read_server_reply_feeds env header_error header_tokens
             (dry t) (bad :: rest) pending c w Hnc Hf).
  cbn [read_server_reply]. rewrite Hs, Hnc.
  unfold libwebsocket_parse.
  cbv beta iota zeta delta [bind get_wsi update ret].
  rewrite Hi, <- app_assoc, Hbad. cbn [negb Z.eqb].
  rewrite service_bail3_spec. eexists. split; [reflexivity|].
  cbn [trace wsi with_events]. unfold c_protocol_free.
  rewrite Ht, Hc, Hi, Hm. repeat split; exact Hmode.
Qed.

Lemma parser_error_closes_witness :
  exists w',
    lws_client_socket_service chat_context all_allocations_succeed
      rejects_X good_tokens POLLIN NUL
      {| inbound := status_line ++ "X"%char :: [CR; LF]; dry := Dry_zero |}
      (awaiting_reply (Some "chat"%string))
    = (Ok 0 w',
       with_inbound [CR; LF]
         {| inbound := status_line ++ "X"%char :: [CR; LF];
            dry := Dry_zero |})
    /\ trace w'
       = trace (awaiting_reply (Some "chat"%string))
         ++ c_protocol_free (wsi (awaiting_reply (Some "chat"%string)))
         ++ [EvClose LWS_CLOSE_STATUS_NOSTATUS]
    /\ parser_input (wsi w')
       = parser_input (wsi (awaiting_reply (Some "chat"%string)))
         ++ status_line
    /\ mode (wsi w') = mode (wsi (awaiting_reply (Some "chat"%string))).
Proof.
  apply (parser_error_closes chat_context all_allocations_succeed
           rejects_X good_tokens POLLIN NUL
           {| inbound := status_line ++ "X"%char :: [CR; LF];
              dry := Dry_zero |}
           (awaiting_reply (Some "chat"%string)) status_line [CR; LF] "X"%char).
  - reflexivity.
  - reflexivity.
  - discriminate.
  - reflexivity.
  - reflexivity.
  - vm_compute. reflexivity.
  - vm_compute. reflexivity.
Defined.

(** X23.  Lines 273-289: when the socket has no more bytes and the read
    fails before the reply is complete, everything that had arrived has
    been fed to the parser.  On a TLS connection whose error is
    WANT_READ or WANT_WRITE the function returns 0 and the connection
    keeps waiting; on any other failure, and on every failure of a
    plain socket, the offered protocols are freed and the session is
    closed with NOSTATUS. *)
Theorem read_failure_before_complete (context : libwebsocket_context)
  (env : environment) (header_error : bytes -> bool)
  (header_tokens : bytes -> token_index -> option string)
  (revents : Z) (c : ascii) (t : transport) (w : world) (e : Z) :
  mode (wsi w) = LWS_CONNMODE_WS_CLIENT_WAITING_SERVER_REPLY ->
  Z.land revents (Z.lor POLLERR POLLHUP) = 0 ->
  Z.land revents POLLIN <> 0 ->
  parsing_complete (parser_state (wsi w)) = false ->
  feeds header_error (parser_input (wsi w)) (inbound t) = true ->
  dry t = Dry_error e ->
  exists w',
    lws_client_socket_service context env header_error header_tokens
      revents c t w
    = (Ok 0 w', with_inbound [] t)
    /\ parser_input (wsi w') = parser_input (wsi w) ++ inbound t
    /\ mode (wsi w') = mode (wsi w)
    /\ trace w'
       = trace w
         ++ if openssl_support env && negb (use_ssl (wsi w) =? 0)
               && ((e =? SSL_ERROR_WANT_READ) || (e =? SSL_ERROR_WANT_WRITE))
            then []
            else c_protocol_free (wsi w)
                 ++ [EvClose LWS_CLOSE_STATUS_NOSTATUS].
Proof.
  intros Hmode Hdead Hin Hnc Hf Hdry.
  destruct (fed_with_parser_input header_tokens (inbound t) w)
    as (Hi & Hs & Hm & Hc & Hu & Ht).
  unfold lws_client_socket_service. rewrite Hmode.
  unfold waiting_server_reply. rewrite Hdead. cbn [Z.eqb negb].
  apply Z.eqb_neq in Hin. rewrite Hin.
  pose proof (read_server_reply_feeds env header_error header_tokens
                (dry t) [] (inbound t) c w Hnc Hf) as E.
  rewrite app_nil_r in E. rewrite E. clear E.
  cbn [read_server_reply]. rewrite Hs, Hnc, Hdry, Hu.
  destruct (openssl_support env && negb (use_ssl (wsi w) =? 0)
            && ((e =? SSL_ERROR_WANT_READ) || (e =? SSL_ERROR_WANT_WRITE))).
  - eexists. split; [reflexivity|]. rewrite Hi, Hm, Ht, app_nil_r.
    repeat split; exact Hmode.
  - rewrite service_bail3_spec. eexists. split; [reflexivity|].
    cbn [trace wsi with_events]. unfold c_protocol_free.
    rewrite Hi, Hm, Ht, Hc. repeat split; exact Hmode.
Qed.

Lemma read_failure_before_complete_witness :
  exists w',
    lws_client_socket_service chat_context all_allocations_succeed
      lenient good_tokens POLLIN NUL
      {| inbound := status_line; dry := Dry_error 11 |}
      (awaiting_reply (Some "chat"%string))
    = (Ok 0 w',
       with_inbound [] {| inbound := status_line; dry := Dry_error 11 |})
    /\ parser_input (wsi w')
       = parser_input (wsi (awaiting_reply (Some "chat"%string)))
         ++ inbound {| inbound := status_line; dry := Dry_error 11 |}
    /\ mode (wsi w') = mode (wsi (awaiting_reply (Some "chat"%string)))
    /\ trace w'
       = trace (awaiting_reply (Some "chat"%string))
         ++ if openssl_support all_allocations_succeed
               && negb (use_ssl (wsi (awaiting_reply (Some "chat"%string)))
                        =? 0)
               && ((11 =? SSL_ERROR_WANT_READ) || (11 =? SSL_ERROR_WANT_WRITE))
            then []
            else c_protocol_free (wsi (awaiting_reply (Some "chat"%string)))
                 ++ [EvClose LWS_CLOSE_STATUS_NOSTATUS].
Proof.
  apply (read_failure_before_complete chat_context all_allocations_succeed
           lenient good_tokens POLLIN NUL
           {| inbound := status_line; dry := Dry_error 11 |}
           (awaiting_reply (Some "chat"%string)) 11).
  - reflexivity.
  - reflexivity.
  - discriminate.
  - reflexivity.
  - vm_compute. reflexivity.
  - reflexivity.
Defined.

Lemma ends_with_split (suffix l : bytes) :
  ends_with suffix l = true -> exists pre, l = pre ++ suffix.
Proof.
  unfold ends_with.
  destruct (list_eq_dec ascii_dec
              (skipn (List.length l - List.length suffix) l) suffix)
    as [E|_]; [|discriminate].
  intros _. exists (firstn (List.length l - List.length suffix) l).
  rewrite <- E at 2. symmetry. apply firstn_skipn.
Qed.

Lemma ends_with_repeated (l : bytes) (x : ascii) :
  ends_with CRLFCRLF (l ++ [x; x]) = false.
Proof.
  destruct (ends_with CRLFCRLF (l ++ [x; x])) eqn:E; [|reflexivity].
  exfalso. apply ends_with_split in E. destruct E as (pre & E).
  unfold CRLFCRLF in E.
  change (l ++ [x; x]) with (l ++ [x] ++ [x]) in E.
  change (pre ++ [CR; LF; CR; LF]) with (pre ++ [CR; LF; CR] ++ [LF]) in E.
  rewrite !app_assoc in E. apply app_inj_tail in E. destruct E as [E Hx].
  change ((pre ++ [CR; LF; CR])) with (pre ++ [CR; LF] ++ [CR]) in E.
  rewrite app_assoc in E. apply app_inj_tail in E. destruct E as [_ Hx'].
  rewrite Hx in Hx'. discriminate Hx'.
Qed.

(** X24.  Lines 273-295: a read that returns 0 (the peer has closed) leaves
    [c] as the last read put it, and [c] is passed to the parser all the
    same.  When that happens after the last byte [x] of what had
    arrived, the parser is fed [x] a second time; if it accepts it, the
    function returns 0 with the session open and the mode unchanged. *)
Theorem zero_read_feeds_last_byte_again (context : libwebsocket_context)
  (env : environment) (header_error : bytes -> bool)
  (header_tokens : bytes -> token_index -> option string)
  (revents : Z) (c : ascii) (t : transport) (w : world)
  (q : bytes) (x : ascii) :
  mode (wsi w) = LWS_CONNMODE_WS_CLIENT_WAITING_SERVER_REPLY ->
  Z.land revents (Z.lor POLLERR POLLHUP) = 0 ->
  Z.land revents POLLIN <> 0 ->
  parsing_complete (parser_state (wsi w)) = false ->
  inbound t = q ++ [x] ->
  feeds header_error (parser_input (wsi w)) (q ++ [x]) = true ->
  dry t = Dry_zero ->
  header_error (parser_input (wsi w) ++ q ++ [x; x]) = false ->
  exists w',
    lws_client_socket_service context env header_error header_tokens
      revents c t w
    = (Ok 0 w', with_inbound [] t)
    /\ parser_input (wsi w') = parser_input (wsi w) ++ q ++ [x; x]
    /\ trace w' = trace w
    /\ mode (wsi w') = mode (wsi w).
Proof.
  intros Hmode Hdead Hin Hnc Hinb Hf Hdry Hok.
  destruct (fed_with_parser_input header_tokens (q ++ [x]) w)
    as (Hi & Hs & Hm & _ & _ & Ht).
  unfold lws_client_socket_service. rewrite Hmode.
  unfold waiting_server_reply. rewrite Hdead. cbn [Z.eqb negb].
  apply Z.eqb_neq in Hin. rewrite Hin, Hinb.
  pose proof (read_server_reply_feeds env header_error header_tokens
                (dry t) [] (q ++ [x]) c w Hnc Hf) as E.
  rewrite app_nil_r in E. rewrite E. clear E.
  rewrite last_last.
  cbn [read_server_reply]. rewrite Hs, Hnc, Hdry.
  unfold libwebsocket_parse.
  cbv beta iota zeta delta [bind get_wsi update ret].
  rewrite Hi, Hs.
  replace ((parser_input (wsi w) ++ q ++ [x]) ++ [x])
    with (parser_input (wsi w) ++ q ++ [x; x])
    by (rewrite <- !app_assoc; reflexivity).
  rewrite Hok.
  replace (parser_input (wsi w) ++ q ++ [x; x])
    with ((parser_input (wsi w) ++ q) ++ [x; x])
    by (rewrite <- app_assoc; reflexivity).
  rewrite ends_with_repeated. cbn [negb Z.eqb].
  cbn [wsi with_wsi parser_state set_hdr]. rewrite Hnc. cbn [negb].
  eexists. split; [reflexivity|].
  cbn [wsi with_wsi parser_input set_hdr trace mode].
  rewrite Ht, Hm, <- app_assoc. repeat split; exact Hmode.
Qed.

Lemma zero_read_feeds_last_byte_again_witness :
  exists w',
    lws_client_socket_service chat_context all_allocations_succeed
      lenient good_tokens POLLIN NUL
      {| inbound := bytes_of_string "HTTP/1.1 10" ++ ["1"%char];
         dry := Dry_zero |}
      (awaiting_reply (Some "chat"%string))
    = (Ok 0 w',
       with_inbound []
         {| inbound := bytes_of_string "HTTP/1.1 10" ++ ["1"%char];
            dry := Dry_zero |})
    /\ parser_input (wsi w')
       = parser_input (wsi (awaiting_reply (Some "chat"%string)))
         ++ bytes_of_string "HTTP/1.1 10" ++ ["1"%char; "1"%char]
    /\ trace w' = trace (awaiting_reply (Some "chat"%string))
    /\ mode (wsi w') = mode (wsi (awaiting_reply (Some "chat"%string))).
Proof.
  apply (zero_read_feeds_last_byte_again chat_context all_allocations_succeed
           lenient good_tokens POLLIN NUL
           {| inbound := bytes_of_string "HTTP/1.1 10" ++ ["1"%char];
              dry := Dry_zero |}
           (awaiting_reply (Some "chat"%string))
           (bytes_of_string "HTTP/1.1 10") "1"%char).
  - reflexivity.
  - reflexivity.
  - discriminate.
  - reflexivity.
  - reflexivity.
  - vm_compute. reflexivity.
  - reflexivity.
  - reflexivity.
Defined.

(** ** A reply that arrives in pieces *)

Section ServiceCompletes.

Variable context : libwebsocket_context.
Variable env : environment.
Variable header_error : bytes -> bool.
Variable header_tokens : bytes -> token_index -> option string.

(** The loop of lines 273-295 over the rest of a reply: it stops at the
    end of the headers, in this world. *)
Lemma read_server_reply_completes (d : dry_read) (trailing : bytes) :
  forall (response : bytes) (c : ascii) (w : world),
    parsing_complete (parser_state (wsi w)) = false ->
    ends_response header_error (parser_input (wsi w)) response = true ->
    read_server_reply env header_error header_tokens d
      (response ++ trailing) c w
    = (Ok Loop_finished (completed header_tokens response w), trailing).
Proof.
  induction response as [|b rest IH]; intros c w Hnc Hr.
  - discriminate Hr.
  - cbn [ends_response] in Hr.
    apply andb_prop in Hr. destruct Hr as [Herr Hr].
    apply negb_true_iff in Herr.
    cbn [app read_server_reply]. rewrite Hnc.
    unfold libwebsocket_parse at 1.
    cbv beta iota zeta delta [bind get_wsi update ret].
    rewrite Herr.
    destruct (ends_with CRLFCRLF (parser_input (wsi w) ++ [b])) eqn:Hend.
    + destruct rest as [|b' rest']; [|discriminate Hr].
      cbn [negb Z.eqb app].
      destruct trailing as [|x trailing']; cbn [read_server_reply];
        cbn [wsi with_wsi parser_state set_hdr parsing_complete];
        reflexivity.
    + cbn [negb Z.eqb]. rewrite IH.
      * unfold completed.
        cbn [wsi with_wsi set_hdr parser_state lextable_pos parser_input
               initial_handshake_hash_base64].
        rewrite <- app_assoc. reflexivity.
      * cbn [wsi with_wsi parser_state set_hdr]. exact Hnc.
      * cbn [wsi with_wsi parser_input set_hdr]. exact Hr.
Qed.

Lemma ends_response_after (p1 : bytes) :
  forall (fed p2 : bytes),
    feeds header_error fed p1 = true ->
    ends_response header_error (fed ++ p1) p2 = true ->
    ends_response header_error fed (p1 ++ p2) = true.
Proof.
  induction p1 as [|b p1 IH]; intros fed p2 Hf Hr.
  - rewrite app_nil_r in Hr. exact Hr.
  - cbn [feeds] in Hf.
    apply andb_prop in Hf. destruct Hf as [Hf Hrest].
    apply andb_prop in Hf. destruct Hf as [Herr Hend].
    apply negb_true_iff in Hend.
    cbn [app ends_response]. rewrite Herr, Hend. cbn [andb].
    apply IH; [exact Hrest|]. rewrite <- app_assoc. exact Hr.
Qed.

Lemma completed_after (p1 p2 : bytes) (w : world) :
  completed header_tokens p2 (fed_with header_tokens p1 w)
  = completed header_tokens (p1 ++ p2) w.
Proof.
  destruct p1 as [|b p1]; [reflexivity|].
  unfold completed, fed_with.
  cbn [wsi with_wsi set_hdr parser_state lextable_pos parser_input
         initial_handshake_hash_base64].
  rewrite <- app_assoc. reflexivity.
Qed.

End ServiceCompletes.

(** X25.  Lines 273-305: over TLS, a reply that arrives in two pieces, the
    first read ending on WANT_READ or WANT_WRITE, is handled by two
    service calls as one call handles the whole reply: the first call
    returns 0 and changes nothing in the trace, and the second ends as
    the single call does, with the same connection, the same trace and
    the same bytes left in the socket. *)
Theorem reply_in_two_reads (context : libwebsocket_context)
  (env : environment) (header_error : bytes -> bool)
  (header_tokens : bytes -> token_index -> option string)
  (revents : Z) (c c' : ascii) (w : world) (e : Z)
  (d : dry_read) (p1 p2 trailing : bytes) :
  mode (wsi w) = LWS_CONNMODE_WS_CLIENT_WAITING_SERVER_REPLY ->
  Z.land revents (Z.lor POLLERR POLLHUP) = 0 ->
  Z.land revents POLLIN <> 0 ->
  parsing_complete (parser_state (wsi w)) = false ->
  openssl_support env = true ->
  use_ssl (wsi w) <> 0 ->
  e = SSL_ERROR_WANT_READ \/ e = SSL_ERROR_WANT_WRITE ->
  feeds header_error (parser_input (wsi w)) p1 = true ->
  ends_response header_error (parser_input (wsi w) ++ p1) p2 = true ->
  exists w1,
    lws_client_socket_service context env header_error header_tokens
      revents c {| inbound := p1; dry := Dry_error e |} w
    = (Ok 0 w1, {| inbound := []; dry := Dry_error e |})
    /\ trace w1 = trace w
    /\ lws_client_socket_service context env header_error header_tokens
         revents c' {| inbound := p2 ++ trailing; dry := d |} w1
       = lws_client_socket_service context env header_error header_tokens
           revents c {| inbound := p1 ++ p2 ++ trailing; dry := d |} w
    /\ snd (lws_client_socket_service context env header_error header_tokens
              revents c {| inbound := p1 ++ p2 ++ trailing; dry := d |} w)
       = {| inbound := trailing; dry := d |}.
Proof.
  intros Hmode Hdead Hin Hnc Hssl Huse He Hf Hr.
  destruct (fed_with_parser_input header_tokens p1 w)
    as (Hi & Hs & Hm & _ & Hu & Ht).
  exists (fed_with header_tokens p1 w).
  apply Z.eqb_neq in Hin. apply Z.eqb_neq in Huse.
  assert (Hwhole :
    lws_client_socket_service context env header_error header_tokens
      revents c {| inbound := p1 ++ p2 ++ trailing; dry := d |} w
    = (lws_client_interpret_server_handshake context env
         (completed header_tokens (p1 ++ p2) w),
       {| inbound := trailing; dry := d |})).
  { unfold lws_client_socket_service. rewrite Hmode.
    unfold waiting_server_reply. rewrite Hdead. cbn [Z.eqb negb].
    rewrite Hin. cbn [inbound dry].
    rewrite app_assoc.
    rewrite (read_server_reply_completes env header_error header_tokens d
               trailing (p1 ++ p2) c w Hnc
               (ends_response_after header_error p1 _ p2 Hf Hr)).
    reflexivity. }
  split.
  { unfold lws_client_socket_service. rewrite Hmode.
    unfold waiting_server_reply. rewrite Hdead. cbn [Z.eqb negb].
    rewrite Hin. cbn [inbound dry].
    pose proof (read_server_reply_feeds env header_error header_tokens
                  (Dry_error e) [] p1 c w Hnc Hf) as E.
    rewrite app_nil_r in E. rewrite E. clear E.
    cbn [read_server_reply]. rewrite Hs, Hnc, Hu, Hssl, Huse.
    replace ((e =? SSL_ERROR_WANT_READ) || (e =? SSL_ERROR_WANT_WRITE))
      with true by (destruct He as [-> | ->]; reflexivity).
    reflexivity. }
  split; [exact Ht|].
  split; [|rewrite Hwhole; reflexivity].
  rewrite Hwhole.
  unfold lws_client_socket_service. rewrite Hm, Hmode.
  unfold waiting_server_reply. rewrite Hdead. cbn [Z.eqb negb].
  rewrite Hin. cbn [inbound dry].
  rewrite (read_server_reply_completes env header_error header_tokens
             d trailing p2 c'
             (fed_with header_tokens p1 w)).
  - rewrite (completed_after header_tokens). reflexivity.
  - rewrite Hs. exact Hnc.
  - rewrite Hi. exact Hr.
Qed.

Lemma reply_in_two_reads_witness :
  exists w1,
    lws_client_socket_service chat_context (tls_environment 1 0 0)
      lenient good_tokens POLLIN NUL
      {| inbound := reply_head; dry := Dry_error 2 |} tls_awaiting_reply
    = (Ok 0 w1, {| inbound := []; dry := Dry_error 2 |})
    /\ trace w1 = trace tls_awaiting_reply
    /\ lws_client_socket_service chat_context (tls_environment 1 0 0)
         lenient good_tokens POLLIN NUL
         {| inbound := reply_tail ++ hello_frame; dry := Dry_zero |} w1
       = lws_client_socket_service chat_context (tls_environment 1 0 0)
           lenient good_tokens POLLIN NUL
           {| inbound := reply_head ++ reply_tail ++ hello_frame;
              dry := Dry_zero |} tls_awaiting_reply
    /\ snd (lws_client_socket_service chat_context (tls_environment 1 0 0)
              lenient good_tokens POLLIN NUL
              {| inbound := reply_head ++ reply_tail ++ hello_frame;
                 dry := Dry_zero |} tls_awaiting_reply)
       = {| inbound := hello_frame; dry := Dry_zero |}.
Proof.
  apply (reply_in_two_reads chat_context (tls_environment 1 0 0)
           lenient good_tokens POLLIN NUL NUL tls_awaiting_reply 2 Dry_zero
           reply_head reply_tail hello_frame).
  - reflexivity.
  - reflexivity.
  - discriminate.
  - reflexivity.
  - reflexivity.
  - discriminate.
  - left. reflexivity.
  - vm_compute. reflexivity.
  - vm_compute. reflexivity.
Defined.

(** ** The mode and the result of a service call *)

Lemma same_mode_refl (w : world) : same_mode w w.
Proof. reflexivity. Qed.

Lemma same_mode_trans (w1 w2 w3 : world) :
  same_mode w1 w2 -> same_mode w2 w3 -> same_mode w1 w3.
Proof. unfold same_mode. congruence. Qed.

Lemma same_mode_emit (e : event) : respects same_mode (emit e).
Proof. intros w. reflexivity. Qed.

Lemma same_mode_update (f : libwebsocket -> libwebsocket) :
  (forall s, mode (f s) = mode s) -> respects same_mode (update f).
Proof. intros H w. apply H. Qed.

Lemma same_mode_calls_only {A} (m : M A) :
  respects calls_only m -> respects same_mode m.
Proof.
  intros H w. destruct (H w) as (E & _). unfold same_mode. now rewrite E.
Qed.

Ltac same_mode_step :=
  first
    [ apply same_mode_emit
    | apply (respects_ret same_mode same_mode_refl)
    | apply (respects_goto same_mode same_mode_refl)
    | apply (respects_null_dereference same_mode same_mode_refl)
    | apply (respects_get_wsi same_mode same_mode_refl)
    | (apply same_mode_update; intros ?; reflexivity)
    | (apply same_mode_calls_only; apply calls_only_call)
    | (apply (respects_bind same_mode same_mode_trans); [|intros ?]) ].

Lemma same_mode_free_c_origin : respects same_mode free_c_origin.
Proof.
  unfold free_c_origin. apply respects_reading. intros w.
  destruct (c_origin (wsi w)); reflexivity.
Qed.

Lemma same_mode_free_c_protocol : respects same_mode free_c_protocol.
Proof.
  unfold free_c_protocol. apply respects_reading. intros w.
  destruct (c_protocol (wsi w)); reflexivity.
Qed.

Section ServiceModes.

Variable context : libwebsocket_context.
Variable env : environment.

Lemma same_mode_generate :
  respects same_mode (libwebsockets_generate_client_handshake context env).
Proof.
  unfold libwebsockets_generate_client_handshake. cbv zeta.
  destruct (negb (Nat.eqb (List.length (random env)) 16)).
  - unfold lwsl, free, libwebsocket_close_and_free_session.
    repeat first [ apply same_mode_free_c_origin
                 | apply same_mode_free_c_protocol
                 | same_mode_step ].
  - apply (respects_bind same_mode same_mode_trans);
      [apply (respects_get_wsi same_mode same_mode_refl)|intros s].
    apply (respects_bind same_mode same_mode_trans).
    { apply same_mode_calls_only. apply calls_only_propose_extensions. }
    intros p. apply (respects_bind same_mode same_mode_trans).
    { unfold append_handshake_header.
      destruct (callback (protocol_at context 0)); repeat same_mode_step. }
    intros p'. unfold free.
    repeat first [ apply same_mode_free_c_origin | same_mode_step ].
Qed.

Lemma same_mode_tls_connect : respects same_mode (tls_connect context env).
Proof.
  unfold tls_connect.
  destruct (negb (openssl_support env)); [same_mode_step|].
  apply (respects_bind same_mode same_mode_trans);
    [intros w; reflexivity|intros _].
  apply (respects_bind same_mode same_mode_trans); [same_mode_step|intros _].
  apply (respects_bind same_mode same_mode_trans);
    [apply (respects_get_wsi same_mode same_mode_refl)|intros s].
  apply (respects_bind same_mode same_mode_trans).
  { unfold when. destruct (negb (use_ssl s =? 0) && negb (ssl s));
      same_mode_step. }
  intros _. unfold libwebsocket_callback_on_writable, lwsl,
    libwebsocket_close_and_free_session.
  destruct (use_ssl s =? 0); [repeat same_mode_step|].
  cbv zeta.
  destruct ((ssl_connect_result env <? 0)
            && ((ssl_connect_error env =? SSL_ERROR_WANT_READ)
                || (ssl_connect_error env =? SSL_ERROR_WANT_WRITE)));
    [repeat same_mode_step|].
  destruct (ssl_connect_result env <=? 0); [repeat same_mode_step|].
  destruct (negb (ssl_verify_result env =? X509_V_OK)
            && (negb (ssl_verify_result env
                      =? X509_V_ERR_DEPTH_ZERO_SELF_SIGNED_CERT)
                || negb (use_ssl s =? 2)));
    repeat same_mode_step.
Qed.

(** ISSUE_HANDSHAKE leaves the mode or moves it to the wait for the
    server's reply, and returns 0 if it returns. *)
Lemma issue_handshake_mode (w : world) :
  (mode (wsi (world_of (issue_handshake context env w))) = mode (wsi w)
   \/ mode (wsi (world_of (issue_handshake context env w)))
      = LWS_CONNMODE_WS_CLIENT_WAITING_SERVER_REPLY)
  /\ match issue_handshake context env w with
     | Ok a _ => a = 0
     | _ => True
     end.
Proof.
  remember (issue_handshake context env w) as r eqn:Hr.
  unfold issue_handshake in Hr. unfold bind at 1 in Hr.
  pose proof (same_mode_tls_connect w) as Ht.
  destruct (tls_connect context env w) as [go w1|l w1|w1];
    cbn [world_of] in Ht; unfold same_mode in Ht.
  2:{ subst r. split; [left; exact Ht|exact I]. }
  2:{ subst r. split; [left; exact Ht|exact I]. }
  destruct go; cbn [negb] in Hr.
  2:{ subst r. split; [left; exact Ht|reflexivity]. }
  unfold bind at 1 in Hr.
  pose proof (same_mode_generate w1) as Hg.
  destruct (libwebsockets_generate_client_handshake context env w1)
    as [p w2|l w2|w2];
    cbn [world_of] in Hg; unfold same_mode in Hg.
  2:{ subst r. split; [left; cbn; congruence|exact I]. }
  2:{ subst r. split; [left; cbn; congruence|exact I]. }
  destruct p as [pkt|].
  - unfold libwebsocket_close_and_free_session, libwebsocket_set_timeout
      in Hr.
    cbv beta iota zeta delta [bind emit ret update] in Hr.
    destruct (send_result env pkt <? 0); subst r; cbn [world_of].
    + split; [left; cbn; congruence|reflexivity].
    + split; [right; reflexivity|reflexivity].
  - unfold lwsl, libwebsocket_close_and_free_session in Hr.
    cbv beta iota delta [bind emit ret] in Hr. subst r.
    cbn [world_of].
    split; [left; cbn; congruence|reflexivity].
Qed.

End ServiceModes.

Section ServiceSteps.

Variable context : libwebsocket_context.
Variable env : environment.
Variable header_error : bytes -> bool.
Variable header_tokens : bytes -> token_index -> option string.

(** The loop of lines 273-295 touches neither the trace nor the mode; it
    takes its bytes from the front of what is pending; it never faults,
    and the value it returns with is 0. *)
Lemma read_server_reply_frame (d : dry_read) :
  forall (pending : bytes) (c : ascii) (w : world),
    let r := read_server_reply env header_error header_tokens d pending c w in
    trace (world_of (fst r)) = trace w
    /\ mode (wsi (world_of (fst r))) = mode (wsi w)
    /\ c_protocol (wsi (world_of (fst r))) = c_protocol (wsi w)
    /\ (exists taken, pending = taken ++ snd r)
    /\ match fst r with
       | Ok (Loop_return n) _ => n = 0
       | Ok Loop_finished _ => True
       | Goto _ _ => True
       | Fault _ => False
       end.
Proof.
  assert (Hparse : forall b w,
    exists r w',
      libwebsocket_parse header_error header_tokens b w = Ok r w'
      /\ trace w' = trace w /\ mode (wsi w') = mode (wsi w)
      /\ c_protocol (wsi w') = c_protocol (wsi w)).
  { intros b w. unfold libwebsocket_parse.
    cbv beta iota zeta delta [bind get_wsi update ret].
    destruct (header_error (parser_input (wsi w) ++ [b]));
      eexists; eexists; (split; [reflexivity|]); repeat split. }
  induction pending as [|b rest IH]; intros c w r; subst r;
    cbn [read_server_reply];
    destruct (parsing_complete (parser_state (wsi w))) eqn:Hc;
    cbn [fst snd world_of].
  - repeat split. exists []. reflexivity.
  - destruct d as [|e].
    + destruct (Hparse c w) as (r & w' & E & Ht & Hm & Hp). rewrite E.
      destruct (negb (r =? 0)); cbn [fst snd world_of];
        (split; [exact Ht|]); (split; [exact Hm|]); (split; [exact Hp|]);
        (split; [exists []; reflexivity|exact I]).
    + destruct (openssl_support env && negb (use_ssl (wsi w) =? 0)
                && ((e =? SSL_ERROR_WANT_READ) || (e =? SSL_ERROR_WANT_WRITE)));
        cbn [fst snd world_of]; repeat split; exists []; reflexivity.
  - repeat split. exists []. reflexivity.
  - destruct (Hparse b w) as (r & w' & E & Ht & Hm & Hp). rewrite E.
    destruct (negb (r =? 0)); cbn [fst snd world_of].
    + split; [exact Ht|]. split; [exact Hm|]. split; [exact Hp|].
      split; [exists [b]; reflexivity|exact I].
    + destruct (IH b w') as (Ht' & Hm' & Hp' & (taken & Htk) & Hr).
      split; [congruence|]. split; [congruence|]. split; [congruence|].
      split; [|exact Hr].
      exists (b :: taken). cbn [app]. f_equal. exact Htk.
Qed.

(** However the interpreter ends, the mode is what it was or that of an
    established client. *)
Lemma interpret_mode (w : world) :
  mode (wsi (world_of (lws_client_interpret_server_handshake context env w)))
  = mode (wsi w)
  \/ mode (wsi (world_of
                  (lws_client_interpret_server_handshake context env w)))
     = LWS_CONNMODE_WS_CLIENT.
Proof.
  remember (lws_client_interpret_server_handshake context env w) as r eqn:Hr.
  unfold lws_client_interpret_server_handshake, with_labels in Hr.
  pose proof (keeps_interpret_body context env w) as Hk.
  match type of Hr with
  | _ = match ?b with _ => _ end => destruct b as [a w1|l w1|w1]
  end; cbn [world_of] in Hk; destruct Hk as (_ & _ & _ & _ & _ & Hm).
  - subst r. exact Hm.
  - rewrite interpret_labels_spec in Hr. subst r. exact Hm.
  - subst r. exact Hm.
Qed.

Lemma service_bail3_mode (w : world) :
  mode (wsi (world_of (service_bail3 w))) = mode (wsi w)
  /\ value_of (service_bail3 w) = Some 0.
Proof. rewrite service_bail3_spec. split; reflexivity. Qed.

End ServiceSteps.

(** X26.  Whatever the events, the bytes and the surroundings, and however a
    service call ends, the mode of the connection is afterwards what it
    was, or has gone from the wait for the proxy or the issue of the
    handshake to the wait for the server's reply, or from there to the
    established client: it never goes back, and never skips the wait for
    the reply. *)
Theorem service_mode_advances (context : libwebsocket_context)
  (env : environment) (header_error : bytes -> bool)
  (header_tokens : bytes -> token_index -> option string)
  (revents : Z) (c : ascii) (t : transport) (w : world) :
  advances (mode (wsi w))
    (mode (wsi (world_of
                  (fst (lws_client_socket_service context env header_error
                          header_tokens revents c t w))))).
Proof.
  unfold lws_client_socket_service, advances.
  destruct (mode (wsi w)) eqn:Hmode; try (left; cbn; congruence).
  - (* the proxy reply *)
    unfold waiting_proxy_reply.
    destruct (negb (Z.land revents (Z.lor POLLERR POLLHUP) =? 0)).
    { left. cbn. exact Hmode. }
    assert (Hgo : forall buffer,
      let r :=
        if negb (CStr.strcmp_eq (c_string buffer) "HTTP/1.0 200 ")
        then
          ((libwebsocket_close_and_free_session LWS_CLOSE_STATUS_NOSTATUS ;;
            lwsl LOG_PROXY_ERROR ;; ret 0)%lws
             (with_service_buffer buffer w),
           with_inbound
             (skipn (Z.to_nat (sizeof_service_buffer (constants context)))
                (inbound t)) t)
        else
          ((libwebsocket_set_timeout NO_PENDING_TIMEOUT 0 ;;
            issue_handshake context env)%lws
             (with_service_buffer buffer w),
           with_inbound
             (skipn (Z.to_nat (sizeof_service_buffer (constants context)))
                (inbound t)) t) in
      mode (wsi (world_of (fst r)))
      = LWS_CONNMODE_WS_CLIENT_WAITING_PROXY_REPLY
      \/ mode (wsi (world_of (fst r)))
         = LWS_CONNMODE_WS_CLIENT_WAITING_SERVER_REPLY
         /\ (LWS_CONNMODE_WS_CLIENT_WAITING_PROXY_REPLY
             = LWS_CONNMODE_WS_CLIENT_WAITING_PROXY_REPLY
             \/ LWS_CONNMODE_WS_CLIENT_WAITING_PROXY_REPLY
                = LWS_CONNMODE_WS_CLIENT_ISSUE_HANDSHAKE)
      \/ mode (wsi (world_of (fst r))) = LWS_CONNMODE_WS_CLIENT
         /\ LWS_CONNMODE_WS_CLIENT_WAITING_PROXY_REPLY
            = LWS_CONNMODE_WS_CLIENT_WAITING_SERVER_REPLY).
    { intros buffer r. subst r.
      destruct (negb (CStr.strcmp_eq (c_string buffer) "HTTP/1.0 200 "));
        cbn [fst].
      - left. cbn. exact Hmode.
      - unfold libwebsocket_set_timeout. unfold bind, emit.
        destruct (issue_handshake_mode context env
                    (with_event (EvTimeout NO_PENDING_TIMEOUT 0)
                       (with_service_buffer buffer w))) as [[H|H] _].
        + left. rewrite H. cbn. exact Hmode.
        + right. left. split; [exact H|left; reflexivity]. }
    destruct (inbound t) as [|b rest]; [destruct (dry t)|]; cbv zeta.
    + apply Hgo.
    + left. cbn. exact Hmode.
    + apply Hgo.
  - (* the issue of the handshake *)
    cbn [fst].
    destruct (issue_handshake_mode context env w) as [[H|H] _].
    + left. congruence.
    + right. left. split; [exact H|right; reflexivity].
  - (* the server's reply *)
    unfold waiting_server_reply.
    destruct (negb (Z.land revents (Z.lor POLLERR POLLHUP) =? 0)).
    { left. cbn [fst]. rewrite (proj1 (service_bail3_mode w)). exact Hmode. }
    destruct (Z.land revents POLLIN =? 0).
    { left. cbn [fst]. rewrite (proj1 (service_bail3_mode w)). exact Hmode. }
    pose proof (read_server_reply_frame env header_error header_tokens
                  (dry t) (inbound t) c w) as Hf.
    cbv zeta in Hf.
    destruct (read_server_reply env header_error header_tokens (dry t)
                (inbound t) c w) as [r rest].
    cbn [fst snd] in Hf. destruct Hf as (_ & Hm & _).
    destruct r as [[|n] w'|l w'|w']; cbn [world_of] in Hm; cbn [fst].
    + destruct (negb (parsing_complete (parser_state (wsi w')))).
      * left. cbn. congruence.
      * cbn [fst].
        destruct (interpret_mode context env w') as [H|H].
        -- left. congruence.
        -- right. right. split; [exact H|reflexivity].
    + left. cbn. congruence.
    + left. rewrite (proj1 (service_bail3_mode w')). congruence.
    + left. cbn. congruence.
Qed.

(** X27.  The service function returns 0 on every path but one.  It
    returns 1 only when it was waiting for the server's reply, the event
    was a readable socket without error or hang-up, the read loop came
    to its end with the parser at WSI_PARSING_COMPLETE and without an
    event of its own, and the interpreter, called on that connection,
    returned 1; what is left unread is what the loop left.  The session
    has then been closed once, with PROTOCOL_ERR, and nothing has been
    sent. *)
Theorem service_returns_one (context : libwebsocket_context)
  (env : environment) (header_error : bytes -> bool)
  (header_tokens : bytes -> token_index -> option string)
  (revents : Z) (c : ascii) (t t' : transport) (w w' : world) (a : Z) :
  lws_client_socket_service context env header_error header_tokens
    revents c t w = (Ok a w', t') ->
  a = 0
  \/ (a = 1
      /\ mode (wsi w) = LWS_CONNMODE_WS_CLIENT_WAITING_SERVER_REPLY
      /\ Z.land revents (Z.lor POLLERR POLLHUP) = 0
      /\ Z.land revents POLLIN <> 0
      /\ exists w1 rest evs,
           read_server_reply env header_error header_tokens (dry t)
             (inbound t) c w = (Ok Loop_finished w1, rest)
           /\ parser_state (wsi w1) = WSI_PARSING_COMPLETE
           /\ trace w1 = trace w
           /\ lws_client_interpret_server_handshake context env w1 = Ok 1 w'
           /\ t' = with_inbound rest t
           /\ trace w' = trace w ++ evs
           /\ closes evs = [LWS_CLOSE_STATUS_PROTOCOL_ERR]
           /\ sends evs = []).
Proof.
  unfold lws_client_socket_service.
  destruct (mode (wsi w)) eqn:Hmode; intros H;
    try (left; apply (f_equal fst) in H; cbn [fst] in H;
         injection H as <- _; reflexivity).
  - (* the proxy reply *)
    left. unfold waiting_proxy_reply in H.
    destruct (negb (Z.land revents (Z.lor POLLERR POLLHUP) =? 0)).
    { apply (f_equal fst) in H. cbn [fst] in H. cbv in H.
      injection H as <- _. reflexivity. }
    assert (Hgo : forall buffer t0,
      (if negb (CStr.strcmp_eq (c_string buffer) "HTTP/1.0 200 ")
       then
         ((libwebsocket_close_and_free_session LWS_CLOSE_STATUS_NOSTATUS ;;
           lwsl LOG_PROXY_ERROR ;; ret 0)%lws
            (with_service_buffer buffer w), t0)
       else
         ((libwebsocket_set_timeout NO_PENDING_TIMEOUT 0 ;;
           issue_handshake context env)%lws
            (with_service_buffer buffer w), t0))
      = (Ok a w', t') -> a = 0).
    { intros buffer t0 E.
      destruct (negb (CStr.strcmp_eq (c_string buffer) "HTTP/1.0 200 ")).
      - apply (f_equal fst) in E. cbn [fst] in E. cbv in E.
        injection E as <- _. reflexivity.
      - apply (f_equal fst) in E. cbn [fst] in E.
        unfold libwebsocket_set_timeout in E. unfold bind, emit in E.
        pose proof (issue_handshake_mode context env
                      (with_event (EvTimeout NO_PENDING_TIMEOUT 0)
                         (with_service_buffer buffer w))) as [_ Hv].
        rewrite E in Hv. exact Hv. }
    destruct (inbound t) as [|b rest]; [destruct (dry t)|]; cbv zeta in H.
    + exact (Hgo _ _ H).
    + apply (f_equal fst) in H. cbn [fst] in H. cbv in H.
      injection H as <- _. reflexivity.
    + exact (Hgo _ _ H).
  - (* the issue of the handshake *)
    left. apply (f_equal fst) in H. cbn [fst] in H.
    pose proof (issue_handshake_mode context env w) as [_ Hv].
    rewrite H in Hv. exact Hv.
  - (* the server's reply *)
    unfold waiting_server_reply in H.
    destruct (Z.land revents (Z.lor POLLERR POLLHUP) =? 0) eqn:Herr;
      cbn [negb] in H.
    2:{ left. apply (f_equal fst) in H. cbn [fst] in H.
        rewrite service_bail3_spec in H. injection H as <- _. reflexivity. }
    destruct (Z.land revents POLLIN =? 0) eqn:Hin.
    { left. apply (f_equal fst) in H. cbn [fst] in H.
      rewrite service_bail3_spec in H. injection H as <- _. reflexivity. }
    pose proof (read_server_reply_frame env header_error header_tokens
                  (dry t) (inbound t) c w) as Hf.
    cbv zeta in Hf.
    destruct (read_server_reply env header_error header_tokens (dry t)
                (inbound t) c w) as [r rest] eqn:Hread.
    cbn [fst snd] in Hf. destruct Hf as (Ht & _ & _ & _ & Hr).
    destruct r as [[|n] w1|l w1|w1]; cbn [world_of] in Ht.
    + destruct (parsing_complete (parser_state (wsi w1))) eqn:Hpc;
        cbn [negb] in H.
      2:{ left. apply (f_equal fst) in H. cbn [fst] in H.
          injection H as <- _. reflexivity. }
      pose proof (f_equal snd H) as Hrest. cbn [snd] in Hrest.
      apply (f_equal fst) in H. cbn [fst] in H.
      destruct (interpret_result context env w1 w' a H) as [Ha|Ha];
        [left; exact Ha|right].
      destruct (interpret_keeps context env w1 w' a H)
        as (evs & Hte & Hc & Hs & _).
      subst a. split; [reflexivity|]. split; [reflexivity|].
      split; [apply Z.eqb_eq; exact Herr|].
      split; [apply Z.eqb_neq; exact Hin|].
      exists w1, rest, evs.
      split; [reflexivity|].
      split.
      { unfold parsing_complete in Hpc.
        destruct (parser_state (wsi w1)); (reflexivity || discriminate Hpc). }
      split; [exact Ht|]. split; [exact H|].
      split; [symmetry; exact Hrest|].
      rewrite <- Ht. repeat split; assumption.
    + left. apply (f_equal fst) in H. cbn [fst] in H.
      injection H as <- _. exact Hr.
    + left. apply (f_equal fst) in H. cbn [fst] in H.
      rewrite service_bail3_spec in H. injection H as <- _. reflexivity.
    + discriminate H.
Qed.

Lemma service_returns_one_witness :
  1 = 0
  \/ (1 = 1
      /\ mode (wsi (awaiting_reply (Some "chat"%string)))
         = LWS_CONNMODE_WS_CLIENT_WAITING_SERVER_REPLY
      /\ Z.land POLLIN (Z.lor POLLERR POLLHUP) = 0
      /\ Z.land POLLIN POLLIN <> 0
      /\ exists w1 rest evs,
           read_server_reply all_allocations_succeed lenient (naming "nope")
             Dry_zero short_reply NUL (awaiting_reply (Some "chat"%string))
           = (Ok Loop_finished w1, rest)
           /\ parser_state (wsi w1) = WSI_PARSING_COMPLETE
           /\ trace w1 = trace (awaiting_reply (Some "chat"%string))
           /\ lws_client_interpret_server_handshake chat_context
                all_allocations_succeed w1
              = Ok 1
                  (world_of
                     (fst (lws_client_socket_service chat_context
                             all_allocations_succeed lenient (naming "nope")
                             POLLIN NUL
                             {| inbound := short_reply; dry := Dry_zero |}
                             (awaiting_reply (Some "chat"%string)))))
           /\ {| inbound := []; dry := Dry_zero |}
              = with_inbound rest {| inbound := short_reply; dry := Dry_zero |}
           /\ trace (world_of
                       (fst (lws_client_socket_service chat_context
                               all_allocations_succeed lenient (naming "nope")
                               POLLIN NUL
                               {| inbound := short_reply; dry := Dry_zero |}
                               (awaiting_reply (Some "chat"%string)))))
              = trace (awaiting_reply (Some "chat"%string)) ++ evs
           /\ closes evs = [LWS_CLOSE_STATUS_PROTOCOL_ERR]
           /\ sends evs = []).
Proof.
  apply (service_returns_one chat_context all_allocations_succeed lenient
           (naming "nope") POLLIN NUL
           {| inbound := short_reply; dry := Dry_zero |}
           {| inbound := []; dry := Dry_zero |}
           (awaiting_reply (Some "chat"%string))).
  vm_compute. reflexivity.
Defined.

(** The refused reply of that run: the parser has seen the whole
    response, the server names a protocol that was not offered, and the
    interpreter logs it. *)
Example refused_reply_sample :
  value_of (fst (lws_client_socket_service chat_context
                   all_allocations_succeed lenient (naming "nope") POLLIN NUL
                   {| inbound := short_reply; dry := Dry_zero |}
                   (awaiting_reply (Some "chat"%string)))) = Some 1
  /\ logs (trace (world_of
                    (fst (lws_client_socket_service chat_context
                            all_allocations_succeed lenient (naming "nope")
                            POLLIN NUL
                            {| inbound := short_reply; dry := Dry_zero |}
                            (awaiting_reply (Some "chat"%string))))))
     = [LOG_BAD_PROTOCOL].
Proof. vm_compute. split; reflexivity. Qed.

(** ** From the request to the established connection *)

(** The rules of the validation read the header slots, the expected
    accept value and the offered protocols, and nothing else. *)
Lemma validation_fields (context : libwebsocket_context)
  (s1 s2 : libwebsocket) :
  hdrs s1 = hdrs s2 ->
  initial_handshake_hash_base64 s1 = initial_handshake_hash_base64 s2 ->
  c_protocol s1 = c_protocol s2 ->
  headers_present s1 = headers_present s2
  /\ unambiguous_offer s1 = unambiguous_offer s2
  /\ first_violation context s1 = first_violation context s2.
Proof.
  intros Hh Hi Hc.
  unfold headers_present, unambiguous_offer, first_violation,
    status_begins_101, header_is, protocol_was_offered, protocol_in_registry,
    extensions_registered, accept_matches, server_protocol, server_extensions.
  rewrite Hh, Hi, Hc. repeat split.
Qed.

(** The connection after the request is sent. *)
Lemma issue_handshake_connection (context : libwebsocket_context)
  (env : environment) (cb : user_callback) (w w0 : world) :
  tls_connect context env w = Ok true w0 ->
  List.length (random env) = 16%nat ->
  callback (protocol_at context 0) = Some cb ->
  (forall pkt, 0 <= send_result env pkt) ->
  exists pkt w' evs,
    issue_handshake context env w = Ok 0 w'
    /\ wsi w'
       = set_mode LWS_CONNMODE_WS_CLIENT_WAITING_SERVER_REPLY
           (set_hdr WSI_TOKEN_NAME_PART 0 (hdrs (wsi w0))
              (expected_accept (Base64.lws_b64_encode_string (random env)))
              (parser_input (wsi w0)) (wsi w0))
    /\ trace w' = trace w0 ++ evs
    /\ sends evs = [pkt]
    /\ closes evs = [].
Proof.
  intros Htls Hlen Hcb Hsend.
  destruct (generate_outcome context env cb w0 Hlen Hcb)
    as (pkt & w1 & evs & E & Hw & _ & _ & Ht & Hc & Hs & _).
  exists pkt.
  unfold issue_handshake. rewrite (bind_eq_Ok _ _ _ _ _ Htls). cbn [negb].
  rewrite (bind_eq_Ok _ _ _ _ _ E).
  cbv beta iota zeta delta [bind emit ret update libwebsocket_set_timeout].
  replace (send_result env pkt <? 0) with false
    by (symmetry; apply Z.ltb_ge; apply Hsend).
  eexists.
  exists (evs ++ [EvSend pkt (send_result env pkt);
                  EvTimeout PENDING_TIMEOUT_AWAITING_SERVER_RESPONSE
                    (AWAITING_TIMEOUT (constants context))]).
  split; [reflexivity|].
  cbn [wsi with_wsi with_event with_service_buffer trace].
  split; [rewrite Hw; reflexivity|].
  split; [rewrite Ht, <- !app_assoc; reflexivity|].
  rewrite sends_app, closes_app, Hs, Hc. split; reflexivity.
Qed.

(** X28.  Two service calls make a connection: in a build without TLS, from
    ISSUE_HANDSHAKE, the first call sends the request and waits; when
    the reply then arrives whole, carries the four headers, names a
    sub-protocol only if it is the first one offered, and breaks none
    of the rules against the accept value the generator stored, the
    second call returns 0 with the connection an established client.
    Over both calls one packet was sent, the session was never closed,
    and the bytes after the reply are still in the socket. *)
Theorem handshake_establishes (context : libwebsocket_context)
  (env : environment) (header_error : bytes -> bool)
  (header_tokens : bytes -> token_index -> option string)
  (cb : user_callback) (revents0 revents : Z) (c0 c : ascii)
  (t0 : transport) (d : dry_read) (w : world) (response trailing : bytes) :
  mode (wsi w) = LWS_CONNMODE_WS_CLIENT_ISSUE_HANDSHAKE ->
  openssl_support env = false ->
  List.length (random env) = 16%nat ->
  callback (protocol_at context 0) = Some cb ->
  (forall k, malloc_ok env k = true) ->
  (forall pkt, 0 <= send_result env pkt) ->
  parser_input (wsi w) = [] ->
  Z.land revents (Z.lor POLLERR POLLHUP) = 0 ->
  Z.land revents POLLIN <> 0 ->
  ends_response header_error [] response = true ->
  headers_present
    (set_hdr WSI_PARSING_COMPLETE 0 (header_tokens response)
       (expected_accept (Base64.lws_b64_encode_string (random env)))
       response (wsi w)) = true ->
  unambiguous_offer
    (set_hdr WSI_PARSING_COMPLETE 0 (header_tokens response)
       (expected_accept (Base64.lws_b64_encode_string (random env)))
       response (wsi w)) = true ->
  first_violation context
    (set_hdr WSI_PARSING_COMPLETE 0 (header_tokens response)
       (expected_accept (Base64.lws_b64_encode_string (random env)))
       response (wsi w)) = None ->
  exists w1 w2 evs pkt,
    lws_client_socket_service context env header_error header_tokens
      revents0 c0 t0 w = (Ok 0 w1, t0)
    /\ lws_client_socket_service context env header_error header_tokens
         revents c {| inbound := response ++ trailing; dry := d |} w1
       = (Ok 0 w2, {| inbound := trailing; dry := d |})
    /\ mode (wsi w2) = LWS_CONNMODE_WS_CLIENT
    /\ state (wsi w2) = WSI_STATE_ESTABLISHED
    /\ trace w2 = trace w ++ evs
    /\ sends evs = [pkt]
    /\ closes evs = [].
Proof.
  intros Hmode Hssl Hlen Hcb Hmalloc Hsend Hinput Hdead Hin Hresp
    Hpresent Hoffer Hrules.
  assert (Htls : tls_connect context env w = Ok true w)
    by (unfold tls_connect; rewrite Hssl; reflexivity).
  destruct (issue_handshake_connection context env cb w w Htls Hlen Hcb Hsend)
    as (pkt & w1 & evs1 & E1 & Hw1 & Ht1 & Hs1 & Hc1).
  set (wc := completed header_tokens response w1).
  assert (Hfields :
    hdrs (wsi wc) = header_tokens response
    /\ initial_handshake_hash_base64 (wsi wc)
       = expected_accept (Base64.lws_b64_encode_string (random env))
    /\ c_protocol (wsi wc) = c_protocol (wsi w)).
  { unfold wc, completed. cbn [wsi with_wsi hdrs set_hdr c_protocol
      initial_handshake_hash_base64]. rewrite Hw1.
    cbn [parser_input set_mode set_hdr initial_handshake_hash_base64
           c_protocol]. rewrite Hinput. repeat split. }
  destruct Hfields as (Hh & Hi & Hcp).
  destruct (validation_fields context (wsi wc)
              (set_hdr WSI_PARSING_COMPLETE 0 (header_tokens response)
                 (expected_accept (Base64.lws_b64_encode_string (random env)))
                 response (wsi w)))
    as (Vp & Vo & Vr); [exact Hh|exact Hi|exact Hcp|].
  rewrite <- Vp in Hpresent. rewrite <- Vo in Hoffer. rewrite <- Vr in Hrules.
  destruct (interpret_decides context env wc Hpresent Hoffer Hmalloc)
    as (w2 & evs2 & Ht2 & E2 & _); [congruence|].
  rewrite Hrules in E2.
  destruct (interpret_accepted context env wc w2 E2)
    as (vh & vu & vc & n & b & evs & _ & _ & _ & _ & _ & _ & _ & _ & _ & _ & _
        & _ & _ & Hm2 & Hst2 & _).
  destruct (interpret_keeps context env wc w2 0 E2)
    as (evs' & Ht' & Hc' & Hs' & _).
  exists w1, w2, (evs1 ++ evs'), pkt.
  split.
  { unfold lws_client_socket_service. rewrite Hmode, E1. reflexivity. }
  split.
  { unfold lws_client_socket_service.
    replace (mode (wsi w1)) with LWS_CONNMODE_WS_CLIENT_WAITING_SERVER_REPLY
      by (rewrite Hw1; reflexivity).
    unfold waiting_server_reply. rewrite Hdead. cbn [Z.eqb negb].
    apply Z.eqb_neq in Hin. rewrite Hin. cbn [inbound dry].
    rewrite (read_server_reply_completes env header_error header_tokens
               d trailing response c w1).
    - fold wc. rewrite E2. reflexivity.
    - rewrite Hw1. reflexivity.
    - rewrite Hw1. cbn [parser_input set_mode set_hdr]. rewrite Hinput.
      exact Hresp. }
  split; [exact Hm2|]. split; [exact Hst2|].
  split.
  { rewrite Ht'. unfold wc, completed. cbn [trace with_wsi].
    rewrite Ht1, <- app_assoc. reflexivity. }
  rewrite sends_app, closes_app, Hs1, Hs', Hc1, Hc'. split; reflexivity.
Qed.

Lemma handshake_establishes_witness :
  exists w1 w2 evs pkt,
    lws_client_socket_service chat_context
      (sample_environment (bytes_of_string "the sample nonce") None)
      lenient good_tokens POLLOUT NUL silent (tls_client 0)
    = (Ok 0 w1, silent)
    /\ lws_client_socket_service chat_context
         (sample_environment (bytes_of_string "the sample nonce") None)
         lenient good_tokens POLLIN NUL
         {| inbound := short_reply ++ hello_frame; dry := Dry_zero |} w1
       = (Ok 0 w2, {| inbound := hello_frame; dry := Dry_zero |})
    /\ mode (wsi w2) = LWS_CONNMODE_WS_CLIENT
    /\ state (wsi w2) = WSI_STATE_ESTABLISHED
    /\ trace w2 = trace (tls_client 0) ++ evs
    /\ sends evs = [pkt]
    /\ closes evs = [].
Proof.
  apply (handshake_establishes chat_context
           (sample_environment (bytes_of_string "the sample nonce") None)
           lenient good_tokens unhandled POLLOUT POLLIN NUL NUL silent
           Dry_zero (tls_client 0) short_reply hello_frame).
  - reflexivity.
  - reflexivity.
  - reflexivity.
  - reflexivity.
  - intros k. reflexivity.
  - intros pkt. simpl. lia.
  - reflexivity.
  - reflexivity.
  - discriminate.
  - vm_compute. reflexivity.
  - vm_compute. reflexivity.
  - vm_compute. reflexivity.
  - vm_compute. reflexivity.
Defined.
